(** * Clinical-note localizer and FHIR request executor

    A shallow embedding of [localize-document.ts] (both variants present in
    the repository), of [fhir-request.ts] (both variants), of the generator
    of the large note and of the request listener of [setup.ts], together
    with the parts of the JavaScript runtime they rely on: [String.prototype.replace]
    with a global literal pattern, [split], [includes], [trim], [JSON.parse],
    [JSON.stringify(_, null, 2)] and [Buffer.toString('base64')].

    Conventions.
    - A JavaScript string is modelled by the bytes of its UTF-8 encoding
      (Rocq's [string]).  All patterns the code matches are ASCII, and UTF-8
      is self-synchronising, so matching on bytes and on code units agree for
      well-formed text; [Buffer.from(text, 'utf-8')] is then the identity.
    - A JSON number is kept as its lexeme: IEEE-754 rounding is not modelled.
    - A parsed JSON object is an insertion-ordered association list with
      unique keys, a later duplicate overwriting in place (the reordering of
      integer-like keys done by JavaScript engines is not modelled).
      [JSON.printed_as_read] singles out the values for which neither
      matters to the text that [JSON.stringify] prints.
    - An uncaught exception is a value of type [error]; file-system and
      process effects are recorded in an explicit event trace.
    - What the outside decides is a field of the world: whether [fetch]
      answers or rejects, and with what; whether a write or [mkdirSync]
      throws, and what; which files a generator script writes when it is
      imported; what the iteration over the response headers yields. *)

From Stdlib Require Import String Ascii List ZArith Lia Bool.
From Stdlib Require Import DecimalString DecimalFacts DecimalNat DecimalPos DecimalN.
From stdpp Require Import base option list strings gmap.

Local Open Scope string_scope.
Local Open Scope nat_scope.
Local Open Scope list_scope.

#[local] Arguments String.append !s1 s2 : simpl nomatch.

(** ** Strings *)

Module Str.

Definition code (c : ascii) : nat := nat_of_ascii c.

Definition snoc (s : string) (c : ascii) : string := s +:+ String c "".

(** The double quote, and a string that consists of it. *)
Definition dq : ascii := Eval cbv in ascii_of_nat 34.
Definition dqs : string := String dq "".

(** Texts that contain double quotes are written with apostrophes in this
    file: [q] puts the double quotes in. *)
Fixpoint q (s : string) : string :=
  match s with
  | "" => ""
  | String c s' => String (if Ascii.eqb c "'" then dq else c) (q s')
  end.

Fixpoint prefixb (p s : string) : bool :=
  match p with
  | "" => true
  | String a p' =>
      match s with
      | "" => false
      | String b s' => Ascii.eqb a b && prefixb p' s'
      end
  end.

(** [s.includes(p)] *)
Fixpoint includes (p s : string) : bool :=
  prefixb p s ||
  match s with
  | "" => false
  | String _ s' => includes p s'
  end.

(** [s.endsWith(p)] *)
Definition endsWith (p s : string) : bool :=
  prefixb (String.rev p) (String.rev s).

Fixpoint drop (n : nat) (s : string) : string :=
  match n with
  | 0 => s
  | S n' => match s with "" => "" | String _ s' => drop n' s' end
  end.

Fixpoint all (f : ascii -> bool) (s : string) : bool :=
  match s with
  | "" => true
  | String c s' => f c && all f s'
  end.

(** [s.split(c)] for a one-character separator: never returns an empty
    array; an empty piece is produced between adjacent separators and at
    either end. *)
Fixpoint split_go (sep : ascii) (cur : string) (s : string) : list string :=
  match s with
  | "" => [cur]
  | String c s' =>
      if Ascii.eqb c sep then cur :: split_go sep "" s'
      else split_go sep (snoc cur c) s'
  end.

Definition split (sep : ascii) (s : string) : list string := split_go sep "" s.

(** [parts.join(sep)] *)
Fixpoint join (sep : string) (l : list string) : string :=
  match l with
  | [] => ""
  | [x] => x
  | x :: l' => x +:+ sep +:+ join sep l'
  end.

(** The expansion of a replacement string, as [String.prototype.replace]
    performs it for a pattern without capture groups: [$$] is a dollar sign,
    [$&] the matched text, [$`] the text before the match and [$'] the text
    after it; every other character, a lone [$] and [$1] included, stands for
    itself. *)
Fixpoint expand (repl matched before after : string) : string :=
  match repl with
  | "" => ""
  | String c r =>
      if Ascii.eqb c "$" then
        match r with
        | String d r' =>
            if Ascii.eqb d "$" then String "$" (expand r' matched before after)
            else if Ascii.eqb d "&" then matched +:+ expand r' matched before after
            else if Ascii.eqb d "`" then before +:+ expand r' matched before after
            else if Ascii.eqb d "'" then after +:+ expand r' matched before after
            else String c (expand r matched before after)
        | "" => String c ""
        end
      else String c (expand r matched before after)
  end.

(** [s.replace(/pat/g, repl)] for a literal, non-empty pattern: matches are
    found left to right and do not overlap.  [before] is the text already
    scanned and [skip] the number of characters of a match still to be
    passed over. *)
Fixpoint replace_go (pat repl : string) (before : string) (skip : nat) (s : string)
  : string :=
  match s with
  | "" => ""
  | String c s' =>
      match skip with
      | S k => replace_go pat repl (snoc before c) k s'
      | 0 =>
          if prefixb pat s then
            expand repl pat before (drop (String.length pat) s)
              +:+ replace_go pat repl (snoc before c) (String.length pat - 1) s'
          else String c (replace_go pat repl (snoc before c) 0 s')
      end
  end.

Definition replaceAll (pat repl s : string) : string := replace_go pat repl "" 0 s.

(** [s.replace(p, repl)] for a string pattern: the first occurrence only. *)
Fixpoint replaceFirst_go (pat repl : string) (before : string) (s : string) : string :=
  if prefixb pat s then
    expand repl pat before (drop (String.length pat) s) +:+ drop (String.length pat) s
  else
    match s with
    | "" => ""
    | String c s' => String c (replaceFirst_go pat repl (snoc before c) s')
    end.

Definition replaceFirst (pat repl s : string) : string := replaceFirst_go pat repl "" s.

End Str.


(** ** JSON values, [JSON.parse] and [JSON.stringify] *)

#[warnings="-register-all"]
Inductive json :=
| JNull
| JBool (b : bool)
| JNum (lit : string)
| JStr (s : string)
| JArr (items : list json)
| JObj (fields : list (string * json)).

Module JSON.

Import Str.

Definition nl : string := String (ascii_of_nat 10) "".

(** Property lookup and assignment on an object's own properties. *)
Fixpoint obj_get (o : list (string * json)) (k : string) : option json :=
  match o with
  | [] => None
  | (k', v) :: o' => if String.eqb k' k then Some v else obj_get o' k
  end.

Fixpoint obj_set (o : list (string * json)) (k : string) (v : json)
  : list (string * json) :=
  match o with
  | [] => [(k, v)]
  | (k', v') :: o' =>
      if String.eqb k' k then (k, v) :: o' else (k', v') :: obj_set o' k v
  end.

Fixpoint obj_delete (o : list (string * json)) (k : string) : list (string * json) :=
  match o with
  | [] => []
  | (k', v) :: o' =>
      if String.eqb k' k then obj_delete o' k else (k', v) :: obj_delete o' k
  end.

(** *** The parser, one character at a time *)

Inductive frame :=
| FArr (done : list json)
| FObjKey (done : list (string * json))
| FObjVal (done : list (string * json)) (k : string).

Inductive nstate := NMinus | NZero | NInt | NDot | NFrac | NE | NESign | NExp.

Inductive mode :=
| MValue
| MFirst
| MKeyFirst
| MKeyNext
| MColon
| MStr (acc : string)
| MEsc (acc : string)
| MHex (acc : string) (n : nat) (u : N)
| MNum (st : nstate) (acc : string)
| MLit (rest : string) (v : json)
| MAfter (v : json).

Definition pstate : Type := mode * list frame.

Definition is_ws (c : ascii) : bool :=
  let n := code c in (n =? 32) || (n =? 9) || (n =? 10) || (n =? 13).

Definition is_digit (c : ascii) : bool := (48 <=? code c) && (code c <=? 57).
Definition is_digit19 (c : ascii) : bool := (49 <=? code c) && (code c <=? 57).
Definition is_e (c : ascii) : bool := Ascii.eqb c "e" || Ascii.eqb c "E".
Definition is_sign (c : ascii) : bool := Ascii.eqb c "+" || Ascii.eqb c "-".

Definition hexval (c : ascii) : option N :=
  let n := code c in
  if (48 <=? n) && (n <=? 57) then Some (N.of_nat (n - 48))
  else if (97 <=? n) && (n <=? 102) then Some (N.of_nat (n - 87))
  else if (65 <=? n) && (n <=? 70) then Some (N.of_nat (n - 55))
  else None.

(** The UTF-8 bytes of a code unit given by a [\uXXXX] escape. *)
Definition utf8 (u : N) : string :=
  if (u <? 128)%N then String (ascii_of_N u) ""
  else if (u <? 2048)%N then
    String (ascii_of_N (192 + u / 64)) (String (ascii_of_N (128 + u mod 64)) "")
  else
    String (ascii_of_N (224 + u / 4096))
      (String (ascii_of_N (128 + (u / 64) mod 64))
         (String (ascii_of_N (128 + u mod 64)) "")).

Definition num_accepting (st : nstate) : bool :=
  match st with
  | NZero | NInt | NFrac | NExp => true
  | _ => false
  end.

Definition num_step (st : nstate) (c : ascii) : option nstate :=
  match st with
  | NMinus => if Ascii.eqb c "0" then Some NZero
              else if is_digit19 c then Some NInt else None
  | NZero => if Ascii.eqb c "." then Some NDot
             else if is_e c then Some NE else None
  | NInt => if is_digit c then Some NInt
            else if Ascii.eqb c "." then Some NDot
            else if is_e c then Some NE else None
  | NDot => if is_digit c then Some NFrac else None
  | NFrac => if is_digit c then Some NFrac
             else if is_e c then Some NE else None
  | NE => if is_sign c then Some NESign
          else if is_digit c then Some NExp else None
  | NESign => if is_digit c then Some NExp else None
  | NExp => if is_digit c then Some NExp else None
  end.

(** A complete value [v] has been read: what the next character does. *)
Definition step_after (v : json) (stk : list frame) (c : ascii) : option pstate :=
  if is_ws c then Some (MAfter v, stk)
  else if Ascii.eqb c "," then
    match stk with
    | FArr done :: stk' => Some (MValue, FArr (done ++ [v]) :: stk')
    | FObjVal done k :: stk' => Some (MKeyNext, FObjKey (obj_set done k v) :: stk')
    | _ => None
    end
  else if Ascii.eqb c "]" then
    match stk with
    | FArr done :: stk' => Some (MAfter (JArr (done ++ [v])), stk')
    | _ => None
    end
  else if Ascii.eqb c "}" then
    match stk with
    | FObjVal done k :: stk' => Some (MAfter (JObj (obj_set done k v)), stk')
    | _ => None
    end
  else None.

(** The first character of a value. *)
Definition step_value (stk : list frame) (c : ascii) : option pstate :=
  if Ascii.eqb c dq then Some (MStr "", stk)
  else if Ascii.eqb c "[" then Some (MFirst, FArr [] :: stk)
  else if Ascii.eqb c "{" then Some (MKeyFirst, FObjKey [] :: stk)
  else if Ascii.eqb c "-" then Some (MNum NMinus "-", stk)
  else if Ascii.eqb c "0" then Some (MNum NZero "0", stk)
  else if is_digit19 c then Some (MNum NInt (String c ""), stk)
  else if Ascii.eqb c "t" then Some (MLit "rue" (JBool true), stk)
  else if Ascii.eqb c "f" then Some (MLit "alse" (JBool false), stk)
  else if Ascii.eqb c "n" then Some (MLit "ull" JNull, stk)
  else None.

(** The closing quote of a string: a key when an object awaits one. *)
Definition end_string (acc : string) (stk : list frame) : pstate :=
  match stk with
  | FObjKey done :: stk' => (MColon, FObjVal done acc :: stk')
  | _ => (MAfter (JStr acc), stk)
  end.

Definition step_escape (acc : string) (c : ascii) : option mode :=
  if Ascii.eqb c dq then Some (MStr (snoc acc dq))
  else if Ascii.eqb c "\" then Some (MStr (snoc acc "\"))
  else if Ascii.eqb c "/" then Some (MStr (snoc acc "/"))
  else if Ascii.eqb c "b" then Some (MStr (snoc acc (ascii_of_nat 8)))
  else if Ascii.eqb c "f" then Some (MStr (snoc acc (ascii_of_nat 12)))
  else if Ascii.eqb c "n" then Some (MStr (snoc acc (ascii_of_nat 10)))
  else if Ascii.eqb c "r" then Some (MStr (snoc acc (ascii_of_nat 13)))
  else if Ascii.eqb c "t" then Some (MStr (snoc acc (ascii_of_nat 9)))
  else if Ascii.eqb c "u" then Some (MHex acc 0 0%N)
  else None.

Definition step (st : pstate) (c : ascii) : option pstate :=
  let '(m, stk) := st in
  match m with
  | MValue => if is_ws c then Some (MValue, stk) else step_value stk c
  | MFirst =>
      if is_ws c then Some (MFirst, stk)
      else if Ascii.eqb c "]" then
        match stk with
        | FArr _ :: stk' => Some (MAfter (JArr []), stk')
        | _ => None
        end
      else step_value stk c
  | MKeyFirst =>
      if is_ws c then Some (MKeyFirst, stk)
      else if Ascii.eqb c "}" then
        match stk with
        | FObjKey _ :: stk' => Some (MAfter (JObj []), stk')
        | _ => None
        end
      else if Ascii.eqb c dq then Some (MStr "", stk)
      else None
  | MKeyNext =>
      if is_ws c then Some (MKeyNext, stk)
      else if Ascii.eqb c dq then Some (MStr "", stk)
      else None
  | MColon =>
      if is_ws c then Some (MColon, stk)
      else if Ascii.eqb c ":" then Some (MValue, stk)
      else None
  | MStr acc =>
      if Ascii.eqb c dq then Some (end_string acc stk)
      else if Ascii.eqb c "\" then Some (MEsc acc, stk)
      else if code c <? 32 then None
      else Some (MStr (snoc acc c), stk)
  | MEsc acc =>
      match step_escape acc c with
      | Some m' => Some (m', stk)
      | None => None
      end
  | MHex acc n u =>
      match hexval c with
      | Some d =>
          let u' := (u * 16 + d)%N in
          if n =? 3 then Some (MStr (acc +:+ utf8 u'), stk)
          else Some (MHex acc (S n) u', stk)
      | None => None
      end
  | MNum nst acc =>
      match num_step nst c with
      | Some nst' => Some (MNum nst' (snoc acc c), stk)
      | None => if num_accepting nst then step_after (JNum acc) stk c else None
      end
  | MLit rest v =>
      match rest with
      | String c' rest' =>
          if Ascii.eqb c c' then
            match rest' with
            | "" => Some (MAfter v, stk)
            | _ => Some (MLit rest' v, stk)
            end
          else None
      | "" => None
      end
  | MAfter v => step_after v stk c
  end.

Fixpoint run (st : pstate) (s : string) : option pstate :=
  match s with
  | "" => Some st
  | String c s' =>
      match step st c with
      | Some st' => run st' s'
      | None => None
      end
  end.

(** The end of the input. *)
Definition finish (st : pstate) : option json :=
  match st with
  | (MAfter v, []) => Some v
  | (MNum nst acc, []) => if num_accepting nst then Some (JNum acc) else None
  | _ => None
  end.

(** [JSON.parse(text)]; [None] stands for the [SyntaxError] it throws. *)
Definition parse (text : string) : option json :=
  match run (MValue, []) text with
  | Some st => finish st
  | None => None
  end.

(** *** The printer *)

Definition hexdigit (n : nat) : ascii :=
  if n <? 10 then ascii_of_nat (48 + n) else ascii_of_nat (87 + n).

Definition escape_char (c : ascii) : string :=
  let n := code c in
  if Ascii.eqb c dq then "\" +:+ dqs
  else if Ascii.eqb c "\" then "\\"
  else if n =? 8 then "\b"
  else if n =? 9 then "\t"
  else if n =? 10 then "\n"
  else if n =? 12 then "\f"
  else if n =? 13 then "\r"
  else if n <? 32 then
    "\u00" +:+ String (hexdigit (n / 16)) (String (hexdigit (n mod 16)) "")
  else String c "".

Fixpoint escape (s : string) : string :=
  match s with
  | "" => ""
  | String c s' => escape_char c +:+ escape s'
  end.

Definition quote (s : string) : string := dqs +:+ escape s +:+ dqs.

(** [JSON.stringify(v, null, 2)] at indentation [ind]. *)
Fixpoint stringify_at (ind : string) (v : json) : string :=
  let ind' := ind +:+ "  " in
  match v with
  | JNull => "null"
  | JBool true => "true"
  | JBool false => "false"
  | JNum lit => lit
  | JStr s => quote s
  | JArr [] => "[]"
  | JArr (x :: xs) =>
      "[" +:+ nl +:+ ind' +:+ stringify_at ind' x
      +:+ (fix rest (l : list json) : string :=
             match l with
             | [] => ""
             | y :: l' => "," +:+ nl +:+ ind' +:+ stringify_at ind' y +:+ rest l'
             end) xs
      +:+ nl +:+ ind +:+ "]"
  | JObj [] => "{}"
  | JObj ((k, x) :: xs) =>
      "{" +:+ nl +:+ ind' +:+ quote k +:+ ": " +:+ stringify_at ind' x
      +:+ (fix rest (l : list (string * json)) : string :=
             match l with
             | [] => ""
             | (k', y) :: l' =>
                 "," +:+ nl +:+ ind' +:+ quote k' +:+ ": " +:+ stringify_at ind' y
                 +:+ rest l'
             end) xs
      +:+ nl +:+ ind +:+ "}"
  end.

Definition stringify (v : json) : string := stringify_at "" v.

(** *** Values that are printed as they were read

    [stringify_at] prints the lexeme of a number and keeps the fields of an
    object in the order in which they were read.  JavaScript does the same
    for the values singled out here; for others it prints a number in its
    shortest form ([1.0] as [1], [1e2] as [100]) and moves the properties
    whose name is an array index to the front.  What is proved about the
    exact text of a printed value read from outside is proved for these. *)

(** The digits before the decimal point, and those after it. *)
Fixpoint at_point (s : string) : string * string :=
  match s with
  | "" => ("", "")
  | String c s' =>
      if Ascii.eqb c "." then ("", s')
      else let '(i, f) := at_point s' in (String c i, f)
  end.

Fixpoint last_char (s : string) : option ascii :=
  match s with
  | "" => None
  | String c "" => Some c
  | String _ s' => last_char s'
  end.

(** A decimal without sign and exponent that [Number.prototype.toString]
    gives back: no leading zero, no trailing zero in the fraction, at most 15
    digits, and not below [0.000001]. *)
Definition plain_decimal (s : string) : bool :=
  let '(i, f) := at_point s in
  all is_digit i && all is_digit f
  && negb (String.eqb i "")
  && (String.length i + String.length f <=? 15)
  && (if prefixb "0" i then String.eqb i "0" else true)
  && (if includes "." s
      then match last_char f with
           | Some c => negb (Ascii.eqb c "0")
           | None => false
           end
      else true)
  && negb (String.eqb i "0" && prefixb "000000" f).

Definition plain_number (lit : string) : bool :=
  match lit with
  | String c s =>
      if Ascii.eqb c "-" then plain_decimal s && negb (String.eqb s "0")
      else plain_decimal lit
  | "" => false
  end.

(** A property name that is a canonical numeric string. *)
Definition index_key (k : string) : bool :=
  negb (String.eqb k "") && all is_digit k
  && (if prefixb "0" k then String.eqb k "0" else true).

Fixpoint printed_as_read (v : json) : bool :=
  match v with
  | JNull | JBool _ | JStr _ => true
  | JNum lit => plain_number lit
  | JArr items => forallb printed_as_read items
  | JObj fields =>
      forallb (fun kv => negb (index_key (fst kv)) && printed_as_read (snd kv)) fields
  end.

End JSON.

(** ** JavaScript values as the code uses them *)

Module JS.

Import Str.

(** A value read from a property: [None] is [undefined]. *)
Definition value : Type := option json.

(** [v.k] on a non-null value: own properties of objects only. *)
Definition get (v : json) (k : string) : value :=
  match v with
  | JObj o => JSON.obj_get o k
  | _ => None
  end.

(** A number lexeme denotes zero when its mantissa has no non-zero digit. *)
Fixpoint mantissa_zero (lit : string) : bool :=
  match lit with
  | "" => true
  | String c r =>
      if JSON.is_e c then true
      else if JSON.is_digit19 c then false
      else mantissa_zero r
  end.

Definition truthy_json (v : json) : bool :=
  match v with
  | JNull => false
  | JBool b => b
  | JNum lit => negb (mantissa_zero lit)
  | JStr s => negb (String.eqb s "")
  | JArr _ | JObj _ => true
  end.

Definition truthy (v : value) : bool :=
  match v with
  | Some j => truthy_json j
  | None => false
  end.

(** [v === s] for a string literal [s]. *)
Definition is_string (v : value) (s : string) : bool :=
  match v with
  | Some (JStr t) => String.eqb t s
  | _ => false
  end.

(** [`${v}`]: the string conversion of a template literal. *)
Fixpoint to_str_json (v : json) : string :=
  match v with
  | JNull => "null"
  | JBool true => "true"
  | JBool false => "false"
  | JNum lit => lit
  | JStr s => s
  | JArr items =>
      join ","
        ((fix each (l : list json) : list string :=
            match l with
            | [] => []
            | x :: l' =>
                match x with
                | JNull => ""
                | _ => to_str_json x
                end :: each l'
            end) items)
  | JObj _ => "[object Object]"
  end.

Definition to_str (v : value) : string :=
  match v with
  | Some j => to_str_json j
  | None => "undefined"
  end.

(** An optional string argument: absent and empty are both falsy. *)
Definition given (o : option string) : bool :=
  match o with
  | Some s => negb (String.eqb s "")
  | None => false
  end.

(** [o || d] for an optional string. *)
Definition or_default (o : option string) (d : string) : string :=
  match o with
  | Some s => if String.eqb s "" then d else s
  | None => d
  end.

Definition of_nat (n : nat) : string :=
  DecimalString.NilZero.string_of_uint (Nat.to_uint n).

Definition of_Z (z : Z) : string :=
  DecimalString.NilZero.string_of_int (Z.to_int z).

End JS.

(** Uncaught exceptions. *)
Inductive error :=
| Error (msg : string)
| TypeError (msg : string)
| SyntaxError (text : string)
| ENOENT (path : string).

Inductive result (A : Type) :=
| Ok (a : A)
| Throw (e : error).
Arguments Ok {A} a.
Arguments Throw {A} e.

Definition bind {A B : Type} (r : result A) (f : A -> result B) : result B :=
  match r with
  | Ok a => f a
  | Throw e => Throw e
  end.

Notation "'let*' x ':=' r 'in' k" := (bind r (fun x => k))
  (at level 10, x name, r at level 100, k at level 200).

Definition parse_or_throw (text : string) : result json :=
  match JSON.parse text with
  | Some v => Ok v
  | None => Throw (SyntaxError text)
  end.

(** ** The request executor ([execute] of [fhir-request.ts]) *)

Module Request.

Import Str.

(** [RequestSpec] *)
Record RequestSpec := {
  method : string;
  path : string;
  bodyFile : option string;
  headers : option (gmap string string);
  purpose : string;
  configName : option string;
  callerDir : option string
}.

(** An entry of the [.fhir-configs] directory: [d_content] is [None] for an
    entry that cannot be read as a file. *)
Record dirent := {
  d_name : string;
  d_content : option string;
  d_mtime : Z
}.

(** The response as the code reads it: [headerEntries] is what
    [response.headers.entries()] yields, in order (the names in lower case,
    the values of a repeated header joined, [set-cookie] apart), and [r_body]
    is [await response.text()]. *)
Record Response := {
  status : nat;
  statusText : string;
  headerEntries : list (string * string);
  r_body : string
}.

Record FetchRequest := {
  f_url : string;
  f_method : string;
  f_headers : gmap string string;
  f_body : option json
}.

(** The environment of one call.  A directory is the list of its
    components, innermost first, so that [dirname] is [tail] and the file
    system root is the empty list.  [w_fetch] is the response to a request,
    or what [fetch] throws; [w_write dir file] is what [writeFileSync] throws
    for the file [file] of the directory [dir], when it throws: [ENOENT] for
    a directory that does not exist, say. *)
Record World := {
  w_cwd : list string;
  w_configs : list string -> option (list dirent);
  w_file : string -> option string;
  w_fetch : FetchRequest -> result Response;
  w_write : string -> string -> option error;
  w_requestTime : Z;
  w_responseTime : Z;
  w_iso : Z -> string
}.

(** The effects of a call, in the order they happen, and how it ends. *)
Inductive event :=
| EFetch (req : FetchRequest)
| EWrite (dir file content : string).

Inductive outcome :=
| Returned
| Exited (code : nat)
| Threw (e : error).

Definition path_string (dir : list string) : string :=
  match dir with
  | [] => "/"
  | _ => "/" +:+ join "/" (rev dir)
  end.

(** The upward search for the directory that holds [.fhir-configs]. *)
Fixpoint findProjectRoot (w : World) (dir : list string) : result (list string) :=
  match w_configs w dir with
  | Some _ => Ok dir
  | None =>
      match dir with
      | [] => Throw (Error "Could not find .fhir-configs directory")
      | _ :: parent => findProjectRoot w parent
      end
  end.

Definition readdir (w : World) (root : list string) : list dirent :=
  match w_configs w root with
  | Some l => l
  | None => []
  end.

Definition configPath (root : list string) (file : string) : string :=
  path_string (".fhir-configs" :: root) +:+ "/" +:+ file.

Fixpoint find_entry (name : string) (l : list dirent) : option dirent :=
  match l with
  | [] => None
  | d :: l' => if String.eqb (d_name d) name then Some d else find_entry name l'
  end.

(** [JSON.parse(fs.readFileSync(configPath, 'utf-8'))] *)
Definition loadConfig (root : list string) (d : dirent) : result json :=
  match d_content d with
  | Some text => parse_or_throw text
  | None => Throw (ENOENT (configPath root (d_name d)))
  end.

Definition isJsonFile (d : dirent) : bool := endsWith ".json" (d_name d).

Definition noConfigsMessage : string :=
  "No FHIR configs found in .fhir-configs/" +:+ JSON.nl +:+
  "Run the setup script to create a configuration:" +:+ JSON.nl +:+
  "  bun .claude/skills/fhir-connectathon-notes/assets/config/setup.ts".

Definition configNames (files : list dirent) : string :=
  join ", " (map (fun d => replaceFirst ".json" "" (d_name d)) files).

Definition multipleConfigsMessage (files : list dirent) : string :=
  "Multiple FHIR configs found: " +:+ configNames files +:+ JSON.nl +:+
  "Please specify which config to use by adding configName to execute():"
  +:+ JSON.nl +:+ JSON.nl +:+
  "  await execute({" +:+ JSON.nl +:+
  "    ...," +:+ JSON.nl +:+
  "    configName: " +:+ dqs +:+ "your-config-name" +:+ dqs +:+ "," +:+ JSON.nl +:+
  "    ..." +:+ JSON.nl +:+
  "  });" +:+ JSON.nl.

(** Configuration selection of the variant that demands disambiguation. *)
Definition selectConfig (w : World) (root : list string) (spec : RequestSpec)
  : result json :=
  if JS.given (configName spec) then
    let file := JS.or_default (configName spec) "" +:+ ".json" in
    match find_entry file (readdir w root) with
    | None =>
        Throw (Error ("Config " +:+ dqs +:+ JS.or_default (configName spec) "" +:+
                      dqs +:+ " not found at " +:+ configPath root file))
    | Some d => loadConfig root d
    end
  else
    let configFiles := filter (fun d => isJsonFile d = true) (readdir w root) in
    match configFiles with
    | [] => Throw (Error noConfigsMessage)
    | [d] => loadConfig root d
    | _ => Throw (Error (multipleConfigsMessage configFiles))
    end.

(** [sort((a, b) => b.mtime.getTime() - a.mtime.getTime())]: a stable sort,
    most recently modified first. *)
Fixpoint insert_recent (d : dirent) (l : list dirent) : list dirent :=
  match l with
  | [] => [d]
  | e :: l' =>
      if (d_mtime e - d_mtime d <=? 0)%Z then d :: l else e :: insert_recent d l'
  end.

Definition sort_recent (l : list dirent) : list dirent := foldr insert_recent [] l.

(** Configuration selection of the variant kept under [assets/lib]. *)
Definition selectConfigRecent (w : World) (root : list string) (spec : RequestSpec)
  : result json :=
  if JS.given (configName spec) then
    let file := JS.or_default (configName spec) "" +:+ ".json" in
    match find_entry file (readdir w root) with
    | None => Throw (ENOENT (configPath root file))
    | Some d => loadConfig root d
    end
  else
    let configs := sort_recent (filter (fun d => isJsonFile d = true) (readdir w root)) in
    match configs with
    | [] => Throw (Error "No FHIR config found")
    | d :: _ => loadConfig root d
    end.

(** The headers of the request: the default [Accept], the caller's headers
    spread over it, then [Authorization] and [Content-Type]. *)
Definition baseHeaders (spec : RequestSpec) : gmap string string :=
  default ∅ (headers spec) ∪ {[ "Accept" := "application/fhir+json" ]}.

Definition withAuthorization (config : json) (h : gmap string string)
  : gmap string string :=
  if JS.truthy (JS.get config "accessToken")
     && negb (JS.is_string (JS.get config "mode") "open")
  then <[ "Authorization" := "Bearer " +:+ JS.to_str (JS.get config "accessToken") ]> h
  else h.

Definition bodyPath (root : list string) (file : string) : string :=
  if prefixb "/" file then file else path_string root +:+ "/" +:+ file.

(** The body file, when one is named: the parsed body and the header. *)
Definition loadBody (w : World) (root : list string) (spec : RequestSpec)
  (h : gmap string string) : result (option json * gmap string string) :=
  if JS.given (bodyFile spec) then
    match w_file w (bodyPath root (JS.or_default (bodyFile spec) "")) with
    | None => Throw (ENOENT (bodyPath root (JS.or_default (bodyFile spec) "")))
    | Some text =>
        let* body := parse_or_throw text in
        Ok (Some body, <[ "Content-Type" := "application/fhir+json" ]> h)
    end
  else Ok (None, h).

Definition buildHeaders (w : World) (root : list string) (config : json)
  (spec : RequestSpec) : result (option json * gmap string string) :=
  loadBody w root spec (withAuthorization config (baseHeaders spec)).

Definition fromEntries (l : list (string * string)) : list (string * json) :=
  fold_left (fun o kv => JSON.obj_set o (fst kv) (JStr (snd kv))) l [].

Definition responseMetadata (w : World) (r : Response) : json :=
  JObj [
    ("timestamp", JStr (w_iso w (w_responseTime w)));
    ("httpStatus", JNum (JS.of_nat (status r)));
    ("statusText", JStr (statusText r));
    ("headers", JObj (fromEntries (headerEntries r)));
    ("timing", JObj [
       ("requestSentAt", JStr (w_iso w (w_requestTime w)));
       ("responseReceivedAt", JStr (w_iso w (w_responseTime w)));
       ("durationMs", JNum (JS.of_Z (w_responseTime w - w_requestTime w)))
     ])
  ].

Definition outputDir (w : World) (spec : RequestSpec) : string :=
  JS.or_default (callerDir spec) (path_string (w_cwd w)).

(** What follows the response: the two files are written, one after the
    other, then the status decides between returning and [process.exit(1)].
    A write that throws ends the call there: nothing catches it. *)
Definition persist (w : World) (spec : RequestSpec) (r : Response)
  : list event * outcome :=
  let responseJson := JSON.parse (r_body r) in
  let responseExt := match responseJson with Some _ => "json" | None => "txt" end in
  let bodyText :=
    match responseJson with
    | Some v => if JS.truthy_json v then JSON.stringify v else r_body r
    | None => r_body r
    end in
  let metadata :=
    EWrite (outputDir w spec) "response-metadata.json"
      (JSON.stringify (responseMetadata w r)) in
  match w_write w (outputDir w spec) "response-metadata.json" with
  | Some e => ([], Threw e)
  | None =>
      match w_write w (outputDir w spec) ("response-body." +:+ responseExt) with
      | Some e => ([metadata], Threw e)
      | None =>
          ([metadata;
            EWrite (outputDir w spec) ("response-body." +:+ responseExt) bodyText],
           if 400 <=? status r then Exited 1 else Returned)
      end
  end.

(** The request that goes out: a body that is falsy is not sent. *)
Definition fetchRequest (config : json) (spec : RequestSpec) (body : option json)
  (h : gmap string string) : FetchRequest :=
  {| f_url := JS.to_str (JS.get config "fhirBaseUrl") +:+ path spec;
     f_method := method spec;
     f_headers := h;
     f_body := match body with
               | Some b => if JS.truthy_json b then Some b else None
               | None => None
               end |}.

(** Everything after the configuration has been chosen. *)
Definition send (w : World) (root : list string) (config : json)
  (spec : RequestSpec) : list event * outcome :=
  match config with
  | JNull => ([], Threw (TypeError "null is not an object (evaluating 'config.name')"))
  | _ =>
      match buildHeaders w root config spec with
      | Throw e => ([], Threw e)
      | Ok (body, h) =>
          let req := fetchRequest config spec body h in
          match w_fetch w req with
          | Throw e => ([EFetch req], Threw e)
          | Ok r =>
              let '(evs, res) := persist w spec r in (EFetch req :: evs, res)
          end
      end
  end.

(** [execute] of the variant that demands disambiguation. *)
Definition execute (w : World) (spec : RequestSpec) : list event * outcome :=
  match findProjectRoot w (w_cwd w) with
  | Throw e => ([], Threw e)
  | Ok root =>
      match selectConfig w root spec with
      | Throw e => ([], Threw e)
      | Ok config => send w root config spec
      end
  end.

(** [execute] of [assets/lib/fhir-request.ts]. *)
Definition executeRecent (w : World) (spec : RequestSpec) : list event * outcome :=
  match findProjectRoot w (w_cwd w) with
  | Throw e => ([], Threw e)
  | Ok root =>
      match selectConfigRecent w root spec with
      | Throw e => ([], Threw e)
      | Ok config => send w root config spec
      end
  end.

End Request.

(** ** Whitespace, name parsing and dates of the localizer *)

Module Text.

Import Str.

(** The length in bytes of a character of the class [\s] at the head of a
    UTF-8 string, or [0]: the ASCII blanks, U+00A0, U+1680, U+2000 to U+200A,
    U+2028, U+2029, U+202F, U+205F, U+3000 and U+FEFF. *)
Definition ws_len (s : string) : nat :=
  match s with
  | "" => 0
  | String a r =>
      let na := code a in
      if ((9 <=? na) && (na <=? 13)) || (na =? 32) then 1
      else match r with
           | "" => 0
           | String b r' =>
               let nb := code b in
               if (na =? 194) && (nb =? 160) then 2
               else match r' with
                    | "" => 0
                    | String c _ =>
                        let nc := code c in
                        if (na =? 225) && (nb =? 154) && (nc =? 128) then 3
                        else if (na =? 226) && (nb =? 128)
                                && (((128 <=? nc) && (nc <=? 138)) || (nc =? 168)
                                    || (nc =? 169) || (nc =? 175)) then 3
                        else if (na =? 226) && (nb =? 129) && (nc =? 159) then 3
                        else if (na =? 227) && (nb =? 128) && (nc =? 128) then 3
                        else if (na =? 239) && (nb =? 187) && (nc =? 191) then 3
                        else 0
                    end
           end
  end.

(** The string without its leading run of whitespace ([/^\s*/]). *)
Fixpoint skip_ws (fuel : nat) (s : string) : string :=
  match fuel with
  | 0 => s
  | S fuel' =>
      match ws_len s with
      | 0 => s
      | n => skip_ws fuel' (drop n s)
      end
  end.

Definition trimStart (s : string) : string := skip_ws (String.length s) s.

(** [s.trim() !== ''] *)
Definition nonblank (s : string) : bool := negb (String.eqb (trimStart s) "").

(** [s.replace(/^Dr\.\s*/, '')] *)
Definition stripDr (s : string) : string :=
  if prefixb "Dr." s then trimStart (drop 3 s) else s.

(** [s.substring(0, n)] *)
Fixpoint take (n : nat) (s : string) : string :=
  match n, s with
  | S n', String c s' => String c (take n' s')
  | _, _ => ""
  end.

(** [s.replace(/[-:]/g, '')] *)
Fixpoint dropDashColon (s : string) : string :=
  match s with
  | "" => ""
  | String c s' =>
      if Ascii.eqb c "-" || Ascii.eqb c ":" then dropDashColon s'
      else String c (dropDashColon s')
  end.

(** [l[0]] of the result of a [split], which is never empty. *)
Definition first (l : list string) : string := hd "" l.

(** [new Date()]: the two renderings the code asks for. *)
Record Date := {
  toISOString : string;
  toTimeString : string
}.

(** The patient's names: [[given = 'Test', family = 'Patient'] = name.split(' ')].
    A default applies to a missing element only, never to an empty one. *)
Definition patientNames (patientName : string) : string * string :=
  match split " " patientName with
  | given :: family :: _ => (given, family)
  | given :: [] => (given, "Patient")
  | [] => ("Test", "Patient")
  end.

(** The author's names and suffix. *)
Definition authorParts (authorDisplay : string) : list string :=
  split " " (stripDr authorDisplay).

Definition orElse (s d : string) : string := if String.eqb s "" then d else s.

Definition authorGiven (authorDisplay : string) : string :=
  orElse (first (authorParts authorDisplay)) "Example".

Definition authorFamily (authorDisplay : string) : string :=
  orElse (List.last (authorParts authorDisplay) "") "Provider".

Definition authorSuffix (authorDisplay : string) : string :=
  if includes "MD" authorDisplay then "MD" else "".

End Text.

(** ** [Buffer.toString('base64')] and its inverse *)

Module Base64.

Definition digit (n : N) : ascii :=
  if (n <? 26)%N then ascii_of_N (65 + n)
  else if (n <? 52)%N then ascii_of_N (71 + n)
  else if (n <? 62)%N then ascii_of_N (n - 4)
  else if (n =? 62)%N then "+"%char
  else "/"%char.

Definition value (c : ascii) : option N :=
  let n := N_of_ascii c in
  if ((65 <=? n) && (n <=? 90))%N then Some (n - 65)%N
  else if ((97 <=? n) && (n <=? 122))%N then Some (n - 71)%N
  else if ((48 <=? n) && (n <=? 57))%N then Some (n + 4)%N
  else if (n =? 43)%N then Some 62%N
  else if (n =? 47)%N then Some 63%N
  else None.

(** The bytes are taken three at a time; one or two left over are padded
    with [=]. *)
Fixpoint encode (s : string) : string :=
  match s with
  | "" => ""
  | String a "" =>
      let x := N_of_ascii a in
      String (digit (x / 4)) (String (digit (x mod 4 * 16)) "==")
  | String a (String b "") =>
      let x := N_of_ascii a in
      let y := N_of_ascii b in
      String (digit (x / 4))
        (String (digit (x mod 4 * 16 + y / 16))
           (String (digit (y mod 16 * 4)) "="))
  | String a (String b (String c r)) =>
      let x := N_of_ascii a in
      let y := N_of_ascii b in
      let z := N_of_ascii c in
      String (digit (x / 4))
        (String (digit (x mod 4 * 16 + y / 16))
           (String (digit (y mod 16 * 4 + z / 64))
              (String (digit (z mod 64)) (encode r))))
  end.

(** The decoder of RFC 4648: four digits at a time, padding only at the
    end. *)
Fixpoint decode (s : string) : option string :=
  match s with
  | "" => Some ""
  | String a (String b (String c (String d r))) =>
      match value a, value b with
      | Some p, Some q =>
          let b1 := ascii_of_N (p * 4 + q / 16) in
          if Ascii.eqb d "=" then
            match r with
            | "" =>
                if Ascii.eqb c "=" then Some (String b1 "")
                else match value c with
                     | Some u =>
                         Some (String b1 (String (ascii_of_N (q mod 16 * 16 + u / 4)) ""))
                     | None => None
                     end
            | _ => None
            end
          else
            match value c, value d, decode r with
            | Some u, Some v, Some rest =>
                Some (String b1
                        (String (ascii_of_N (q mod 16 * 16 + u / 4))
                           (String (ascii_of_N (u mod 4 * 64 + v)) rest)))
            | _, _, _ => None
            end
      | _, _ => None
      end
  | _ => None
  end.

End Base64.

(** ** The template localizer ([localize-document.ts]) *)

Module Localize.

Import Str Text.

(** [LocalizationOptions].  [encounterContained] has type [any]: a string
    is [JStr], anything else the value itself. *)
Record LocalizationOptions := {
  type : string;
  patientId : string;
  patientName : option string;
  authorReference : option string;
  authorDisplay : option string;
  encounterReference : option string;
  encounterDisplay : option string;
  encounterContained : option json;
  identifierSystem : option string;
  server : string;
  outputDir : option string;
  writeToFile : option bool
}.

Record TemplateMapping := {
  template : string;
  contentFile : option string;
  contentGenerator : option string;
  contentType : string;
  noteType : string
}.

Definition TEMPLATE_MAPPINGS : list (string * TemplateMapping) := [
  ("consultation",
   {| template := "consultation-note.json";
      contentFile := Some "consultation-note.txt"; contentGenerator := None;
      contentType := "text/plain; charset=utf-8"; noteType := "Consultation note" |});
  ("progress",
   {| template := "progress-note.json";
      contentFile := Some "progress-note.txt"; contentGenerator := None;
      contentType := "text/plain; charset=utf-8"; noteType := "Progress note" |});
  ("pdf",
   {| template := "consultation-note-pdf.json";
      contentFile := None; contentGenerator := Some "generate-pdf.ts";
      contentType := "application/pdf"; noteType := "Consultation note" |});
  ("cda",
   {| template := "discharge-summary-cda-xml.json";
      contentFile := None; contentGenerator := Some "generate-cda-xml.ts";
      contentType := "application/cda+xml"; noteType := "Discharge summary" |});
  ("xhtml",
   {| template := "discharge-summary-xhtml.json";
      contentFile := None; contentGenerator := Some "generate-xhtml.ts";
      contentType := "application/xhtml+xml"; noteType := "Discharge summary" |});
  ("html",
   {| template := "progress-note-html.json";
      contentFile := None; contentGenerator := Some "generate-html.ts";
      contentType := "text/html; charset=utf-8"; noteType := "Progress note" |});
  ("large",
   {| template := "large-note.json";
      contentFile := None; contentGenerator := Some "generate-large-file.ts";
      contentType := "text/plain; charset=utf-8"; noteType := "Summary of episode note" |});
  ("patient-asserted",
   {| template := "patient-asserted-note.json";
      contentFile := Some "patient-log.txt"; contentGenerator := None;
      contentType := "text/plain; charset=utf-8"; noteType := "Progress note" |})
].

Fixpoint assoc {A : Type} (k : string) (l : list (string * A)) : option A :=
  match l with
  | [] => None
  | (k', a) :: l' => if String.eqb k' k then Some a else assoc k l'
  end.

(** [Object.keys(TEMPLATE_MAPPINGS).join(', ')] *)
Definition mappingKeys : string := join ", " (map fst TEMPLATE_MAPPINGS).

(** The properties every object literal inherits from [Object.prototype]:
    [TEMPLATE_MAPPINGS[k]] is a truthy value for each of them. *)
Definition objectPrototypeKeys : list string := [
  "constructor"; "hasOwnProperty"; "isPrototypeOf"; "propertyIsEnumerable";
  "toLocaleString"; "toString"; "valueOf"; "__proto__";
  "__defineGetter__"; "__defineSetter__"; "__lookupGetter__"; "__lookupSetter__"
].

Inductive lookup :=
| Own (m : TemplateMapping)
| Inherited
| Missing.

(** [TEMPLATE_MAPPINGS[type]] *)
Definition lookupMapping (type : string) : lookup :=
  match assoc type TEMPLATE_MAPPINGS with
  | Some m => Own m
  | None =>
      if existsb (String.eqb type) objectPrototypeKeys then Inherited else Missing
  end.

(** The environment of one call: the working directory (innermost component
    first), the directories that hold [.fhir-configs], the files of
    [assets/templates], those of [assets/sample-content], and for each
    generator script that exists the files it writes into the working
    directory when it is imported, by name and in the order of the writes;
    what [mkdirSync] and [writeFileSync] throw for a path, when they throw;
    then the clock at the places it is read, and the message the engine gives
    the [SyntaxError] of [JSON.parse] for a text. *)
Record World := {
  w_cwd : list string;
  w_hasConfigs : list string -> bool;
  w_templates : string -> option string;
  w_samples : string -> option string;
  w_generate : string -> option (list (string * string));
  w_mkdir : string -> option error;
  w_writeFile : string -> option error;
  w_contentNow : Date;
  w_templateNow : Date;
  w_identifierNow : Z;
  w_syntaxMessage : string -> string
}.

(** File-system and process effects, in the order they happen. *)
Inductive event :=
| EExists (path : string)
| ERead (path : string)
| EChdir (path : string)
| EImport (path : string)
| EMkdir (path : string)
| EWrite (path content : string)
| EConsoleError (msg : string).

Inductive outcome :=
| Returned
| Exited (code : nat).

Definition M (A : Type) : Type := list event * result A.

Definition ret {A : Type} (a : A) : M A := ([], Ok a).
Definition throw {A : Type} (e : error) : M A := ([], Throw e).
Definition emit (e : event) : M unit := ([e], Ok tt).

Definition bindM {A B : Type} (m : M A) (f : A -> M B) : M B :=
  match m with
  | (t, Ok a) => let '(t', r) := f a in (t ++ t', r)
  | (t, Throw e) => (t, Throw e)
  end.

Notation "'do' x '<-' m ';' k" := (bindM m (fun x => k))
  (at level 10, x name, m at level 100, k at level 200).
Notation "'run' m ';' k" := (bindM m (fun _ => k))
  (at level 10, m at level 100, k at level 200).

(** [try { body } finally { cleanup }] for a cleanup that cannot fail. *)
Definition finally {A : Type} (body : M A) (cleanup : event) : M A :=
  let '(t, r) := body in (t ++ [cleanup], r).

Definition path_string (dir : list string) : string :=
  match dir with
  | [] => "/"
  | _ => "/" +:+ join "/" (rev dir)
  end.

(** [getProjectRoot]: the loop stops at the file-system root without
    probing it. *)
Fixpoint getProjectRoot_from (w : World) (dir : list string) : M (list string) :=
  match dir with
  | [] => throw (Error "Could not find project root (no .fhir-configs directory found)")
  | _ :: parent =>
      run emit (EExists (path_string (".fhir-configs" :: dir)));
      if w_hasConfigs w dir then ret dir else getProjectRoot_from w parent
  end.

Definition getProjectRoot (w : World) : M (list string) :=
  getProjectRoot_from w (w_cwd w).

Definition skillDir : list string := ["write-clinical-notes"; "skills"; ".claude"].

Definition getSkillRoot (w : World) : M (list string) :=
  do projectRoot <- getProjectRoot w;
  ret (skillDir ++ projectRoot).

Definition samplePath (skillRoot : list string) (file : string) : string :=
  path_string ("sample-content" :: "assets" :: skillRoot) +:+ "/" +:+ file.

Definition templatePath (skillRoot : list string) (file : string) : string :=
  path_string ("templates" :: "assets" :: skillRoot) +:+ "/" +:+ file.

Definition currentDate (d : Date) : string := first (split "T" (toISOString d)).
Definition currentTime (d : Date) : string := take 5 (first (split " " (toTimeString d))).
Definition currentTimestampCDA (d : Date) : string :=
  first (split "." (dropDashColon (toISOString d))) +:+ "-0500".

Definition replaceContentPlaceholders (now : Date) (content : string)
  (options : LocalizationOptions) : string :=
  let patientName := JS.or_default (patientName options) "Test Patient" in
  let '(patientGiven, patientFamily) := patientNames patientName in
  let authorDisplay := JS.or_default (authorDisplay options) "Dr. Example Provider" in
  let authorSuffix := authorSuffix authorDisplay in
  replaceAll "{{CURRENT_TIMESTAMP_CDA}}" (currentTimestampCDA now)
  (replaceAll "{{CURRENT_TIMESTAMP}}" (toISOString now)
  (replaceAll "{{CURRENT_TIME}}" (currentTime now)
  (replaceAll "{{CURRENT_DATE}}" (currentDate now)
  (replaceAll "{{APP_NAME}}" "FHIR Test App"
  (replaceAll "{{AUTHOR_TITLE}}" (orElse authorSuffix "MD")
  (replaceAll "{{AUTHOR_SUFFIX}}" authorSuffix
  (replaceAll "{{AUTHOR_FAMILY_NAME}}" (authorFamily authorDisplay)
  (replaceAll "{{AUTHOR_GIVEN_NAME}}" (authorGiven authorDisplay)
  (replaceAll "{{AUTHOR_NAME}}" authorDisplay
  (replaceAll "{{PATIENT_FAMILY_NAME}}" patientFamily
  (replaceAll "{{PATIENT_GIVEN_NAME}}" patientGiven
  (replaceAll "{{PATIENT_ID}}" (patientId options)
  (replaceAll "{{PATIENT_NAME}}" patientName content))))))))))))).

Definition outputMap : list (string * string) := [
  ("generate-pdf.ts", "consultation-note.pdf");
  ("generate-cda-xml.ts", "discharge-summary.cda.xml");
  ("generate-xhtml.ts", "discharge-summary.xhtml");
  ("generate-html.ts", "progress-note.html");
  ("generate-large-file.ts", "large-note.txt")
].

(** [{ content, filename }]: the content is the buffer of the substituted
    text. *)
Record ContentData := {
  content : string;
  filename : string
}.

(** What importing a generator script does: the script runs and writes its
    files into the working directory, which is [assets/sample-content] by
    then. *)
Definition scriptWrites (skillRoot : list string) (written : list (string * string))
  : list event :=
  map (fun nc => EWrite (samplePath skillRoot (fst nc)) (snd nc)) written.

Definition importScript (skillRoot : list string) (generator : string)
  (written : list (string * string)) : M unit :=
  (EImport (samplePath skillRoot generator) :: scriptWrites skillRoot written, Ok tt).

(** A file of [assets/sample-content] after the script has run: what the
    script wrote under that name last, or else what was there before. *)
Definition sampleAfter (w : World) (written : list (string * string))
  (filename : string) : option string :=
  match assoc filename (rev written) with
  | Some text => Some text
  | None => w_samples w filename
  end.

Definition generateContent (w : World) (generator : string)
  (options : LocalizationOptions) : M ContentData :=
  do skillRoot <- getSkillRoot w;
  let generatorPath := samplePath skillRoot generator in
  run emit (EExists generatorPath);
  match w_generate w generator with
  | None => throw (Error ("Generator not found: " +:+ generatorPath))
  | Some written =>
      let tempDir := path_string ("sample-content" :: "assets" :: skillRoot) in
      finally
        (run emit (EChdir tempDir);
         run importScript skillRoot generator written;
         match assoc generator outputMap with
         | None => throw (Error ("Unknown generator: " +:+ generator))
         | Some filename =>
             run emit (EExists (samplePath skillRoot filename));
             match sampleAfter w written filename with
             | None =>
                 throw (Error ("Generator did not create expected file: " +:+ filename))
             | Some contentText =>
                 run emit (ERead (samplePath skillRoot filename));
                 ret {| content :=
                          replaceContentPlaceholders (w_contentNow w) contentText options;
                        filename := filename |}
             end
         end)
        (EChdir (path_string (w_cwd w)))
  end.

Definition getContentFile (w : World) (filename : string)
  (options : LocalizationOptions) : M ContentData :=
  do skillRoot <- getSkillRoot w;
  let contentPath := samplePath skillRoot filename in
  run emit (EExists contentPath);
  match w_samples w filename with
  | None => throw (Error ("Content file not found: " +:+ contentPath))
  | Some contentText =>
      run emit (ERead contentPath);
      ret {| content := replaceContentPlaceholders (w_contentNow w) contentText options;
             filename := filename |}
  end.

(** The substitutions of [localizeTemplate], in the order of the source. *)
Definition substituteTemplate (w : World) (templateContent : string)
  (options : LocalizationOptions) (base64Content : string) (contentSize : nat)
  (contentType : string) : string :=
  let timestamp := toISOString (w_templateNow w) in
  let identifierValue := type options +:+ "-" +:+ JS.of_Z (w_identifierNow w) in
  let localized :=
    replaceAll "{{APP_NAME}}" "FHIR Test App"
    (replaceAll "{{CONTENT_SIZE}}" (JS.of_nat contentSize)
    (replaceAll "{{BASE64_CONTENT}}" base64Content
    (replaceAll "{{CONTENT_TYPE}}" contentType
    (replaceAll "{{PERIOD_END}}" timestamp
    (replaceAll "{{PERIOD_START}}" timestamp
    (replaceAll "{{CURRENT_TIMESTAMP}}" timestamp
    (replaceAll "{{AUTHOR_DISPLAY}}"
       (JS.or_default (authorDisplay options) "Dr. Example Provider")
    (replaceAll "{{AUTHOR_REFERENCE}}"
       (JS.or_default (authorReference options) "Practitioner/example")
    (replaceAll "{{PATIENT_NAME}}" (JS.or_default (patientName options) "Test Patient")
    (replaceAll "{{PATIENT_ID}}" (patientId options)
    (replaceAll "{{IDENTIFIER_VALUE}}" identifierValue
    (replaceAll "{{IDENTIFIER_SYSTEM}}"
       (JS.or_default (identifierSystem options) "https://example.com/fhir-test")
       templateContent)))))))))))) in
  if JS.given (encounterReference options) then
    replaceAll "{{ENCOUNTER_DISPLAY}}" (JS.or_default (encounterDisplay options) "Encounter")
    (replaceAll "{{ENCOUNTER_REFERENCE}}"
       (JS.or_default (encounterReference options) "") localized)
  else
    replaceAll "{{ENCOUNTER_DISPLAY}}" ""
    (replaceAll "{{ENCOUNTER_REFERENCE}}" "" localized).

(** [enc.reference && enc.reference.trim() !== ''] *)
Definition validEncounter (enc : json) : result bool :=
  match enc with
  | JNull => Throw (TypeError "null is not an object (evaluating 'enc.reference')")
  | _ =>
      match JS.get enc "reference" with
      | Some (JStr s) => Ok (nonblank s)
      | Some v =>
          if JS.truthy_json v
          then Throw (TypeError "enc.reference.trim is not a function")
          else Ok false
      | None => Ok false
      end
  end.

(** [encounter.some(validEncounter)]: stops at the first valid entry. *)
Fixpoint hasValidEncounter (l : list json) : result bool :=
  match l with
  | [] => Ok false
  | enc :: l' =>
      let* b := validEncounter enc in
      if b then Ok true else hasValidEncounter l'
  end.

(** The removal of [context.encounter] when no reference was given. *)
Definition dropEmptyEncounter (options : LocalizationOptions) (parsed : json)
  : result json :=
  if JS.given (encounterReference options) then Ok parsed
  else
    match parsed with
    | JNull => Throw (TypeError "null is not an object (evaluating 'parsed.context')")
    | _ =>
        match JS.get parsed "context" with
        | None | Some JNull => Ok parsed
        | Some ctx =>
            if JS.truthy (JS.get ctx "encounter") then
              match JS.get ctx "encounter" with
              | Some (JArr entries) =>
                  let* valid := hasValidEncounter entries in
                  if valid then Ok parsed
                  else
                    match parsed, ctx with
                    | JObj po, JObj co =>
                        Ok (JObj (JSON.obj_set po "context"
                                    (JObj (JSON.obj_delete co "encounter"))))
                    | _, _ => Ok parsed
                    end
              | _ => Throw (TypeError "parsed.context.encounter.some is not a function")
              end
            else Ok parsed
        end
    end.

(** The contained encounter of the options, parsed when it is a string. *)
Definition containedEncounter (w : World) (c : json) : result json :=
  match c with
  | JStr s =>
      match JSON.parse s with
      | Some v => Ok v
      | None =>
          Throw (Error ("Invalid JSON in --encounter-contained: " +:+ w_syntaxMessage w s))
      end
  | _ => Ok c
  end.

(** [parsed.contained.push(containedEncounter)], the array being created
    when the property is missing or falsy.  A property assigned to an array
    is not serialised; assigning one to a primitive throws in a module. *)
Definition addContained (w : World) (options : LocalizationOptions) (parsed : json)
  : result json :=
  match encounterContained options with
  | None => Ok parsed
  | Some c =>
      if JS.truthy_json c then
        let* ce := containedEncounter w c in
        match parsed with
        | JNull => Throw (TypeError "null is not an object (evaluating 'parsed.contained')")
        | JObj o =>
            if JS.truthy (JSON.obj_get o "contained") then
              match JSON.obj_get o "contained" with
              | Some (JArr l) => Ok (JObj (JSON.obj_set o "contained" (JArr (l ++ [ce]))))
              | _ => Throw (TypeError "parsed.contained.push is not a function")
              end
            else Ok (JObj (JSON.obj_set o "contained" (JArr [ce])))
        | JArr _ => Ok parsed
        | _ => Throw (TypeError "Attempted to assign to readonly property.")
        end
      else Ok parsed
  end.

(** The same call without a contained encounter. *)
Definition withoutContained (o : LocalizationOptions) : LocalizationOptions :=
  {| type := type o; patientId := patientId o; patientName := patientName o;
     authorReference := authorReference o; authorDisplay := authorDisplay o;
     encounterReference := encounterReference o;
     encounterDisplay := encounterDisplay o; encounterContained := None;
     identifierSystem := identifierSystem o; server := server o;
     outputDir := outputDir o; writeToFile := writeToFile o |}.

(** The object that [localizeTemplate] serialises. *)
Definition localizeObject (w : World) (templateContent : string)
  (options : LocalizationOptions) (base64Content : string) (contentSize : nat)
  (contentType : string) : result json :=
  let* parsed :=
    parse_or_throw
      (substituteTemplate w templateContent options base64Content contentSize contentType) in
  let* parsed1 := dropEmptyEncounter options parsed in
  addContained w options parsed1.

Definition localizeTemplate (w : World) (templateContent : string)
  (options : LocalizationOptions) (base64Content : string) (contentSize : nat)
  (contentType : string) : result string :=
  let* parsed :=
    localizeObject w templateContent options base64Content contentSize contentType in
  Ok (JSON.stringify parsed).

Definition lift {A : Type} (r : result A) : M A := ([], r).

(** The steps [main] and [localizeDocumentReference] share once the mapping
    is known: content, encoding, template. *)
Definition getContent (w : World) (mapping : TemplateMapping)
  (options : LocalizationOptions) : M ContentData :=
  match contentGenerator mapping with
  | Some g => generateContent w g options
  | None =>
      match contentFile mapping with
      | Some f => getContentFile w f options
      | None => throw (Error "No content source specified in mapping")
      end
  end.

Definition readTemplate (w : World) (skillRoot : list string) (file : string) : M string :=
  run emit (ERead (templatePath skillRoot file));
  match w_templates w file with
  | Some text => ret text
  | None => throw (ENOENT (templatePath skillRoot file))
  end.

Definition outputPath (projectRoot : list string) (options : LocalizationOptions)
  : string * string :=
  let dir := JS.or_default (outputDir options)
               (path_string (server options :: "localized" :: projectRoot)) in
  (dir, dir +:+ "/" +:+ type options +:+ "-note.json").

(** [mkdirSync(outputDir, { recursive: true })] and [writeFileSync]: either
    may throw, and nothing here catches it. *)
Definition writeOutput (w : World) (projectRoot : list string)
  (options : LocalizationOptions) (localizedJson : string) : M unit :=
  match w_mkdir w (fst (outputPath projectRoot options)) with
  | Some e => throw e
  | None =>
      run emit (EMkdir (fst (outputPath projectRoot options)));
      match w_writeFile w (snd (outputPath projectRoot options)) with
      | Some e => throw e
      | None => emit (EWrite (snd (outputPath projectRoot options)) localizedJson)
      end
  end.

(** A mapping obtained through the prototype chain has neither content
    source. *)
Definition inheritedMapping : TemplateMapping :=
  {| template := "undefined"; contentFile := None; contentGenerator := None;
     contentType := "undefined"; noteType := "undefined" |}.

(** [localizeDocumentReference]: the library entry point. *)
Definition localizeDocumentReference (w : World) (options : LocalizationOptions)
  : M json :=
  do projectRoot <- getProjectRoot w;
  do skillRoot <- getSkillRoot w;
  do mapping <-
    match lookupMapping (type options) with
    | Own m => ret m
    | Inherited => ret inheritedMapping
    | Missing =>
        throw (Error ("Unknown document type: " +:+ type options +:+
                      ". Available: " +:+ mappingKeys))
    end;
  do contentData <- getContent w mapping options;
  let base64Content := Base64.encode (content contentData) in
  let contentSize := String.length (content contentData) in
  do templateContent <- readTemplate w skillRoot (template mapping);
  do localizedJson <-
    lift (localizeTemplate w templateContent options base64Content contentSize
            (contentType mapping));
  do parsedJson <- lift (parse_or_throw localizedJson);
  run (if negb (bool_decide (writeToFile options = Some false))
       then writeOutput w projectRoot options localizedJson
       else ret tt);
  ret parsedJson.

(** The values [parseArgs] hands to [main]. *)
Record CliValues := {
  v_help : bool;
  v_type : option string;
  v_patientId : option string;
  v_patientName : option string;
  v_authorReference : option string;
  v_authorDisplay : option string;
  v_encounterReference : option string;
  v_encounterDisplay : option string;
  v_encounterContained : option string;
  v_identifierSystem : option string;
  v_server : option string;
  v_outputDir : option string
}.

Definition cliOptions (values : CliValues) : LocalizationOptions :=
  {| type := JS.or_default (v_type values) "";
     patientId := JS.or_default (v_patientId values) "";
     patientName := v_patientName values;
     authorReference := v_authorReference values;
     authorDisplay := v_authorDisplay values;
     encounterReference := v_encounterReference values;
     encounterDisplay := v_encounterDisplay values;
     encounterContained := JStr <$> v_encounterContained values;
     identifierSystem := v_identifierSystem values;
     server := JS.or_default (v_server values) "";
     outputDir := v_outputDir values;
     writeToFile := None |}.

(** [error.message] *)
Definition message (w : World) (e : error) : string :=
  match e with
  | Error m | TypeError m => m
  | SyntaxError text => w_syntaxMessage w text
  | ENOENT p => "ENOENT: no such file or directory, open '" +:+ p +:+ "'"
  end.

(** The body of the [try] block of [main]. *)
Definition mainBody (w : World) (mapping : TemplateMapping)
  (options : LocalizationOptions) : M unit :=
  do projectRoot <- getProjectRoot w;
  do skillRoot <- getSkillRoot w;
  do contentData <- getContent w mapping options;
  let base64Content := Base64.encode (content contentData) in
  let contentSize := String.length (content contentData) in
  do templateContent <- readTemplate w skillRoot (template mapping);
  do localizedJson <-
    lift (localizeTemplate w templateContent options base64Content contentSize
            (contentType mapping));
  writeOutput w projectRoot options localizedJson.

(** [main]: the command line entry point.  The type is validated before
    anything touches the file system. *)
Definition main (w : World) (values : CliValues) : list event * outcome :=
  if v_help values then ([], Exited 0)
  else if negb (JS.given (v_type values) && JS.given (v_patientId values)
                && JS.given (v_server values)) then
    ([EConsoleError "Error: --type, --patient-id, and --server are required";
      EConsoleError "Run with --help for usage information"], Exited 1)
  else
    let options := cliOptions values in
    match lookupMapping (type options) with
    | Missing =>
        ([EConsoleError ("Error: Unknown type " +:+ dqs +:+ type options +:+ dqs);
          EConsoleError ("Available types: " +:+ mappingKeys)], Exited 1)
    | found =>
        let mapping := match found with Own m => m | _ => inheritedMapping end in
        match mainBody w mapping options with
        | (t, Ok _) => (t, Returned)
        | (t, Throw e) =>
            (t ++ [EConsoleError (JSON.nl +:+ "Error: " +:+ message w e)], Exited 1)
        end
    end.

End Localize.

(** ** The earlier localizer: a default encounter [#e1] and a synthesized
    contained resource *)

Module LocalizeV1.

Import Str Text.
Export Localize.

Definition substituteTemplate (w : World) (encounterNow : Z) (templateContent : string)
  (options : LocalizationOptions) (base64Content : string) (contentSize : nat)
  (contentType : string) : string :=
  let timestamp := toISOString (w_templateNow w) in
  let identifierValue := type options +:+ "-" +:+ JS.of_Z (w_identifierNow w) in
  let identifierSystem :=
    JS.or_default (identifierSystem options) "https://example.com/fhir-test" in
  replaceAll "{{APP_NAME}}" "FHIR Test App"
  (replaceAll "{{CONTENT_SIZE}}" (JS.of_nat contentSize)
  (replaceAll "{{BASE64_CONTENT}}" base64Content
  (replaceAll "{{CONTENT_TYPE}}" contentType
  (replaceAll "{{PERIOD_END}}" "2025-01-15T09:00:00Z"
  (replaceAll "{{PERIOD_START}}" "2025-01-15T08:00:00Z"
  (replaceAll "{{CURRENT_TIMESTAMP}}" timestamp
  (replaceAll "{{ENCOUNTER_END}}" "2025-01-15T09:00:00Z"
  (replaceAll "{{ENCOUNTER_START}}" "2025-01-15T08:00:00Z"
  (replaceAll "{{ENCOUNTER_IDENTIFIER_VALUE}}" ("enc-" +:+ JS.of_Z encounterNow)
  (replaceAll "{{ENCOUNTER_IDENTIFIER_SYSTEM}}" (identifierSystem +:+ "/encounters")
  (replaceAll "{{ENCOUNTER_DISPLAY}}"
     (JS.or_default (encounterDisplay options) "Office Visit")
  (replaceAll "{{ENCOUNTER_REFERENCE}}" (JS.or_default (encounterReference options) "#e1")
  (replaceAll "{{AUTHOR_DISPLAY}}"
     (JS.or_default (authorDisplay options) "Dr. Example Provider")
  (replaceAll "{{AUTHOR_REFERENCE}}"
     (JS.or_default (authorReference options) "Practitioner/example")
  (replaceAll "{{PATIENT_NAME}}" (JS.or_default (patientName options) "Test Patient")
  (replaceAll "{{PATIENT_ID}}" (patientId options)
  (replaceAll "{{IDENTIFIER_VALUE}}" identifierValue
  (replaceAll "{{IDENTIFIER_SYSTEM}}" identifierSystem
     templateContent)))))))))))))))))).

(** The contained encounter the code writes out for [#e1]. *)
Definition syntheticEncounter (options : LocalizationOptions) : json :=
  JObj [
    ("resourceType", JStr "Encounter");
    ("id", JStr "e1");
    ("status", JStr "finished");
    ("class", JObj [
       ("system", JStr "http://terminology.hl7.org/CodeSystem/v3-ActCode");
       ("code", JStr "AMB")
     ]);
    ("subject", JObj [ ("reference", JStr ("Patient/" +:+ patientId options)) ]);
    ("period", JObj [
       ("start", JStr "2025-01-15T08:00:00Z");
       ("end", JStr "2025-01-15T09:00:00Z")
     ])
  ].

(** [if (encounterReference === '#e1' && !parsed.contained) parsed.contained = [...]] *)
Definition synthesizeContained (options : LocalizationOptions) (parsed : json)
  : result json :=
  if String.eqb (JS.or_default (encounterReference options) "#e1") "#e1" then
    match parsed with
    | JNull => Throw (TypeError "null is not an object (evaluating 'parsed.contained')")
    | JObj o =>
        if JS.truthy (JSON.obj_get o "contained") then Ok parsed
        else Ok (JObj (JSON.obj_set o "contained" (JArr [syntheticEncounter options])))
    | JArr _ => Ok parsed
    | _ => Throw (TypeError "Attempted to assign to readonly property.")
    end
  else Ok parsed.

Definition localizeObject (w : World) (encounterNow : Z) (templateContent : string)
  (options : LocalizationOptions) (base64Content : string) (contentSize : nat)
  (contentType : string) : result json :=
  let* parsed :=
    parse_or_throw
      (substituteTemplate w encounterNow templateContent options base64Content
         contentSize contentType) in
  synthesizeContained options parsed.

Definition localizeTemplate (w : World) (encounterNow : Z) (templateContent : string)
  (options : LocalizationOptions) (base64Content : string) (contentSize : nat)
  (contentType : string) : result string :=
  let* parsed :=
    localizeObject w encounterNow templateContent options base64Content contentSize
      contentType in
  Ok (JSON.stringify parsed).

End LocalizeV1.


(** ** The name policy as the specification words it *)

Module NameSpec.

Import Str Text.

(** The tokens of a string: the maximal runs of characters that are not
    whitespace. *)
Fixpoint tokens_go (cur : string) (skip : nat) (s : string) : list string :=
  match s with
  | "" => if String.eqb cur "" then [] else [cur]
  | String c s' =>
      match skip with
      | S k => tokens_go cur k s'
      | 0 =>
          match ws_len s with
          | 0 => tokens_go (snoc cur c) 0 s'
          | S k => (if String.eqb cur "" then [] else [cur]) ++ tokens_go "" k s'
          end
      end
  end.

Definition tokens (s : string) : list string := tokens_go "" 0 s.

(** "A leading [Dr. ] prefix is stripped from author display before
    parsing." *)
Definition stripPrefix (s : string) : string :=
  if prefixb "Dr. " s then drop 4 s else s.

(** "First token is given name, last token is family name." *)
Definition given (s : string) : string := hd "" (tokens s).
Definition family (s : string) : string := List.last (tokens s) "".

End NameSpec.

(** ** Template texts: characters and placeholders *)

Module Template.

Import Str JSON.

(** A template text seen as a sequence of characters and of placeholders
    [{{NAME}}]. *)
Inductive atom :=
| Ch (c : ascii)
| Hole (name : string).

Definition token (name : string) : string := "{{" +:+ name +:+ "}}".

Fixpoint chars (s : string) : list atom :=
  match s with
  | "" => []
  | String c s' => Ch c :: chars s'
  end.

Fixpoint render (l : list atom) : string :=
  match l with
  | [] => ""
  | Ch c :: l' => String c (render l')
  | Hole n :: l' => token n +:+ render l'
  end.

Definition not_brace (c : ascii) : bool :=
  negb (Ascii.eqb c "{") && negb (Ascii.eqb c "}").

(** The name of a placeholder has no brace in it. *)
Definition name_ok (n : string) : bool := all not_brace n.

(** Every opening brace written as a character is followed by a character
    other than an opening brace, so that a text [{{] only ever begins a
    placeholder. *)
Fixpoint atoms_ok (l : list atom) : bool :=
  match l with
  | [] => true
  | Ch c :: l' =>
      (if Ascii.eqb c "{" then
         match l' with
         | Ch d :: _ => negb (Ascii.eqb d "{")
         | _ => false
         end
       else true) && atoms_ok l'
  | Hole n :: l' => name_ok n && atoms_ok l'
  end.

(** A value that can be substituted as it is: no [$], which the replacement
    syntax interprets, and no opening brace. *)
Definition clean_char (c : ascii) : bool :=
  negb (Ascii.eqb c "$") && negb (Ascii.eqb c "{").

Definition clean (v : string) : bool := all clean_char v.

(** A character that stands for itself inside a JSON string. *)
Definition plain_char (c : ascii) : bool :=
  negb (Ascii.eqb c dq) && negb (Ascii.eqb c "\") && (32 <=? code c).

Definition plain (v : string) : bool := all plain_char v.

(** Clean and plain: a value that neither the replacement syntax nor JSON
    reads differently from how it is written. *)
Definition inert (v : string) : bool := clean v && plain v.

(** One substitution, and all of an environment at once. *)
Definition subst1 (n v : string) (a : atom) : list atom :=
  match a with
  | Ch c => [Ch c]
  | Hole m => if String.eqb m n then chars v else [Hole m]
  end.

Definition subst (n v : string) (l : list atom) : list atom :=
  flat_map (subst1 n v) l.

Definition env : Type := list (string * string).

Fixpoint assoc (n : string) (e : env) : option string :=
  match e with
  | [] => None
  | (m, v) :: e' => if String.eqb m n then Some v else assoc n e'
  end.

Definition psubst1 (e : env) (a : atom) : list atom :=
  match a with
  | Ch c => [Ch c]
  | Hole m =>
      match assoc m e with
      | Some v => chars v
      | None => [Hole m]
      end
  end.

Definition psubst (e : env) (l : list atom) : list atom := flat_map (psubst1 e) l.

(** The replacements of an environment, one after the other. *)
Definition replaceEach (e : env) (s : string) : string :=
  fold_left (fun s nv => replaceAll (token (fst nv)) (snd nv) s) e s.

(** *** Template documents *)

(** A template document: a bare token (a number, a literal or a
    placeholder in their place), a string, an array or an object.  The body
    of a string is the text between its quotes. *)
#[warnings="-register-all"]
Inductive tpl :=
| TRaw (body : list atom)
| TStr (body : list atom)
| TArr (items : list tpl)
| TObj (fields : list (string * tpl)).

(** The text of a template document, laid out as [JSON.stringify(_, null, 2)]
    lays a value out. *)
Fixpoint layout (ind : string) (t : tpl) : list atom :=
  let ind' := ind +:+ "  " in
  match t with
  | TRaw body => body
  | TStr body => Ch dq :: body ++ [Ch dq]
  | TArr [] => chars "[]"
  | TArr (x :: xs) =>
      chars ("[" +:+ nl +:+ ind') ++ layout ind' x
      ++ (fix rest (l : list tpl) : list atom :=
            match l with
            | [] => []
            | y :: l' => chars ("," +:+ nl +:+ ind') ++ layout ind' y ++ rest l'
            end) xs
      ++ chars (nl +:+ ind +:+ "]")
  | TObj [] => chars "{}"
  | TObj ((k, x) :: xs) =>
      chars ("{" +:+ nl +:+ ind' +:+ quote k +:+ ": ") ++ layout ind' x
      ++ (fix rest (l : list (string * tpl)) : list atom :=
            match l with
            | [] => []
            | (k', y) :: l' =>
                chars ("," +:+ nl +:+ ind' +:+ quote k' +:+ ": ")
                ++ layout ind' y ++ rest l'
            end) xs
      ++ chars (nl +:+ ind +:+ "}")
  end.

(** The text of a template document as a file holds it. *)
Definition text (t : tpl) : string := render (layout "" t).

(** The number lexemes of JSON. *)
Definition num_start (c : ascii) : option nstate :=
  if Ascii.eqb c "-" then Some NMinus
  else if Ascii.eqb c "0" then Some NZero
  else if is_digit19 c then Some NInt
  else None.

Fixpoint num_run (st : nstate) (s : string) : option nstate :=
  match s with
  | "" => Some st
  | String c s' =>
      match num_step st c with
      | Some st' => num_run st' s'
      | None => None
      end
  end.

Definition num_final (lit : string) : option nstate :=
  match lit with
  | "" => None
  | String c r =>
      match num_start c with
      | Some st => num_run st r
      | None => None
      end
  end.

Definition valid_number (lit : string) : bool :=
  match num_final lit with
  | Some st => num_accepting st
  | None => false
  end.

(** The value of a bare token. *)
Definition raw_value (s : string) : option json :=
  if String.eqb s "true" then Some (JBool true)
  else if String.eqb s "false" then Some (JBool false)
  else if String.eqb s "null" then Some JNull
  else if valid_number s then Some (JNum s)
  else None.

(** The document a template stands for once the placeholders of an
    environment are filled in: defined when every bare token has become a
    literal or a number. *)
Fixpoint instantiate (e : env) (t : tpl) : option json :=
  match t with
  | TRaw body => raw_value (render (psubst e body))
  | TStr body => Some (JStr (render (psubst e body)))
  | TArr items =>
      option_map JArr
        ((fix each (l : list tpl) : option (list json) :=
            match l with
            | [] => Some []
            | x :: l' =>
                match instantiate e x, each l' with
                | Some v, Some vs => Some (v :: vs)
                | _, _ => None
                end
            end) items)
  | TObj fields =>
      option_map JObj
        ((fix each (l : list (string * tpl)) : option (list (string * json)) :=
            match l with
            | [] => Some []
            | (k, x) :: l' =>
                match instantiate e x, each l' with
                | Some v, Some vs => Some ((k, v) :: vs)
                | _, _ => None
                end
            end) fields)
  end.

Fixpoint nodup_keys (l : list string) : bool :=
  match l with
  | [] => true
  | k :: l' => negb (existsb (String.eqb k) l') && nodup_keys l'
  end.

Definition plain_atom (a : atom) : bool :=
  match a with
  | Ch c => plain_char c
  | Hole n => plain n
  end.

(** What is asked of a template document: the bodies are well formed, the
    characters of string bodies stand for themselves in JSON, the keys of
    an object are distinct and, written out, have no doubled opening
    brace. *)
Fixpoint tpl_ok (t : tpl) : bool :=
  match t with
  | TRaw body => atoms_ok body
  | TStr body => atoms_ok body && forallb plain_atom body
  | TArr items => forallb tpl_ok items
  | TObj fields =>
      nodup_keys (map fst fields)
      && forallb (fun kx => atoms_ok (chars (quote (fst kx))) && tpl_ok (snd kx)) fields
  end.

(** Access paths: a key of an object or an index of an array. *)
Inductive sel :=
| Key (k : string)
| Idx (i : nat).

Fixpoint tassoc (k : string) (l : list (string * tpl)) : option tpl :=
  match l with
  | [] => None
  | (k', x) :: l' => if String.eqb k' k then Some x else tassoc k l'
  end.

Definition tstep (t : tpl) (s : sel) : option tpl :=
  match t, s with
  | TObj fields, Key k => tassoc k fields
  | TArr items, Idx i => nth_error items i
  | _, _ => None
  end.

Fixpoint tpath (t : tpl) (p : list sel) : option tpl :=
  match p with
  | [] => Some t
  | s :: p' =>
      match tstep t s with
      | Some t' => tpath t' p'
      | None => None
      end
  end.

Definition jstep (v : json) (s : sel) : option json :=
  match v, s with
  | JObj fields, Key k => obj_get fields k
  | JArr items, Idx i => nth_error items i
  | _, _ => None
  end.

Fixpoint jpath (v : json) (p : list sel) : option json :=
  match p with
  | [] => Some v
  | s :: p' =>
      match jstep v s with
      | Some v' => jpath v' p'
      | None => None
      end
  end.

(** Well-formed values: number lexemes are numbers and the keys of every
    object are distinct. *)
Fixpoint wf (v : json) : bool :=
  match v with
  | JNull | JBool _ | JStr _ => true
  | JNum lit => valid_number lit
  | JArr items => forallb wf items
  | JObj fields => nodup_keys (map fst fields) && forallb (fun kv => wf (snd kv)) fields
  end.

(** The pieces of the layouts above, by name. *)
Definition layout_items (ind' : string) : list tpl -> list atom :=
  fix rest (l : list tpl) : list atom :=
    match l with
    | [] => []
    | y :: l' => chars ("," +:+ nl +:+ ind') ++ layout ind' y ++ rest l'
    end.

Definition layout_fields (ind' : string) : list (string * tpl) -> list atom :=
  fix rest (l : list (string * tpl)) : list atom :=
    match l with
    | [] => []
    | (k', y) :: l' =>
        chars ("," +:+ nl +:+ ind' +:+ quote k' +:+ ": ")
        ++ layout ind' y ++ rest l'
    end.

Definition stringify_items (ind' : string) : list json -> string :=
  fix rest (l : list json) : string :=
    match l with
    | [] => ""
    | y :: l' => "," +:+ nl +:+ ind' +:+ stringify_at ind' y +:+ rest l'
    end.

Definition stringify_fields (ind' : string) : list (string * json) -> string :=
  fix rest (l : list (string * json)) : string :=
    match l with
    | [] => ""
    | (k', y) :: l' =>
        "," +:+ nl +:+ ind' +:+ quote k' +:+ ": " +:+ stringify_at ind' y +:+ rest l'
    end.

Definition instantiate_items (e : env) : list tpl -> option (list json) :=
  fix each (l : list tpl) : option (list json) :=
    match l with
    | [] => Some []
    | x :: l' =>
        match instantiate e x, each l' with
        | Some v, Some vs => Some (v :: vs)
        | _, _ => None
        end
    end.

Definition instantiate_fields (e : env)
  : list (string * tpl) -> option (list (string * json)) :=
  fix each (l : list (string * tpl)) : option (list (string * json)) :=
    match l with
    | [] => Some []
    | (k, x) :: l' =>
        match instantiate e x, each l' with
        | Some v, Some vs => Some ((k, v) :: vs)
        | _, _ => None
        end
    end.

(** The state of the parser when the text of a value has just been read: a
    number is complete only once the next character is seen. *)
Definition settled (v : json) (stk : list frame) : pstate :=
  match v with
  | JNum lit =>
      match num_final lit with
      | Some st => (MNum st lit, stk)
      | None => (MAfter v, stk)
      end
  | _ => (MAfter v, stk)
  end.

(** What may follow a value. *)
Definition is_delim (c : ascii) : bool :=
  is_ws c || Ascii.eqb c "," || Ascii.eqb c "]" || Ascii.eqb c "}".

(** A stack on which a string is a value, not a key. *)
Definition value_ctx (stk : list frame) : bool :=
  match stk with
  | FObjKey _ :: _ => false
  | _ => true
  end.

Definition ws_only (s : string) : bool := all is_ws s.

(** *** The texts of a template document, in any layout *)

(** The value of the four digits of a [\uXXXX] escape. *)
Definition hex4 (h1 h2 h3 h4 : ascii) : option N :=
  match hexval h1, hexval h2, hexval h3, hexval h4 with
  | Some a, Some b, Some c, Some d => Some (((a * 16 + b) * 16 + c) * 16 + d)%N
  | _, _, _, _ => None
  end.

(** The character a two-character escape stands for. *)
Definition short_escape (e : ascii) : option ascii :=
  if Ascii.eqb e dq then Some dq
  else if Ascii.eqb e "\" then Some "\"%char
  else if Ascii.eqb e "/" then Some "/"%char
  else if Ascii.eqb e "b" then Some (ascii_of_nat 8)
  else if Ascii.eqb e "f" then Some (ascii_of_nat 12)
  else if Ascii.eqb e "n" then Some (ascii_of_nat 10)
  else if Ascii.eqb e "r" then Some (ascii_of_nat 13)
  else if Ascii.eqb e "t" then Some (ascii_of_nat 9)
  else None.

(** [spells body text]: [text] is a way to write the characters and
    placeholders [body] between the quotes of a JSON string.  A character
    that stands for itself may be written as it is; any character may be
    written as an escape sequence. *)
Inductive spells : list atom -> list atom -> Prop :=
| spells_nil : spells [] []
| spells_plain (c : ascii) (b t : list atom) :
    plain_char c = true -> spells b t -> spells (Ch c :: b) (Ch c :: t)
| spells_hole (n : string) (b t : list atom) :
    spells b t -> spells (Hole n :: b) (Hole n :: t)
| spells_short (e c : ascii) (b t : list atom) :
    short_escape e = Some c -> spells b t ->
    spells (Ch c :: b) (Ch "\" :: Ch e :: t)
| spells_hex (h1 h2 h3 h4 : ascii) (u : N) (b t : list atom) :
    hex4 h1 h2 h3 h4 = Some u -> spells b t ->
    spells (chars (utf8 u) ++ b)
      (Ch "\" :: Ch "u" :: Ch h1 :: Ch h2 :: Ch h3 :: Ch h4 :: t).

(** [laid t l]: [l] is a text of the template document [t].  Any white
    space may stand between the tokens, and the strings and keys may be
    spelled in any way.  [laid_items] and [laid_fields] are the texts of what
    follows the first element of an array, or the first member of an object,
    up to and including the bracket that closes it. *)
Inductive laid : tpl -> list atom -> Prop :=
| laid_raw (body : list atom) : laid (TRaw body) body
| laid_str (body t : list atom) :
    spells body t -> laid (TStr body) (Ch dq :: t ++ [Ch dq])
| laid_arr_nil (u : string) :
    ws_only u = true -> laid (TArr []) (chars ("[" +:+ u +:+ "]"))
| laid_arr (x : tpl) (xs : list tpl) (u : string) (lx lxs : list atom) :
    ws_only u = true -> laid x lx -> laid_items xs lxs ->
    laid (TArr (x :: xs)) (chars ("[" +:+ u) ++ lx ++ lxs)
| laid_obj_nil (u : string) :
    ws_only u = true -> laid (TObj []) (chars ("{" +:+ u +:+ "}"))
| laid_obj (k : string) (x : tpl) (xs : list (string * tpl)) (u1 u2 u3 : string)
    (tk lx lxs : list atom) :
    ws_only u1 = true -> ws_only u2 = true -> ws_only u3 = true ->
    spells (chars k) tk -> laid x lx -> laid_fields xs lxs ->
    laid (TObj ((k, x) :: xs))
      (chars ("{" +:+ u1) ++ Ch dq :: tk ++ Ch dq :: chars (u2 +:+ ":" +:+ u3)
       ++ lx ++ lxs)
with laid_items : list tpl -> list atom -> Prop :=
| items_nil (u : string) : ws_only u = true -> laid_items [] (chars (u +:+ "]"))
| items_cons (y : tpl) (ys : list tpl) (u1 u2 : string) (ly lys : list atom) :
    ws_only u1 = true -> ws_only u2 = true -> laid y ly -> laid_items ys lys ->
    laid_items (y :: ys) (chars (u1 +:+ "," +:+ u2) ++ ly ++ lys)
with laid_fields : list (string * tpl) -> list atom -> Prop :=
| fields_nil (u : string) : ws_only u = true -> laid_fields [] (chars (u +:+ "}"))
| fields_cons (k : string) (y : tpl) (ys : list (string * tpl))
    (u1 u2 u3 u4 : string) (tk ly lys : list atom) :
    ws_only u1 = true -> ws_only u2 = true -> ws_only u3 = true ->
    ws_only u4 = true ->
    spells (chars k) tk -> laid y ly -> laid_fields ys lys ->
    laid_fields ((k, y) :: ys)
      (chars (u1 +:+ "," +:+ u2) ++ Ch dq :: tk ++ Ch dq :: chars (u3 +:+ ":" +:+ u4)
       ++ ly ++ lys).

(** The text of a file that holds the template text [l], with white space
    before and after it. *)
Definition fileText (lead : string) (l : list atom) (trail : string) : string :=
  render (chars lead ++ l ++ chars trail).

Definition hole_plain (a : atom) : bool :=
  match a with
  | Ch _ => true
  | Hole n => plain n
  end.

(** What is asked of a template document whatever its layout: the keys of an
    object are distinct, and the name of a placeholder inside a string is
    made of characters that stand for themselves. *)
Fixpoint doc_ok (t : tpl) : bool :=
  match t with
  | TRaw _ => true
  | TStr body => forallb hole_plain body
  | TArr items => forallb doc_ok items
  | TObj fields =>
      nodup_keys (map fst fields) && forallb (fun kx => doc_ok (snd kx)) fields
  end.

Definition is_ch (a : atom) : bool :=
  match a with
  | Ch _ => true
  | Hole _ => false
  end.

(** The bare tokens [localizeTemplate] turns into values: a literal or a
    number written out, or the placeholder of the content size. *)
Definition bare_ready (body : list atom) : bool :=
  match body with
  | [Hole n] => String.eqb n "CONTENT_SIZE"
  | _ =>
      forallb is_ch body
      && match raw_value (render body) with Some _ => true | None => false end
  end.

Fixpoint bare_ok (t : tpl) : bool :=
  match t with
  | TRaw body => bare_ready body
  | TStr _ => true
  | TArr items => forallb bare_ok items
  | TObj fields => forallb (fun kx => bare_ok (snd kx)) fields
  end.

End Template.

(** ** The values [localizeTemplate] fills in *)

Module Fill.

Import Str Text Template Localize.

(** The placeholders of [localizeTemplate] and their values, in the order
    of the replacements. *)
Definition templateEnv (w : World) (o : LocalizationOptions) (base64Content : string)
  (contentSize : nat) (contentType : string) : env :=
  let timestamp := toISOString (w_templateNow w) in
  [ ("IDENTIFIER_SYSTEM",
     JS.or_default (identifierSystem o) "https://example.com/fhir-test");
    ("IDENTIFIER_VALUE", type o +:+ "-" +:+ JS.of_Z (w_identifierNow w));
    ("PATIENT_ID", patientId o);
    ("PATIENT_NAME", JS.or_default (patientName o) "Test Patient");
    ("AUTHOR_REFERENCE", JS.or_default (authorReference o) "Practitioner/example");
    ("AUTHOR_DISPLAY", JS.or_default (authorDisplay o) "Dr. Example Provider");
    ("CURRENT_TIMESTAMP", timestamp);
    ("PERIOD_START", timestamp);
    ("PERIOD_END", timestamp);
    ("CONTENT_TYPE", contentType);
    ("BASE64_CONTENT", base64Content);
    ("CONTENT_SIZE", JS.of_nat contentSize);
    ("APP_NAME", "FHIR Test App");
    ("ENCOUNTER_REFERENCE", JS.or_default (encounterReference o) "");
    ("ENCOUNTER_DISPLAY",
     if JS.given (encounterReference o)
     then JS.or_default (encounterDisplay o) "Encounter" else "") ].

(** The values that come from the caller and from the clock are inert. *)
Definition inertOptions (w : World) (o : LocalizationOptions) : bool :=
  inert (JS.or_default (identifierSystem o) "https://example.com/fhir-test")
  && inert (type o)
  && inert (patientId o)
  && inert (JS.or_default (patientName o) "Test Patient")
  && inert (JS.or_default (authorReference o) "Practitioner/example")
  && inert (JS.or_default (authorDisplay o) "Dr. Example Provider")
  && inert (toISOString (w_templateNow w))
  && inert (JS.or_default (encounterReference o) "")
  && inert (JS.or_default (encounterDisplay o) "Encounter").

Definition attachmentContentType : list sel :=
  [Key "content"; Idx 0; Key "attachment"; Key "contentType"].

Definition attachmentData : list sel :=
  [Key "content"; Idx 0; Key "attachment"; Key "data"].

Definition encounterEntries : list sel := [Key "context"; Key "encounter"].

(** An entry of [context.encounter] the encounter step can look at: an
    object whose [reference], if it has one, is a string; or a string or an
    array, which have no [reference]. *)
Definition entry_ready (t : tpl) : bool :=
  match t with
  | TObj fields =>
      match tassoc "reference" fields with
      | None | Some (TStr _) => true
      | Some _ => false
      end
  | TStr _ | TArr _ => true
  | TRaw _ => false
  end.

(** The template lets the encounter step go through: an encounter reference
    is given, or the template is an object whose [context], if it has one, is
    an object whose [encounter], if it has one, is an array of such
    entries. *)
Definition encounterReady (o : LocalizationOptions) (t : tpl) : bool :=
  JS.given (encounterReference o) ||
  match t with
  | TObj fields =>
      match tassoc "context" fields with
      | None => true
      | Some (TObj cfields) =>
          match tassoc "encounter" cfields with
          | None => true
          | Some (TArr entries) => forallb entry_ready entries
          | Some _ => false
          end
      | Some _ => false
      end
  | _ => false
  end.

(** The template and the options let the contained step go through: no
    contained encounter is given (or a falsy one); or the one given is a
    well-formed value, or a text that parses, and the template is an object
    whose [contained], if it has one, is an array. *)
Definition containedReady (o : LocalizationOptions) (t : tpl) : bool :=
  match encounterContained o with
  | None => true
  | Some c =>
      negb (JS.truthy_json c) ||
      (wf c
       && match c with
          | JStr s => match JSON.parse s with Some _ => true | None => false end
          | _ => true
          end
       && match t with
          | TObj fields =>
              match tassoc "contained" fields with
              | None | Some (TArr _) => true
              | Some _ => false
              end
          | _ => false
          end)
  end.

(** The output can be written: [writeToFile] is [false], or neither
    [mkdirSync] nor [writeFileSync] throws. *)
Definition outputReady (w : World) (root : list string) (o : LocalizationOptions)
  : bool :=
  bool_decide (writeToFile o = Some false) ||
  (match w_mkdir w (fst (outputPath root o)) with None => true | Some _ => false end
   && match w_writeFile w (snd (outputPath root o)) with None => true | Some _ => false end).

End Fill.

(** ** Sample environments *)

Module Examples.

Import Request.

Definition configA : dirent :=
  {| d_name := "alpha.json";
     d_content := Some (Str.q "{'name':'alpha','fhirBaseUrl':'https://a.example/fhir','mode':'open'}");
     d_mtime := 100 |}.

Definition configB : dirent :=
  {| d_name := "beta.json";
     d_content := Some (Str.q "{'name':'beta','fhirBaseUrl':'https://b.example/fhir','accessToken':'tok','mode':'manual'}");
     d_mtime := 200 |}.

(** A configuration without an access token, in a mode other than open. *)
Definition configC : dirent :=
  {| d_name := "gamma.json";
     d_content := Some (Str.q "{'name':'gamma','fhirBaseUrl':'https://c.example/fhir','mode':'manual'}");
     d_mtime := 300 |}.

Definition notFound : Response :=
  {| status := 404; statusText := "Not Found";
     headerEntries := [("content-type", "text/plain")];
     r_body := "no such resource" |}.

(** A search result: a body that is re-serialised. *)
Definition bundle : Response :=
  {| status := 200; statusText := "OK";
     headerEntries := [("content-type", "application/fhir+json");
                       ("etag", "W/1")];
     r_body := Str.q "{'resourceType':'Bundle','total':2,'entry':[]}" |}.

(** A project at [/home/proj] whose [.fhir-configs] holds [entries], asked
    from [/home/proj/debug]; every request is answered by [resp]. *)
Definition requestWorld (entries : list dirent) (resp : Response) : World :=
  {| w_cwd := ["debug"; "proj"; "home"];
     w_configs := fun dir =>
       if bool_decide (dir = ["proj"; "home"]) then Some entries else None;
     w_file := fun p =>
       if String.eqb p "/home/proj/body.json" then Some (Str.q "{'resourceType':'DocumentReference'}")
       else None;
     w_fetch := fun _ => Ok resp;
     w_write := fun _ _ => None;
     w_requestTime := 1000;
     w_responseTime := 1042;
     w_iso := fun t => "T" +:+ JS.of_Z t |}.

(** The same project, in which no directory [/home/proj/debug/run7]
    exists. *)
Definition missingDirWorld : World :=
  {| w_cwd := ["debug"; "proj"; "home"];
     w_configs := fun dir =>
       if bool_decide (dir = ["proj"; "home"]) then Some [configA] else None;
     w_file := fun _ => None;
     w_fetch := fun _ => Ok notFound;
     w_write := fun dir file =>
       if String.eqb dir "/home/proj/debug/run7"
       then Some (ENOENT (dir +:+ "/" +:+ file)) else None;
     w_requestTime := 1000;
     w_responseTime := 1042;
     w_iso := fun t => "T" +:+ JS.of_Z t |}.

Definition getMetadata : RequestSpec :=
  {| method := "GET"; path := "/metadata"; bodyFile := None; headers := None;
     purpose := "capabilities"; configName := None; callerDir := None |}.

(** The caller names a directory for the response files. *)
Definition getInto (dir : string) : RequestSpec :=
  {| method := "GET"; path := "/metadata"; bodyFile := None; headers := None;
     purpose := "capabilities"; configName := None; callerDir := Some dir |}.

(** The caller asks for another representation and brings credentials. *)
Definition getWithHeaders : RequestSpec :=
  {| method := "GET"; path := "/metadata"; bodyFile := None;
     headers := Some {[ "Accept" := "text/html"; "Authorization" := "Basic abc" ]};
     purpose := "capabilities"; configName := None; callerDir := None |}.

Definition postBody : RequestSpec :=
  {| method := "POST"; path := "/DocumentReference"; bodyFile := Some "body.json";
     headers := None; purpose := "create"; configName := Some "beta";
     callerDir := Some "/home/proj/debug/run1" |}.


(** *** The localizer *)

Import Text Localize.

Definition noon : Date :=
  {| toISOString := "2025-01-15T14:30:00.000Z";
     toTimeString := "14:30:00 GMT+0000 (Coordinated Universal Time)" |}.

(** A template with the placeholders the localizer fills, laid out as
    [JSON.stringify(_, null, 2)] lays a document out. *)
Definition noteTemplate : string :=
  Str.q "{
  'resourceType': 'DocumentReference',
  'identifier': [
    {
      'system': '{{IDENTIFIER_SYSTEM}}',
      'value': '{{IDENTIFIER_VALUE}}'
    }
  ],
  'status': 'current',
  'subject': {
    'reference': 'Patient/{{PATIENT_ID}}',
    'display': '{{PATIENT_NAME}}'
  },
  'date': '{{CURRENT_TIMESTAMP}}',
  'author': [
    {
      'reference': '{{AUTHOR_REFERENCE}}',
      'display': '{{AUTHOR_DISPLAY}}'
    }
  ],
  'content': [
    {
      'attachment': {
        'contentType': '{{CONTENT_TYPE}}',
        'data': '{{BASE64_CONTENT}}',
        'size': {{CONTENT_SIZE}},
        'title': 'Note written by {{APP_NAME}}'
      }
    }
  ],
  'context': {
    'encounter': [
      {
        'reference': '{{ENCOUNTER_REFERENCE}}',
        'display': '{{ENCOUNTER_DISPLAY}}'
      }
    ],
    'period': {
      'start': '{{PERIOD_START}}',
      'end': '{{PERIOD_END}}'
    }
  }
}".

Definition noteContent : string :=
  "Consultation for {{PATIENT_NAME}} by {{AUTHOR_NAME}} on {{CURRENT_DATE}}.".

(** A project at [/home/proj], asked from [/home/proj/notes]. *)
Definition localizeWorld (templateText : string) : Localize.World :=
  {| Localize.w_cwd := ["notes"; "proj"; "home"];
     w_hasConfigs := fun dir => bool_decide (dir = ["proj"; "home"]);
     w_templates := fun _ => Some templateText;
     w_samples := fun _ => Some noteContent;
     w_generate := fun g =>
       match Localize.assoc g outputMap with
       | Some file => Some [(file, noteContent)]
       | None => Some []
       end;
     w_mkdir := fun _ => None;
     w_writeFile := fun _ => None;
     w_contentNow := noon;
     w_templateNow := noon;
     w_identifierNow := 1736951400000;
     w_syntaxMessage := fun _ => "JSON Parse error: Unexpected EOF" |}.

(** No directory from [/tmp/work] up to the root holds [.fhir-configs]. *)
Definition rootlessWorld : Localize.World :=
  {| Localize.w_cwd := ["work"; "tmp"];
     w_hasConfigs := fun _ => false;
     w_templates := fun _ => Some noteTemplate;
     w_samples := fun _ => Some noteContent;
     w_generate := fun _ => None;
     w_mkdir := fun _ => None;
     w_writeFile := fun _ => None;
     w_contentNow := noon;
     w_templateNow := noon;
     w_identifierNow := 1736951400000;
     w_syntaxMessage := fun _ => "JSON Parse error: Unexpected EOF" |}.

Definition optionsFor (ty : string) : LocalizationOptions :=
  {| type := ty; patientId := "patient-123"; patientName := None;
     authorReference := None; authorDisplay := None; encounterReference := None;
     encounterDisplay := None; encounterContained := None;
     identifierSystem := None; server := "smart"; outputDir := None;
     writeToFile := Some false |}.

Definition withEncounter (ref : string) (o : LocalizationOptions)
  : LocalizationOptions :=
  {| type := type o; patientId := patientId o; patientName := patientName o;
     authorReference := authorReference o; authorDisplay := authorDisplay o;
     encounterReference := Some ref;
     encounterDisplay := encounterDisplay o;
     encounterContained := encounterContained o;
     identifierSystem := identifierSystem o; server := server o;
     outputDir := outputDir o; writeToFile := writeToFile o |}.

Definition withContained (c : json) (o : LocalizationOptions) : LocalizationOptions :=
  {| type := type o; patientId := patientId o; patientName := patientName o;
     authorReference := authorReference o; authorDisplay := authorDisplay o;
     encounterReference := encounterReference o;
     encounterDisplay := encounterDisplay o;
     encounterContained := Some c;
     identifierSystem := identifierSystem o; server := server o;
     outputDir := outputDir o; writeToFile := writeToFile o |}.

Definition withPatientName (name : string) (o : LocalizationOptions)
  : LocalizationOptions :=
  {| type := type o; patientId := patientId o; patientName := Some name;
     authorReference := authorReference o; authorDisplay := authorDisplay o;
     encounterReference := encounterReference o;
     encounterDisplay := encounterDisplay o;
     encounterContained := encounterContained o;
     identifierSystem := identifierSystem o; server := server o;
     outputDir := outputDir o; writeToFile := writeToFile o |}.

Definition cliFor (ty : string) : CliValues :=
  {| v_help := false; v_type := Some ty; v_patientId := Some "patient-123";
     v_patientName := None; v_authorReference := None; v_authorDisplay := None;
     v_encounterReference := None; v_encounterDisplay := None;
     v_encounterContained := None; v_identifierSystem := None;
     v_server := Some "smart"; v_outputDir := None |}.

(** The document of [noteTemplate]. *)
Definition noteTpl : Template.tpl :=
  let str := fun s => Template.TStr (Template.chars s) in
  let hole := fun n => Template.TStr [Template.Hole n] in
  Template.TObj [
    ("resourceType", str "DocumentReference");
    ("identifier", Template.TArr [
       Template.TObj [ ("system", hole "IDENTIFIER_SYSTEM");
                       ("value", hole "IDENTIFIER_VALUE") ] ]);
    ("status", str "current");
    ("subject", Template.TObj [
       ("reference",
        Template.TStr (Template.chars "Patient/" ++ [Template.Hole "PATIENT_ID"]));
       ("display", hole "PATIENT_NAME") ]);
    ("date", hole "CURRENT_TIMESTAMP");
    ("author", Template.TArr [
       Template.TObj [ ("reference", hole "AUTHOR_REFERENCE");
                       ("display", hole "AUTHOR_DISPLAY") ] ]);
    ("content", Template.TArr [
       Template.TObj [
         ("attachment", Template.TObj [
            ("contentType", hole "CONTENT_TYPE");
            ("data", hole "BASE64_CONTENT");
            ("size", Template.TRaw [Template.Hole "CONTENT_SIZE"]);
            ("title",
             Template.TStr (Template.chars "Note written by "
                            ++ [Template.Hole "APP_NAME"])) ]) ] ]);
    ("context", Template.TObj [
       ("encounter", Template.TArr [
          Template.TObj [ ("reference", hole "ENCOUNTER_REFERENCE");
                          ("display", hole "ENCOUNTER_DISPLAY") ] ]);
       ("period", Template.TObj [ ("start", hole "PERIOD_START");
                                  ("end", hole "PERIOD_END") ]) ])
  ].

End Examples.

(** ** The values [replaceContentPlaceholders] fills in *)

Module Content.

Import Str Text Template Localize.

(** The placeholders of [replaceContentPlaceholders] and their values, in
    the order of the replacements. *)
Definition contentEnv (now : Date) (o : LocalizationOptions) : env :=
  let patientName := JS.or_default (patientName o) "Test Patient" in
  let authorDisplay := JS.or_default (authorDisplay o) "Dr. Example Provider" in
  [ ("PATIENT_NAME", patientName);
    ("PATIENT_ID", patientId o);
    ("PATIENT_GIVEN_NAME", fst (patientNames patientName));
    ("PATIENT_FAMILY_NAME", snd (patientNames patientName));
    ("AUTHOR_NAME", authorDisplay);
    ("AUTHOR_GIVEN_NAME", authorGiven authorDisplay);
    ("AUTHOR_FAMILY_NAME", authorFamily authorDisplay);
    ("AUTHOR_SUFFIX", authorSuffix authorDisplay);
    ("AUTHOR_TITLE", orElse (authorSuffix authorDisplay) "MD");
    ("APP_NAME", "FHIR Test App");
    ("CURRENT_DATE", currentDate now);
    ("CURRENT_TIME", currentTime now);
    ("CURRENT_TIMESTAMP", toISOString now);
    ("CURRENT_TIMESTAMP_CDA", currentTimestampCDA now) ].

(** The values that come from the caller and from the clock have neither a
    dollar sign nor an opening brace. *)
Definition cleanOptions (now : Date) (o : LocalizationOptions) : bool :=
  clean (JS.or_default (patientName o) "Test Patient")
  && clean (patientId o)
  && clean (JS.or_default (authorDisplay o) "Dr. Example Provider")
  && clean (toISOString now)
  && clean (toTimeString now).

End Content.

(** ** The generator of the large note ([generate-large-file.ts]) *)

Module Generators.

Import Str.

(** 5 MiB in bytes. *)
Definition TARGET_SIZE : Z := 5 * 1024 * 1024.

Definition sampleParagraph : string :=
  "This is a sample clinical note paragraph that will be repeated many times to create a large file for testing purposes. The FHIR Writing Clinical Notes specification requires that servers SHALL accept inline attachments up to at least 5 MiB. This generated file helps verify compliance with that requirement. ".

(** The head of the document; [iso] is [new Date().toISOString()]. *)
Definition heading (iso : string) : string :=
  "LARGE CLINICAL NOTE - SIZE LIMIT TEST

This document is generated to test the 5 MiB inline content requirement.

Date: " +:+ iso +:+ "
Purpose: Verify server accepts attachments >= 5 MiB as required by spec section 4.10

CONTENT:
".

(** [Buffer.byteLength(s, 'utf8')] of a text held as its UTF-8 bytes. *)
Definition byteLength (s : string) : Z := Z.of_nat (String.length s).

(** [Math.ceil(a / b)] for a positive divisor. *)
Definition ceilDiv (a b : Z) : Z := (- ((- a) / b))%Z.

Definition paragraphsNeeded (content : string) : Z :=
  ceilDiv (TARGET_SIZE - byteLength content) (byteLength sampleParagraph).

(** The loop [for (let i = 0; i < paragraphsNeeded; i++)]: [todo] rounds are
    left and [i] is the counter. *)
Fixpoint addParagraphs (todo : nat) (i : nat) (content : string) : string :=
  match todo with
  | 0 => content
  | S todo' =>
      addParagraphs todo' (S i)
        (content +:+ JSON.nl +:+ "Paragraph " +:+ JS.of_nat (i + 1) +:+ ":" +:+ JSON.nl
         +:+ sampleParagraph)
  end.

(** The text before the closing lines. *)
Definition body (iso : string) : string :=
  addParagraphs (Z.to_nat (paragraphsNeeded (heading iso))) 0 (heading iso).

(** The closing lines: the size they state is that of the text before
    them. *)
Definition closing (content : string) : string :=
  JSON.nl +:+ JSON.nl +:+ "END OF DOCUMENT" +:+ JSON.nl +:+ "Final size: "
  +:+ JS.of_Z (byteLength content) +:+ " bytes".

(** [generateLargeFile]: the name and the content of the file it writes. *)
Definition generateLargeFile (iso : string) : string * string :=
  ("large-note.txt", body iso +:+ closing (body iso)).

End Generators.

(** ** The values the earlier [localizeTemplate] fills in *)

Module FillV1.

Import Str Text Template Localize.

(** The placeholders of the earlier [localizeTemplate] and their values, in
    the order of the replacements. *)
Definition templateEnv (w : World) (encounterNow : Z) (o : LocalizationOptions)
  (base64Content : string) (contentSize : nat) (contentType : string) : env :=
  let identifierSystem :=
    JS.or_default (identifierSystem o) "https://example.com/fhir-test" in
  [ ("IDENTIFIER_SYSTEM", identifierSystem);
    ("IDENTIFIER_VALUE", type o +:+ "-" +:+ JS.of_Z (w_identifierNow w));
    ("PATIENT_ID", patientId o);
    ("PATIENT_NAME", JS.or_default (patientName o) "Test Patient");
    ("AUTHOR_REFERENCE", JS.or_default (authorReference o) "Practitioner/example");
    ("AUTHOR_DISPLAY", JS.or_default (authorDisplay o) "Dr. Example Provider");
    ("ENCOUNTER_REFERENCE", JS.or_default (encounterReference o) "#e1");
    ("ENCOUNTER_DISPLAY", JS.or_default (encounterDisplay o) "Office Visit");
    ("ENCOUNTER_IDENTIFIER_SYSTEM", identifierSystem +:+ "/encounters");
    ("ENCOUNTER_IDENTIFIER_VALUE", "enc-" +:+ JS.of_Z encounterNow);
    ("ENCOUNTER_START", "2025-01-15T08:00:00Z");
    ("ENCOUNTER_END", "2025-01-15T09:00:00Z");
    ("CURRENT_TIMESTAMP", toISOString (w_templateNow w));
    ("PERIOD_START", "2025-01-15T08:00:00Z");
    ("PERIOD_END", "2025-01-15T09:00:00Z");
    ("CONTENT_TYPE", contentType);
    ("BASE64_CONTENT", base64Content);
    ("CONTENT_SIZE", JS.of_nat contentSize);
    ("APP_NAME", "FHIR Test App") ].

(** The placeholders the two variants of the localizer fill differently
    whatever the options. *)
Definition differing : list string :=
  [ "PERIOD_START"; "PERIOD_END"; "ENCOUNTER_IDENTIFIER_SYSTEM";
    "ENCOUNTER_IDENTIFIER_VALUE"; "ENCOUNTER_START"; "ENCOUNTER_END" ].

Definition shared_atom (a : atom) : bool :=
  match a with
  | Ch _ => true
  | Hole n => negb (existsb (String.eqb n) differing)
  end.

End FillV1.

(** ** The setup server ([setup.ts]) *)

Module Setup.

Import Str.

(** [JSON.stringify(v)], without indentation. *)
Fixpoint compact (v : json) : string :=
  match v with
  | JNull => "null"
  | JBool true => "true"
  | JBool false => "false"
  | JNum lit => lit
  | JStr s => JSON.quote s
  | JArr [] => "[]"
  | JArr (x :: xs) =>
      "[" +:+ compact x
      +:+ (fix rest (l : list json) : string :=
             match l with
             | [] => ""
             | y :: l' => "," +:+ compact y +:+ rest l'
             end) xs
      +:+ "]"
  | JObj [] => "{}"
  | JObj ((k, x) :: xs) =>
      "{" +:+ JSON.quote k +:+ ":" +:+ compact x
      +:+ (fix rest (l : list (string * json)) : string :=
             match l with
             | [] => ""
             | (k', y) :: l' => "," +:+ JSON.quote k' +:+ ":" +:+ compact y +:+ rest l'
             end) xs
      +:+ "}"
  end.

(** The file-system calls the server makes, on a state [S] of the disk, and
    [path.join].  A call that throws leaves the disk as it was. *)
Record FileSystem (S : Type) := {
  existsSync : S -> string -> bool;
  readFileSync : S -> string -> result string;
  writeFileSync : S -> string -> string -> result S;
  unlinkSync : S -> string -> result S;
  readdirSync : S -> string -> result (list string);
  join : string -> string -> string
}.
Arguments existsSync {S}.
Arguments readFileSync {S}.
Arguments writeFileSync {S}.
Arguments unlinkSync {S}.
Arguments readdirSync {S}.
Arguments join {S}.

(** What the script fixes when it starts, and the message the engine gives
    an error. *)
Record Server (S : Type) := {
  fs : FileSystem S;
  CONFIG_DIR : string;
  HTML_PAGE : string;
  message : error -> string
}.
Arguments fs {S}.
Arguments CONFIG_DIR {S}.
Arguments HTML_PAGE {S}.
Arguments message {S}.

(** A request once its body has been received: [body] is the text the
    [data] events have accumulated when [end] fires. *)
Record Request := {
  r_method : string;
  r_url : string;
  r_body : string
}.

Record Response := {
  status : nat;
  headers : list (string * string);
  body : string
}.

(** The response, the disk afterwards, and the delay in milliseconds after
    which [process.exit(0)] has been scheduled, if it has. *)
Record Outcome (S : Type) := {
  o_response : Response;
  o_state : S;
  o_exit : option nat
}.
Arguments o_response {S}.
Arguments o_state {S}.
Arguments o_exit {S}.

(** The headers set on every response before routing. *)
Definition cors : list (string * string) := [
  ("Access-Control-Allow-Origin", "*");
  ("Access-Control-Allow-Methods", "GET, POST, OPTIONS");
  ("Access-Control-Allow-Headers", "Content-Type")
].

Definition respond (code : nat) (hs : list (string * string)) (text : string)
  : Response :=
  {| status := code; headers := cors ++ hs; body := text |}.

Definition asJson : list (string * string) := [("Content-Type", "application/json")].

Definition errorBody (msg : string) : string := compact (JObj [("error", JStr msg)]).

Section Handler.

Context {S : Type}.
Variable srv : Server S.

Definition configFile (name : JS.value) : string :=
  join (fs srv) (CONFIG_DIR srv) (JS.to_str name +:+ ".json").

(** A [try] block whose [catch] answers 500 with the message of the error. *)
Definition caught (st : S) (r : result (Outcome S)) : Outcome S :=
  match r with
  | Ok o => o
  | Throw e =>
      {| o_response := respond 500 asJson (errorBody (message srv e));
         o_state := st; o_exit := None |}
  end.

(** [{ name: file.replace('.json', ''), ...content }]: the properties of an
    array or of a string are its indices, which an object lists first. *)
Definition indexed (l : list json) : list (string * json) :=
  imap (fun i v => (JS.of_nat i, v)) l.

Fixpoint letters (s : string) : list json :=
  match s with
  | "" => []
  | String c s' => JStr (String c "") :: letters s'
  end.

Definition named (file : string) (content : json) : json :=
  let name := ("name", JStr (replaceFirst ".json" "" file)) in
  match content with
  | JObj o => JObj (fold_left (fun acc kv => JSON.obj_set acc (fst kv) (snd kv)) o [name])
  | JArr l => JObj (indexed l ++ [name])
  | JStr s => JObj (indexed (letters s) ++ [name])
  | _ => JObj [name]
  end.

Fixpoint readConfigs (st : S) (files : list string) : result (list json) :=
  match files with
  | [] => Ok []
  | file :: files' =>
      let* text := readFileSync (fs srv) st (join (fs srv) (CONFIG_DIR srv) file) in
      let* content := parse_or_throw text in
      let* rest := readConfigs st files' in
      Ok (named file content :: rest)
  end.

Definition listConfigs (st : S) : Outcome S :=
  caught st
    (let* entries := readdirSync (fs srv) st (CONFIG_DIR srv) in
     let files := filter (fun f => endsWith ".json" f = true) entries in
     let* configs := readConfigs st files in
     Ok {| o_response := respond 200 asJson (compact (JArr configs));
           o_state := st; o_exit := None |}).

Definition saveConfig (now : string) (st : S) (text : string) : Outcome S :=
  caught st
    (let* config := parse_or_throw text in
     match config with
     | JNull =>
         Throw (TypeError "null is not an object (evaluating 'config.fhirBaseUrl')")
     | _ =>
         if negb (JS.truthy (JS.get config "fhirBaseUrl")) then
           Ok {| o_response := respond 400 asJson (errorBody "fhirBaseUrl is required");
                 o_state := st; o_exit := None |}
         else if negb (JS.truthy (JS.get config "name")) then
           Ok {| o_response := respond 400 asJson (errorBody "config name is required");
                 o_state := st; o_exit := None |}
         else
           let saved :=
             match config with
             | JObj o => JObj (JSON.obj_set o "savedAt" (JStr now))
             | _ => config
             end in
           let file := configFile (JS.get config "name") in
           let* st' := writeFileSync (fs srv) st file (JSON.stringify saved) in
           Ok {| o_response :=
                   respond 200 asJson
                     (compact (JObj ([("success", JBool true); ("file", JStr file)]
                                     ++ match JS.get config "name" with
                                        | Some v => [("configName", v)]
                                        | None => []
                                        end)));
                 o_state := st'; o_exit := Some 1000 |}
     end).

Definition selectConfig (st : S) (text : string) : Outcome S :=
  caught st
    (let* parsed := parse_or_throw text in
     match parsed with
     | JNull => Throw (TypeError "Right side of assignment cannot be destructured")
     | _ =>
         let name := JS.get parsed "name" in
         if negb (existsSync (fs srv) st (configFile name)) then
           Ok {| o_response := respond 404 asJson (errorBody "Config not found");
                 o_state := st; o_exit := None |}
         else
           let* content := readFileSync (fs srv) st (configFile name) in
           let* config := parse_or_throw content in
           match config with
           | JNull =>
               Throw (TypeError "null is not an object (evaluating 'config.fhirBaseUrl')")
           | _ =>
               Ok {| o_response :=
                       respond 200 asJson
                         (compact (JObj ([("success", JBool true)]
                                         ++ match name with
                                            | Some v => [("configName", v)]
                                            | None => []
                                            end)));
                     o_state := st; o_exit := Some 1000 |}
           end
     end).

Definition deleteConfig (st : S) (text : string) : Outcome S :=
  caught st
    (let* parsed := parse_or_throw text in
     match parsed with
     | JNull => Throw (TypeError "Right side of assignment cannot be destructured")
     | _ =>
         let name := JS.get parsed "name" in
         if negb (existsSync (fs srv) st (configFile name)) then
           Ok {| o_response := respond 404 asJson (errorBody "Config not found");
                 o_state := st; o_exit := None |}
         else
           let* st' := unlinkSync (fs srv) st (configFile name) in
           Ok {| o_response := respond 200 asJson (compact (JObj [("success", JBool true)]));
                 o_state := st'; o_exit := None |}
     end).

(** The request listener; [now] is the clock when the request ends. *)
Definition handle (now : string) (st : S) (req : Request) : Outcome S :=
  let route := fun (url method : string) =>
    String.eqb (r_url req) url && String.eqb (r_method req) method in
  if String.eqb (r_method req) "OPTIONS" then
    {| o_response := respond 200 [] ""; o_state := st; o_exit := None |}
  else if route "/list-configs" "GET" then listConfigs st
  else if route "/save-config" "POST" then saveConfig now st (r_body req)
  else if route "/select-config" "POST" then selectConfig st (r_body req)
  else if route "/delete-config" "POST" then deleteConfig st (r_body req)
  else if route "/shutdown" "POST" then
    {| o_response := respond 200 [] "OK"; o_state := st; o_exit := Some 500 |}
  else if String.eqb (r_url req) "/" || prefixb "/?" (r_url req) then
    {| o_response := respond 200 [("Content-Type", "text/html")] (HTML_PAGE srv);
       o_state := st; o_exit := None |}
  else {| o_response := respond 404 [] "Not Found"; o_state := st; o_exit := None |}.

End Handler.

End Setup.

(** * Properties *)

(** ** Strings *)

Module StrFacts.

Import Str.

Lemma append_nil_r (s : string) : s +:+ "" = s.
Proof. induction s as [|c s IH]; simpl; [reflexivity | now rewrite IH]. Qed.

Lemma append_assoc (a b c : string) : (a +:+ b) +:+ c = a +:+ (b +:+ c).
Proof. induction a as [|x a IH]; simpl; [reflexivity | now rewrite IH]. Qed.

Lemma snoc_append (a : string) (c : ascii) (b : string) :
  snoc a c +:+ b = a +:+ String c b.
Proof. unfold snoc. now rewrite append_assoc. Qed.

Lemma prefixb_app (p s : string) : prefixb p (p +:+ s) = true.
Proof.
  induction p as [|a p IH]; simpl; [reflexivity |].
  now rewrite Ascii.eqb_refl, IH.
Qed.

Lemma prefixb_spec (p s : string) :
  prefixb p s = true <-> exists r, s = p +:+ r.
Proof.
  split.
  - revert s. induction p as [|a p IH]; intros s H; simpl in *.
    + now exists s.
    + destruct s as [|b s]; [discriminate |].
      apply andb_true_iff in H as [Hab Hp].
      apply Ascii.eqb_eq in Hab. subst b.
      destruct (IH _ Hp) as [r ->]. now exists r.
  - intros [r ->]. apply prefixb_app.
Qed.

Lemma includes_unfold (p s : string) :
  includes p s =
  prefixb p s || match s with "" => false | String _ s' => includes p s' end.
Proof. destruct s; reflexivity. Qed.

(** [includes] finds exactly the substrings. *)
Lemma includes_spec (p s : string) :
  includes p s = true <-> exists a b, s = a +:+ p +:+ b.
Proof.
  split.
  - induction s as [|c s IH]; simpl; intros H.
    + apply orb_true_iff in H as [H | H]; [| discriminate].
      apply prefixb_spec in H as [r ->]. now exists "", r.
    + apply orb_true_iff in H as [H | H].
      * apply prefixb_spec in H as [r Hr]. exists "", r. now rewrite Hr.
      * destruct (IH H) as (a & b & ->). now exists (String c a), b.
  - intros (a & b & ->). induction a as [|c a IH]; simpl.
    + now rewrite includes_unfold, prefixb_app.
    + rewrite IH. apply orb_true_r.
Qed.

(** Splitting what [join] put together gives the pieces back, when no piece
    contains the separator. *)
Lemma split_go_piece (sep : ascii) (t cur rest : string) :
  all (fun c => negb (Ascii.eqb c sep)) t = true ->
  split_go sep cur (t +:+ rest) = split_go sep (cur +:+ t) rest.
Proof.
  revert cur. induction t as [|c t IH]; intros cur H; simpl in *.
  - now rewrite append_nil_r.
  - apply andb_true_iff in H as [Hc Ht].
    apply negb_true_iff in Hc. rewrite Hc, (IH _ Ht).
    now rewrite snoc_append.
Qed.

Lemma split_go_sep (sep : ascii) (cur r : string) :
  split_go sep cur (String sep r) = cur :: split_go sep "" r.
Proof. simpl. now rewrite Ascii.eqb_refl. Qed.

Lemma split_go_join (sep : ascii) (ts : list string) (t cur : string) :
  Forall (fun t => all (fun c => negb (Ascii.eqb c sep)) t = true) (t :: ts) ->
  split_go sep cur (join (String sep "") (t :: ts)) = (cur +:+ t) :: ts.
Proof.
  revert t cur. induction ts as [|u ts IH]; intros t cur H.
  - inversion H; subst. simpl.
    rewrite <- (append_nil_r t) at 1.
    now rewrite split_go_piece by assumption.
  - inversion H; subst.
    change (join (String sep "") (t :: u :: ts))
      with (t +:+ String sep (join (String sep "") (u :: ts))).
    rewrite split_go_piece, split_go_sep by assumption.
    now rewrite IH.
Qed.

Lemma split_join (sep : ascii) (t : string) (ts : list string) :
  Forall (fun t => all (fun c => negb (Ascii.eqb c sep)) t = true) (t :: ts) ->
  split sep (join (String sep "") (t :: ts)) = t :: ts.
Proof. intros H. unfold split. now rewrite split_go_join. Qed.

End StrFacts.

(** ** The request executor *)

Module RequestFacts.

Import Str StrFacts Request.

Lemma join_includes (sep : string) (l : list string) (x : string) :
  x ∈ l -> exists a b, join sep l = a +:+ x +:+ b.
Proof.
  induction l as [|y l IH]; intros H.
  - inversion H.
  - apply elem_of_cons in H as [-> | H].
    + destruct l as [|z l].
      * exists "", "". simpl. now rewrite append_nil_r.
      * exists "", (sep +:+ join sep (z :: l)). reflexivity.
    + destruct (IH H) as (a & b & E). destruct l as [|z l]; [inversion H |].
      exists (y +:+ sep +:+ a), b.
      change (join sep (y :: z :: l)) with (y +:+ sep +:+ join sep (z :: l)).
      rewrite E. now rewrite !append_assoc.
Qed.

(** The most recently modified entry comes first after the sort, the earlier
    of two entries of the same age before the later. *)
Lemma sort_recent_head (l : list dirent) :
  l <> [] ->
  exists d rest, sort_recent l = d :: rest /\ d ∈ l /\
                 forall e, e ∈ l -> (d_mtime e <= d_mtime d)%Z.
Proof.
  induction l as [|x l IH]; intros Hne; [congruence |].
  destruct l as [|y l].
  - exists x, []. repeat split; [left |].
    intros e He. apply list_elem_of_singleton in He. subst. lia.
  - destruct IH as (d & rest & Hs & Hd & Hmax); [congruence |].
    change (sort_recent (x :: y :: l)) with (insert_recent x (sort_recent (y :: l))).
    rewrite Hs. simpl.
    destruct (d_mtime d - d_mtime x <=? 0)%Z eqn:E.
    + exists x, (d :: rest). repeat split; [left |].
      intros e He. apply elem_of_cons in He as [-> | He]; [lia |].
      specialize (Hmax e He). lia.
    + exists d, (insert_recent x rest). repeat split; [now right |].
      intros e He. apply elem_of_cons in He as [-> | He]; [lia |].
      now apply Hmax.
Qed.

Definition afterSelection (w : World) (root : list string) (spec : RequestSpec)
  (d : dirent) : list event * outcome :=
  match loadConfig root d with
  | Ok config => send w root config spec
  | Throw e => ([], Threw e)
  end.

(** C2 (amended).  With no [configName]: the variant that demands
    disambiguation fails with the instruction to run the setup script when
    there is no [.json] entry, loads the entry when there is exactly one, and
    fails with a message that lists every candidate name when there are two or
    more; the variant under [assets/lib] fails with "No FHIR config found"
    when there is none and otherwise loads a most recently modified entry. *)
Theorem selection_without_name (w : World) (spec : RequestSpec) (root : list string) :
  JS.given (configName spec) = false ->
  findProjectRoot w (w_cwd w) = Ok root ->
  let files := filter (fun d => isJsonFile d = true) (readdir w root) in
  (files = [] ->
   execute w spec = ([], Threw (Error noConfigsMessage)) /\
   includes "Run the setup script" noConfigsMessage = true) /\
  (forall d, files = [d] -> execute w spec = afterSelection w root spec d) /\
  (2 <= length files ->
   execute w spec = ([], Threw (Error (multipleConfigsMessage files))) /\
   forall d, d ∈ files ->
     exists a b, multipleConfigsMessage files
                 = a +:+ replaceFirst ".json" "" (d_name d) +:+ b) /\
  (files = [] -> executeRecent w spec = ([], Threw (Error "No FHIR config found"))) /\
  (files <> [] ->
   exists d, d ∈ files /\ (forall e, e ∈ files -> (d_mtime e <= d_mtime d)%Z) /\
             executeRecent w spec = afterSelection w root spec d).
Proof.
  intros Hname Hroot files.
  unfold execute, executeRecent, selectConfig, selectConfigRecent, afterSelection.
  rewrite Hroot, Hname. fold files.
  repeat split.
  - now rewrite H.
  - intros d ->. now destruct (loadConfig root d).
  - destruct files as [|d1 [|d2 fs]]; simpl in H; [lia | lia | reflexivity].
  - intros d Hd. unfold multipleConfigsMessage, configNames.
    destruct (join_includes ", " (map (fun d => replaceFirst ".json" "" (d_name d)) files)
                (replaceFirst ".json" "" (d_name d))) as (a & b & E).
    { apply list_elem_of_fmap. now exists d. }
    rewrite E. exists ("Multiple FHIR configs found: " +:+ a).
    eexists. rewrite !append_assoc. reflexivity.
  - intros ->. reflexivity.
  - intros Hne. destruct (sort_recent_head files Hne) as (d & rest & Hs & Hd & Hmax).
    exists d. repeat split; [assumption | assumption |].
    rewrite Hs. now destruct (loadConfig root d).
Qed.

Import Examples.

Lemma selection_without_name_witness :
  execute (requestWorld [configA] notFound) getMetadata
  = afterSelection (requestWorld [configA] notFound) ["proj"; "home"] getMetadata configA.
Proof.
  apply (selection_without_name (requestWorld [configA] notFound) getMetadata
           ["proj"; "home"]); reflexivity.
Defined.

(** C2, as stated, fails on [assets/lib/fhir-request.ts]: with two
    configurations and no name, the later-modified one is used for the
    request and nothing is thrown. *)
Lemma recent_variant_selects_silently :
  JS.given (configName getMetadata) = false /\
  filter (fun d => isJsonFile d = true)
    (readdir (requestWorld [configA; configB] notFound) ["proj"; "home"])
  = [configA; configB] /\
  exists req evs,
    executeRecent (requestWorld [configA; configB] notFound) getMetadata
    = (EFetch req :: evs, Exited 1) /\
    f_url req = "https://b.example/fhir/metadata".
Proof.
  split; [reflexivity |]. split; [reflexivity |].
  eexists _, _. split; vm_compute; reflexivity.
Qed.

(** *** After the response *)

Lemma persist_no_fetch (w : World) (spec : RequestSpec) (r : Response)
  (req : FetchRequest) :
  EFetch req ∉ (persist w spec r).1.
Proof.
  unfold persist.
  destruct (w_write w (outputDir w spec) "response-metadata.json");
    [apply not_elem_of_nil |].
  destruct (w_write w (outputDir w spec) _); cbn [fst]; intros H;
    repeat (apply elem_of_cons in H as [H | H]; [discriminate |]);
    now apply elem_of_nil in H.
Qed.

(** Once the configuration is there and the headers are built, one request
    goes out; what follows depends on the answer. *)
Lemma send_request (w : World) (root : list string) (config : json)
  (spec : RequestSpec) (body : option json) (h : gmap string string) :
  config <> JNull ->
  buildHeaders w root config spec = Ok (body, h) ->
  send w root config spec
  = match w_fetch w (fetchRequest config spec body h) with
    | Throw e => ([EFetch (fetchRequest config spec body h)], Threw e)
    | Ok r =>
        (EFetch (fetchRequest config spec body h) :: (persist w spec r).1,
         (persist w spec r).2)
    end.
Proof.
  intros Hc Hb. unfold send. rewrite Hb.
  destruct config; try congruence;
    (destruct (w_fetch w _) as [r|e]; [now destruct (persist w spec r) | reflexivity]).
Qed.

Lemma send_fetch (w : World) (root : list string) (config : json)
  (spec : RequestSpec) (req : FetchRequest) :
  EFetch req ∈ (send w root config spec).1 ->
  exists body,
    config <> JNull /\
    buildHeaders w root config spec = Ok (body, f_headers req) /\
    req = fetchRequest config spec body (f_headers req) /\
    send w root config spec
    = match w_fetch w req with
      | Throw e => ([EFetch req], Threw e)
      | Ok r => (EFetch req :: (persist w spec r).1, (persist w spec r).2)
      end.
Proof.
  intros H.
  assert (Hc : config <> JNull).
  { intros ->. simpl in H. now apply elem_of_nil in H. }
  destruct (buildHeaders w root config spec) as [[body h]|e] eqn:Hb.
  - rewrite (send_request w root config spec body h Hc Hb) in H |- *.
    assert (req = fetchRequest config spec body h) as ->.
    { destruct (w_fetch w _) as [r|e]; cbn [fst] in H.
      - apply elem_of_cons in H as [H | H]; [congruence |].
        now apply persist_no_fetch in H.
      - apply list_elem_of_singleton in H. congruence. }
    exists body. repeat split; assumption || reflexivity.
  - unfold send in H. rewrite Hb in H.
    destruct config; simpl in H; now apply elem_of_nil in H.
Qed.

(** A request that was sent: the configuration it was built from. *)
Lemma executed_request (w : World) (spec : RequestSpec) (req : FetchRequest) :
  EFetch req ∈ (execute w spec).1 ->
  exists root config,
    findProjectRoot w (w_cwd w) = Ok root /\
    selectConfig w root spec = Ok config /\
    execute w spec = send w root config spec /\
    EFetch req ∈ (send w root config spec).1.
Proof.
  unfold execute. intros H.
  destruct (findProjectRoot w (w_cwd w)) as [root|e] eqn:Hr;
    [| simpl in H; now apply elem_of_nil in H].
  destruct (selectConfig w root spec) as [config|e] eqn:Hc;
    [| simpl in H; now apply elem_of_nil in H].
  exists root, config. repeat split; assumption.
Qed.

Lemma executedRecent_request (w : World) (spec : RequestSpec) (req : FetchRequest) :
  EFetch req ∈ (executeRecent w spec).1 ->
  exists root config,
    findProjectRoot w (w_cwd w) = Ok root /\
    selectConfigRecent w root spec = Ok config /\
    executeRecent w spec = send w root config spec /\
    EFetch req ∈ (send w root config spec).1.
Proof.
  unfold executeRecent. intros H.
  destruct (findProjectRoot w (w_cwd w)) as [root|e] eqn:Hr;
    [| simpl in H; now apply elem_of_nil in H].
  destruct (selectConfigRecent w root spec) as [config|e] eqn:Hc;
    [| simpl in H; now apply elem_of_nil in H].
  exists root, config. repeat split; assumption.
Qed.

(** [req] is the request a call sends once it has found the project root
    [root] and loaded the configuration [config]: the headers could be built
    (the body file, if one is named, was read and parsed). *)
Definition requestOf (w : World) (spec : RequestSpec) (root : list string)
  (config : json) (req : FetchRequest) : Prop :=
  config <> JNull /\
  exists body h,
    buildHeaders w root config spec = Ok (body, h) /\
    req = fetchRequest config spec body h.

Definition metadataFile (w : World) (spec : RequestSpec) (r : Response) : event :=
  EWrite (outputDir w spec) "response-metadata.json"
    (JSON.stringify (responseMetadata w r)).

(** How a call ends that has received, for [req], the response [r] with a
    status of 400 or more: with both files written and exit code 1; or, when
    a write throws, with that error and without the files not yet written. *)
Definition persisted (w : World) (spec : RequestSpec) (req : FetchRequest)
  (r : Response) (run : list event * outcome) : Prop :=
  exists ext body,
    (ext = "json" \/ ext = "txt") /\
    match w_write w (outputDir w spec) "response-metadata.json",
          w_write w (outputDir w spec) ("response-body." +:+ ext) with
    | Some e, _ => run = ([EFetch req], Threw e)
    | None, Some e => run = ([EFetch req; metadataFile w spec r], Threw e)
    | None, None =>
        run = ([EFetch req; metadataFile w spec r;
                EWrite (outputDir w spec) ("response-body." +:+ ext) body],
               Exited 1)
    end.

Lemma persist_error (w : World) (spec : RequestSpec) (req : FetchRequest)
  (r : Response) :
  400 <= status r ->
  persisted w spec req r (EFetch req :: (persist w spec r).1, (persist w spec r).2).
Proof.
  intros H. apply Nat.leb_le in H. unfold persisted, persist, metadataFile.
  rewrite H.
  destruct (JSON.parse (r_body r)) as [v|].
  - eexists "json", _. split; [now left |].
    destruct (w_write w (outputDir w spec) "response-metadata.json"); [reflexivity |].
    destruct (w_write w (outputDir w spec) _); reflexivity.
  - eexists "txt", _. split; [now right |].
    destruct (w_write w (outputDir w spec) "response-metadata.json"); [reflexivity |].
    destruct (w_write w (outputDir w spec) _); reflexivity.
Qed.


Import Examples.


(** C5, as stated, fails on the code: when [callerDir] names a directory
    that does not exist, the response of status 404 is received, the first
    write throws, and the call ends with that error: neither file is written
    and the process is not left with an exit code. *)
Lemma missing_directory_not_persisted :
  exists req,
    w_fetch missingDirWorld req = Ok notFound /\
    400 <= status notFound /\
    execute missingDirWorld (getInto "/home/proj/debug/run7")
    = ([EFetch req],
       Threw (ENOENT "/home/proj/debug/run7/response-metadata.json")) /\
    executeRecent missingDirWorld (getInto "/home/proj/debug/run7")
    = ([EFetch req],
       Threw (ENOENT "/home/proj/debug/run7/response-metadata.json")).
Proof.
  eexists. split; [reflexivity |]. split; [simpl; lia |].
  split; vm_compute; reflexivity.
Qed.

(** *** Headers *)

(** [req] is a request that one of the two variants of [execute] sends
    with the configuration [config]. *)
Definition executes (w : World) (spec : RequestSpec) (config : json)
  (req : FetchRequest) : Prop :=
  exists root,
    findProjectRoot w (w_cwd w) = Ok root /\
    (selectConfig w root spec = Ok config \/
     selectConfigRecent w root spec = Ok config) /\
    EFetch req ∈ (send w root config spec).1.

Lemma execute_executes (w : World) (spec : RequestSpec) (req : FetchRequest) :
  EFetch req ∈ (execute w spec).1 -> exists config, executes w spec config req.
Proof.
  intros H. destruct (executed_request _ _ _ H) as (root & config & Hr & Hc & _ & H').
  exists config, root. auto.
Qed.

Lemma executeRecent_executes (w : World) (spec : RequestSpec) (req : FetchRequest) :
  EFetch req ∈ (executeRecent w spec).1 -> exists config, executes w spec config req.
Proof.
  intros H.
  destruct (executedRecent_request _ _ _ H) as (root & config & Hr & Hc & _ & H').
  exists config, root. auto.
Qed.

Definition callerHeaders (spec : RequestSpec) : gmap string string :=
  default ∅ (headers spec).

(** Whether the executor adds a bearer token of its own. *)
Definition addsBearer (config : json) : bool :=
  JS.truthy (JS.get config "accessToken")
  && negb (JS.is_string (JS.get config "mode") "open").

Lemma baseHeaders_lookup (spec : RequestSpec) (k : string) :
  baseHeaders spec !! k =
  match callerHeaders spec !! k with
  | Some v => Some v
  | None => if String.eqb k "Accept" then Some "application/fhir+json" else None
  end.
Proof.
  unfold baseHeaders, callerHeaders.
  destruct (default ∅ (headers spec) !! k) as [v|] eqn:E.
  - now apply lookup_union_Some_l.
  - rewrite lookup_union_r by assumption.
    destruct (String.eqb_spec k "Accept") as [-> | Hne].
    + apply lookup_singleton_eq.
    + apply lookup_singleton_ne. congruence.
Qed.

Lemma buildHeaders_lookup (w : World) (root : list string) (config : json)
  (spec : RequestSpec) (body : option json) (h : gmap string string) (k : string) :
  buildHeaders w root config spec = Ok (body, h) ->
  h !! k =
  if String.eqb k "Content-Type" && JS.given (bodyFile spec)
  then Some "application/fhir+json"
  else if String.eqb k "Authorization" && addsBearer config
  then Some ("Bearer " +:+ JS.to_str (JS.get config "accessToken"))
  else match callerHeaders spec !! k with
       | Some v => Some v
       | None => if String.eqb k "Accept" then Some "application/fhir+json" else None
       end.
Proof.
  unfold buildHeaders, loadBody. intros H.
  assert (Hauth : withAuthorization config (baseHeaders spec) !! k =
                  if String.eqb k "Authorization" && addsBearer config
                  then Some ("Bearer " +:+ JS.to_str (JS.get config "accessToken"))
                  else baseHeaders spec !! k).
  { unfold withAuthorization. fold (addsBearer config).
    destruct (addsBearer config); [| now rewrite andb_false_r].
    rewrite andb_true_r.
    destruct (String.eqb_spec k "Authorization") as [-> | Hne].
    - apply lookup_insert_eq.
    - rewrite lookup_insert_ne by congruence. reflexivity. }
  rewrite <- baseHeaders_lookup, <- Hauth.
  destruct (JS.given (bodyFile spec)).
  - destruct (w_file w _) as [text|]; [| discriminate].
    destruct (parse_or_throw text) as [b|e]; [| discriminate].
    simpl in H. inversion H; subst. rewrite andb_true_r.
    destruct (String.eqb_spec k "Content-Type") as [-> | Hne].
    + apply lookup_insert_eq.
    + rewrite lookup_insert_ne by congruence. reflexivity.
  - inversion H; subst. now rewrite andb_false_r.
Qed.

(** C7 (amended).  The headers of every request that is sent: [Accept] is
    the caller's own when the caller supplies one and [application/fhir+json]
    otherwise; every other header of the caller is passed on, except that
    [Authorization] is [Bearer <accessToken>] whenever the configuration has
    a truthy access token and a mode other than [open], and [Content-Type] is
    [application/fhir+json] whenever a body file is named. *)
Theorem request_headers (w : World) (spec : RequestSpec) (config : json)
  (req : FetchRequest) :
  executes w spec config req ->
  f_headers req !! "Accept"
  = Some (default "application/fhir+json" (callerHeaders spec !! "Accept")) /\
  (forall k v, callerHeaders spec !! k = Some v ->
               k <> "Authorization" -> k <> "Content-Type" ->
               f_headers req !! k = Some v) /\
  f_headers req !! "Authorization"
  = (if addsBearer config
     then Some ("Bearer " +:+ JS.to_str (JS.get config "accessToken"))
     else callerHeaders spec !! "Authorization") /\
  f_headers req !! "Content-Type"
  = (if JS.given (bodyFile spec) then Some "application/fhir+json"
     else callerHeaders spec !! "Content-Type").
Proof.
  intros (root & _ & _ & H').
  destruct (send_fetch _ _ _ _ _ H') as (body & _ & Hb & _).
  repeat split.
  - rewrite (buildHeaders_lookup _ _ _ _ _ _ "Accept" Hb). simpl.
    now destruct (callerHeaders spec !! "Accept").
  - intros k v Hk Ha Hct.
    rewrite (buildHeaders_lookup _ _ _ _ _ _ k Hb), Hk.
    apply String.eqb_neq in Ha, Hct. now rewrite Ha, Hct.
  - rewrite (buildHeaders_lookup _ _ _ _ _ _ "Authorization" Hb). simpl.
    destruct (addsBearer config); [reflexivity |].
    now destruct (callerHeaders spec !! "Authorization").
  - rewrite (buildHeaders_lookup _ _ _ _ _ _ "Content-Type" Hb). simpl.
    destruct (JS.given (bodyFile spec)); [reflexivity |].
    now destruct (callerHeaders spec !! "Content-Type").
Qed.

Lemma request_headers_witness :
  exists req,
    f_headers req !! "Authorization" = Some "Bearer tok" /\
    f_headers req !! "Content-Type" = Some "application/fhir+json".
Proof.
  exists {| f_url := "https://b.example/fhir/DocumentReference"; f_method := "POST";
            f_headers := {[ "Accept" := "application/fhir+json";
                            "Authorization" := "Bearer tok";
                            "Content-Type" := "application/fhir+json" ]};
            f_body := Some (JObj [("resourceType", JStr "DocumentReference")]) |}.
  refine (let H := request_headers (requestWorld [configA; configB] notFound) postBody
                     (JObj [("name", JStr "beta");
                            ("fhirBaseUrl", JStr "https://b.example/fhir");
                            ("accessToken", JStr "tok"); ("mode", JStr "manual")])
                     _ _ in
          conj (proj1 (proj2 (proj2 H))) (proj2 (proj2 (proj2 H)))).
  exists ["proj"; "home"]. split; [reflexivity |]. split; [left; reflexivity |].
  vm_compute. left.
Defined.

(** C7, as stated, fails where the caller names its own [Accept]: the
    request goes out with that value instead of [application/fhir+json]. *)
Lemma caller_overrides_accept :
  exists req,
    EFetch req ∈ (execute (requestWorld [configC] notFound) getWithHeaders).1 /\
    f_headers req !! "Accept" = Some "text/html".
Proof.
  eexists. split; [vm_compute; left | reflexivity].
Qed.

(** C10 (amended).  The executor adds [Authorization] exactly when the
    configuration has a truthy access token and a mode other than [open];
    when it does not, the only [Authorization] header that is sent is one the
    caller put in [spec.headers], so without one none is sent, whatever the
    mode. *)
Theorem authorization_header (w : World) (spec : RequestSpec) (config : json)
  (req : FetchRequest) :
  executes w spec config req ->
  (addsBearer config = true ->
   f_headers req !! "Authorization"
   = Some ("Bearer " +:+ JS.to_str (JS.get config "accessToken"))) /\
  (addsBearer config = false ->
   f_headers req !! "Authorization" = callerHeaders spec !! "Authorization") /\
  (JS.truthy (JS.get config "accessToken") = false ->
   callerHeaders spec !! "Authorization" = None ->
   f_headers req !! "Authorization" = None) /\
  (callerHeaders spec !! "Authorization" = None ->
   (is_Some (f_headers req !! "Authorization") <-> addsBearer config = true)).
Proof.
  intros (root & _ & _ & H').
  destruct (send_fetch _ _ _ _ _ H') as (body & _ & Hb & _).
  pose proof (buildHeaders_lookup _ _ _ _ _ _ "Authorization" Hb) as E.
  simpl in E.
  split; [| split; [| split; [| intros Hn; split]]].
  - intros Ha. now rewrite E, Ha.
  - intros Ha. rewrite E, Ha. now destruct (callerHeaders spec !! "Authorization").
  - intros Ht Hn. rewrite E, Hn. unfold addsBearer. now rewrite Ht.
  - intros [v Hv]. rewrite E, Hn in Hv.
    destruct (addsBearer config); [reflexivity | discriminate].
  - intros Ha. rewrite E, Ha. eauto.
Qed.

Lemma authorization_header_witness :
  exists req : FetchRequest,
    f_url req = "https://c.example/fhir/metadata" /\
    f_headers req !! "Authorization" = None.
Proof.
  exists {| f_url := "https://c.example/fhir/metadata"; f_method := "GET";
            f_headers := {[ "Accept" := "application/fhir+json" ]};
            f_body := None |}.
  split; [reflexivity |].
  refine (proj1 (proj2 (proj2
            (authorization_header (requestWorld [configC] notFound) getMetadata
               (JObj [("name", JStr "gamma");
                      ("fhirBaseUrl", JStr "https://c.example/fhir");
                      ("mode", JStr "manual")]) _ _))) eq_refl eq_refl).
  exists ["proj"; "home"]. split; [reflexivity |]. split; [left; reflexivity |].
  vm_compute. left.
Defined.

(** C10, as stated, fails where the caller brings credentials: the
    configuration has no access token, and an [Authorization] header is sent
    all the same. *)
Lemma caller_authorization_sent :
  exists config req,
    selectConfig (requestWorld [configC] notFound) ["proj"; "home"] getWithHeaders
    = Ok config /\
    JS.get config "accessToken" = None /\
    EFetch req ∈ (execute (requestWorld [configC] notFound) getWithHeaders).1 /\
    f_headers req !! "Authorization" = Some "Basic abc".
Proof.
  eexists _, _. split; [reflexivity |]. split; [reflexivity |].
  split; [vm_compute; left | reflexivity].
Qed.

End RequestFacts.

(** ** Name parsing *)

Module NameFacts.

Import Str StrFacts Text.

Definition spaceFree (t : string) : Prop :=
  all (fun c => negb (Ascii.eqb c " ")) t = true.

(** A run of whitespace: characters of the class [\s], one after the
    other. *)
Inductive blank : string -> Prop :=
| blank_nil : blank ""
| blank_cons (s : string) : ws_len s <> 0 -> blank (drop (ws_len s) s) -> blank s.

Lemma ws_len_app (u x : string) : ws_len u <> 0 -> ws_len (u +:+ x) = ws_len u.
Proof.
  destruct u as [|a [|b [|c u]]]; intros H.
  - now destruct H.
  - unfold ws_len in *. cbn [String.append].
    destruct (((9 <=? code a) && (code a <=? 13)) || (code a =? 32)); [reflexivity |].
    now destruct H.
  - unfold ws_len in *. cbn [String.append].
    destruct (((9 <=? code a) && (code a <=? 13)) || (code a =? 32)); [reflexivity |].
    destruct ((code a =? 194) && (code b =? 160)); [reflexivity |].
    now destruct H.
  - reflexivity.
Qed.

Lemma ws_len_le (u : string) : ws_len u <= String.length u.
Proof.
  destruct u as [|a [|b [|c u]]]; unfold ws_len; cbn [String.length];
    repeat match goal with
           | |- context [if ?b then _ else _] => destruct b
           end; lia.
Qed.

Lemma drop_app (n : nat) (u x : string) :
  n <= String.length u -> drop n (u +:+ x) = drop n u +:+ x.
Proof.
  revert u. induction n as [|n IH]; intros u H; [reflexivity |].
  destruct u as [|a u]; simpl in *; [lia |]. apply IH. lia.
Qed.

Lemma drop_length (n : nat) (u : string) :
  String.length (drop n u) = String.length u - n.
Proof.
  revert u. induction n as [|n IH]; intros u; simpl; [lia |].
  destruct u as [|a u]; simpl; [reflexivity | apply IH].
Qed.

Lemma skip_ws_none (fuel : nat) (s : string) : ws_len s = 0 -> skip_ws fuel s = s.
Proof. intros H. destruct fuel; simpl; [reflexivity | now rewrite H]. Qed.

Lemma skip_ws_blank (u name : string) :
  blank u -> ws_len name = 0 ->
  forall fuel, String.length u <= fuel -> skip_ws fuel (u +:+ name) = name.
Proof.
  intros Hu Hn. induction Hu as [|u Hw Hu IH]; intros fuel Hf.
  - now apply skip_ws_none.
  - pose proof (ws_len_le u) as Hle.
    destruct fuel as [|fuel].
    + destruct u; [now destruct Hw | simpl in Hf; lia].
    + cbn [skip_ws]. rewrite (ws_len_app u name Hw).
      destruct (ws_len u) as [|k] eqn:E; [now destruct Hw |].
      rewrite drop_app by assumption. apply IH.
      rewrite drop_length. lia.
Qed.

Lemma length_app (a b : string) :
  String.length (a +:+ b) = String.length a + String.length b.
Proof. induction a as [|c a IH]; simpl; [reflexivity | now rewrite IH]. Qed.

(** ["Dr."] and the whitespace after it are removed, and nothing else. *)
Lemma stripDr_title (u name : string) :
  blank u -> ws_len name = 0 -> stripDr ("Dr." +:+ u +:+ name) = name.
Proof.
  intros Hu Hn. unfold stripDr, trimStart. cbn [prefixb String.append drop].
  rewrite !Ascii.eqb_refl. cbn [andb].
  apply skip_ws_blank; try assumption.
  rewrite length_app. lia.
Qed.

(** The author display [d], once the title is removed, is [name]. *)
Definition stripsTo (d name : string) : Prop :=
  (prefixb "Dr." d = false /\ d = name) \/
  (exists u, blank u /\ ws_len name = 0 /\ d = "Dr." +:+ u +:+ name).

Lemma stripsTo_stripDr (d name : string) : stripsTo d name -> stripDr d = name.
Proof.
  intros [[Hp ->] | (u & Hu & Hn & ->)].
  - unfold stripDr. now rewrite Hp.
  - now apply stripDr_title.
Qed.


Lemma orElse_nonempty (s d : string) : s <> "" -> orElse s d = s.
Proof. unfold orElse. intros H. apply String.eqb_neq in H. now rewrite H. Qed.




(** The family name of a patient is the second piece, also when more
    follow. *)
Lemma patient_family_is_second_piece :
  patientNames "John Q Public" = ("John", "Q") /\
  NameSpec.family "John Q Public" = "Public".
Proof. split; reflexivity. Qed.

End NameFacts.

(** ** Objects *)

Module ObjFacts.

Import JSON.

Lemma obj_get_set_eq (o : list (string * json)) (k : string) (v : json) :
  obj_get (obj_set o k v) k = Some v.
Proof.
  induction o as [|[k' v'] o IH]; simpl.
  - now rewrite String.eqb_refl.
  - destruct (String.eqb k' k) eqn:E; simpl.
    + now rewrite String.eqb_refl.
    + now rewrite E.
Qed.

Lemma obj_get_set_ne (o : list (string * json)) (k k' : string) (v : json) :
  k' <> k -> obj_get (obj_set o k v) k' = obj_get o k'.
Proof.
  intros Hne. induction o as [|[k1 v1] o IH]; simpl.
  - destruct (String.eqb_spec k k'); [congruence | reflexivity].
  - destruct (String.eqb_spec k1 k) as [-> | Hk]; simpl.
    + destruct (String.eqb_spec k k'); [congruence | reflexivity].
    + destruct (String.eqb k1 k'); [reflexivity | apply IH].
Qed.

Lemma obj_get_delete_eq (o : list (string * json)) (k : string) :
  obj_get (obj_delete o k) k = None.
Proof.
  induction o as [|[k' v'] o IH]; simpl; [reflexivity |].
  destruct (String.eqb k' k) eqn:E; simpl; [assumption | now rewrite E].
Qed.

Lemma obj_get_delete_ne (o : list (string * json)) (k k' : string) :
  k' <> k -> obj_get (obj_delete o k) k' = obj_get o k'.
Proof.
  intros Hne. induction o as [|[k1 v1] o IH]; simpl; [reflexivity |].
  destruct (String.eqb_spec k1 k) as [-> | Hk]; simpl.
  - destruct (String.eqb_spec k k'); [congruence | assumption].
  - destruct (String.eqb k1 k'); [reflexivity | assumption].
Qed.

End ObjFacts.

(** ** The localizer: type validation, encounters, contained resources *)

Module LocalizeFacts.

Import Str StrFacts Text JSON ObjFacts Localize Examples.

(** *** Unknown types *)

(** C6.  With the unregistered type "unknown-format" and no [.fhir-configs]
    directory above the working directory, the library entry point probes
    the file system twice and fails for want of a project root, without ever
    naming the type; [main] rejects the same type, listing the valid keys,
    before it touches the file system. *)
Theorem unknown_type_after_probes :
  lookupMapping "unknown-format" = Missing /\
  localizeDocumentReference rootlessWorld (optionsFor "unknown-format")
  = ([EExists "/tmp/work/.fhir-configs"; EExists "/tmp/.fhir-configs"],
     Throw (Error "Could not find project root (no .fhir-configs directory found)")) /\
  main rootlessWorld (cliFor "unknown-format")
  = ([EConsoleError ("Error: Unknown type " +:+ dqs +:+ "unknown-format" +:+ dqs);
      EConsoleError
        "Available types: consultation, progress, pdf, cda, xhtml, html, large, patient-asserted"],
     Exited 1).
Proof. repeat split; reflexivity. Qed.

(** Where a project root exists the library entry point does name the type
    and the valid keys, after the probes that found the root. *)
Lemma unknown_type_with_root :
  localizeDocumentReference (localizeWorld noteTemplate) (optionsFor "unknown-format")
  = ([EExists "/home/proj/notes/.fhir-configs"; EExists "/home/proj/.fhir-configs";
      EExists "/home/proj/notes/.fhir-configs"; EExists "/home/proj/.fhir-configs"],
     Throw (Error "Unknown document type: unknown-format. Available: consultation, progress, pdf, cda, xhtml, html, large, patient-asserted")).
Proof. reflexivity. Qed.

(** A name inherited from [Object.prototype] is not a key of the table and
    yet passes the check. *)
Lemma inherited_name_is_not_rejected :
  assoc "toString" TEMPLATE_MAPPINGS = None /\
  (localizeDocumentReference (localizeWorld noteTemplate) (optionsFor "toString")).2
  = Throw (Error "No content source specified in mapping").
Proof. split; reflexivity. Qed.

Lemma getProjectRoot_probes (w : World) (dir : list string) :
  dir <> [] -> (getProjectRoot_from w dir).1 <> [].
Proof.
  destruct dir as [|d parent]; [congruence |]. intros _. simpl.
  unfold bindM, emit.
  destruct (w_hasConfigs w (d :: parent)).
  - simpl. discriminate.
  - destruct (getProjectRoot_from w parent) as [t r]. simpl. discriminate.
Qed.

(** In general: below the root directory, the library entry point has
    probed the file system by the time it fails, whatever the type. *)
Lemma library_probes_first (w : World) (o : LocalizationOptions) :
  w_cwd w <> [] -> (localizeDocumentReference w o).1 <> [].
Proof.
  intros H. unfold localizeDocumentReference, getProjectRoot.
  pose proof (getProjectRoot_probes w (w_cwd w) H) as Hp.
  destruct (getProjectRoot_from w (w_cwd w)) as [t [root|e]]; simpl in *.
  - match goal with
    | |- context [let '(t', r) := ?m in _] => destruct m as [t' r']
    end.
    simpl. intros E. apply app_eq_nil in E as [E _]. contradiction.
  - assumption.
Qed.

(** [main] fails on a type that is neither in the table nor inherited
    without any file-system event. *)
Lemma main_rejects_first (w : World) (values : CliValues) :
  v_help values = false ->
  JS.given (v_type values) && JS.given (v_patientId values)
  && JS.given (v_server values) = true ->
  lookupMapping (JS.or_default (v_type values) "") = Missing ->
  main w values
  = ([EConsoleError ("Error: Unknown type " +:+ dqs +:+
                     JS.or_default (v_type values) "" +:+ dqs);
      EConsoleError ("Available types: " +:+ mappingKeys)],
     Exited 1).
Proof.
  intros Hh Hreq Hm. unfold main. rewrite Hh, Hreq. simpl.
  now rewrite Hm.
Qed.

(** *** Encounters without a reference *)

Lemma hasValidEncounter_true (l : list json) :
  hasValidEncounter l = Ok true ->
  exists e s, e ∈ l /\ JS.get e "reference" = Some (JStr s) /\ nonblank s = true.
Proof.
  induction l as [|enc l IH]; simpl; intros H; [discriminate |].
  destruct (validEncounter enc) as [[|]|err] eqn:E; simpl in H; try discriminate.
  - exists enc. unfold validEncounter in E.
    destruct (JS.get enc "reference") as [[| | |s| |]|] eqn:G;
      destruct enc; simpl in E; try discriminate;
      repeat match type of E with
             | (if ?b then _ else _) = _ => destruct b; try discriminate
             end;
      inversion E; exists s; repeat split; auto; left.
  - destruct (IH H) as (e & s & He & Hg & Hn).
    exists e, s. repeat split; auto. now right.
Qed.

(** Adding the contained resource touches no other property. *)
Lemma addContained_other (w : World) (o : LocalizationOptions) (parsed doc : json)
  (k : string) :
  addContained w o parsed = Ok doc -> k <> "contained" ->
  JS.get doc k = JS.get parsed k.
Proof.
  unfold addContained. intros H Hk.
  destruct (encounterContained o) as [c|]; [| now inversion H].
  destruct (JS.truthy_json c); [| now inversion H].
  destruct (containedEncounter w c) as [ce|e]; simpl in H; [| discriminate].
  destruct parsed as [| | | | |fields]; try discriminate; try (now inversion H).
  destruct (JS.truthy (obj_get fields "contained")).
  - destruct (obj_get fields "contained") as [[| | | |l|]|]; try discriminate.
    inversion H; subst. simpl. now apply obj_get_set_ne.
  - inversion H; subst. simpl. now apply obj_get_set_ne.
Qed.

Lemma dropEmptyEncounter_valid (o : LocalizationOptions) (parsed doc ctx : json)
  (entries : list json) :
  JS.given (encounterReference o) = false ->
  dropEmptyEncounter o parsed = Ok doc ->
  JS.get doc "context" = Some ctx ->
  JS.get ctx "encounter" = Some (JArr entries) ->
  hasValidEncounter entries = Ok true.
Proof.
  unfold dropEmptyEncounter. intros Hg H Hctx Henc. rewrite Hg in H.
  destruct parsed as [| | | | |po] eqn:Ep; try discriminate;
    try (inversion H; subst; simpl in Hctx; discriminate).
  simpl in H.
  destruct (obj_get po "context") as [c|] eqn:Gc.
  - destruct c as [| | | | |co] eqn:Ec;
      try (inversion H; subst; simpl in Hctx; rewrite Gc in Hctx;
           inversion Hctx; subst; simpl in Henc; discriminate).
    simpl in H.
    destruct (JS.truthy (obj_get co "encounter")) eqn:Et.
    + destruct (obj_get co "encounter") as [[| | | |l|]|] eqn:Ge; try discriminate.
      destruct (hasValidEncounter l) as [[|]|err] eqn:Ev; simpl in H; try discriminate.
      * inversion H; subst. simpl in Hctx. rewrite Gc in Hctx.
        inversion Hctx; subst. simpl in Henc. rewrite Ge in Henc.
        now inversion Henc; subst.
      * inversion H; subst. simpl in Hctx. rewrite obj_get_set_eq in Hctx.
        inversion Hctx; subst. simpl in Henc.
        now rewrite obj_get_delete_eq in Henc.
    + inversion H; subst. simpl in Hctx. rewrite Gc in Hctx.
      inversion Hctx; subst. simpl in Henc. rewrite Henc in Et. discriminate.
  - inversion H; subst. simpl in Hctx. congruence.
Qed.

(** When no encounter reference is given, a [context.encounter] array that
    is left in the document has an entry whose reference is a string with
    something other than whitespace in it. *)
Lemma no_empty_encounter (w : World) (t : string) (o : LocalizationOptions)
  (base64Content : string) (contentSize : nat) (contentType : string)
  (doc ctx : json) (entries : list json) :
  JS.given (encounterReference o) = false ->
  localizeObject w t o base64Content contentSize contentType = Ok doc ->
  JS.get doc "context" = Some ctx ->
  JS.get ctx "encounter" = Some (JArr entries) ->
  exists e s, e ∈ entries /\ JS.get e "reference" = Some (JStr s) /\ nonblank s = true.
Proof.
  unfold localizeObject. intros Hg H Hctx Henc.
  destruct (parse_or_throw _) as [parsed|e]; simpl in H; [| discriminate].
  destruct (dropEmptyEncounter o parsed) as [parsed1|e] eqn:Hd; simpl in H;
    [| discriminate].
  rewrite (addContained_other _ _ _ _ "context" H) in Hctx by discriminate.
  apply hasValidEncounter_true.
  eapply dropEmptyEncounter_valid; eauto.
Qed.

(** *** Contained encounters *)

Lemma localizeObject_steps (w : World) (t : string) (o : LocalizationOptions)
  (base64Content : string) (contentSize : nat) (contentType : string) :
  localizeObject w t o base64Content contentSize contentType
  = (let* parsed1 :=
       localizeObject w t (withoutContained o) base64Content contentSize contentType in
     addContained w o parsed1).
Proof.
  unfold localizeObject.
  change (substituteTemplate w t (withoutContained o) base64Content contentSize contentType)
    with (substituteTemplate w t o base64Content contentSize contentType).
  destruct (parse_or_throw _) as [parsed|e]; simpl; [| reflexivity].
  change (dropEmptyEncounter (withoutContained o) parsed)
    with (dropEmptyEncounter o parsed).
  destruct (dropEmptyEncounter o parsed) as [parsed1|e]; reflexivity.
Qed.

(** The text that comes out when the value [ce] is added to the object
    [fields]: that of an object with [ce] after the entries [old], and with
    every other property as it was. *)
Definition appendedTo (fields : list (string * json)) (old : list json) (ce : json)
  (r : result string) : Prop :=
  exists doc,
    r = Ok (JSON.stringify doc) /\
    JS.get doc "contained" = Some (JArr (old ++ [ce])) /\
    forall k, k <> "contained" -> JS.get doc k = obj_get fields k.

(** The contained step, for the document [parsed1] the call has arrived at
    and the parsed or given value [ce]. *)
Definition appended (parsed1 ce : json) (r : result string) : Prop :=
  match parsed1 with
  | JObj fields =>
      match obj_get fields "contained" with
      | Some (JArr old) => appendedTo fields old ce r
      | other =>
          if JS.truthy other then exists msg, r = Throw (TypeError msg)
          else appendedTo fields [] ce r
      end
  | JArr _ => r = Ok (JSON.stringify parsed1)
  | _ => exists msg, r = Throw (TypeError msg)
  end.

Lemma addContained_appended (w : World) (o : LocalizationOptions) (c ce parsed1 : json) :
  encounterContained o = Some c -> JS.truthy_json c = true ->
  containedEncounter w c = Ok ce ->
  appended parsed1 ce (let* doc := addContained w o parsed1 in Ok (JSON.stringify doc)).
Proof.
  intros Hc Ht Hce. unfold addContained. rewrite Hc, Ht, Hce. cbn [bind].
  destruct parsed1 as [| | | | |fields]; cbn [appended bind];
    try reflexivity; try (now eexists).
  destruct (obj_get fields "contained") as [old|] eqn:G.
  - destruct old as [| | | |l|]; cbn [JS.truthy JS.truthy_json];
      try (destruct (negb _)); try (destruct b); cbn [bind];
      try (now eexists);
      (eexists; split; [reflexivity |]; split;
       [simpl; apply obj_get_set_eq | intros k Hk; simpl; now apply obj_get_set_ne]).
  - cbn [JS.truthy bind].
    eexists; split; [reflexivity |]; split;
      [simpl; apply obj_get_set_eq | intros k Hk; simpl; now apply obj_get_set_ne].
Qed.


Definition encounterE1 : json :=
  JObj [("resourceType", JStr "Encounter"); ("id", JStr "e1")].



End LocalizeFacts.

(** ** The earlier localizer *)

Module LocalizeV1Facts.

Import Str JSON ObjFacts Examples LocalizeV1.

(** The reference the earlier localizer works with. *)
Definition effectiveReference (o : LocalizationOptions) : string :=
  JS.or_default (encounterReference o) "#e1".

Lemma absent_reference_is_e1 (o : LocalizationOptions) :
  JS.given (encounterReference o) = false -> effectiveReference o = "#e1".
Proof.
  unfold effectiveReference, JS.given, JS.or_default.
  destruct (encounterReference o) as [s|]; [| reflexivity].
  destruct (String.eqb s ""); [reflexivity | discriminate].
Qed.

(** C9 (amended).  In the earlier localizer, when the substituted template
    parses to an object: if the effective encounter reference is "#e1" (as it
    is whenever none is given) and the object's [contained] is missing or
    falsy, the output has exactly one contained resource, an Encounter with id
    "e1" whose subject reference is "Patient/" followed by the patient id, and
    no other property changes; if [contained] is truthy, or the reference is
    another one, the object is left as it was parsed. *)
Theorem contained_synthesized (w : World) (encounterNow : Z) (t : string)
  (o : LocalizationOptions) (base64Content : string) (contentSize : nat)
  (contentType : string) (fields : list (string * json)) :
  parse_or_throw
    (substituteTemplate w encounterNow t o base64Content contentSize contentType)
  = Ok (JObj fields) ->
  (effectiveReference o = "#e1" ->
   JS.truthy (obj_get fields "contained") = false ->
   exists doc enc subject,
     localizeObject w encounterNow t o base64Content contentSize contentType = Ok doc /\
     localizeTemplate w encounterNow t o base64Content contentSize contentType
     = Ok (JSON.stringify doc) /\
     JS.get doc "contained" = Some (JArr [enc]) /\
     JS.get enc "resourceType" = Some (JStr "Encounter") /\
     JS.get enc "id" = Some (JStr "e1") /\
     JS.get enc "subject" = Some subject /\
     JS.get subject "reference" = Some (JStr ("Patient/" +:+ patientId o)) /\
     forall k, k <> "contained" -> JS.get doc k = obj_get fields k) /\
  (JS.truthy (obj_get fields "contained") = true \/ effectiveReference o <> "#e1" ->
   localizeObject w encounterNow t o base64Content contentSize contentType
   = Ok (JObj fields)).
Proof.
  intros Hp. unfold localizeTemplate, localizeObject. rewrite Hp. simpl.
  unfold synthesizeContained. fold (effectiveReference o). split.
  - intros -> Hf. simpl. rewrite Hf. simpl.
    eexists _, (syntheticEncounter o), _.
    split; [reflexivity |]. split; [reflexivity |].
    split; [apply obj_get_set_eq |].
    repeat (split; [reflexivity |]).
    intros k Hk. now apply obj_get_set_ne.
  - intros [Ht | Hne].
    + rewrite Ht. now destruct (String.eqb _ _).
    + apply String.eqb_neq in Hne. now rewrite Hne.
Qed.

Lemma contained_synthesized_witness :
  exists doc enc,
    localizeObject (localizeWorld "{}") 0 (q "{'status':'current'}")
      (optionsFor "pdf") "" 0 "application/pdf" = Ok doc /\
    JS.get doc "contained" = Some (JArr [enc]) /\
    JS.get enc "id" = Some (JStr "e1").
Proof.
  destruct (contained_synthesized (localizeWorld "{}") 0 (q "{'status':'current'}")
              (optionsFor "pdf") "" 0 "application/pdf"
              [("status", JStr "current")] eq_refl) as [H _].
  destruct (H eq_refl eq_refl) as (doc & enc & subject & H1 & _ & H2 & _ & H3 & _).
  exists doc, enc. auto.
Defined.

(** C9, as stated, fails on the code: a template that has a [contained]
    field whose value is [null] gets the synthesized encounter all the
    same. *)
Lemma null_contained_is_overwritten :
  JSON.parse (q "{'status':'current','contained':null}")
  = Some (JObj [("status", JStr "current"); ("contained", JNull)]) /\
  localizeObject (localizeWorld "{}") 0 (q "{'status':'current','contained':null}")
    (optionsFor "pdf") "" 0 "application/pdf"
  = Ok (JObj [("status", JStr "current");
              ("contained", JArr [syntheticEncounter (optionsFor "pdf")])]).
Proof. split; reflexivity. Qed.

End LocalizeV1Facts.

(** ** Substitution in template texts *)

Module TemplateFacts.

Import Str StrFacts JSON Template.

#[local] Arguments Ascii.eqb : simpl never.
#[local] Arguments token : simpl never.

Lemma render_app (l1 l2 : list atom) : render (l1 ++ l2) = render l1 +:+ render l2.
Proof.
  induction l1 as [|[c|n] l1 IH]; simpl; [reflexivity | now rewrite IH |].
  rewrite IH. unfold token. now rewrite !append_assoc.
Qed.

Lemma render_chars (s : string) : render (chars s) = s.
Proof. induction s as [|c s IH]; simpl; [reflexivity | now rewrite IH]. Qed.

Lemma chars_app (a b : string) : chars (a +:+ b) = chars a ++ chars b.
Proof. induction a as [|c a IH]; simpl; [reflexivity | now rewrite IH]. Qed.

(** *** One replacement *)

Lemma expand_clean (v matched before after : string) :
  clean v = true -> expand v matched before after = v.
Proof.
  induction v as [|c v IH]; simpl; intros H; [reflexivity |].
  apply andb_true_iff in H as [Hc Hv]. unfold clean_char in Hc.
  apply andb_true_iff in Hc as [Hd _]. apply negb_true_iff in Hd.
  rewrite Hd. now rewrite (IH Hv).
Qed.

Section Replace.

Variables (pat v : string).
Hypothesis Hclean : clean v = true.

Lemma replace_go_before (s before before' : string) (skip : nat) :
  replace_go pat v before skip s = replace_go pat v before' skip s.
Proof.
  revert before before' skip.
  induction s as [|c s IH]; intros b b' k; simpl; [reflexivity |].
  destruct k as [|k]; [| apply IH].
  rewrite !expand_clean by assumption.
  destruct (prefixb pat (String c s)).
  - f_equal. apply IH.
  - f_equal. apply IH.
Qed.

Lemma replace_go_skip (p rest before : string) :
  replace_go pat v before (String.length p) (p +:+ rest)
  = replace_go pat v before 0 rest.
Proof.
  revert before. induction p as [|c p IH]; intros b; simpl.
  - destruct rest; reflexivity.
  - rewrite IH. apply replace_go_before.
Qed.

Lemma replace_go_step (c : ascii) (s before : string) :
  replace_go pat v before 0 (String c s)
  = if prefixb pat (String c s)
    then v +:+ replace_go pat v before (String.length pat - 1) s
    else String c (replace_go pat v before 0 s).
Proof.
  simpl. rewrite expand_clean by assumption.
  destruct (prefixb pat (String c s)); f_equal; apply replace_go_before.
Qed.

Lemma replace_go_match (c : ascii) (p rest before : string) :
  pat = String c p ->
  replace_go pat v before 0 (pat +:+ rest) = v +:+ replace_go pat v before 0 rest.
Proof.
  intros E.
  assert (H : pat +:+ rest = String c (p +:+ rest)) by now rewrite E.
  rewrite H, replace_go_step, <- H, prefixb_app.
  f_equal. rewrite E. simpl. rewrite Nat.sub_0_r.
  rewrite <- E. apply replace_go_skip.
Qed.

Lemma replace_go_char (c : ascii) (s before : string) :
  prefixb pat (String c s) = false ->
  replace_go pat v before 0 (String c s)
  = String c (replace_go pat v before 0 s).
Proof.
  intros H. now rewrite replace_go_step, H.
Qed.

End Replace.

#[local] Arguments replace_go : simpl never.

(** *** Placeholders *)

Lemma token_cons (n : string) : token n = String "{" (String "{" (n +:+ "}}")).
Proof. reflexivity. Qed.

(** A run of characters without an opening brace is copied. *)
Lemma replace_go_inert (n v u rest before : string) :
  clean v = true ->
  all (fun c => negb (Ascii.eqb c "{")) u = true ->
  replace_go (token n) v before 0 (u +:+ rest)
  = u +:+ replace_go (token n) v before 0 rest.
Proof.
  intros Hv. induction u as [|c u IH]; simpl; intros H; [reflexivity |].
  apply andb_true_iff in H as [Hc Hu].
  rewrite replace_go_char; [now rewrite IH | assumption |].
  rewrite token_cons. simpl.
  apply negb_true_iff in Hc. rewrite Ascii.eqb_sym in Hc. now rewrite Hc.
Qed.

Lemma name_ok_no_open (n : string) :
  name_ok n = true -> all (fun c => negb (Ascii.eqb c "{")) n = true.
Proof.
  unfold name_ok. induction n as [|c n IH]; simpl; intros H; [reflexivity |].
  apply andb_true_iff in H as [Hc Hn]. unfold not_brace in Hc.
  apply andb_true_iff in Hc as [Hc _]. now rewrite Hc, IH.
Qed.

(** Two placeholders of which one begins the other are the same. *)
Lemma prefix_name (n m rest : string) :
  name_ok n = true -> name_ok m = true ->
  prefixb (n +:+ "}}") (m +:+ "}}" +:+ rest) = true -> n = m.
Proof.
  unfold name_ok. revert m.
  induction n as [|a n IH]; intros [|b m] Hn Hm H; simpl in *.
  - reflexivity.
  - apply andb_true_iff in Hm as [Hb _]. unfold not_brace in Hb.
    apply andb_true_iff in Hb as [_ Hb]. apply negb_true_iff in Hb.
    rewrite Ascii.eqb_sym in Hb. now rewrite Hb in H.
  - apply andb_true_iff in Hn as [Ha _]. unfold not_brace in Ha.
    apply andb_true_iff in Ha as [_ Ha]. apply negb_true_iff in Ha.
    now rewrite Ha in H.
  - apply andb_true_iff in Hn as [_ Hn]. apply andb_true_iff in Hm as [_ Hm].
    apply andb_true_iff in H as [Hab H]. apply Ascii.eqb_eq in Hab. subst b.
    f_equal. now apply IH.
Qed.

Lemma prefixb_cons (a b : ascii) (p s : string) :
  prefixb (String a p) (String b s) = Ascii.eqb a b && prefixb p s.
Proof. reflexivity. Qed.

(** Another placeholder is copied. *)
Lemma replace_go_other (n m v rest before : string) :
  clean v = true -> name_ok n = true -> name_ok m = true -> m <> n ->
  replace_go (token n) v before 0 (token m +:+ rest)
  = token m +:+ replace_go (token n) v before 0 rest.
Proof.
  intros Hv Hn Hm Hne.
  assert (Hshape : forall r, token m +:+ r = String "{" (String "{" (m +:+ "}}" +:+ r))).
  { intros r. rewrite token_cons. simpl. now rewrite append_assoc. }
  rewrite !Hshape.
  rewrite replace_go_char; [| assumption |].
  - f_equal. rewrite replace_go_char; [| assumption |].
    + f_equal.
      rewrite replace_go_inert by (assumption || now apply name_ok_no_open).
      f_equal. exact (replace_go_inert n v "}}" rest before Hv eq_refl).
    + rewrite token_cons, prefixb_cons, Ascii.eqb_refl. simpl.
      destruct m as [|b m]; [reflexivity |].
      unfold name_ok in Hm. simpl in Hm.
      apply andb_true_iff in Hm as [Hb _]. unfold not_brace in Hb.
      apply andb_true_iff in Hb as [Hb _]. apply negb_true_iff in Hb.
      rewrite Ascii.eqb_sym in Hb.
      simpl. now rewrite Hb.
  - rewrite token_cons, !prefixb_cons, !Ascii.eqb_refl, !andb_true_l.
    destruct (prefixb (n +:+ "}}") (m +:+ "}}" +:+ rest)) eqn:E; [| reflexivity].
    apply prefix_name in E; congruence.
Qed.

Lemma atoms_ok_chars_app (u : string) (l : list atom) :
  all (fun c => negb (Ascii.eqb c "{")) u = true ->
  atoms_ok (chars u ++ l) = atoms_ok l.
Proof.
  induction u as [|c u IH]; simpl; intros H; [reflexivity |].
  apply andb_true_iff in H as [Hc Hu]. apply negb_true_iff in Hc.
  rewrite Hc. simpl. now apply IH.
Qed.

Lemma clean_no_open (v : string) :
  clean v = true -> all (fun c => negb (Ascii.eqb c "{")) v = true.
Proof.
  unfold clean. induction v as [|c v IH]; simpl; intros H; [reflexivity |].
  apply andb_true_iff in H as [Hc Hv]. unfold clean_char in Hc.
  apply andb_true_iff in Hc as [_ Hc]. now rewrite Hc, IH.
Qed.

Lemma atoms_ok_subst (n v : string) (l : list atom) :
  clean v = true -> atoms_ok l = true -> atoms_ok (subst n v l) = true.
Proof.
  intros Hv. induction l as [|[c|m] l IH]; simpl; intros H; [reflexivity | |].
  - apply andb_true_iff in H as [Hc Hl]. rewrite (IH Hl), andb_true_r.
    destruct (Ascii.eqb c "{"); [| reflexivity].
    destruct l as [|[d|m] l]; try discriminate. assumption.
  - apply andb_true_iff in H as [Hm Hl]. unfold subst1.
    destruct (String.eqb m n).
    + rewrite atoms_ok_chars_app by now apply clean_no_open. now apply IH.
    + simpl. now rewrite Hm, IH.
Qed.

(** The replacement of one placeholder, on a well-formed text, fills in
    exactly the occurrences of that placeholder. *)
Lemma replaceAll_render (n v : string) (l : list atom) :
  clean v = true -> name_ok n = true -> atoms_ok l = true ->
  replaceAll (token n) v (render l) = render (subst n v l).
Proof.
  intros Hv Hn. unfold replaceAll. generalize "" as before.
  induction l as [|[c|m] l IH]; intros before H; [reflexivity | |].
  - change (atoms_ok (Ch c :: l))
      with ((if Ascii.eqb c "{"
             then match l with Ch d :: _ => negb (Ascii.eqb d "{") | _ => false end
             else true) && atoms_ok l) in H.
    apply andb_true_iff in H as [Hc Hl].
    change (render (Ch c :: l)) with (String c (render l)).
    change (render (subst n v (Ch c :: l))) with (String c (render (subst n v l))).
    rewrite replace_go_char; [now rewrite IH | assumption |].
    rewrite token_cons, prefixb_cons.
    destruct (Ascii.eqb_spec "{" c) as [<- | Hne]; [| reflexivity].
    rewrite Ascii.eqb_refl in Hc.
    destruct l as [|[d|m] l]; try discriminate.
    change (render (Ch d :: l)) with (String d (render l)).
    rewrite prefixb_cons.
    apply negb_true_iff in Hc. rewrite Ascii.eqb_sym in Hc. now rewrite Hc.
  - change (atoms_ok (Hole m :: l)) with (name_ok m && atoms_ok l) in H.
    apply andb_true_iff in H as [Hm Hl].
    change (render (Hole m :: l)) with (token m +:+ render l).
    change (subst n v (Hole m :: l)) with (subst1 n v (Hole m) ++ subst n v l).
    rewrite render_app. unfold subst1.
    destruct (String.eqb_spec m n) as [-> | Hne].
    + rewrite (replace_go_match _ _ Hv "{" (String "{" (n +:+ "}}"))) by reflexivity.
      now rewrite render_chars, IH.
    + rewrite replace_go_other by assumption.
      rewrite IH by assumption.
      change (render [Hole m]) with (token m +:+ ""). now rewrite append_nil_r.
Qed.

(** *** All replacements *)

Lemma psubst_chars (e : env) (s : string) : psubst e (chars s) = chars s.
Proof. induction s as [|c s IH]; simpl; [reflexivity | now rewrite IH]. Qed.

Lemma psubst_app (e : env) (l1 l2 : list atom) :
  psubst e (l1 ++ l2) = psubst e l1 ++ psubst e l2.
Proof. apply flat_map_app. Qed.

Lemma psubst_cons (n v : string) (e : env) (l : list atom) :
  psubst e (subst n v l) = psubst ((n, v) :: e) l.
Proof.
  induction l as [|[c|m] l IH]; simpl; [reflexivity | now rewrite IH |].
  rewrite psubst_app, IH. f_equal. unfold subst1.
  destruct (String.eqb_spec m n) as [-> | Hne]; simpl.
  - rewrite String.eqb_refl. apply psubst_chars.
  - destruct (String.eqb_spec n m); [congruence |]. now rewrite app_nil_r.
Qed.

Definition env_ok (e : env) : bool :=
  forallb (fun nv => name_ok (fst nv) && clean (snd nv)) e.

(** The replacements of an environment, carried out one after the other on
    a well-formed text, fill in every placeholder with the value the
    environment gives it first. *)
Lemma replaceEach_render (e : env) (l : list atom) :
  env_ok e = true -> atoms_ok l = true ->
  replaceEach e (render l) = render (psubst e l).
Proof.
  unfold replaceEach. revert l.
  induction e as [|[n v] e IH]; intros l He Hl; simpl.
  - induction l as [|[c|m] l IHl]; simpl in *; [reflexivity | |].
    + apply andb_true_iff in Hl as [_ Hl]. now rewrite <- IHl.
    + apply andb_true_iff in Hl as [_ Hl]. now rewrite <- IHl.
  - simpl in He. apply andb_true_iff in He as [Hnv He].
    apply andb_true_iff in Hnv as [Hn Hv].
    rewrite replaceAll_render by assumption.
    rewrite IH by (assumption || now apply atoms_ok_subst).
    now rewrite psubst_cons.
Qed.

(** *** Induction on documents *)

Section Induction.

Variable P : tpl -> Prop.
Hypothesis Hraw : forall body, P (TRaw body).
Hypothesis Hstr : forall body, P (TStr body).
Hypothesis Harr : forall items, Forall P items -> P (TArr items).
Hypothesis Hobj : forall fields, Forall (fun kx => P (snd kx)) fields -> P (TObj fields).

Fixpoint tpl_rect' (t : tpl) : P t :=
  match t with
  | TRaw body => Hraw body
  | TStr body => Hstr body
  | TArr items =>
      Harr items
        ((fix all (l : list tpl) : Forall P l :=
            match l with
            | [] => List.Forall_nil _
            | x :: l' => List.Forall_cons _ _ _ (tpl_rect' x) (all l')
            end) items)
  | TObj fields =>
      Hobj fields
        ((fix all (l : list (string * tpl)) : Forall (fun kx => P (snd kx)) l :=
            match l with
            | [] => List.Forall_nil _
            | kx :: l' => List.Forall_cons _ _ _ (tpl_rect' (snd kx)) (all l')
            end) fields)
  end.

End Induction.

Section JsonInduction.

Variable P : json -> Prop.
Hypothesis Hnull : P JNull.
Hypothesis Hbool : forall b, P (JBool b).
Hypothesis Hnum : forall lit, P (JNum lit).
Hypothesis Hstr : forall s, P (JStr s).
Hypothesis Harr : forall items, Forall P items -> P (JArr items).
Hypothesis Hobj : forall fields, Forall (fun kv => P (snd kv)) fields -> P (JObj fields).

Fixpoint json_rect' (v : json) : P v :=
  match v with
  | JNull => Hnull
  | JBool b => Hbool b
  | JNum lit => Hnum lit
  | JStr s => Hstr s
  | JArr items =>
      Harr items
        ((fix all (l : list json) : Forall P l :=
            match l with
            | [] => List.Forall_nil _
            | x :: l' => List.Forall_cons _ _ _ (json_rect' x) (all l')
            end) items)
  | JObj fields =>
      Hobj fields
        ((fix all (l : list (string * json)) : Forall (fun kv => P (snd kv)) l :=
            match l with
            | [] => List.Forall_nil _
            | kv :: l' => List.Forall_cons _ _ _ (json_rect' (snd kv)) (all l')
            end) fields)
  end.

End JsonInduction.

(** *** The text of an instantiated template *)

Definition env_plain (e : env) : bool := forallb (fun nv => plain (snd nv)) e.

Lemma all_app (f : ascii -> bool) (a b : string) :
  all f (a +:+ b) = all f a && all f b.
Proof.
  induction a as [|c a IH]; simpl; [reflexivity |].
  now rewrite IH, andb_assoc.
Qed.

Lemma escape_plain (s : string) : plain s = true -> escape s = s.
Proof.
  unfold plain. induction s as [|c s IH]; simpl; intros H; [reflexivity |].
  apply andb_true_iff in H as [Hc Hs]. rewrite (IH Hs).
  unfold plain_char in Hc. apply andb_true_iff in Hc as [Hc H32].
  apply andb_true_iff in Hc as [Hq Hb].
  apply negb_true_iff in Hq, Hb. apply Nat.leb_le in H32.
  unfold escape_char. rewrite Hq, Hb.
  repeat match goal with
         | |- context [?a =? ?b] =>
             destruct (Nat.eqb_spec a b); [lia |]
         end.
  destruct (Nat.ltb_spec (code c) 32); [lia | reflexivity].
Qed.

Lemma assoc_plain (e : env) (m v : string) :
  env_plain e = true -> assoc m e = Some v -> plain v = true.
Proof.
  induction e as [|[n u] e IH]; simpl; intros He H; [discriminate |].
  apply andb_true_iff in He as [Hu He].
  destruct (String.eqb n m); [now inversion H; subst | now apply IH].
Qed.

Lemma plain_render_psubst (e : env) (body : list atom) :
  env_plain e = true -> forallb plain_atom body = true ->
  plain (render (psubst e body)) = true.
Proof.
  intros He. induction body as [|[c|m] body IH]; simpl; intros H; [reflexivity | |].
  - apply andb_true_iff in H as [Hc Hb]. unfold plain in *. simpl.
    now rewrite Hc, IH.
  - apply andb_true_iff in H as [Hm Hb]. rewrite render_app.
    unfold plain in *. rewrite all_app, (IH Hb), andb_true_r.
    destruct (assoc m e) as [v|] eqn:E.
    + rewrite render_chars. exact (assoc_plain _ _ _ He E).
    + change (render [Hole m]) with (token m +:+ ""). rewrite append_nil_r.
      unfold token. rewrite !all_app, Hm. reflexivity.
Qed.

Lemma raw_value_text (s ind : string) (v : json) :
  raw_value s = Some v -> stringify_at ind v = s.
Proof.
  unfold raw_value. intros H.
  destruct (String.eqb_spec s "true"); [now inversion H; subst |].
  destruct (String.eqb_spec s "false"); [now inversion H; subst |].
  destruct (String.eqb_spec s "null"); [now inversion H; subst |].
  destruct (valid_number s); now inversion H.
Qed.

Lemma layout_arr (ind : string) (x : tpl) (xs : list tpl) :
  layout ind (TArr (x :: xs))
  = chars ("[" +:+ nl +:+ (ind +:+ "  ")) ++ layout (ind +:+ "  ") x
    ++ layout_items (ind +:+ "  ") xs ++ chars (nl +:+ ind +:+ "]").
Proof. reflexivity. Qed.

Lemma layout_obj (ind k : string) (x : tpl) (xs : list (string * tpl)) :
  layout ind (TObj ((k, x) :: xs))
  = chars ("{" +:+ nl +:+ (ind +:+ "  ") +:+ quote k +:+ ": ")
    ++ layout (ind +:+ "  ") x
    ++ layout_fields (ind +:+ "  ") xs ++ chars (nl +:+ ind +:+ "}").
Proof. reflexivity. Qed.

Lemma stringify_arr (ind : string) (x : json) (xs : list json) :
  stringify_at ind (JArr (x :: xs))
  = "[" +:+ nl +:+ (ind +:+ "  ") +:+ stringify_at (ind +:+ "  ") x
    +:+ stringify_items (ind +:+ "  ") xs +:+ nl +:+ ind +:+ "]".
Proof. reflexivity. Qed.

Lemma stringify_obj (ind k : string) (x : json) (xs : list (string * json)) :
  stringify_at ind (JObj ((k, x) :: xs))
  = "{" +:+ nl +:+ (ind +:+ "  ") +:+ quote k +:+ ": "
    +:+ stringify_at (ind +:+ "  ") x
    +:+ stringify_fields (ind +:+ "  ") xs +:+ nl +:+ ind +:+ "}".
Proof. reflexivity. Qed.

Lemma instantiate_arr (e : env) (items : list tpl) :
  instantiate e (TArr items) = option_map JArr (instantiate_items e items).
Proof. reflexivity. Qed.

Lemma instantiate_obj (e : env) (fields : list (string * tpl)) :
  instantiate e (TObj fields) = option_map JObj (instantiate_fields e fields).
Proof. reflexivity. Qed.

Lemma instantiate_items_cons (e : env) (x : tpl) (xs : list tpl) :
  instantiate_items e (x :: xs)
  = match instantiate e x, instantiate_items e xs with
    | Some v, Some vs => Some (v :: vs)
    | _, _ => None
    end.
Proof. reflexivity. Qed.

Lemma instantiate_fields_cons (e : env) (k : string) (x : tpl)
  (xs : list (string * tpl)) :
  instantiate_fields e ((k, x) :: xs)
  = match instantiate e x, instantiate_fields e xs with
    | Some v, Some vs => Some ((k, v) :: vs)
    | _, _ => None
    end.
Proof. reflexivity. Qed.

#[local] Arguments layout : simpl never.
#[local] Arguments stringify_at : simpl never.
#[local] Arguments instantiate : simpl never.

(** The text of the layout of a template, once the placeholders are filled
    in, is the text [JSON.stringify] gives the document it stands for. *)
Lemma render_layout (e : env) (t : tpl) :
  env_plain e = true ->
  forall (ind : string) (v : json),
    tpl_ok t = true -> instantiate e t = Some v ->
    render (psubst e (layout ind t)) = stringify_at ind v.
Proof.
  intros He. induction t as [body|body|items IH|fields IH] using tpl_rect';
    intros ind v Hok Hv.
  - change (layout ind (TRaw body)) with body.
    symmetry. now apply raw_value_text.
  - change (layout ind (TStr body)) with (Ch dq :: body ++ [Ch dq]).
    change (instantiate e (TStr body)) with (Some (JStr (render (psubst e body)))) in Hv.
    inversion Hv; subst v.
    change (psubst e (Ch dq :: body ++ [Ch dq]))
      with (Ch dq :: psubst e (body ++ [Ch dq])).
    rewrite psubst_app.
    change (render (Ch dq :: psubst e body ++ psubst e [Ch dq]))
      with (String dq (render (psubst e body ++ [Ch dq]))).
    rewrite render_app.
    change (stringify_at ind (JStr (render (psubst e body))))
      with (String dq (escape (render (psubst e body)) +:+ dqs)).
    rewrite escape_plain; [reflexivity |].
    apply plain_render_psubst; [assumption |].
    change (tpl_ok (TStr body)) with (atoms_ok body && forallb plain_atom body) in Hok.
    now apply andb_true_iff in Hok as [_ Hok].
  - rewrite instantiate_arr in Hv.
    destruct (instantiate_items e items) as [vs|] eqn:Hvs; [| discriminate].
    inversion Hv; subst v. clear Hv.
    change (tpl_ok (TArr items)) with (forallb tpl_ok items) in Hok.
    destruct items as [|x xs].
    + inversion Hvs; subst. reflexivity.
    + rewrite instantiate_items_cons in Hvs.
      destruct (instantiate e x) as [vx|] eqn:Hx; [| discriminate].
      destruct (instantiate_items e xs) as [vxs|] eqn:Hxs; [| discriminate].
      inversion Hvs; subst vs. clear Hvs.
      simpl in Hok. apply andb_true_iff in Hok as [Hokx Hokxs].
      inversion IH as [|? ? IHx IHxs]; subst.
      rewrite layout_arr, stringify_arr.
      rewrite !psubst_app, !render_app, !psubst_chars, !render_chars.
      rewrite (IHx _ _ Hokx Hx). rewrite !append_assoc.
      do 4 f_equal.
      assert (Hrest : render (psubst e (layout_items (ind +:+ "  ") xs))
                      = stringify_items (ind +:+ "  ") vxs).
      { clear Hx Hokx IHx IH. revert vxs Hxs.
        induction xs as [|y ys IHys]; intros vxs Hxs.
        - inversion Hxs; subst. reflexivity.
        - rewrite instantiate_items_cons in Hxs.
          destruct (instantiate e y) as [vy|] eqn:Hy; [| discriminate].
          destruct (instantiate_items e ys) as [vys|] eqn:Hys; [| discriminate].
          inversion Hxs; subst vxs. clear Hxs.
          simpl in Hokxs. apply andb_true_iff in Hokxs as [Hoky Hokys].
          inversion IHxs as [|? ? IHy IHys']; subst.
          change (layout_items (ind +:+ "  ") (y :: ys))
            with (chars ("," +:+ nl +:+ (ind +:+ "  ")) ++ layout (ind +:+ "  ") y
                  ++ layout_items (ind +:+ "  ") ys).
          change (stringify_items (ind +:+ "  ") (vy :: vys))
            with ("," +:+ nl +:+ (ind +:+ "  ") +:+ stringify_at (ind +:+ "  ") vy
                  +:+ stringify_items (ind +:+ "  ") vys).
          rewrite !psubst_app, !render_app, !psubst_chars, !render_chars.
          rewrite (IHy _ _ Hoky Hy), (IHys Hokys IHys' _ eq_refl).
          now rewrite !append_assoc. }
      now rewrite Hrest.
  - rewrite instantiate_obj in Hv.
    destruct (instantiate_fields e fields) as [vs|] eqn:Hvs; [| discriminate].
    inversion Hv; subst v. clear Hv.
    change (tpl_ok (TObj fields))
      with (nodup_keys (map fst fields)
            && forallb (fun kx => atoms_ok (chars (quote (fst kx))) && tpl_ok (snd kx))
                 fields) in Hok.
    apply andb_true_iff in Hok as [_ Hok].
    destruct fields as [|[k x] xs].
    + inversion Hvs; subst. reflexivity.
    + rewrite instantiate_fields_cons in Hvs.
      destruct (instantiate e x) as [vx|] eqn:Hx; [| discriminate].
      destruct (instantiate_fields e xs) as [vxs|] eqn:Hxs; [| discriminate].
      inversion Hvs; subst vs. clear Hvs.
      simpl in Hok. apply andb_true_iff in Hok as [Hokx Hokxs].
      apply andb_true_iff in Hokx as [_ Hokx].
      inversion IH as [|? ? IHx IHxs]; subst. simpl in IHx.
      rewrite layout_obj, stringify_obj.
      rewrite !psubst_app, !render_app, !psubst_chars, !render_chars.
      rewrite (IHx _ _ Hokx Hx). rewrite !append_assoc.
      do 6 f_equal.
      assert (Hrest : render (psubst e (layout_fields (ind +:+ "  ") xs))
                      = stringify_fields (ind +:+ "  ") vxs).
      { clear Hx Hokx IHx IH. revert vxs Hxs.
        induction xs as [|[ky y] ys IHys]; intros vxs Hxs.
        - inversion Hxs; subst. reflexivity.
        - rewrite instantiate_fields_cons in Hxs.
          destruct (instantiate e y) as [vy|] eqn:Hy; [| discriminate].
          destruct (instantiate_fields e ys) as [vys|] eqn:Hys; [| discriminate].
          inversion Hxs; subst vxs. clear Hxs.
          simpl in Hokxs. apply andb_true_iff in Hokxs as [Hoky Hokys].
          apply andb_true_iff in Hoky as [_ Hoky].
          inversion IHxs as [|? ? IHy IHys']; subst. simpl in IHy.
          change (layout_fields (ind +:+ "  ") ((ky, y) :: ys))
            with (chars ("," +:+ nl +:+ (ind +:+ "  ") +:+ quote ky +:+ ": ")
                  ++ layout (ind +:+ "  ") y ++ layout_fields (ind +:+ "  ") ys).
          change (stringify_fields (ind +:+ "  ") ((ky, vy) :: vys))
            with ("," +:+ nl +:+ (ind +:+ "  ") +:+ quote ky +:+ ": "
                  +:+ stringify_at (ind +:+ "  ") vy
                  +:+ stringify_fields (ind +:+ "  ") vys).
          rewrite !psubst_app, !render_app, !psubst_chars, !render_chars.
          rewrite (IHy _ _ Hoky Hy), (IHys Hokys IHys' _ eq_refl).
          now rewrite !append_assoc. }
      now rewrite Hrest.
Qed.

(** *** The layout of a template is a well-formed text *)

Definition no_open (s : string) : bool := all (fun c => negb (Ascii.eqb c "{")) s.

Lemma atoms_ok_app (l1 l2 : list atom) :
  atoms_ok l1 = true -> atoms_ok l2 = true -> atoms_ok (l1 ++ l2) = true.
Proof.
  intros H1 H2. induction l1 as [|[c|m] l1 IH]; simpl in *; [assumption | |].
  - apply andb_true_iff in H1 as [Hc Hl]. rewrite (IH Hl), andb_true_r.
    destruct (Ascii.eqb c "{"); [| reflexivity].
    now destruct l1 as [|[d|m] l1].
  - apply andb_true_iff in H1 as [Hm Hl]. now rewrite Hm, IH.
Qed.

Lemma atoms_ok_chars (u : string) : no_open u = true -> atoms_ok (chars u) = true.
Proof.
  intros H. rewrite <- (app_nil_r (chars u)). now rewrite atoms_ok_chars_app.
Qed.

Lemma no_open_indent (ind : string) : no_open ind = true -> no_open (ind +:+ "  ") = true.
Proof. unfold no_open. intros H. now rewrite all_app, H. Qed.

Lemma atoms_ok_key (lead ind k : string) :
  no_open lead = true -> no_open ind = true ->
  atoms_ok (chars (quote k)) = true ->
  atoms_ok (chars (lead +:+ nl +:+ ind +:+ quote k +:+ ": ")) = true.
Proof.
  intros Hl Hi Hk. rewrite !chars_app.
  repeat apply atoms_ok_app; try assumption; now apply atoms_ok_chars.
Qed.

Lemma atoms_ok_layout (t : tpl) :
  forall ind, no_open ind = true -> tpl_ok t = true -> atoms_ok (layout ind t) = true.
Proof.
  induction t as [body|body|items IH|fields IH] using tpl_rect'; intros ind Hi Hok.
  - exact Hok.
  - change (tpl_ok (TStr body)) with (atoms_ok body && forallb plain_atom body) in Hok.
    apply andb_true_iff in Hok as [Hok _].
    change (layout ind (TStr body)) with ([Ch dq] ++ body ++ [Ch dq]).
    now repeat apply atoms_ok_app.
  - change (tpl_ok (TArr items)) with (forallb tpl_ok items) in Hok.
    destruct items as [|x xs]; [reflexivity |].
    simpl in Hok. apply andb_true_iff in Hok as [Hokx Hokxs].
    inversion IH as [|? ? IHx IHxs]; subst.
    pose proof (no_open_indent _ Hi) as Hi'.
    rewrite layout_arr. repeat apply atoms_ok_app.
    + apply atoms_ok_chars. unfold no_open in *. now rewrite !all_app, Hi.
    + now apply IHx.
    + clear IHx Hokx IH. induction xs as [|y ys IHys]; [reflexivity |].
      simpl in Hokxs. apply andb_true_iff in Hokxs as [Hoky Hokys].
      inversion IHxs as [|? ? IHy IHys']; subst.
      change (layout_items (ind +:+ "  ") (y :: ys))
        with (chars ("," +:+ nl +:+ (ind +:+ "  ")) ++ layout (ind +:+ "  ") y
              ++ layout_items (ind +:+ "  ") ys).
      repeat apply atoms_ok_app.
      * apply atoms_ok_chars. unfold no_open in *. now rewrite !all_app, Hi.
      * now apply IHy.
      * now apply IHys.
    + apply atoms_ok_chars. unfold no_open in *. now rewrite !all_app, Hi.
  - change (tpl_ok (TObj fields))
      with (nodup_keys (map fst fields)
            && forallb (fun kx => atoms_ok (chars (quote (fst kx))) && tpl_ok (snd kx))
                 fields) in Hok.
    apply andb_true_iff in Hok as [_ Hok].
    destruct fields as [|[k x] xs]; [reflexivity |].
    simpl in Hok. apply andb_true_iff in Hok as [Hokx Hokxs].
    apply andb_true_iff in Hokx as [Hk Hokx].
    inversion IH as [|? ? IHx IHxs]; subst. simpl in IHx.
    pose proof (no_open_indent _ Hi) as Hi'.
    rewrite layout_obj. repeat apply atoms_ok_app.
    + change ("{" +:+ nl +:+ (ind +:+ "  ") +:+ quote k +:+ ": ")
        with (String "{" (nl +:+ (ind +:+ "  ") +:+ quote k +:+ ": ")).
      change (nl +:+ (ind +:+ "  ") +:+ quote k +:+ ": ")
        with (String (ascii_of_nat 10) ((ind +:+ "  ") +:+ quote k +:+ ": ")).
      change (atoms_ok (chars (String "{" (String (ascii_of_nat 10)
                                 ((ind +:+ "  ") +:+ quote k +:+ ": ")))))
        with (atoms_ok (chars ("" +:+ nl +:+ (ind +:+ "  ") +:+ quote k +:+ ": "))).
      now apply atoms_ok_key.
    + now apply IHx.
    + clear IHx Hokx IH Hk. induction xs as [|[ky y] ys IHys]; [reflexivity |].
      simpl in Hokxs. apply andb_true_iff in Hokxs as [Hoky Hokys].
      apply andb_true_iff in Hoky as [Hky Hoky].
      inversion IHxs as [|? ? IHy IHys']; subst. simpl in IHy.
      change (layout_fields (ind +:+ "  ") ((ky, y) :: ys))
        with (chars ("," +:+ nl +:+ (ind +:+ "  ") +:+ quote ky +:+ ": ")
              ++ layout (ind +:+ "  ") y ++ layout_fields (ind +:+ "  ") ys).
      repeat apply atoms_ok_app.
      * now apply atoms_ok_key.
      * now apply IHy.
      * now apply IHys.
    + apply atoms_ok_chars. unfold no_open in *. now rewrite !all_app, Hi.
Qed.

(** *** The document a template stands for *)

Lemma instantiate_items_spec (e : env) (items : list tpl) (vs : list json) :
  instantiate_items e items = Some vs ->
  Forall2 (fun x v => instantiate e x = Some v) items vs.
Proof.
  revert vs. induction items as [|x xs IH]; intros vs H.
  - inversion H. constructor.
  - rewrite instantiate_items_cons in H.
    destruct (instantiate e x) as [v|] eqn:Hx; [| discriminate].
    destruct (instantiate_items e xs) as [vxs|]; [| discriminate].
    inversion H; subst. constructor; auto.
Qed.

Lemma instantiate_fields_spec (e : env) (fields : list (string * tpl))
  (vs : list (string * json)) :
  instantiate_fields e fields = Some vs ->
  Forall2 (fun kx kv => fst kx = fst kv /\ instantiate e (snd kx) = Some (snd kv))
    fields vs.
Proof.
  revert vs. induction fields as [|[k x] xs IH]; intros vs H.
  - inversion H. constructor.
  - rewrite instantiate_fields_cons in H.
    destruct (instantiate e x) as [v|] eqn:Hx; [| discriminate].
    destruct (instantiate_fields e xs) as [vxs|]; [| discriminate].
    inversion H; subst. constructor; auto.
Qed.

Lemma raw_value_wf (s : string) (v : json) : raw_value s = Some v -> wf v = true.
Proof.
  unfold raw_value. intros H.
  destruct (String.eqb s "true"); [now inversion H |].
  destruct (String.eqb s "false"); [now inversion H |].
  destruct (String.eqb s "null"); [now inversion H |].
  destruct (valid_number s) eqn:E; inversion H; subst. exact E.
Qed.

Lemma instantiate_wf (e : env) (t : tpl) :
  forall v, tpl_ok t = true -> instantiate e t = Some v -> wf v = true.
Proof.
  induction t as [body|body|items IH|fields IH] using tpl_rect'; intros v Hok Hv.
  - now apply raw_value_wf in Hv.
  - now inversion Hv.
  - rewrite instantiate_arr in Hv.
    destruct (instantiate_items e items) as [vs|] eqn:Hvs; [| discriminate].
    inversion Hv; subst v. apply instantiate_items_spec in Hvs.
    change (tpl_ok (TArr items)) with (forallb tpl_ok items) in Hok.
    change (wf (JArr vs)) with (forallb wf vs).
    clear Hv. induction Hvs as [|x v xs vs Hx Hxs IHxs]; [reflexivity |].
    simpl in *. apply andb_true_iff in Hok as [Hokx Hokxs].
    inversion IH; subst. rewrite IHxs by assumption.
    rewrite andb_true_r. auto.
  - rewrite instantiate_obj in Hv.
    destruct (instantiate_fields e fields) as [vs|] eqn:Hvs; [| discriminate].
    inversion Hv; subst v. apply instantiate_fields_spec in Hvs.
    change (tpl_ok (TObj fields))
      with (nodup_keys (map fst fields)
            && forallb (fun kx => atoms_ok (chars (quote (fst kx))) && tpl_ok (snd kx))
                 fields) in Hok.
    change (wf (JObj vs))
      with (nodup_keys (map fst vs) && forallb (fun kv => wf (snd kv)) vs).
    apply andb_true_iff in Hok as [Hnd Hok].
    assert (Hkeys : map fst vs = map fst fields).
    { clear -Hvs. induction Hvs as [|? ? ? ? [Hk _] _ IHf]; simpl; [reflexivity |].
      now rewrite Hk, IHf. }
    rewrite Hkeys, Hnd. simpl.
    clear Hv Hkeys Hnd. induction Hvs as [|kx kv xs vs [_ Hx] Hxs IHxs]; [reflexivity |].
    simpl in *. apply andb_true_iff in Hok as [Hokx Hokxs].
    apply andb_true_iff in Hokx as [_ Hokx].
    inversion IH; subst. rewrite IHxs by assumption.
    rewrite andb_true_r. auto.
Qed.

(** A path into the template leads to the corresponding place of the
    document. *)
Lemma instantiate_step (e : env) (t t' : tpl) (v : json) (s : sel) :
  instantiate e t = Some v -> tstep t s = Some t' ->
  exists v', jstep v s = Some v' /\ instantiate e t' = Some v'.
Proof.
  intros Hv Hs. destruct t as [body|body|items|fields]; destruct s as [k|i];
    try discriminate; simpl in Hs.
  - rewrite instantiate_arr in Hv.
    destruct (instantiate_items e items) as [vs|] eqn:Hvs; [| discriminate].
    inversion Hv; subst v. apply instantiate_items_spec in Hvs. simpl.
    clear Hv. revert i Hs. induction Hvs as [|x v xs vs Hx Hxs IHxs]; intros i Hs.
    + now destruct i.
    + destruct i as [|i]; simpl in *.
      * inversion Hs; subst. eauto.
      * now apply IHxs.
  - rewrite instantiate_obj in Hv.
    destruct (instantiate_fields e fields) as [vs|] eqn:Hvs; [| discriminate].
    inversion Hv; subst v. apply instantiate_fields_spec in Hvs. simpl.
    clear Hv. induction Hvs as [|[k1 x] [k2 v] xs vs [Hk Hx] Hxs IHxs];
      [discriminate |].
    simpl in *. subst k2.
    destruct (String.eqb k1 k).
    + inversion Hs; subst. eauto.
    + now apply IHxs.
Qed.

Lemma instantiate_path (e : env) (p : list sel) :
  forall (t t' : tpl) (v : json),
    instantiate e t = Some v -> tpath t p = Some t' ->
    exists v', jpath v p = Some v' /\ instantiate e t' = Some v'.
Proof.
  induction p as [|s p IH]; intros t t' v Hv Hp; simpl in *.
  - inversion Hp; subst. eauto.
  - destruct (tstep t s) as [t1|] eqn:Hs; [| discriminate].
    destruct (instantiate_step _ _ _ _ _ Hv Hs) as (v1 & Hj & Hv1).
    rewrite Hj. eapply IH; eauto.
Qed.

End TemplateFacts.

(** ** [JSON.parse] reads back what [JSON.stringify] writes *)

Module ParseFacts.

Import Str StrFacts JSON Template TemplateFacts.

#[local] Arguments stringify_at : simpl never.
#[local] Arguments step : simpl never.

Lemma run_app (a b : string) (st : pstate) :
  run st (a +:+ b) = match run st a with Some st' => run st' b | None => None end.
Proof.
  revert st. induction a as [|c a IH]; intros st; simpl; [reflexivity |].
  destruct (step st c); [apply IH | reflexivity].
Qed.

Definition ws_mode (m : mode) : bool :=
  match m with
  | MValue | MFirst | MKeyFirst | MKeyNext | MColon | MAfter _ => true
  | _ => false
  end.

Lemma run_ws (u : string) (m : mode) (stk : list frame) :
  ws_mode m = true -> ws_only u = true -> run (m, stk) u = Some (m, stk).
Proof.
  intros Hm. unfold ws_only. induction u as [|c u IH]; simpl; intros H; [reflexivity |].
  apply andb_true_iff in H as [Hc Hu].
  assert (Hs : step (m, stk) c = Some (m, stk)).
  { destruct m; try discriminate; unfold step, step_after; now rewrite Hc. }
  rewrite Hs. now apply IH.
Qed.

Lemma ws_only_indent (ind : string) : ws_only ind = true -> ws_only (ind +:+ "  ") = true.
Proof. unfold ws_only. intros H. now rewrite all_app, H. Qed.

Lemma ws_only_nl (ind : string) : ws_only ind = true -> ws_only (nl +:+ ind) = true.
Proof. unfold ws_only. intros H. now rewrite all_app, H. Qed.

(** *** Strings *)

Lemma run_escape_char (c : ascii) (acc : string) (stk : list frame) :
  run (MStr acc, stk) (escape_char c) = Some (MStr (snoc acc c), stk).
Proof. destruct c as [[] [] [] [] [] [] [] []]; reflexivity. Qed.

Lemma run_escape (s acc : string) (stk : list frame) :
  run (MStr acc, stk) (escape s) = Some (MStr (acc +:+ s), stk).
Proof.
  revert acc. induction s as [|c s IH]; intros acc; simpl.
  - now rewrite append_nil_r.
  - rewrite run_app, run_escape_char, IH. now rewrite snoc_append.
Qed.

Lemma run_quote (s : string) (m : mode) (stk : list frame) :
  m = MValue \/ m = MFirst \/ m = MKeyFirst \/ m = MKeyNext ->
  run (m, stk) (quote s) = Some (end_string s stk).
Proof.
  intros Hm. unfold quote.
  change (dqs +:+ escape s +:+ dqs) with (String dq (escape s +:+ dqs)).
  assert (Hs : step (m, stk) dq = Some (MStr "", stk))
    by (destruct Hm as [-> | [-> | [-> | ->]]]; reflexivity).
  simpl. rewrite Hs, run_app, run_escape. reflexivity.
Qed.

(** *** Numbers *)

Lemma num_start_step (c : ascii) (st : nstate) (stk : list frame) :
  num_start c = Some st ->
  step (MValue, stk) c = Some (MNum st (String c ""), stk) /\
  step (MFirst, stk) c = Some (MNum st (String c ""), stk).
Proof.
  destruct c as [[] [] [] [] [] [] [] []]; intros H; vm_compute in H;
    try discriminate; inversion H; split; reflexivity.
Qed.

Lemma run_num (r acc : string) (st st' : nstate) (stk : list frame) :
  num_run st r = Some st' ->
  run (MNum st acc, stk) r = Some (MNum st' (acc +:+ r), stk).
Proof.
  revert acc st. induction r as [|c r IH]; intros acc st H; simpl in *.
  - inversion H. now rewrite append_nil_r.
  - destruct (num_step st c) as [st1|] eqn:E; [| discriminate].
    assert (Hs : step (MNum st acc, stk) c = Some (MNum st1 (snoc acc c), stk))
      by (unfold step; now rewrite E).
    rewrite Hs, (IH _ _ H). now rewrite snoc_append.
Qed.

Lemma run_number (lit : string) (st : nstate) (m : mode) (stk : list frame) :
  m = MValue \/ m = MFirst ->
  num_final lit = Some st ->
  run (m, stk) lit = Some (MNum st lit, stk).
Proof.
  intros Hm H. destruct lit as [|c r]; [discriminate |]. simpl in H.
  destruct (num_start c) as [st0|] eqn:E; [| discriminate].
  destruct (num_start_step c st0 stk E) as [H1 H2]. simpl.
  assert (Hs : step (m, stk) c = Some (MNum st0 (String c ""), stk))
    by (destruct Hm as [-> | ->]; assumption).
  rewrite Hs. now rewrite (run_num _ _ _ _ _ H).
Qed.

Lemma num_step_delim (st : nstate) (c : ascii) :
  is_delim c = true -> num_step st c = None.
Proof.
  destruct c as [[] [] [] [] [] [] [] []]; intros H; vm_compute in H;
    try discriminate; destruct st; reflexivity.
Qed.

(** *** What follows a value *)

Lemma step_settled (v : json) (stk : list frame) (c : ascii) :
  wf v = true -> is_delim c = true ->
  step (settled v stk) c = step_after v stk c.
Proof.
  intros Hw Hc. destruct v; try reflexivity.
  unfold settled. simpl in Hw. unfold valid_number in Hw.
  destruct (num_final lit) as [st|]; [| discriminate].
  unfold step. now rewrite num_step_delim, Hw.
Qed.

Lemma finish_settled (v : json) : wf v = true -> finish (settled v []) = Some v.
Proof.
  intros Hw. destruct v; try reflexivity.
  unfold settled. simpl in Hw. unfold valid_number in Hw.
  destruct (num_final lit) as [st|]; [| discriminate].
  simpl. now rewrite Hw.
Qed.

Lemma step_settled_ws (v : json) (stk : list frame) (c : ascii) :
  wf v = true -> is_ws c = true ->
  step (settled v stk) c = Some (MAfter v, stk).
Proof.
  intros Hw Hc. rewrite step_settled; [| assumption |].
  - unfold step_after. now rewrite Hc.
  - unfold is_delim. now rewrite Hc.
Qed.

(** After a value: the line break, the indentation and the bracket that
    closes an array. *)
Lemma run_close (v : json) (stk : list frame) (ind : string) (c : ascii)
  (st : pstate) :
  wf v = true -> ws_only ind = true ->
  step_after v stk c = Some st ->
  run (settled v stk) (nl +:+ ind +:+ String c "") = Some st.
Proof.
  intros Hw Hi Hc.
  change (nl +:+ ind +:+ String c "")
    with (String (ascii_of_nat 10) (ind +:+ String c "")).
  simpl. rewrite step_settled_ws by (assumption || reflexivity).
  rewrite run_app, run_ws by (assumption || reflexivity).
  simpl. change (step (MAfter v, stk) c) with (step_after v stk c).
  now rewrite Hc.
Qed.

(** *** Values *)

Lemma run_cons (c : ascii) (s : string) (st : pstate) :
  run st (String c s) = match step st c with Some st' => run st' s | None => None end.
Proof. reflexivity. Qed.

Lemma run_ws_app (u rest : string) (m : mode) (stk : list frame) :
  ws_mode m = true -> ws_only u = true ->
  run (m, stk) (u +:+ rest) = run (m, stk) rest.
Proof. intros Hm Hu. now rewrite run_app, run_ws. Qed.

Lemma nodup_keys_notin (l1 l2 : list string) (k : string) :
  nodup_keys (l1 ++ k :: l2) = true -> existsb (String.eqb k) l1 = false.
Proof.
  induction l1 as [|a l1 IH]; simpl; intros H; [reflexivity |].
  apply andb_true_iff in H as [Ha Hl]. apply negb_true_iff in Ha.
  rewrite existsb_app in Ha. apply orb_false_iff in Ha as [_ Ha].
  simpl in Ha. apply orb_false_iff in Ha as [Ha _].
  rewrite String.eqb_sym, Ha. simpl. now apply IH.
Qed.

Lemma obj_set_fresh (done : list (string * json)) (k : string) (v : json) :
  existsb (String.eqb k) (map fst done) = false ->
  obj_set done k v = done ++ [(k, v)].
Proof.
  induction done as [|[k' v'] done IH]; simpl; intros H; [reflexivity |].
  apply orb_false_iff in H as [Hk H]. rewrite String.eqb_sym, Hk.
  now rewrite IH.
Qed.

Lemma step_open (m : mode) (stk : list frame) :
  m = MValue \/ m = MFirst ->
  step (m, stk) "[" = Some (MFirst, FArr [] :: stk) /\
  step (m, stk) "{" = Some (MKeyFirst, FObjKey [] :: stk).
Proof. intros [-> | ->]; split; reflexivity. Qed.

Definition reads (v : json) : Prop :=
  forall (ind : string) (stk : list frame) (m : mode),
    wf v = true -> ws_only ind = true -> value_ctx stk = true ->
    m = MValue \/ m = MFirst ->
    run (m, stk) (stringify_at ind v) = Some (settled v stk).

Lemma reads_app (v : json) (ind rest : string) (stk : list frame) (m : mode) :
  reads v -> wf v = true -> ws_only ind = true -> value_ctx stk = true ->
  m = MValue \/ m = MFirst ->
  run (m, stk) (stringify_at ind v +:+ rest) = run (settled v stk) rest.
Proof. intros Hr Hw Hi Hs Hm. now rewrite run_app, Hr. Qed.

(** The elements of an array after the first, up to the closing bracket. *)
Lemma run_items (ind ind' : string) (stk : list frame) (ys : list json) :
  ws_only ind = true -> ws_only ind' = true ->
  Forall reads ys -> forallb wf ys = true ->
  forall (done : list json) (y : json),
    wf y = true ->
    run (settled y (FArr done :: stk))
      (stringify_items ind' ys +:+ nl +:+ ind +:+ "]")
    = Some (MAfter (JArr (done ++ y :: ys)), stk).
Proof.
  intros Hi Hi' Hr Hw. induction ys as [|z zs IH]; intros done y Hy.
  - change (stringify_items ind' [] +:+ nl +:+ ind +:+ "]")
      with (nl +:+ ind +:+ String "]" "").
    now apply run_close.
  - simpl in Hw. apply andb_true_iff in Hw as [Hz Hzs].
    inversion Hr as [|? ? Hrz Hrzs]; subst.
    change (stringify_items ind' (z :: zs))
      with ("," +:+ nl +:+ ind' +:+ stringify_at ind' z +:+ stringify_items ind' zs).
    rewrite !append_assoc.
    change ("," +:+ nl +:+ ind' +:+ stringify_at ind' z +:+ stringify_items ind' zs
            +:+ nl +:+ ind +:+ "]")
      with (String "," (nl +:+ ind' +:+ stringify_at ind' z +:+ stringify_items ind' zs
                        +:+ nl +:+ ind +:+ "]")).
    rewrite run_cons, step_settled by (assumption || reflexivity).
    change (step_after y (FArr done :: stk) ",")
      with (Some (MValue, FArr (done ++ [y]) :: stk)).
    cbv beta iota.
    rewrite !run_ws_app by (assumption || reflexivity).
    rewrite reads_app by (assumption || reflexivity || now left).
    rewrite (IH Hrzs Hzs (done ++ [y]) z Hz).
    now rewrite <- app_assoc.
Qed.

(** The members of an object after the first, up to the closing brace. *)
Lemma run_fields (ind ind' : string) (stk : list frame) (ys : list (string * json)) :
  ws_only ind = true -> ws_only ind' = true ->
  Forall (fun kv => reads (snd kv)) ys -> forallb (fun kv => wf (snd kv)) ys = true ->
  forall (done : list (string * json)) (k : string) (y : json),
    wf y = true ->
    nodup_keys (map fst (done ++ (k, y) :: ys)) = true ->
    run (settled y (FObjVal done k :: stk))
      (stringify_fields ind' ys +:+ nl +:+ ind +:+ "}")
    = Some (MAfter (JObj (done ++ (k, y) :: ys)), stk).
Proof.
  intros Hi Hi' Hr Hw. induction ys as [|[kz z] zs IH]; intros done k y Hy Hnd.
  - change (stringify_fields ind' [] +:+ nl +:+ ind +:+ "}")
      with (nl +:+ ind +:+ String "}" "").
    apply run_close; try assumption.
    change (step_after y (FObjVal done k :: stk) "}")
      with (Some (MAfter (JObj (obj_set done k y)), stk)).
    rewrite obj_set_fresh; [reflexivity |].
    rewrite map_app in Hnd. exact (nodup_keys_notin _ _ _ Hnd).
  - simpl in Hw. apply andb_true_iff in Hw as [Hz Hzs].
    inversion Hr as [|? ? Hrz Hrzs]; subst. simpl in Hrz.
    change (stringify_fields ind' ((kz, z) :: zs))
      with ("," +:+ nl +:+ ind' +:+ quote kz +:+ ": " +:+ stringify_at ind' z
            +:+ stringify_fields ind' zs).
    rewrite !append_assoc.
    change ("," +:+ nl +:+ ind' +:+ quote kz +:+ ": " +:+ stringify_at ind' z
            +:+ stringify_fields ind' zs +:+ nl +:+ ind +:+ "}")
      with (String "," (nl +:+ ind' +:+ quote kz
                        +:+ String ":" (" " +:+ stringify_at ind' z
                                        +:+ stringify_fields ind' zs
                                        +:+ nl +:+ ind +:+ "}"))).
    rewrite run_cons, step_settled by (assumption || reflexivity).
    change (step_after y (FObjVal done k :: stk) ",")
      with (Some (MKeyNext, FObjKey (obj_set done k y) :: stk)).
    rewrite obj_set_fresh
      by (rewrite map_app in Hnd; exact (nodup_keys_notin _ _ _ Hnd)).
    cbv beta iota.
    rewrite !run_ws_app by (assumption || reflexivity).
    rewrite run_app, run_quote by auto.
    change (end_string kz (FObjKey (done ++ [(k, y)]) :: stk))
      with (MColon, FObjVal (done ++ [(k, y)]) kz :: stk).
    rewrite run_cons.
    change (step (MColon, FObjVal (done ++ [(k, y)]) kz :: stk) ":")
      with (Some (MValue, FObjVal (done ++ [(k, y)]) kz :: stk)).
    cbv beta iota.
    rewrite run_ws_app by reflexivity.
    rewrite reads_app by (assumption || reflexivity || now left).
    rewrite (IH Hrzs Hzs (done ++ [(k, y)]) kz z Hz).
    + now rewrite <- app_assoc.
    + now rewrite <- app_assoc.
Qed.

Lemma run_value (v : json) : reads v.
Proof.
  induction v as [|b|lit|s|items IH|fields IH] using json_rect';
    intros ind stk m Hw Hi Hs Hm.
  - destruct Hm as [-> | ->]; reflexivity.
  - destruct Hm as [-> | ->]; destruct b; reflexivity.
  - change (stringify_at ind (JNum lit)) with lit.
    simpl in Hw. unfold valid_number in Hw. unfold settled.
    destruct (num_final lit) as [st|] eqn:E; [| discriminate].
    now apply run_number.
  - change (stringify_at ind (JStr s)) with (quote s).
    rewrite run_quote by tauto.
    destruct stk as [|[| |] stk]; try reflexivity. discriminate.
  - destruct items as [|x xs].
    + destruct Hm as [-> | ->]; reflexivity.
    + simpl in Hw. apply andb_true_iff in Hw as [Hx Hxs].
      inversion IH as [|? ? IHx IHxs]; subst.
      rewrite stringify_arr.
      pose proof (ws_only_indent _ Hi) as Hi'.
      remember (ind +:+ "  ") as ind' eqn:Eind.
      change ("[" +:+ nl +:+ ind' +:+ stringify_at ind' x
              +:+ stringify_items ind' xs +:+ nl +:+ ind +:+ "]")
        with (String "[" (nl +:+ ind' +:+ stringify_at ind' x
                          +:+ stringify_items ind' xs +:+ nl +:+ ind +:+ "]")).
      rewrite run_cons. destruct (step_open m stk Hm) as [-> _].
      rewrite !run_ws_app by (assumption || reflexivity).
      rewrite reads_app by (assumption || reflexivity || now right).
      now rewrite (run_items ind ind' stk xs Hi Hi' IHxs Hxs [] x Hx).
  - destruct fields as [|[k x] xs].
    + destruct Hm as [-> | ->]; reflexivity.
    + simpl in Hw. apply andb_true_iff in Hw as [Hnd Hw].
      apply andb_true_iff in Hw as [Hx Hxs].
      inversion IH as [|? ? IHx IHxs]; subst. simpl in IHx.
      rewrite stringify_obj.
      pose proof (ws_only_indent _ Hi) as Hi'.
      remember (ind +:+ "  ") as ind' eqn:Eind.
      change ("{" +:+ nl +:+ ind' +:+ quote k +:+ ": " +:+ stringify_at ind' x
              +:+ stringify_fields ind' xs +:+ nl +:+ ind +:+ "}")
        with (String "{" (nl +:+ ind' +:+ quote k
                          +:+ String ":" (" " +:+ stringify_at ind' x
                                          +:+ stringify_fields ind' xs
                                          +:+ nl +:+ ind +:+ "}"))).
      rewrite run_cons. destruct (step_open m stk Hm) as [_ ->].
      rewrite !run_ws_app by (assumption || reflexivity).
      rewrite run_app, run_quote by auto.
      change (end_string k (FObjKey [] :: stk)) with (MColon, FObjVal [] k :: stk).
      rewrite run_cons.
      change (step (MColon, FObjVal [] k :: stk) ":")
        with (Some (MValue, FObjVal [] k :: stk)).
      cbv beta iota.
      rewrite run_ws_app by reflexivity.
      rewrite reads_app by (assumption || reflexivity || now left).
      now rewrite (run_fields ind ind' stk xs Hi Hi' IHxs Hxs [] k x Hx).
Qed.

(** Parsing the text that [JSON.stringify(_, null, 2)] gives a well-formed
    value yields that value. *)
Theorem parse_stringify (v : json) :
  wf v = true -> JSON.parse (JSON.stringify v) = Some v.
Proof.
  intros Hw. unfold JSON.parse, JSON.stringify.
  rewrite (run_value v "" [] MValue) by (assumption || reflexivity || now left).
  now apply finish_settled.
Qed.

End ParseFacts.

(** ** Base64 *)

Module Base64Facts.

Import Base64.

Lemma string_ind3 (P : string -> Prop) :
  P "" ->
  (forall a, P (String a "")) ->
  (forall a b, P (String a (String b ""))) ->
  (forall a b c r, P r -> P (String a (String b (String c r)))) ->
  forall s, P s.
Proof.
  intros H0 H1 H2 H3.
  assert (H : forall s, P s /\ (forall a, P (String a s))
                        /\ (forall a b, P (String a (String b s)))).
  { induction s as [|c s (IH0 & IH1 & IH2)]; [now auto |].
    repeat split; auto. }
  intros s. apply H.
Qed.

Definition digits_ok : bool :=
  forallb (fun k => match value (digit (N.of_nat k)) with
                    | Some m => N.eqb m (N.of_nat k)
                    | None => false
                    end) (seq 0 64).

Lemma value_digit (n : N) : (n < 64)%N -> value (digit n) = Some n.
Proof.
  intros H.
  assert (Hall : digits_ok = true) by (vm_compute; reflexivity).
  unfold digits_ok in Hall. rewrite forallb_forall in Hall.
  specialize (Hall (N.to_nat n)). rewrite N2Nat.id in Hall.
  destruct (value (digit n)) as [m|].
  - f_equal. apply N.eqb_eq. apply Hall. apply in_seq. lia.
  - exfalso. assert (false = true); [| discriminate].
    apply Hall. apply in_seq. lia.
Qed.

Lemma digit_not_pad (n : N) : (n < 64)%N -> Ascii.eqb (digit n) "=" = false.
Proof.
  intros H. destruct (Ascii.eqb_spec (digit n) "=") as [E |]; [| reflexivity].
  pose proof (value_digit n H) as Hv. rewrite E in Hv. discriminate.
Qed.

Lemma byte_bound (a : ascii) : (N_of_ascii a < 256)%N.
Proof. apply N_ascii_bounded. Qed.

Lemma byte_id (a : ascii) (n : N) : n = N_of_ascii a -> ascii_of_N n = a.
Proof. intros ->. apply ascii_N_embedding. Qed.

Ltac divlia := zify; Z.to_euclidean_division_equations; lia.

(** Decoding gives back the bytes that were encoded. *)
Theorem decode_encode (s : string) : decode (encode s) = Some s.
Proof.
  induction s as [|a|a b|a b c r IH] using string_ind3.
  - reflexivity.
  - pose proof (byte_bound a) as Ha.
    cbn [encode]. set (x := N_of_ascii a) in *.
    cbn [decode].
    rewrite !value_digit by divlia.
    simpl.
    f_equal. f_equal. apply byte_id. subst x. divlia.
  - pose proof (byte_bound a) as Ha. pose proof (byte_bound b) as Hb.
    cbn [encode]. set (x := N_of_ascii a) in *. set (y := N_of_ascii b) in *.
    cbn [decode].
    rewrite !value_digit by divlia.
    simpl. rewrite digit_not_pad by divlia.
    f_equal. f_equal; [apply byte_id; subst x; divlia |].
    f_equal. apply byte_id. subst y. divlia.
  - pose proof (byte_bound a) as Ha. pose proof (byte_bound b) as Hb.
    pose proof (byte_bound c) as Hc.
    cbn [encode]. set (x := N_of_ascii a) in *. set (y := N_of_ascii b) in *.
    set (z := N_of_ascii c) in *.
    cbn [decode].
    rewrite !value_digit by divlia.
    rewrite digit_not_pad by divlia. rewrite IH.
    f_equal. f_equal; [apply byte_id; subst x; divlia |].
    f_equal; [apply byte_id; subst y; divlia |].
    f_equal. apply byte_id. subst z. divlia.
Qed.

End Base64Facts.

(** ** The values the localizer computes are inert *)

Module InertFacts.

Import Str StrFacts JSON Template TemplateFacts.

Definition inert_char (c : ascii) : bool := clean_char c && plain_char c.

Lemma inert_all (v : string) : inert v = all inert_char v.
Proof.
  unfold inert, clean, plain, inert_char.
  induction v as [|c v IH]; simpl; [reflexivity |].
  rewrite <- IH.
  destruct (clean_char c), (plain_char c), (all clean_char v), (all plain_char v);
    reflexivity.
Qed.

Lemma inert_app (a b : string) : inert (a +:+ b) = inert a && inert b.
Proof. rewrite !inert_all. apply all_app. Qed.

Lemma inert_clean (v : string) : inert v = true -> clean v = true.
Proof. unfold inert. intros H. now apply andb_true_iff in H as [H _]. Qed.

Lemma inert_plain (v : string) : inert v = true -> plain v = true.
Proof. unfold inert. intros H. now apply andb_true_iff in H as [_ H]. Qed.

Lemma all_impl (f g : ascii -> bool) (s : string) :
  (forall c, f c = true -> g c = true) -> all f s = true -> all g s = true.
Proof.
  intros Hfg. induction s as [|c s IH]; simpl; intros H; [reflexivity |].
  apply andb_true_iff in H as [Hc Hs]. now rewrite (Hfg c Hc), IH.
Qed.

(** *** Decimal numerals *)

Definition digit_or_minus (c : ascii) : bool := is_digit c || Ascii.eqb c "-".

Lemma digit_or_minus_inert (c : ascii) : digit_or_minus c = true -> inert_char c = true.
Proof.
  destruct c as [[] [] [] [] [] [] [] []]; intros H; vm_compute in H;
    try discriminate; reflexivity.
Qed.

Lemma uint_digits (d : Decimal.uint) : all is_digit (NilEmpty.string_of_uint d) = true.
Proof. induction d; simpl; [reflexivity | assumption ..]. Qed.

Lemma uint_digits0 (d : Decimal.uint) : all is_digit (NilZero.string_of_uint d) = true.
Proof. destruct d; try reflexivity; apply (uint_digits (_ d)). Qed.

Lemma of_nat_inert (n : nat) : inert (JS.of_nat n) = true.
Proof.
  rewrite inert_all. unfold JS.of_nat.
  eapply all_impl; [| apply uint_digits0].
  intros c Hc. apply digit_or_minus_inert. unfold digit_or_minus. now rewrite Hc.
Qed.

Lemma of_Z_inert (z : Z) : inert (JS.of_Z z) = true.
Proof.
  rewrite inert_all. unfold JS.of_Z.
  destruct (Z.to_int z) as [d|d]; simpl.
  - eapply all_impl; [| apply uint_digits0].
    intros c Hc. apply digit_or_minus_inert. unfold digit_or_minus. now rewrite Hc.
  - eapply all_impl; [| apply uint_digits0].
    intros c Hc. apply digit_or_minus_inert. unfold digit_or_minus. now rewrite Hc.
Qed.

Lemma num_run_digits (s : string) :
  all is_digit s = true -> num_run NInt s = Some NInt.
Proof.
  induction s as [|c s IH]; simpl; intros H; [reflexivity |].
  apply andb_true_iff in H as [Hc Hs]. rewrite Hc. now apply IH.
Qed.

Lemma unorm_valid (d : Decimal.uint) :
  valid_number (NilZero.string_of_uint (Decimal.unorm d)) = true.
Proof.
  unfold Decimal.unorm.
  pose proof (nzhead_nonzero d) as Hnz.
  destruct (Decimal.nzhead d) as [|d'|d'|d'|d'|d'|d'|d'|d'|d'|d'];
    try reflexivity;
    try (now destruct (Hnz d'));
    unfold valid_number; simpl;
    now rewrite (num_run_digits _ (uint_digits d')).
Qed.

(** The decimal numeral of a natural number is a JSON number. *)
Lemma of_nat_valid (n : nat) : valid_number (JS.of_nat n) = true.
Proof.
  unfold JS.of_nat.
  rewrite <- (DecimalNat.Unsigned.of_to n) at 1.
  rewrite DecimalNat.Unsigned.to_of. apply unorm_valid.
Qed.

(** *** Base64 *)

Definition digits_inert : bool :=
  forallb (fun k => inert_char (Base64.digit (N.of_nat k))) (seq 0 64).

Lemma digit_inert (n : N) : inert_char (Base64.digit n) = true.
Proof.
  destruct (N.ltb_spec n 64) as [H | H].
  - assert (Hall : digits_inert = true) by (vm_compute; reflexivity).
    unfold digits_inert in Hall. rewrite forallb_forall in Hall.
    specialize (Hall (N.to_nat n)). rewrite N2Nat.id in Hall.
    apply Hall. apply in_seq. lia.
  - unfold Base64.digit.
    destruct (N.ltb_spec n 26); [lia |]. destruct (N.ltb_spec n 52); [lia |].
    destruct (N.ltb_spec n 62); [lia |]. destruct (N.eqb_spec n 62); [lia |].
    reflexivity.
Qed.

Lemma encode_inert (s : string) : inert (Base64.encode s) = true.
Proof.
  rewrite inert_all.
  induction s as [|a|a b|a b c r IH] using Base64Facts.string_ind3;
    cbn [Base64.encode all]; rewrite ?digit_inert; try reflexivity.
  exact IH.
Qed.

End InertFacts.

(** ** What the parser returns is well formed *)

Module WfFacts.

Import Str StrFacts JSON Template TemplateFacts ParseFacts.

Definition fields_wf (o : list (string * json)) : bool :=
  nodup_keys (map fst o) && forallb (fun kv => wf (snd kv)) o.

Definition frame_wf (f : frame) : bool :=
  match f with
  | FArr done => forallb wf done
  | FObjKey done | FObjVal done _ => fields_wf done
  end.

Definition mode_wf (m : mode) : Prop :=
  match m with
  | MNum st acc => num_final acc = Some st
  | MLit _ v | MAfter v => wf v = true
  | _ => True
  end.

Definition state_wf (st : pstate) : Prop :=
  mode_wf (fst st) /\ forallb frame_wf (snd st) = true.

(** *** Objects *)

Lemma nodup_keys_snoc (l : list string) (k : string) :
  nodup_keys l = true -> existsb (String.eqb k) l = false ->
  nodup_keys (l ++ [k]) = true.
Proof.
  induction l as [|a l IH]; simpl; intros Hn Hk; [reflexivity |].
  apply andb_true_iff in Hn as [Ha Hl]. apply orb_false_iff in Hk as [Hka Hk].
  rewrite (IH Hl Hk), andb_true_r. rewrite existsb_app.
  apply negb_true_iff in Ha. rewrite Ha. simpl.
  now rewrite String.eqb_sym, Hka.
Qed.

Lemma obj_set_keys (o : list (string * json)) (k : string) (v : json) :
  map fst (obj_set o k v)
  = if existsb (String.eqb k) (map fst o) then map fst o else map fst o ++ [k].
Proof.
  induction o as [|[k' v'] o IH]; simpl; [reflexivity |].
  rewrite (String.eqb_sym k k').
  destruct (String.eqb_spec k' k) as [-> | Hne]; simpl; [reflexivity |].
  rewrite IH. now destruct (existsb (String.eqb k) (map fst o)).
Qed.

Lemma obj_set_values (o : list (string * json)) (k : string) (v : json) :
  forallb (fun kv => wf (snd kv)) o = true -> wf v = true ->
  forallb (fun kv => wf (snd kv)) (obj_set o k v) = true.
Proof.
  intros Ho Hv. induction o as [|[k' v'] o IH]; simpl in *; [now rewrite Hv |].
  apply andb_true_iff in Ho as [Hv' Ho].
  destruct (String.eqb k' k); simpl; [now rewrite Hv, Ho | now rewrite Hv', IH].
Qed.

Lemma obj_set_wf (o : list (string * json)) (k : string) (v : json) :
  fields_wf o = true -> wf v = true -> fields_wf (obj_set o k v) = true.
Proof.
  unfold fields_wf. intros Ho Hv. apply andb_true_iff in Ho as [Hn Ho].
  rewrite obj_set_values by assumption. rewrite andb_true_r, obj_set_keys.
  destruct (existsb (String.eqb k) (map fst o)) eqn:E; [assumption |].
  now apply nodup_keys_snoc.
Qed.

Lemma existsb_delete (o : list (string * json)) (k a : string) :
  existsb (String.eqb a) (map fst o) = false ->
  existsb (String.eqb a) (map fst (obj_delete o k)) = false.
Proof.
  induction o as [|[k' v'] o IH]; simpl; intros H; [reflexivity |].
  apply orb_false_iff in H as [Ha H].
  destruct (String.eqb k' k); simpl; [now apply IH | now rewrite Ha, IH].
Qed.

Lemma obj_delete_wf (o : list (string * json)) (k : string) :
  fields_wf o = true -> fields_wf (obj_delete o k) = true.
Proof.
  unfold fields_wf. induction o as [|[k' v'] o IH]; simpl; intros H; [reflexivity |].
  apply andb_true_iff in H as [Hn Hv].
  apply andb_true_iff in Hn as [Hk Hn]. apply andb_true_iff in Hv as [Hv' Hv].
  assert (IH' : nodup_keys (map fst (obj_delete o k))
                && forallb (fun kv => wf (snd kv)) (obj_delete o k) = true)
    by (apply IH; now rewrite Hn, Hv).
  destruct (String.eqb k' k); simpl; [assumption |].
  apply andb_true_iff in IH' as [IH1 IH2]. rewrite IH1, IH2, Hv'.
  apply negb_true_iff in Hk. now rewrite (existsb_delete _ _ _ Hk).
Qed.

Lemma obj_get_wf (o : list (string * json)) (k : string) (v : json) :
  forallb (fun kv => wf (snd kv)) o = true -> obj_get o k = Some v -> wf v = true.
Proof.
  induction o as [|[k' v'] o IH]; simpl; intros Ho H; [discriminate |].
  apply andb_true_iff in Ho as [Hv' Ho].
  destruct (String.eqb k' k); [now inversion H; subst | now apply IH].
Qed.

Lemma forallb_snoc {A : Type} (f : A -> bool) (l : list A) (x : A) :
  forallb f l = true -> f x = true -> forallb f (l ++ [x]) = true.
Proof. intros Hl Hx. rewrite forallb_app, Hl. simpl. now rewrite Hx. Qed.

(** *** The steps of the parser *)

Lemma num_run_snoc (r : string) (st st1 st2 : nstate) (c : ascii) :
  num_run st r = Some st1 -> num_step st1 c = Some st2 ->
  num_run st (snoc r c) = Some st2.
Proof.
  revert st. induction r as [|a r IH]; intros st H1 H2; simpl in *.
  - inversion H1; subst. now rewrite H2.
  - destruct (num_step st a); [now apply IH | discriminate].
Qed.

Lemma num_final_snoc (acc : string) (st st' : nstate) (c : ascii) :
  num_final acc = Some st -> num_step st c = Some st' ->
  num_final (snoc acc c) = Some st'.
Proof.
  destruct acc as [|a r]; [discriminate |]. simpl.
  destruct (num_start a); [| discriminate].
  apply num_run_snoc.
Qed.

Lemma step_after_wf (v : json) (stk : list frame) (c : ascii) (st' : pstate) :
  wf v = true -> forallb frame_wf stk = true ->
  step_after v stk c = Some st' -> state_wf st'.
Proof.
  intros Hv Hs. unfold step_after.
  destruct (is_ws c); [intros H; inversion H; now split |].
  destruct (Ascii.eqb c ",").
  { destruct stk as [|[done|done|done k] stk]; try discriminate;
      simpl in Hs; apply andb_true_iff in Hs as [Hf Hs];
      intros H; inversion H; subst; split; simpl; try exact I.
    - now rewrite Hs, forallb_snoc.
    - now rewrite Hs, obj_set_wf. }
  destruct (Ascii.eqb c "]").
  { destruct stk as [|[done|done|done k] stk]; try discriminate;
      simpl in Hs; apply andb_true_iff in Hs as [Hf Hs];
      intros H; inversion H; subst; split; simpl; [| assumption].
    now apply forallb_snoc. }
  destruct (Ascii.eqb c "}"); [| discriminate].
  destruct stk as [|[done|done|done k] stk]; try discriminate;
    simpl in Hs; apply andb_true_iff in Hs as [Hf Hs];
    intros H; inversion H; subst; split; simpl; [| assumption].
  now apply (obj_set_wf done k v).
Qed.

Lemma step_value_wf (stk : list frame) (c : ascii) (st' : pstate) :
  forallb frame_wf stk = true -> step_value stk c = Some st' -> state_wf st'.
Proof.
  intros Hs.
  destruct c as [[] [] [] [] [] [] [] []]; intros H; vm_compute in H;
    try discriminate; inversion H; subst; split; simpl;
    try reflexivity; try exact I; try assumption.
Qed.

Lemma step_wf (st st' : pstate) (c : ascii) :
  state_wf st -> step st c = Some st' -> state_wf st'.
Proof.
  destruct st as [m stk]. intros [Hm Hs]. simpl in Hm, Hs. unfold step.
  destruct m as [| | | | |acc|acc|acc n u|nst acc|rest v|v].
  - destruct (is_ws c); [intros H; inversion H; now split |].
    now apply step_value_wf.
  - destruct (is_ws c); [intros H; inversion H; now split |].
    destruct (Ascii.eqb c "]"); [| now apply step_value_wf].
    destruct stk as [|[done|done|done k] stk]; try discriminate.
    simpl in Hs. apply andb_true_iff in Hs as [_ Hs].
    intros H; inversion H; now split.
  - destruct (is_ws c); [intros H; inversion H; now split |].
    destruct (Ascii.eqb c "}").
    + destruct stk as [|[done|done|done k] stk]; try discriminate.
      simpl in Hs. apply andb_true_iff in Hs as [_ Hs].
      intros H; inversion H; now split.
    + destruct (Ascii.eqb c dq); [| discriminate].
      intros H; inversion H; now split.
  - destruct (is_ws c); [intros H; inversion H; now split |].
    destruct (Ascii.eqb c dq); [| discriminate].
    intros H; inversion H; now split.
  - destruct (is_ws c); [intros H; inversion H; now split |].
    destruct (Ascii.eqb c ":"); [| discriminate].
    intros H; inversion H; now split.
  - destruct (Ascii.eqb c dq).
    + intros H; inversion H; subst. unfold end_string.
      destruct stk as [|[done|done|done k] stk]; split; simpl; auto.
    + destruct (Ascii.eqb c "\"); [intros H; inversion H; now split |].
      destruct (code c <? 32); [discriminate |].
      intros H; inversion H; now split.
  - destruct (step_escape acc c) as [m'|] eqn:E; [| discriminate].
    intros H; inversion H; subst. split; [| assumption].
    unfold step_escape in E.
    repeat match type of E with
           | (if ?b then _ else _) = _ =>
               destruct b; [inversion E; subst; exact I |]
           end.
    discriminate.
  - destruct (hexval c); [| discriminate].
    destruct (n =? 3); intros H; inversion H; now split.
  - destruct (num_step nst c) as [nst'|] eqn:E.
    + intros H; inversion H; subst. split; [| assumption].
      simpl. now apply (num_final_snoc acc nst).
    + destruct (num_accepting nst) eqn:Ea; [| discriminate].
      apply step_after_wf; [| assumption].
      simpl. unfold valid_number. now rewrite Hm.
  - destruct rest as [|c' rest']; [discriminate |].
    destruct (Ascii.eqb c c'); [| discriminate].
    destruct rest'; intros H; inversion H; now split.
  - now apply step_after_wf.
Qed.

Lemma run_wf (text : string) (st st' : pstate) :
  state_wf st -> run st text = Some st' -> state_wf st'.
Proof.
  revert st. induction text as [|c text IH]; intros st Hw H; simpl in H.
  - now inversion H; subst.
  - destruct (step st c) as [st1|] eqn:E; [| discriminate].
    eapply IH; [| exact H]. eapply step_wf; eauto.
Qed.

(** Every value [JSON.parse] returns is well formed. *)
Theorem parse_wf (text : string) (v : json) :
  JSON.parse text = Some v -> wf v = true.
Proof.
  unfold JSON.parse. intros H.
  destruct (run (MValue, []) text) as [[m stk]|] eqn:E; [| discriminate].
  assert (Hw : state_wf (m, stk)) by (eapply run_wf; [| exact E]; now split).
  destruct Hw as [Hm _]. simpl in Hm.
  destruct m; try discriminate; destruct stk; try discriminate; simpl in H.
  - destruct (num_accepting st) eqn:Ea; [| discriminate].
    inversion H; subst. simpl. unfold valid_number. now rewrite Hm.
  - now inversion H; subst.
Qed.

End WfFacts.

(** ** Template documents in any layout *)

Module LayoutFacts.

Import Str StrFacts JSON Template TemplateFacts ParseFacts WfFacts.

#[local] Arguments Ascii.eqb : simpl never.
#[local] Arguments token : simpl never.
#[local] Arguments stringify_at : simpl never.
#[local] Arguments step : simpl never.
#[local] Arguments instantiate : simpl never.

Scheme laid_mut := Minimality for laid Sort Prop
  with laid_items_mut := Minimality for laid_items Sort Prop
  with laid_fields_mut := Minimality for laid_fields Sort Prop.

Combined Scheme laid_mutind from laid_mut, laid_items_mut, laid_fields_mut.

(** *** Strings in any spelling *)

Lemma short_escape_step (e c : ascii) (acc : string) :
  short_escape e = Some c -> step_escape acc e = Some (MStr (snoc acc c)).
Proof.
  unfold short_escape, step_escape. intros H.
  repeat match type of H with
         | (if ?b then _ else _) = _ =>
             destruct b; [now inversion H; subst |]
         end.
  discriminate.
Qed.

Lemma step_plain (c : ascii) (acc : string) (stk : list frame) :
  plain_char c = true -> step (MStr acc, stk) c = Some (MStr (snoc acc c), stk).
Proof.
  unfold plain_char. intros H. apply andb_true_iff in H as [H H32].
  apply andb_true_iff in H as [Hq Hb]. apply negb_true_iff in Hq, Hb.
  apply Nat.leb_le in H32. unfold step. rewrite Hq, Hb.
  destruct (Nat.ltb_spec (code c) 32); [lia | reflexivity].
Qed.

Lemma run_plain (s acc : string) (stk : list frame) :
  plain s = true -> run (MStr acc, stk) s = Some (MStr (acc +:+ s), stk).
Proof. intros H. rewrite <- (escape_plain s H) at 1. apply run_escape. Qed.

Lemma run_hex (h1 h2 h3 h4 : ascii) (u : N) (acc rest : string) (stk : list frame) :
  hex4 h1 h2 h3 h4 = Some u ->
  run (MStr acc, stk)
    (String "\" (String "u" (String h1 (String h2 (String h3 (String h4 rest))))))
  = run (MStr (acc +:+ utf8 u), stk) rest.
Proof.
  unfold hex4. intros H.
  destruct (hexval h1) as [a|] eqn:E1; [| discriminate].
  destruct (hexval h2) as [b|] eqn:E2; [| discriminate].
  destruct (hexval h3) as [c|] eqn:E3; [| discriminate].
  destruct (hexval h4) as [d|] eqn:E4; [| discriminate].
  inversion H; subst u. clear H.
  rewrite run_cons. change (step (MStr acc, stk) "\") with (Some (MEsc acc, stk)).
  cbv beta iota. rewrite run_cons.
  change (step (MEsc acc, stk) "u") with (Some (MHex acc 0 0%N, stk)).
  cbv beta iota.
  rewrite run_cons. unfold step at 1. rewrite E1. cbn [Nat.eqb]. cbv beta iota.
  rewrite run_cons. unfold step at 1. rewrite E2. cbn [Nat.eqb]. cbv beta iota.
  rewrite run_cons. unfold step at 1. rewrite E3. cbn [Nat.eqb]. cbv beta iota.
  rewrite run_cons. unfold step at 1. rewrite E4. cbn [Nat.eqb]. cbv beta iota.
  rewrite N.mul_0_l, N.add_0_l. reflexivity.
Qed.

Lemma token_plain (n : string) : plain n = true -> plain (token n) = true.
Proof. unfold plain, token. intros H. now rewrite !all_app, H. Qed.

Lemma run_spelled (e : env) (stk : list frame) (b t : list atom) :
  env_plain e = true -> spells b t -> forallb hole_plain b = true ->
  forall (acc rest : string),
    run (MStr acc, stk) (render (psubst e t) +:+ rest)
    = run (MStr (acc +:+ render (psubst e b)), stk) rest.
Proof.
  intros He Hs. induction Hs as [|c b t Hc Hs IH|n b t Hs IH|x c b t Hx Hs IH
                                |h1 h2 h3 h4 u b t Hu Hs IH]; intros Hb acc rest.
  - now rewrite append_nil_r.
  - cbn [forallb] in Hb. apply andb_true_iff in Hb as [_ Hb].
    change (render (psubst e (Ch c :: t))) with (String c (render (psubst e t))).
    change (render (psubst e (Ch c :: b))) with (String c (render (psubst e b))).
    change (String c (render (psubst e t)) +:+ rest)
      with (String c (render (psubst e t) +:+ rest)).
    rewrite run_cons, step_plain by assumption.
    rewrite (IH Hb). now rewrite snoc_append.
  - cbn [forallb] in Hb. apply andb_true_iff in Hb as [Hn Hb]. cbn [hole_plain] in Hn.
    change (psubst e (Hole n :: t)) with (psubst1 e (Hole n) ++ psubst e t).
    change (psubst e (Hole n :: b)) with (psubst1 e (Hole n) ++ psubst e b).
    rewrite !render_app, append_assoc.
    assert (Hp : plain (render (psubst1 e (Hole n))) = true).
    { unfold psubst1. destruct (assoc n e) as [v|] eqn:E.
      - rewrite render_chars. exact (assoc_plain _ _ _ He E).
      - change (render [Hole n]) with (token n +:+ ""). rewrite append_nil_r.
        now apply token_plain. }
    rewrite run_app, (run_plain _ _ _ Hp). rewrite (IH Hb).
    now rewrite append_assoc.
  - cbn [forallb] in Hb. apply andb_true_iff in Hb as [_ Hb].
    change (render (psubst e (Ch "\" :: Ch x :: t)))
      with (String "\" (String x (render (psubst e t)))).
    change (render (psubst e (Ch c :: b))) with (String c (render (psubst e b))).
    change (String "\" (String x (render (psubst e t))) +:+ rest)
      with (String "\" (String x (render (psubst e t) +:+ rest))).
    rewrite run_cons. change (step (MStr acc, stk) "\") with (Some (MEsc acc, stk)).
    cbv beta iota. rewrite run_cons. unfold step at 1.
    rewrite (short_escape_step _ _ _ Hx). cbv beta iota.
    rewrite (IH Hb). now rewrite snoc_append.
  - rewrite forallb_app in Hb. apply andb_true_iff in Hb as [_ Hb].
    change (render (psubst e (Ch "\" :: Ch "u" :: Ch h1 :: Ch h2 :: Ch h3 :: Ch h4 :: t)))
      with (String "\" (String "u" (String h1 (String h2 (String h3 (String h4
              (render (psubst e t)))))))).
    change (String "\" (String "u" (String h1 (String h2 (String h3 (String h4
              (render (psubst e t)))))))  +:+ rest)
      with (String "\" (String "u" (String h1 (String h2 (String h3 (String h4
              (render (psubst e t) +:+ rest))))))).
    rewrite (run_hex _ _ _ _ _ _ _ _ Hu), (IH Hb).
    rewrite psubst_app, render_app, psubst_chars, render_chars.
    now rewrite append_assoc.
Qed.


(** *** What follows a value *)

Lemma run_after (v : json) (stk : list frame) (u rest : string) (c : ascii) :
  wf v = true -> ws_only u = true -> is_delim c = true -> is_ws c = false ->
  run (settled v stk) (u +:+ String c rest)
  = match step_after v stk c with Some st => run st rest | None => None end.
Proof.
  intros Hw Hu Hd Hc. destruct u as [|a u].
  - cbn [String.append]. now rewrite run_cons, step_settled.
  - unfold ws_only in Hu. cbn [all] in Hu. apply andb_true_iff in Hu as [Ha Hu].
    change (String a u +:+ String c rest) with (String a (u +:+ String c rest)).
    rewrite run_cons, step_settled_ws by assumption.
    rewrite run_ws_app by (assumption || reflexivity).
    rewrite run_cons. reflexivity.
Qed.

Lemma instantiate_items_keys (e : env) (fields : list (string * tpl))
  (vs : list (string * json)) :
  instantiate_fields e fields = Some vs -> map fst vs = map fst fields.
Proof.
  intros H. apply instantiate_fields_spec in H.
  induction H as [|? ? ? ? [Hk _] _ IH]; simpl; [reflexivity |].
  now rewrite Hk, IH.
Qed.

Lemma instantiate_ok (e : env) (t : tpl) :
  forall v, doc_ok t = true -> instantiate e t = Some v -> wf v = true.
Proof.
  induction t as [body|body|items IH|fields IH] using tpl_rect'; intros v Hok Hv.
  - now apply raw_value_wf in Hv.
  - now inversion Hv.
  - rewrite instantiate_arr in Hv.
    destruct (instantiate_items e items) as [vs|] eqn:Hvs; [| discriminate].
    inversion Hv; subst v. apply instantiate_items_spec in Hvs.
    change (doc_ok (TArr items)) with (forallb doc_ok items) in Hok.
    change (wf (JArr vs)) with (forallb wf vs).
    clear Hv. induction Hvs as [|x v xs vs Hx Hxs IHxs]; [reflexivity |].
    simpl in *. apply andb_true_iff in Hok as [Hokx Hokxs].
    inversion IH; subst. rewrite IHxs by assumption.
    rewrite andb_true_r. auto.
  - rewrite instantiate_obj in Hv.
    destruct (instantiate_fields e fields) as [vs|] eqn:Hvs; [| discriminate].
    inversion Hv; subst v.
    pose proof (instantiate_items_keys _ _ _ Hvs) as Hkeys.
    apply instantiate_fields_spec in Hvs.
    change (doc_ok (TObj fields))
      with (nodup_keys (map fst fields)
            && forallb (fun kx => doc_ok (snd kx)) fields) in Hok.
    change (wf (JObj vs))
      with (nodup_keys (map fst vs) && forallb (fun kv => wf (snd kv)) vs).
    apply andb_true_iff in Hok as [Hnd Hok].
    rewrite Hkeys, Hnd. simpl.
    clear Hv Hkeys Hnd. induction Hvs as [|kx kv xs vs [_ Hx] Hxs IHxs]; [reflexivity |].
    simpl in *. apply andb_true_iff in Hok as [Hokx Hokxs].
    inversion IH; subst. rewrite IHxs by assumption.
    rewrite andb_true_r. auto.
Qed.

(** *** Values in any layout *)

Section Reading.

Variable e : env.
Hypothesis He : env_plain e = true.

Definition reads_doc (t : tpl) (l : list atom) : Prop :=
  doc_ok t = true ->
  forall (v : json) (stk : list frame) (m : mode) (rest : string),
    instantiate e t = Some v -> value_ctx stk = true ->
    m = MValue \/ m = MFirst ->
    run (m, stk) (render (psubst e l) +:+ rest) = run (settled v stk) rest.

Definition reads_items (ys : list tpl) (l : list atom) : Prop :=
  forallb doc_ok ys = true ->
  forall (vs done : list json) (y : json) (stk : list frame) (rest : string),
    instantiate_items e ys = Some vs -> wf y = true ->
    run (settled y (FArr done :: stk)) (render (psubst e l) +:+ rest)
    = run (MAfter (JArr (done ++ y :: vs)), stk) rest.

Definition reads_fields (ys : list (string * tpl)) (l : list atom) : Prop :=
  forallb (fun kx => doc_ok (snd kx)) ys = true ->
  forall (vs done : list (string * json)) (k : string) (y : json)
         (stk : list frame) (rest : string),
    instantiate_fields e ys = Some vs -> wf y = true ->
    nodup_keys (map fst (done ++ (k, y) :: vs)) = true ->
    run (settled y (FObjVal done k :: stk)) (render (psubst e l) +:+ rest)
    = run (MAfter (JObj (done ++ (k, y) :: vs)), stk) rest.

Lemma render_chars_app (s : string) (l : list atom) :
  render (psubst e (chars s ++ l)) = s +:+ render (psubst e l).
Proof. now rewrite psubst_app, render_app, psubst_chars, render_chars. Qed.

Lemma run_key (k : string) (tk l : list atom) (m : mode) (stk : list frame)
  (done : list (string * json)) (rest : string) :
  spells (chars k) tk ->
  m = MKeyFirst \/ m = MKeyNext ->
  run (m, FObjKey done :: stk) (render (psubst e (Ch dq :: tk ++ Ch dq :: l)) +:+ rest)
  = run (MColon, FObjVal done k :: stk) (render (psubst e l) +:+ rest).
Proof.
  intros Hk Hm.
  change (psubst e (Ch dq :: tk ++ Ch dq :: l)) with (Ch dq :: psubst e (tk ++ Ch dq :: l)).
  rewrite psubst_app.
  change (psubst e (Ch dq :: l)) with (Ch dq :: psubst e l).
  change (render (Ch dq :: psubst e tk ++ Ch dq :: psubst e l))
    with (String dq (render (psubst e tk ++ Ch dq :: psubst e l))).
  rewrite render_app.
  change (render (Ch dq :: psubst e l)) with (String dq (render (psubst e l))).
  change (String dq (render (psubst e tk) +:+ String dq (render (psubst e l))) +:+ rest)
    with (String dq ((render (psubst e tk) +:+ String dq (render (psubst e l))) +:+ rest)).
  rewrite append_assoc.
  rewrite run_cons.
  assert (Hs : step (m, FObjKey done :: stk) dq = Some (MStr "", FObjKey done :: stk))
    by (destruct Hm as [-> | ->]; reflexivity).
  rewrite Hs. cbv beta iota.
  rewrite (run_spelled e _ _ _ He Hk).
  - rewrite psubst_chars, render_chars.
    change (String dq (render (psubst e l)) +:+ rest)
      with (String dq (render (psubst e l) +:+ rest)).
    rewrite run_cons. change ("" +:+ k) with k. reflexivity.
  - clear. induction k as [|c k IH]; [reflexivity | exact IH].
Qed.

Lemma reads_all :
  (forall t l, laid t l -> reads_doc t l) /\
  (forall ys l, laid_items ys l -> reads_items ys l) /\
  (forall ys l, laid_fields ys l -> reads_fields ys l).
Proof.
  apply laid_mutind.
  - (* a bare token *)
    intros body Hok v stk m rest Hv Hs Hm.
    change (instantiate e (TRaw body)) with (raw_value (render (psubst e body))) in Hv.
    pose proof (raw_value_wf _ _ Hv) as Hw.
    rewrite <- (raw_value_text _ "" _ Hv).
    apply reads_app; try assumption; try reflexivity. apply run_value.
  - (* a string *)
    intros body t Hsp Hok v stk m rest Hv Hs Hm.
    change (instantiate e (TStr body)) with (Some (JStr (render (psubst e body)))) in Hv.
    inversion Hv; subst v. clear Hv.
    change (doc_ok (TStr body)) with (forallb hole_plain body) in Hok.
    change (psubst e (Ch dq :: t ++ [Ch dq])) with (Ch dq :: psubst e (t ++ [Ch dq])).
    rewrite psubst_app.
    change (render (Ch dq :: psubst e t ++ psubst e [Ch dq]))
      with (String dq (render (psubst e t ++ [Ch dq]))).
    rewrite render_app.
    change (String dq (render (psubst e t) +:+ render [Ch dq]) +:+ rest)
      with (String dq ((render (psubst e t) +:+ String dq "") +:+ rest)).
    rewrite append_assoc. rewrite run_cons.
    assert (Hst : step (m, stk) dq = Some (MStr "", stk))
      by (destruct Hm as [-> | ->]; reflexivity).
    rewrite Hst. cbv beta iota.
    rewrite (run_spelled e _ _ _ He Hsp Hok).
    change (String dq "" +:+ rest) with (String dq rest).
    rewrite run_cons. change ("" +:+ render (psubst e body)) with (render (psubst e body)).
    destruct stk as [|[| |] stk]; try reflexivity. discriminate.
  - (* an empty array *)
    intros u Hu Hok v stk m rest Hv Hs Hm.
    inversion Hv; subst v. clear Hv.
    rewrite psubst_chars, render_chars.
    change ("[" +:+ u +:+ "]") with (String "[" (u +:+ "]")).
    change (String "[" (u +:+ "]") +:+ rest) with (String "[" ((u +:+ "]") +:+ rest)).
    rewrite append_assoc, run_cons. destruct (step_open m stk Hm) as [-> _].
    rewrite run_ws_app by (assumption || reflexivity).
    reflexivity.
  - (* an array *)
    intros x xs u lx lxs Hu _ IHx _ IHxs Hok v stk m rest Hv Hs Hm.
    change (doc_ok (TArr (x :: xs))) with (doc_ok x && forallb doc_ok xs) in Hok.
    apply andb_true_iff in Hok as [Hokx Hokxs].
    rewrite instantiate_arr, instantiate_items_cons in Hv.
    destruct (instantiate e x) as [vx|] eqn:Hx; [| discriminate].
    destruct (instantiate_items e xs) as [vxs|] eqn:Hxs; [| discriminate].
    inversion Hv; subst v. clear Hv.
    rewrite render_chars_app, psubst_app, render_app, !append_assoc.
    change ("[" +:+ u +:+ render (psubst e lx) +:+ render (psubst e lxs) +:+ rest)
      with (String "[" (u +:+ render (psubst e lx) +:+ render (psubst e lxs) +:+ rest)).
    rewrite run_cons. destruct (step_open m stk Hm) as [-> _].
    rewrite run_ws_app by (assumption || reflexivity).
    rewrite (IHx Hokx vx (FArr [] :: stk) MFirst _ Hx eq_refl (or_intror eq_refl)).
    rewrite (IHxs Hokxs vxs [] vx stk rest Hxs (instantiate_ok _ _ _ Hokx Hx)).
    reflexivity.
  - (* an empty object *)
    intros u Hu Hok v stk m rest Hv Hs Hm.
    inversion Hv; subst v. clear Hv.
    rewrite psubst_chars, render_chars.
    change ("{" +:+ u +:+ "}") with (String "{" (u +:+ "}")).
    change (String "{" (u +:+ "}") +:+ rest) with (String "{" ((u +:+ "}") +:+ rest)).
    rewrite append_assoc, run_cons. destruct (step_open m stk Hm) as [_ ->].
    rewrite run_ws_app by (assumption || reflexivity).
    reflexivity.
  - (* an object *)
    intros k x xs u1 u2 u3 tk lx lxs Hu1 Hu2 Hu3 Hk _ IHx _ IHxs Hok v stk m rest
      Hv Hs Hm.
    change (doc_ok (TObj ((k, x) :: xs)))
      with (nodup_keys (k :: map fst xs)
            && (doc_ok x && forallb (fun kx => doc_ok (snd kx)) xs)) in Hok.
    apply andb_true_iff in Hok as [Hnd Hok].
    apply andb_true_iff in Hok as [Hokx Hokxs].
    rewrite instantiate_obj, instantiate_fields_cons in Hv.
    destruct (instantiate e x) as [vx|] eqn:Hx; [| discriminate].
    destruct (instantiate_fields e xs) as [vxs|] eqn:Hxs; [| discriminate].
    inversion Hv; subst v. clear Hv.
    rewrite render_chars_app, !append_assoc.
    change ("{" +:+ u1
            +:+ render (psubst e (Ch dq :: tk ++ Ch dq :: chars (u2 +:+ ":" +:+ u3)
                                  ++ lx ++ lxs)) +:+ rest)
      with (String "{" (u1 +:+ render (psubst e (Ch dq :: tk ++ Ch dq
                                  :: chars (u2 +:+ ":" +:+ u3) ++ lx ++ lxs)) +:+ rest)).
    rewrite run_cons. destruct (step_open m stk Hm) as [_ ->].
    rewrite run_ws_app by (assumption || reflexivity).
    rewrite (run_key k tk _ MKeyFirst stk [] rest Hk (or_introl eq_refl)).
    rewrite render_chars_app, psubst_app, render_app, !append_assoc.
    rewrite run_ws_app by (assumption || reflexivity).
    change (":" +:+ u3 +:+ render (psubst e lx) +:+ render (psubst e lxs) +:+ rest)
      with (String ":" (u3 +:+ render (psubst e lx) +:+ render (psubst e lxs) +:+ rest)).
    rewrite run_cons.
    change (step (MColon, FObjVal [] k :: stk) ":")
      with (Some (MValue, FObjVal [] k :: stk)).
    cbv beta iota.
    rewrite run_ws_app by (assumption || reflexivity).
    rewrite (IHx Hokx vx (FObjVal [] k :: stk) MValue _ Hx eq_refl (or_introl eq_refl)).
    rewrite (IHxs Hokxs vxs [] k vx stk rest Hxs (instantiate_ok _ _ _ Hokx Hx)).
    + reflexivity.
    + cbn [app map fst]. now rewrite (instantiate_items_keys _ _ _ Hxs).
  - (* the end of an array *)
    intros u Hu Hok vs done y stk rest Hv Hy.
    inversion Hv; subst vs. clear Hv.
    rewrite psubst_chars, render_chars, append_assoc.
    change ("]" +:+ rest) with (String "]" rest).
    now rewrite run_after by (assumption || reflexivity).
  - (* a further element *)
    intros y ys u1 u2 ly lys Hu1 Hu2 _ IHy _ IHys Hok vs done y0 stk rest Hv Hy0.
    cbn [forallb] in Hok. apply andb_true_iff in Hok as [Hoky Hokys].
    rewrite instantiate_items_cons in Hv.
    destruct (instantiate e y) as [vy|] eqn:Hy; [| discriminate].
    destruct (instantiate_items e ys) as [vys|] eqn:Hys; [| discriminate].
    inversion Hv; subst vs. clear Hv.
    rewrite render_chars_app, psubst_app, render_app, !append_assoc.
    change ("," +:+ u2 +:+ render (psubst e ly) +:+ render (psubst e lys) +:+ rest)
      with (String "," (u2 +:+ render (psubst e ly) +:+ render (psubst e lys) +:+ rest)).
    rewrite run_after by (assumption || reflexivity).
    change (step_after y0 (FArr done :: stk) ",")
      with (Some (MValue, FArr (done ++ [y0]) :: stk)).
    cbv beta iota.
    rewrite run_ws_app by (assumption || reflexivity).
    rewrite (IHy Hoky vy (FArr (done ++ [y0]) :: stk) MValue _ Hy eq_refl
               (or_introl eq_refl)).
    rewrite (IHys Hokys vys (done ++ [y0]) vy stk rest Hys (instantiate_ok _ _ _ Hoky Hy)).
    now rewrite <- app_assoc.
  - (* the end of an object *)
    intros u Hu Hok vs done k y stk rest Hv Hy Hnd.
    inversion Hv; subst vs. clear Hv.
    rewrite psubst_chars, render_chars, append_assoc.
    change ("}" +:+ rest) with (String "}" rest).
    rewrite run_after by (assumption || reflexivity).
    change (step_after y (FObjVal done k :: stk) "}")
      with (Some (MAfter (JObj (obj_set done k y)), stk)).
    cbv beta iota.
    rewrite obj_set_fresh; [reflexivity |].
    rewrite map_app in Hnd. exact (nodup_keys_notin _ _ _ Hnd).
  - (* a further member *)
    intros k y ys u1 u2 u3 u4 tk ly lys Hu1 Hu2 Hu3 Hu4 Hk _ IHy _ IHys Hok vs done
      k0 y0 stk rest Hv Hy0 Hnd.
    cbn [forallb snd] in Hok. apply andb_true_iff in Hok as [Hoky Hokys].
    rewrite instantiate_fields_cons in Hv.
    destruct (instantiate e y) as [vy|] eqn:Hy; [| discriminate].
    destruct (instantiate_fields e ys) as [vys|] eqn:Hys; [| discriminate].
    inversion Hv; subst vs. clear Hv.
    rewrite render_chars_app, !append_assoc.
    change ("," +:+ u2
            +:+ render (psubst e (Ch dq :: tk ++ Ch dq :: chars (u3 +:+ ":" +:+ u4)
                                  ++ ly ++ lys)) +:+ rest)
      with (String "," (u2 +:+ render (psubst e (Ch dq :: tk ++ Ch dq
                                  :: chars (u3 +:+ ":" +:+ u4) ++ ly ++ lys)) +:+ rest)).
    rewrite run_after by (assumption || reflexivity).
    change (step_after y0 (FObjVal done k0 :: stk) ",")
      with (Some (MKeyNext, FObjKey (obj_set done k0 y0) :: stk)).
    cbv beta iota.
    rewrite obj_set_fresh
      by (rewrite map_app in Hnd; exact (nodup_keys_notin _ _ _ Hnd)).
    rewrite run_ws_app by (assumption || reflexivity).
    rewrite (run_key k tk _ MKeyNext stk _ rest Hk (or_intror eq_refl)).
    rewrite render_chars_app, psubst_app, render_app, !append_assoc.
    rewrite run_ws_app by (assumption || reflexivity).
    change (":" +:+ u4 +:+ render (psubst e ly) +:+ render (psubst e lys) +:+ rest)
      with (String ":" (u4 +:+ render (psubst e ly) +:+ render (psubst e lys) +:+ rest)).
    rewrite run_cons.
    change (step (MColon, FObjVal (done ++ [(k0, y0)]) k :: stk) ":")
      with (Some (MValue, FObjVal (done ++ [(k0, y0)]) k :: stk)).
    cbv beta iota.
    rewrite run_ws_app by (assumption || reflexivity).
    rewrite (IHy Hoky vy (FObjVal (done ++ [(k0, y0)]) k :: stk) MValue _ Hy eq_refl
               (or_introl eq_refl)).
    rewrite (IHys Hokys vys (done ++ [(k0, y0)]) k vy stk rest Hys
               (instantiate_ok _ _ _ Hoky Hy)).
    + now rewrite <- app_assoc.
    + now rewrite <- app_assoc.
Qed.


(** The text of a template document, in any layout and with white space
    around it, reads as the document the template stands for once the
    placeholders are filled in. *)
Theorem parse_laid (t : tpl) (l : list atom) (lead trail : string) (v : json) :
  laid t l -> doc_ok t = true ->
  ws_only lead = true -> ws_only trail = true ->
  instantiate e t = Some v ->
  JSON.parse (render (psubst e (chars lead ++ l ++ chars trail))) = Some v.
Proof.
  intros Hl Hok Hlead Htrail Hv.
  pose proof (instantiate_ok _ _ _ Hok Hv) as Hw.
  rewrite render_chars_app, psubst_app, render_app, psubst_chars, render_chars.
  unfold JSON.parse.
  rewrite run_ws_app by (assumption || reflexivity).
  rewrite (proj1 reads_all t l Hl Hok v [] MValue trail Hv eq_refl (or_introl eq_refl)).
  destruct trail as [|c trail].
  - cbn [run]. now apply finish_settled.
  - unfold ws_only in Htrail. cbn [all] in Htrail.
    apply andb_true_iff in Htrail as [Hc Htrail].
    rewrite run_cons, step_settled_ws by assumption.
    now rewrite run_ws by (assumption || reflexivity).
Qed.

End Reading.

(** *** The layout of [JSON.stringify] is one of them *)

Lemma spells_plain_atoms (body : list atom) :
  forallb plain_atom body = true -> spells body body.
Proof.
  induction body as [|[c|n] body IH]; cbn [forallb plain_atom]; intros H.
  - constructor.
  - apply andb_true_iff in H as [Hc H]. constructor; auto.
  - apply andb_true_iff in H as [_ H]. constructor; auto.
Qed.

Lemma spells_escape_char (c : ascii) (b t : list atom) :
  spells b t -> spells (Ch c :: b) (chars (escape_char c) ++ t).
Proof.
  intros H.
  destruct (plain_char c) eqn:Hp.
  - assert (E : escape_char c = String c "").
    { pose proof (escape_plain (String c "")) as Hs. unfold plain in Hs.
      cbn [all escape] in Hs. rewrite Hp in Hs. specialize (Hs eq_refl).
      now rewrite append_nil_r in Hs. }
    rewrite E. now constructor.
  - destruct c as [[] [] [] [] [] [] [] []]; try discriminate Hp; cbv;
      match goal with
      | |- spells _ (_ :: _ :: Ch ?h1 :: Ch ?h2 :: Ch ?h3 :: Ch ?h4 :: _) =>
          exact (spells_hex h1 h2 h3 h4 _ b t eq_refl H)
      | |- spells _ (_ :: Ch ?x :: _) => exact (spells_short x _ b t eq_refl H)
      end.
Qed.

Lemma spells_escape (k : string) : spells (chars k) (chars (escape k)).
Proof.
  induction k as [|c k IH]; [constructor |].
  cbn [chars escape]. rewrite chars_app. now apply spells_escape_char.
Qed.

Lemma hole_plain_atom (a : atom) : plain_atom a = true -> hole_plain a = true.
Proof. now destruct a. Qed.

Lemma tpl_ok_doc_ok (t : tpl) : tpl_ok t = true -> doc_ok t = true.
Proof.
  induction t as [body|body|items IH|fields IH] using tpl_rect'; intros H.
  - reflexivity.
  - change (tpl_ok (TStr body)) with (atoms_ok body && forallb plain_atom body) in H.
    apply andb_true_iff in H as [_ H].
    change (doc_ok (TStr body)) with (forallb hole_plain body).
    induction body as [|a body IHb]; [reflexivity |].
    cbn [forallb] in *. apply andb_true_iff in H as [Ha H].
    now rewrite (hole_plain_atom _ Ha), IHb.
  - change (tpl_ok (TArr items)) with (forallb tpl_ok items) in H.
    change (doc_ok (TArr items)) with (forallb doc_ok items).
    induction IH as [|x xs Hx _ IHxs]; [reflexivity |].
    cbn [forallb] in *. apply andb_true_iff in H as [H1 H2].
    now rewrite Hx, IHxs.
  - change (tpl_ok (TObj fields))
      with (nodup_keys (map fst fields)
            && forallb (fun kx => atoms_ok (chars (quote (fst kx))) && tpl_ok (snd kx))
                 fields) in H.
    change (doc_ok (TObj fields))
      with (nodup_keys (map fst fields) && forallb (fun kx => doc_ok (snd kx)) fields).
    apply andb_true_iff in H as [Hnd H]. rewrite Hnd. cbn [andb].
    clear Hnd. induction IH as [|x xs Hx _ IHxs]; [reflexivity |].
    cbn [forallb] in *. apply andb_true_iff in H as [H1 H2].
    apply andb_true_iff in H1 as [_ H1].
    now rewrite Hx, IHxs.
Qed.

Lemma laid_layout (t : tpl) :
  forall ind, ws_only ind = true -> tpl_ok t = true -> laid t (layout ind t).
Proof.
  induction t as [body|body|items IH|fields IH] using tpl_rect'; intros ind Hi Hok.
  - constructor.
  - change (tpl_ok (TStr body)) with (atoms_ok body && forallb plain_atom body) in Hok.
    apply andb_true_iff in Hok as [_ Hok].
    change (layout ind (TStr body)) with (Ch dq :: body ++ [Ch dq]).
    constructor. now apply spells_plain_atoms.
  - change (tpl_ok (TArr items)) with (forallb tpl_ok items) in Hok.
    destruct items as [|x xs]; [exact (laid_arr_nil "" eq_refl) |].
    cbn [forallb] in Hok. apply andb_true_iff in Hok as [Hokx Hokxs].
    inversion IH as [|? ? IHx IHxs]; subst.
    pose proof (ws_only_indent _ Hi) as Hi'.
    rewrite layout_arr.
    change ("[" +:+ nl +:+ (ind +:+ "  ")) with ("[" +:+ (nl +:+ (ind +:+ "  "))).
    apply laid_arr; [now apply ws_only_nl | now apply IHx |].
    clear IHx Hokx IH. induction xs as [|y ys IHys].
    + change (layout_items (ind +:+ "  ") [] ++ chars (nl +:+ ind +:+ "]"))
        with (chars (nl +:+ ind +:+ "]")).
      rewrite <- append_assoc. apply items_nil. now apply ws_only_nl.
    + cbn [forallb] in Hokxs. apply andb_true_iff in Hokxs as [Hoky Hokys].
      inversion IHxs as [|? ? IHy IHys']; subst.
      change (layout_items (ind +:+ "  ") (y :: ys))
        with (chars ("," +:+ nl +:+ (ind +:+ "  ")) ++ layout (ind +:+ "  ") y
              ++ layout_items (ind +:+ "  ") ys).
      rewrite <- !app_assoc.
      change ("," +:+ nl +:+ (ind +:+ "  ")) with ("" +:+ "," +:+ (nl +:+ (ind +:+ "  "))).
      apply items_cons; [reflexivity | now apply ws_only_nl | now apply IHy |].
      now apply IHys.
  - change (tpl_ok (TObj fields))
      with (nodup_keys (map fst fields)
            && forallb (fun kx => atoms_ok (chars (quote (fst kx))) && tpl_ok (snd kx))
                 fields) in Hok.
    apply andb_true_iff in Hok as [_ Hok].
    destruct fields as [|[k x] xs]; [exact (laid_obj_nil "" eq_refl) |].
    cbn [forallb fst snd] in Hok. apply andb_true_iff in Hok as [Hokx Hokxs].
    apply andb_true_iff in Hokx as [_ Hokx].
    inversion IH as [|? ? IHx IHxs]; subst. cbn [snd] in IHx.
    pose proof (ws_only_indent _ Hi) as Hi'.
    rewrite layout_obj.
    assert (Hkey : forall lead k0 rest,
               chars (lead +:+ nl +:+ (ind +:+ "  ") +:+ quote k0 +:+ ": ") ++ rest
               = chars (lead +:+ (nl +:+ (ind +:+ "  "))) ++ Ch dq :: chars (escape k0)
                 ++ Ch dq :: chars ("" +:+ ":" +:+ " ") ++ rest).
    { intros lead k0 rest. unfold quote, dqs.
      rewrite <- !append_assoc. rewrite !chars_app. cbn [chars app String.append].
      rewrite <- !app_assoc. cbn [app]. reflexivity. }
    rewrite Hkey.
    apply laid_obj; try reflexivity;
      [now apply ws_only_nl | apply spells_escape | now apply IHx |].
    clear IHx Hokx IH. induction xs as [|[ky y] ys IHys].
    + change (layout_fields (ind +:+ "  ") [] ++ chars (nl +:+ ind +:+ "}"))
        with (chars (nl +:+ ind +:+ "}")).
      rewrite <- append_assoc. apply fields_nil. now apply ws_only_nl.
    + cbn [forallb fst snd] in Hokxs. apply andb_true_iff in Hokxs as [Hoky Hokys].
      apply andb_true_iff in Hoky as [_ Hoky].
      inversion IHxs as [|? ? IHy IHys']; subst. cbn [snd] in IHy.
      change (layout_fields (ind +:+ "  ") ((ky, y) :: ys))
        with (chars ("," +:+ nl +:+ (ind +:+ "  ") +:+ quote ky +:+ ": ")
              ++ layout (ind +:+ "  ") y ++ layout_fields (ind +:+ "  ") ys).
      rewrite <- !app_assoc. rewrite (Hkey "," ky).
      change ("," +:+ (nl +:+ (ind +:+ "  ")))
        with ("" +:+ "," +:+ (nl +:+ (ind +:+ "  "))).
      apply fields_cons; try reflexivity;
        [now apply ws_only_nl | apply spells_escape | now apply IHy |].
      now apply IHys.
Qed.

End LayoutFacts.

(** ** Localizing a template document *)

Module FillFacts.

Import Str StrFacts Text JSON ObjFacts Template TemplateFacts ParseFacts WfFacts.
Import LayoutFacts InertFacts Localize Fill LocalizeFacts.

Lemma or_default_not_given (x : option string) :
  JS.given x = false -> JS.or_default x "" = "".
Proof.
  unfold JS.given, JS.or_default. destruct x as [s|]; [| reflexivity].
  now destruct (String.eqb_spec s "") as [-> |].
Qed.

(** The replacements of [localizeTemplate] are those of [templateEnv], one
    after the other. *)
Lemma substituteTemplate_env (w : World) (text : string) (o : LocalizationOptions)
  (base64Content : string) (contentSize : nat) (contentType : string) :
  substituteTemplate w text o base64Content contentSize contentType
  = replaceEach (templateEnv w o base64Content contentSize contentType) text.
Proof.
  unfold substituteTemplate, templateEnv, replaceEach.
  destruct (JS.given (encounterReference o)) eqn:E; simpl.
  - reflexivity.
  - now rewrite (or_default_not_given _ E).
Qed.

Lemma mapping_inert (k : string) (m : TemplateMapping) :
  lookupMapping k = Own m -> inert (contentType m) = true /\ inert k = true.
Proof.
  unfold lookupMapping.
  destruct (assoc k TEMPLATE_MAPPINGS) as [m'|] eqn:E.
  - intros H. inversion H; subst m'. clear H.
    unfold TEMPLATE_MAPPINGS in E. cbn [assoc] in E.
    repeat match type of E with
           | (if String.eqb ?a k then _ else _) = _ =>
               destruct (String.eqb_spec a k) as [<- |];
               [inversion E; subst; split; reflexivity |]
           end.
    discriminate.
  - now destruct (existsb _ _).
Qed.

Lemma templateEnv_ok (w : World) (o : LocalizationOptions) (s : string)
  (contentSize : nat) (contentType : string) :
  inertOptions w o = true -> inert contentType = true ->
  env_ok (templateEnv w o (Base64.encode s) contentSize contentType) = true /\
  env_plain (templateEnv w o (Base64.encode s) contentSize contentType) = true.
Proof.
  unfold inertOptions. intros H Hct.
  repeat match type of H with
         | _ && _ = true => apply andb_true_iff in H as [H ?]
         end.
  assert (Hid : inert (type o +:+ "-" +:+ JS.of_Z (w_identifierNow w)) = true)
    by (rewrite !inert_app, of_Z_inert;
        replace (inert (type o)) with true by (symmetry; assumption);
        reflexivity).
  assert (Hdisp : inert (if JS.given (encounterReference o)
                         then JS.or_default (encounterDisplay o) "Encounter"
                         else "") = true)
    by now destruct (JS.given (encounterReference o)).
  pose proof (encode_inert s) as Hb. pose proof (of_nat_inert contentSize) as Hn.
  unfold env_ok, env_plain, templateEnv.
  cbn [forallb fst snd].
  split.
  - repeat match goal with
           | |- context [clean ?v] =>
               rewrite (inert_clean v) by assumption
           end.
    reflexivity.
  - repeat match goal with
           | |- context [plain ?v] =>
               rewrite (inert_plain v) by assumption
           end.
    reflexivity.
Qed.

(** The substituted text of a template document parses to the document the
    template stands for. *)
Lemma parsed_template (w : World) (t : tpl) (o : LocalizationOptions) (s : string)
  (contentSize : nat) (contentType : string) (v0 : json) :
  inertOptions w o = true -> inert contentType = true ->
  tpl_ok t = true ->
  instantiate (templateEnv w o (Base64.encode s) contentSize contentType) t = Some v0 ->
  parse_or_throw
    (substituteTemplate w (Template.text t) o (Base64.encode s) contentSize contentType)
  = Ok v0 /\ wf v0 = true.
Proof.
  intros Ho Hct Hok Hv.
  destruct (templateEnv_ok w o s contentSize contentType Ho Hct) as [He Hp].
  pose proof (instantiate_wf _ _ _ Hok Hv) as Hw.
  split; [| assumption].
  rewrite substituteTemplate_env. unfold Template.text.
  rewrite replaceEach_render by (assumption || now apply atoms_ok_layout).
  rewrite (render_layout _ _ Hp "" v0 Hok Hv).
  unfold parse_or_throw. change (stringify_at "" v0) with (JSON.stringify v0).
  now rewrite parse_stringify.
Qed.

(** The substituted text of a template document, in any layout, parses to
    the document the template stands for. *)
Lemma parsed_layout (w : World) (t : tpl) (l : list atom) (lead trail : string)
  (o : LocalizationOptions) (s : string) (contentSize : nat) (contentType : string)
  (v0 : json) :
  inertOptions w o = true -> inert contentType = true ->
  laid t l -> ws_only lead = true -> ws_only trail = true ->
  atoms_ok l = true -> doc_ok t = true ->
  instantiate (templateEnv w o (Base64.encode s) contentSize contentType) t = Some v0 ->
  parse_or_throw
    (substituteTemplate w (fileText lead l trail) o (Base64.encode s) contentSize
       contentType)
  = Ok v0 /\ wf v0 = true.
Proof.
  intros Ho Hct Hl Hlead Htrail Hat Hok Hv.
  destruct (templateEnv_ok w o s contentSize contentType Ho Hct) as [He Hp].
  split; [| exact (instantiate_ok _ _ _ Hok Hv)].
  rewrite substituteTemplate_env. unfold fileText.
  assert (Hopen : forall u, ws_only u = true -> no_open u = true).
  { intros u. unfold ws_only, no_open. apply all_impl.
    intros c. destruct c as [[] [] [] [] [] [] [] []]; now vm_compute. }
  rewrite replaceEach_render; [| assumption |].
  - unfold parse_or_throw.
    now rewrite (parse_laid _ Hp t l lead trail v0 Hl Hok Hlead Htrail Hv).
  - rewrite atoms_ok_chars_app by now apply Hopen.
    apply atoms_ok_app; [assumption |]. apply atoms_ok_chars. now apply Hopen.
Qed.

(** *** Bare tokens *)

Lemma psubst_is_ch (e : env) (body : list atom) :
  forallb is_ch body = true -> psubst e body = body.
Proof.
  induction body as [|[c|n] body IH]; cbn [forallb is_ch]; intros H;
    [reflexivity | | discriminate].
  cbn [psubst flat_map psubst1 app]. f_equal. now apply IH.
Qed.

Lemma raw_value_number (s : string) :
  valid_number s = true -> exists v, raw_value s = Some v.
Proof.
  intros H. unfold raw_value. rewrite H.
  destruct (String.eqb s "true"); [now eexists |].
  destruct (String.eqb s "false"); [now eexists |].
  destruct (String.eqb s "null"); now eexists.
Qed.

(** A template whose bare tokens are literals, numbers or the placeholder
    of the content size stands for a document, whatever the other values
    are. *)
Lemma instantiate_bare (e : env) (s : string) (t : tpl) :
  Template.assoc "CONTENT_SIZE" e = Some s -> valid_number s = true ->
  bare_ok t = true -> exists v, instantiate e t = Some v.
Proof.
  intros He Hs.
  induction t as [body|body|items IH|fields IH] using tpl_rect'; intros Hok.
  - change (instantiate e (TRaw body)) with (raw_value (render (psubst e body))).
    change (bare_ok (TRaw body)) with (bare_ready body) in Hok.
    assert (Hgen : forallb is_ch body
                   && match raw_value (render body) with
                      | Some _ => true
                      | None => false
                      end = true ->
                   exists v, raw_value (render (psubst e body)) = Some v).
    { intros H. apply andb_true_iff in H as [Hch Hv].
      rewrite (psubst_is_ch _ _ Hch).
      destruct (raw_value (render body)); [now eexists | discriminate]. }
    destruct body as [|[c|n] [|a body]]; try (now apply Hgen).
    unfold bare_ready in Hok. apply String.eqb_eq in Hok. subst n.
    cbn [psubst flat_map psubst1]. rewrite He, app_nil_r, render_chars.
    now apply raw_value_number.
  - now eexists.
  - change (bare_ok (TArr items)) with (forallb bare_ok items) in Hok.
    rewrite instantiate_arr.
    assert (H : exists vs, instantiate_items e items = Some vs).
    { induction IH as [|x xs Hx _ IHxs]; [now eexists |].
      cbn [forallb] in Hok. apply andb_true_iff in Hok as [Hokx Hokxs].
      destruct (Hx Hokx) as [v Hv]. destruct (IHxs Hokxs) as [vs Hvs].
      exists (v :: vs). now rewrite instantiate_items_cons, Hv, Hvs. }
    destruct H as [vs ->]. now eexists.
  - change (bare_ok (TObj fields))
      with (forallb (fun kx => bare_ok (snd kx)) fields) in Hok.
    rewrite instantiate_obj.
    assert (H : exists vs, instantiate_fields e fields = Some vs).
    { induction IH as [|[k x] xs Hx _ IHxs]; [now eexists |].
      cbn [forallb snd] in Hok. apply andb_true_iff in Hok as [Hokx Hokxs].
      destruct (Hx Hokx) as [v Hv]. cbn [snd] in Hv.
      destruct (IHxs Hokxs) as [vs Hvs].
      exists ((k, v) :: vs). now rewrite instantiate_fields_cons, Hv, Hvs. }
    destruct H as [vs ->]. now eexists.
Qed.

Lemma instantiate_ready (w : World) (o : LocalizationOptions) (s : string)
  (contentType : string) (t : tpl) :
  bare_ok t = true ->
  exists v,
    instantiate (templateEnv w o (Base64.encode s) (String.length s) contentType) t
    = Some v.
Proof.
  apply (instantiate_bare _ (JS.of_nat (String.length s))); [reflexivity |].
  apply of_nat_valid.
Qed.

Lemma instantiate_fields_none (e : env) (fields : list (string * tpl))
  (vs : list (string * json)) (k : string) :
  instantiate_fields e fields = Some vs -> tassoc k fields = None ->
  obj_get vs k = None.
Proof.
  intros H. apply instantiate_fields_spec in H.
  induction H as [|[k1 x] [k2 v] xs vs' [Hk _] _ IH]; [reflexivity |].
  cbn [fst snd] in Hk. subst k2. cbn [tassoc obj_get].
  destruct (String.eqb k1 k); [discriminate | exact IH].
Qed.

Lemma instantiate_object (e : env) (fields : list (string * tpl)) (v : json) :
  instantiate e (TObj fields) = Some v ->
  exists vs, v = JObj vs /\ instantiate_fields e fields = Some vs.
Proof.
  rewrite instantiate_obj.
  destruct (instantiate_fields e fields) as [vs|]; [| discriminate].
  intros H. inversion H. now exists vs.
Qed.

Lemma instantiate_member (e : env) (fields : list (string * tpl))
  (vs : list (string * json)) (k : string) (t' : tpl) :
  instantiate_fields e fields = Some vs -> tassoc k fields = Some t' ->
  exists v', obj_get vs k = Some v' /\ instantiate e t' = Some v'.
Proof.
  intros Hvs Hk.
  destruct (instantiate_step e (TObj fields) t' (JObj vs) (Key k)) as (v' & Hj & Hv').
  - rewrite instantiate_obj. now rewrite Hvs.
  - exact Hk.
  - now exists v'.
Qed.

(** *** The encounter and contained steps *)

Lemma wf_obj (o : list (string * json)) : wf (JObj o) = fields_wf o.
Proof. reflexivity. Qed.

Lemma dropEmptyEncounter_wf (o : LocalizationOptions) (parsed doc : json) :
  wf parsed = true -> dropEmptyEncounter o parsed = Ok doc -> wf doc = true.
Proof.
  unfold dropEmptyEncounter. intros Hw H.
  destruct (JS.given (encounterReference o)); [now inversion H; subst |].
  destruct parsed as [| | | | |po]; try discriminate; try (now inversion H; subst).
  simpl in H.
  destruct (obj_get po "context") as [c|] eqn:Gc; [| now inversion H; subst].
  destruct c as [| | | | |co]; try (now inversion H; subst).
  simpl in H.
  destruct (JS.truthy (obj_get co "encounter")); [| now inversion H; subst].
  destruct (obj_get co "encounter") as [[| | | |l|]|]; try discriminate.
  destruct (hasValidEncounter l) as [[|]|err]; simpl in H; try discriminate;
    inversion H; subst; [assumption |].
  rewrite wf_obj in *. apply obj_set_wf; [assumption |].
  rewrite wf_obj. apply obj_delete_wf.
  unfold fields_wf in Hw. apply andb_true_iff in Hw as [_ Hw].
  exact (obj_get_wf _ _ _ Hw Gc).
Qed.

Lemma dropEmptyEncounter_other (o : LocalizationOptions) (parsed doc : json)
  (k : string) :
  dropEmptyEncounter o parsed = Ok doc -> k <> "context" ->
  JS.get doc k = JS.get parsed k.
Proof.
  unfold dropEmptyEncounter. intros H Hk.
  destruct (JS.given (encounterReference o)); [now inversion H; subst |].
  destruct parsed as [| | | | |po]; try discriminate; try (now inversion H; subst).
  simpl in H.
  destruct (obj_get po "context") as [c|] eqn:Gc; [| now inversion H; subst].
  destruct c as [| | | | |co]; try (now inversion H; subst).
  simpl in H.
  destruct (JS.truthy (obj_get co "encounter")); [| now inversion H; subst].
  destruct (obj_get co "encounter") as [[| | | |l|]|]; try discriminate.
  destruct (hasValidEncounter l) as [[|]|err]; simpl in H; try discriminate;
    inversion H; subst; [reflexivity |].
  simpl. now apply obj_get_set_ne.
Qed.

Lemma dropEmptyEncounter_given (o : LocalizationOptions) (parsed : json) :
  JS.given (encounterReference o) = true -> dropEmptyEncounter o parsed = Ok parsed.
Proof. unfold dropEmptyEncounter. now intros ->. Qed.

Lemma entry_valid (e : env) (te : tpl) (ve : json) :
  entry_ready te = true -> instantiate e te = Some ve ->
  exists b, validEncounter ve = Ok b.
Proof.
  intros Hr Hv. destruct te as [body|body|items|fields]; [discriminate | | |].
  - inversion Hv. now eexists.
  - rewrite instantiate_arr in Hv.
    destruct (instantiate_items e items); inversion Hv. now eexists.
  - apply instantiate_object in Hv as (vs & -> & Hvs).
    unfold validEncounter. cbn [JS.get]. cbn [entry_ready] in Hr.
    destruct (tassoc "reference" fields) as [tr|] eqn:Et.
    + destruct tr as [b|b|its|fs]; try discriminate.
      destruct (instantiate_member _ _ _ _ _ Hvs Et) as (v' & -> & Hv').
      inversion Hv'. now eexists.
    + rewrite (instantiate_fields_none _ _ _ _ Hvs Et). now eexists.
Qed.

Lemma entries_valid (e : env) (entries : list tpl) (ventries : list json) :
  forallb entry_ready entries = true -> instantiate_items e entries = Some ventries ->
  exists b, hasValidEncounter ventries = Ok b.
Proof.
  intros Hr Hv. apply instantiate_items_spec in Hv.
  induction Hv as [|te ve tes ves Hte _ IH]; [now eexists |].
  cbn [forallb] in Hr. apply andb_true_iff in Hr as [Hr1 Hr2].
  destruct (entry_valid _ _ _ Hr1 Hte) as [b Hb]. destruct (IH Hr2) as [b' Hb'].
  cbn [hasValidEncounter]. rewrite Hb. cbn [bind].
  destruct b; [now eexists | now exists b'].
Qed.

(** A template that is ready for it passes the encounter step. *)
Lemma encounter_step (e : env) (o : LocalizationOptions) (t : tpl) (v0 : json) :
  encounterReady o t = true -> instantiate e t = Some v0 ->
  exists v1, dropEmptyEncounter o v0 = Ok v1.
Proof.
  unfold encounterReady. intros Hr Hv.
  destruct (JS.given (encounterReference o)) eqn:Hg.
  - exists v0. now apply dropEmptyEncounter_given.
  - cbn [orb] in Hr. destruct t as [b|b|its|fields]; try discriminate.
    apply instantiate_object in Hv as (vs & -> & Hvs).
    unfold dropEmptyEncounter. rewrite Hg. cbn [JS.get].
    destruct (tassoc "context" fields) as [tc|] eqn:Ec.
    + destruct tc as [b|b|its|cfields]; try discriminate.
      destruct (instantiate_member _ _ _ _ _ Hvs Ec) as (vc & -> & Hvc).
      apply instantiate_object in Hvc as (cvs & -> & Hcvs).
      cbn [JS.get].
      destruct (tassoc "encounter" cfields) as [te|] eqn:Ee.
      * destruct te as [b|b|entries|fs]; try discriminate.
        destruct (instantiate_member _ _ _ _ _ Hcvs Ee) as (vents & -> & Hvents).
        rewrite instantiate_arr in Hvents.
        destruct (instantiate_items e entries) as [ventries|] eqn:Hi; [| discriminate].
        inversion Hvents; subst vents. cbn [JS.truthy JS.truthy_json].
        destruct (entries_valid _ _ _ Hr Hi) as [b ->]. cbn [bind].
        destruct b; now eexists.
      * rewrite (instantiate_fields_none _ _ _ _ Hcvs Ee). cbn [JS.truthy].
        now eexists.
    + rewrite (instantiate_fields_none _ _ _ _ Hvs Ec). now eexists.
Qed.

Lemma dropEmptyEncounter_object (o : LocalizationOptions) (po : list (string * json))
  (v1 : json) :
  dropEmptyEncounter o (JObj po) = Ok v1 -> exists po1, v1 = JObj po1.
Proof.
  unfold dropEmptyEncounter.
  destruct (JS.given (encounterReference o)); [intros H; inversion H; now eexists |].
  cbn [JS.get].
  destruct (obj_get po "context") as [c|]; [| intros H; inversion H; now eexists].
  destruct c as [| | | | |co]; try (intros H; inversion H; now eexists).
  destruct (JS.truthy (JS.get (JObj co) "encounter"));
    [| intros H; inversion H; now eexists].
  destruct (JS.get (JObj co) "encounter") as [[| | | |l|]|]; try discriminate.
  destruct (hasValidEncounter l) as [[|]|err]; cbn [bind]; try discriminate;
    intros H; inversion H; now eexists.
Qed.

Lemma containedEncounter_wf (w : World) (c ce : json) :
  wf c = true -> containedEncounter w c = Ok ce -> wf ce = true.
Proof.
  unfold containedEncounter. intros Hw H.
  destruct c; try (now inversion H; subst).
  destruct (JSON.parse s) as [v|] eqn:E; [| discriminate].
  inversion H; subst. exact (parse_wf _ _ E).
Qed.

Lemma addContained_wf_truthy (w : World) (o : LocalizationOptions) (parsed doc : json) :
  (forall c, encounterContained o = Some c -> JS.truthy_json c = true -> wf c = true) ->
  wf parsed = true -> addContained w o parsed = Ok doc -> wf doc = true.
Proof.
  unfold addContained. intros Hc Hw H.
  destruct (encounterContained o) as [c|]; [| now inversion H; subst].
  specialize (Hc c eq_refl).
  destruct (JS.truthy_json c); [| now inversion H; subst].
  specialize (Hc eq_refl).
  destruct (containedEncounter w c) as [ce|e] eqn:E; simpl in H; [| discriminate].
  pose proof (containedEncounter_wf _ _ _ Hc E) as Hce.
  destruct parsed as [| | | | |fields]; try discriminate; try (now inversion H; subst).
  rewrite wf_obj in Hw.
  destruct (JS.truthy (obj_get fields "contained")).
  - destruct (obj_get fields "contained") as [[| | | |l|]|] eqn:G; try discriminate.
    inversion H; subst. rewrite wf_obj. apply obj_set_wf; [assumption |].
    simpl. apply forallb_snoc; [| assumption].
    unfold fields_wf in Hw. apply andb_true_iff in Hw as [_ Hw].
    exact (obj_get_wf _ _ _ Hw G).
  - inversion H; subst. rewrite wf_obj. apply obj_set_wf; [assumption |].
    simpl. now rewrite Hce.
Qed.

Lemma addContained_wf (w : World) (o : LocalizationOptions) (parsed doc : json) :
  (forall c, encounterContained o = Some c -> wf c = true) ->
  wf parsed = true -> addContained w o parsed = Ok doc -> wf doc = true.
Proof. intros Hc. apply addContained_wf_truthy. auto. Qed.

(** A template and options that are ready for it pass the contained
    step. *)
Lemma contained_step (w : World) (e : env) (o : LocalizationOptions) (t : tpl)
  (v0 v1 : json) :
  containedReady o t = true -> instantiate e t = Some v0 ->
  dropEmptyEncounter o v0 = Ok v1 ->
  (exists v2, addContained w o v1 = Ok v2) /\
  (forall c, encounterContained o = Some c -> JS.truthy_json c = true -> wf c = true).
Proof.
  unfold containedReady, addContained. intros Hr Hv Hd.
  destruct (encounterContained o) as [c|]; [| split; [now eexists | discriminate]].
  destruct (JS.truthy_json c) eqn:Ht;
    [| split; [now eexists | intros c' Hc'; inversion Hc'; subst; congruence]].
  cbn [negb orb] in Hr.
  apply andb_true_iff in Hr as [Hr Hobj]. apply andb_true_iff in Hr as [Hw Hp].
  split; [| intros c' Hc' _; now inversion Hc'; subst].
  assert (Hce : exists ce, containedEncounter w c = Ok ce).
  { destruct c; try (now eexists). cbn [containedEncounter].
    destruct (JSON.parse s); [now eexists | discriminate]. }
  destruct Hce as [ce ->]. cbn [bind].
  destruct t as [b|b|its|fields]; try discriminate.
  apply instantiate_object in Hv as (vs & -> & Hvs).
  pose proof (dropEmptyEncounter_other _ _ _ "contained" Hd) as Hsame.
  destruct (dropEmptyEncounter_object _ _ _ Hd) as [po1 ->].
  cbn [JS.get] in Hsame. rewrite Hsame by discriminate.
  destruct (tassoc "contained" fields) as [tc|] eqn:Ec.
  - destruct tc as [b|b|items|fs]; try discriminate.
    destruct (instantiate_member _ _ _ _ _ Hvs Ec) as (vc & -> & Hvc).
    rewrite instantiate_arr in Hvc.
    destruct (instantiate_items e items); inversion Hvc. cbn [JS.truthy JS.truthy_json].
    now eexists.
  - rewrite (instantiate_fields_none _ _ _ _ Hvs Ec). cbn [JS.truthy]. now eexists.
Qed.

Lemma jstep_key (v : json) (k : string) : jstep v (Key k) = JS.get v k.
Proof. now destruct v. Qed.

(** The two steps change nothing under any property other than [context]
    and [contained]. *)
Lemma settled_path (w : World) (o : LocalizationOptions) (v0 v1 v2 : json)
  (k : string) (p : list sel) :
  dropEmptyEncounter o v0 = Ok v1 -> addContained w o v1 = Ok v2 ->
  k <> "context" -> k <> "contained" ->
  jpath v2 (Key k :: p) = jpath v0 (Key k :: p).
Proof.
  intros H1 H2 Hk1 Hk2. simpl. rewrite !jstep_key.
  rewrite (addContained_other _ _ _ _ _ H2 Hk2).
  now rewrite (dropEmptyEncounter_other _ _ _ _ H1 Hk1).
Qed.

(** *** The library entry point *)

Lemma getSkillRoot_root (w : World) (tr0 : list event) (root : list string) :
  getProjectRoot w = (tr0, Ok root) ->
  getSkillRoot w = (tr0 ++ [], Ok (skillDir ++ root)).
Proof. unfold getSkillRoot, bindM. now intros ->. Qed.

Lemma bindM_ok {A B : Type} (m : M A) (f : A -> M B) (t : list event) (a : A) :
  m = (t, Ok a) -> bindM m f = ((t ++ (f a).1)%list, (f a).2).
Proof. intros ->. unfold bindM. now destruct (f a). Qed.

Lemma library_returns (w : World) (o : LocalizationOptions) (m : TemplateMapping)
  (root : list string) (tr0 tr1 : list event) (cd : ContentData) (text : string)
  (doc : json) :
  lookupMapping (type o) = Own m ->
  getProjectRoot w = (tr0, Ok root) ->
  getContent w m o = (tr1, Ok cd) ->
  w_templates w (template m) = Some text ->
  localizeObject w text o (Base64.encode (content cd)) (String.length (content cd))
    (contentType m) = Ok doc ->
  wf doc = true ->
  outputReady w root o = true ->
  exists evs, localizeDocumentReference w o = (evs, Ok doc).
Proof.
  intros Hm Hr Hc Ht Ho Hw Hout.
  unfold localizeDocumentReference.
  rewrite (bindM_ok _ _ _ _ Hr).
  rewrite (bindM_ok _ _ _ _ (getSkillRoot_root _ _ _ Hr)).
  rewrite Hm. rewrite (bindM_ok (ret m) _ [] m eq_refl).
  rewrite (bindM_ok _ _ _ _ Hc).
  assert (Hread : readTemplate w (skillDir ++ root) (template m)
                  = ([ERead (templatePath (skillDir ++ root) (template m))], Ok text)).
  { unfold readTemplate, bindM, emit, ret. now rewrite Ht. }
  rewrite (bindM_ok _ _ _ _ Hread).
  assert (Hloc : lift (localizeTemplate w text o (Base64.encode (content cd))
                         (String.length (content cd)) (contentType m))
                 = ([], Ok (JSON.stringify doc))).
  { unfold lift, localizeTemplate. now rewrite Ho. }
  rewrite (bindM_ok _ _ _ _ Hloc).
  assert (Hparse : lift (parse_or_throw (JSON.stringify doc)) = ([], Ok doc)).
  { unfold lift, parse_or_throw. now rewrite (parse_stringify _ Hw). }
  rewrite (bindM_ok _ _ _ _ Hparse).
  unfold outputReady in Hout. unfold bindM, emit, ret, writeOutput, throw.
  destruct (bool_decide (writeToFile o = Some false)); cbn [negb]; [simpl; eauto |].
  cbn [orb] in Hout.
  destruct (w_mkdir w _); [discriminate |].
  destruct (w_writeFile w _); [discriminate |]. simpl. eauto.
Qed.

(** The content of either source is the text of the file after the content
    placeholders have been replaced. *)
Lemma getContent_substituted (w : World) (m : TemplateMapping)
  (o : LocalizationOptions) (tr : list event) (cd : ContentData) :
  getContent w m o = (tr, Ok cd) ->
  exists raw, content cd = replaceContentPlaceholders (w_contentNow w) raw o.
Proof.
  unfold getContent, generateContent, getContentFile, finally.
  destruct (getSkillRoot w) as [t0 [skillRoot|e]] eqn:Hs.
  - destruct (contentGenerator m) as [g|].
    + rewrite (bindM_ok _ _ _ _ eq_refl).
      unfold bindM at 1. unfold emit at 1.
      destruct (w_generate w g) as [written|]; [| discriminate].
      destruct (Localize.assoc g outputMap) as [file|].
      * destruct (sampleAfter w written file) as [raw|] eqn:Hf.
        -- unfold bindM, emit, ret, importScript. simpl. intros H.
           inversion H; subst. simpl. eauto.
        -- unfold bindM, emit, throw, importScript. simpl. discriminate.
      * unfold bindM, emit, throw, importScript. simpl. discriminate.
    + destruct (contentFile m) as [f|]; [| discriminate].
      rewrite (bindM_ok _ _ _ _ eq_refl).
      unfold bindM at 1. unfold emit at 1.
      destruct (w_samples w f) as [raw|].
      * unfold bindM, emit, ret. simpl. intros H. inversion H; subst. simpl. eauto.
      * discriminate.
  - destruct (contentGenerator m) as [g|].
    + unfold bindM. discriminate.
    + destruct (contentFile m) as [f|]; [unfold bindM |]; discriminate.
Qed.

Lemma instantiate_hole (e : env) (n v : string) :
  Template.assoc n e = Some v -> instantiate e (TStr [Hole n]) = Some (JStr v).
Proof.
  intros H. change (instantiate e (TStr [Hole n]))
    with (Some (JStr (render (psubst e [Hole n])))).
  simpl. rewrite H, app_nil_r. now rewrite render_chars.
Qed.

(** What the library entry point returns, for a template file in any
    layout and options that let every step go through: the document the
    template stands for after the encounter and contained steps. *)
Lemma library_layout (w : World) (o : LocalizationOptions) (m : TemplateMapping)
  (root : list string) (tr0 tr1 : list event) (cd : ContentData)
  (t : tpl) (l : list atom) (lead trail : string) :
  lookupMapping (type o) = Own m ->
  getProjectRoot w = (tr0, Ok root) ->
  getContent w m o = (tr1, Ok cd) ->
  w_templates w (template m) = Some (fileText lead l trail) ->
  laid t l -> ws_only lead = true -> ws_only trail = true ->
  atoms_ok l = true -> doc_ok t = true -> bare_ok t = true ->
  inertOptions w o = true ->
  encounterReady o t = true -> containedReady o t = true ->
  outputReady w root o = true ->
  exists evs v0 v1 v2,
    instantiate (templateEnv w o (Base64.encode (content cd))
                   (String.length (content cd)) (contentType m)) t = Some v0 /\
    dropEmptyEncounter o v0 = Ok v1 /\
    addContained w o v1 = Ok v2 /\
    wf v2 = true /\
    localizeDocumentReference w o = (evs, Ok v2).
Proof.
  intros Hm Hr Hc Ht Hl Hlead Htrail Hat Hok Hbare Ho Henc Hcont Hout.
  destruct (mapping_inert _ _ Hm) as [Hct _].
  destruct (instantiate_ready w o (content cd) (contentType m) t Hbare) as [v0 Hv0].
  destruct (parsed_layout w t l lead trail o (content cd) (String.length (content cd))
              (contentType m) v0 Ho Hct Hl Hlead Htrail Hat Hok Hv0) as [Hparse Hw0].
  destruct (encounter_step _ _ _ _ Henc Hv0) as [v1 Hv1].
  pose proof (dropEmptyEncounter_wf _ _ _ Hw0 Hv1) as Hw1.
  destruct (contained_step w _ _ _ _ _ Hcont Hv0 Hv1) as [[v2 Hv2] Hwc].
  pose proof (addContained_wf_truthy _ _ _ _ Hwc Hw1 Hv2) as Hw2.
  assert (Hobj : localizeObject w (fileText lead l trail) o (Base64.encode (content cd))
                   (String.length (content cd)) (contentType m) = Ok v2).
  { unfold localizeObject. rewrite Hparse. simpl. rewrite Hv1. simpl. exact Hv2. }
  destruct (library_returns w o m root tr0 tr1 cd _ v2 Hm Hr Hc Ht Hobj Hw2 Hout)
    as [evs Hlib].
  now exists evs, v0, v1, v2.
Qed.


Import Examples.

(** The template of the examples with a blank line before it and a line
    break after it, as an editor leaves a file. *)
Lemma noteTemplate_laid :
  laid noteTpl (layout "" noteTpl) /\
  fileText nl (layout "" noteTpl) nl = nl +:+ noteTemplate +:+ nl /\
  atoms_ok (layout "" noteTpl) = true.
Proof.
  split; [| split].
  - apply laid_layout; reflexivity.
  - vm_compute. reflexivity.
  - vm_compute. reflexivity.
Qed.



(** *** Encounter references *)

Lemma bindM_inv {A B : Type} (m : M A) (f : A -> M B) (t : list event) (b : B) :
  bindM m f = (t, Ok b) ->
  exists t1 a t2, m = (t1, Ok a) /\ f a = (t2, Ok b) /\ t = (t1 ++ t2)%list.
Proof.
  unfold bindM. destruct m as [t1 [a|e]]; [| discriminate].
  destruct (f a) as [t2 r] eqn:E. intros H. inversion H; subst.
  now exists t1, a, t2.
Qed.

(** What the library entry point returns is the object [localizeTemplate]
    serialised, read back from its text. *)
Lemma library_inv (w : World) (o : LocalizationOptions) (evs : list event)
  (doc : json) :
  localizeDocumentReference w o = (evs, Ok doc) ->
  exists text s n ct doc',
    localizeObject w text o (Base64.encode s) n ct = Ok doc' /\
    JSON.parse (JSON.stringify doc') = Some doc.
Proof.
  unfold localizeDocumentReference. intros H.
  apply bindM_inv in H as (t1 & root & t2 & _ & H & _).
  apply bindM_inv in H as (t3 & skillRoot & t4 & _ & H & _).
  apply bindM_inv in H as (t5 & m & t6 & _ & H & _).
  apply bindM_inv in H as (t7 & cd & t8 & _ & H & _).
  apply bindM_inv in H as (t9 & text & t10 & _ & H & _).
  apply bindM_inv in H as (t11 & localizedJson & t12 & Hloc & H & _).
  apply bindM_inv in H as (t13 & parsedJson & t14 & Hparse & H & _).
  apply bindM_inv in H as (t15 & u & t16 & _ & H & _).
  unfold ret in H. inversion H; subst.
  unfold lift, localizeTemplate in Hloc.
  destruct (localizeObject w text o (Base64.encode (content cd))
              (String.length (content cd)) (contentType m)) as [doc'|e] eqn:Ho;
    [| discriminate].
  simpl in Hloc. inversion Hloc; subst.
  unfold lift, parse_or_throw in Hparse.
  destruct (JSON.parse (JSON.stringify doc')) as [v|] eqn:Hp; [| discriminate].
  inversion Hparse; subst.
  now exists text, (content cd), (String.length (content cd)), (contentType m), doc'.
Qed.

Lemma localizeObject_wf (w : World) (text : string) (o : LocalizationOptions)
  (base64Content : string) (contentSize : nat) (contentType : string) (doc : json) :
  (forall c, encounterContained o = Some c -> wf c = true) ->
  localizeObject w text o base64Content contentSize contentType = Ok doc ->
  wf doc = true.
Proof.
  unfold localizeObject, parse_or_throw. intros Hc H.
  destruct (JSON.parse _) as [parsed|] eqn:Hp; simpl in H; [| discriminate].
  destruct (dropEmptyEncounter o parsed) as [parsed1|e] eqn:Hd; simpl in H;
    [| discriminate].
  eapply addContained_wf; [exact Hc | | exact H].
  eapply dropEmptyEncounter_wf; [| exact Hd].
  exact (parse_wf _ _ Hp).
Qed.

(** The reference the entries of a template ask for. *)
Definition asksReference (te : tpl) : Prop :=
  tstep te (Key "reference") = Some (TStr [Hole "ENCOUNTER_REFERENCE"]).




End FillFacts.

(** ** The request executor: more of its behaviour *)

Module ExecuteFacts.

Import Str StrFacts JSON Template Request Examples RequestFacts ObjFacts ParseFacts
  InertFacts WfFacts.

#[local] Arguments Ascii.eqb : simpl never.

Lemma findProjectRoot_nearest (w : World) (dir root : list string) :
  findProjectRoot w dir = Ok root ->
  exists k, k <= length dir /\ root = skipn k dir /\
            is_Some (w_configs w root) /\
            forall j, j < k -> w_configs w (skipn j dir) = None.
Proof.
  revert root. induction dir as [|c parent IH]; intros root H; simpl in H.
  - destruct (w_configs w []) eqn:E; [| discriminate].
    inversion H; subst. exists 0. repeat split; [lia | now rewrite E | lia].
  - destruct (w_configs w (c :: parent)) eqn:E.
    + inversion H; subst. exists 0. simpl. repeat split; [lia | now rewrite E | lia].
    + destruct (IH root H) as (k & Hk & -> & Hs & Hn).
      exists (S k). simpl. repeat split; [lia | assumption |].
      intros [|j] Hj; [exact E | apply Hn; lia].
Qed.

Lemma findProjectRoot_none (w : World) (dir : list string) :
  (forall j, j <= length dir -> w_configs w (skipn j dir) = None) ->
  findProjectRoot w dir = Throw (Error "Could not find .fhir-configs directory").
Proof.
  induction dir as [|c parent IH]; intros H; simpl.
  - pose proof (H 0 (le_n _)) as H0. simpl in H0. now rewrite H0.
  - pose proof (H 0 (Nat.le_0_l _)) as H0. simpl in H0. rewrite H0. apply IH.
    intros j Hj. apply (H (S j)). simpl. lia.
Qed.

(** X1.  The search for the project root of both variants of [execute]
    stops at the nearest directory, from the working directory upwards and
    the file-system root included, that holds [.fhir-configs]; when there is
    none, the call throws before anything is read, sent or written. *)
Theorem root_search (w : World) (spec : RequestSpec) :
  (forall root, findProjectRoot w (w_cwd w) = Ok root ->
     exists k, k <= length (w_cwd w) /\ root = skipn k (w_cwd w) /\
               is_Some (w_configs w root) /\
               forall j, j < k -> w_configs w (skipn j (w_cwd w)) = None) /\
  ((forall j, j <= length (w_cwd w) -> w_configs w (skipn j (w_cwd w)) = None) ->
   execute w spec = ([], Threw (Error "Could not find .fhir-configs directory")) /\
   executeRecent w spec = ([], Threw (Error "Could not find .fhir-configs directory"))).
Proof.
  split.
  - intros root. apply findProjectRoot_nearest.
  - intros H. unfold execute, executeRecent.
    now rewrite (findProjectRoot_none _ _ H).
Qed.

Lemma root_search_witness :
  exists k, k <= 3 /\ ["proj"; "home"] = skipn k ["debug"; "proj"; "home"] /\
            forall j, j < k ->
              w_configs (requestWorld [configA] notFound)
                (skipn j ["debug"; "proj"; "home"]) = None.
Proof.
  destruct (proj1 (root_search (requestWorld [configA] notFound) getMetadata)
              ["proj"; "home"] eq_refl) as (k & Hk & Hr & _ & Hn).
  exists k. repeat split; assumption.
Defined.

(** The extension of the body file: [json] when the body parses. *)
Definition bodyExt (r : Response) : string :=
  match JSON.parse (r_body r) with Some _ => "json" | None => "txt" end.

Definition bodyFileName (r : Response) : string := "response-body." +:+ bodyExt r.

(** The ways a call of [execute] can go: it throws before the request; the
    request fails; the response is there and a write throws; or the response
    is written out as two files and the status decides how the call ends. *)
Definition run_shape (w : World) (spec : RequestSpec) (res : list event * outcome)
  : Prop :=
  (exists e, res = ([], Threw e)) \/
  (exists req e, w_fetch w req = Throw e /\ res = ([EFetch req], Threw e)) \/
  (exists req r e,
     w_fetch w req = Ok r /\
     w_write w (outputDir w spec) "response-metadata.json" = Some e /\
     res = ([EFetch req], Threw e)) \/
  (exists req r e,
     w_fetch w req = Ok r /\
     w_write w (outputDir w spec) "response-metadata.json" = None /\
     w_write w (outputDir w spec) (bodyFileName r) = Some e /\
     res = ([EFetch req; metadataFile w spec r], Threw e)) \/
  (exists req r body,
     w_fetch w req = Ok r /\
     w_write w (outputDir w spec) "response-metadata.json" = None /\
     w_write w (outputDir w spec) (bodyFileName r) = None /\
     res = ([EFetch req; metadataFile w spec r;
             EWrite (outputDir w spec) (bodyFileName r) body],
            if 400 <=? status r then Exited 1 else Returned)).

Lemma persist_cases (w : World) (spec : RequestSpec) (r : Response) :
  persist w spec r
  = match w_write w (outputDir w spec) "response-metadata.json" with
    | Some e => ([], Threw e)
    | None =>
        match w_write w (outputDir w spec) (bodyFileName r) with
        | Some e => ([metadataFile w spec r], Threw e)
        | None =>
            ([metadataFile w spec r;
              EWrite (outputDir w spec) (bodyFileName r)
                match JSON.parse (r_body r) with
                | Some v => if JS.truthy_json v then JSON.stringify v else r_body r
                | None => r_body r
                end],
             if 400 <=? status r then Exited 1 else Returned)
        end
    end.
Proof. reflexivity. Qed.

Lemma send_shape (w : World) (root : list string) (config : json) (spec : RequestSpec) :
  run_shape w spec (send w root config spec).
Proof.
  assert (Hn : config = JNull \/ config <> JNull)
    by (destruct config; (now left) || (right; discriminate)).
  destruct Hn as [-> | Hc]; [left; eexists; reflexivity |].
  destruct (buildHeaders w root config spec) as [[body h]|e] eqn:Hb.
  - rewrite (send_request w root config spec body h Hc Hb).
    set (req := fetchRequest config spec body h).
    destruct (w_fetch w req) as [r|e] eqn:Hf.
    + rewrite persist_cases.
      destruct (w_write w (outputDir w spec) "response-metadata.json") as [e|] eqn:H1.
      * right. right. left. now exists req, r, e.
      * destruct (w_write w (outputDir w spec) (bodyFileName r)) as [e|] eqn:H2.
        -- right. right. right. left. now exists req, r, e.
        -- right. right. right. right. now eexists req, r, _.
    + right. left. now exists req, e.
  - left. exists e. unfold send. rewrite Hb. now destruct config.
Qed.


(** X3.  The two variants of [execute] differ in nothing but the choice of
    the configuration: a call does the same in both when no project root is
    found, when [configName] names an entry of [.fhir-configs], and when no
    name is given and the directory holds exactly one [.json] entry. *)
Theorem variants_agree (w : World) (spec : RequestSpec) :
  (forall e, findProjectRoot w (w_cwd w) = Throw e ->
             execute w spec = executeRecent w spec) /\
  (forall root name d,
     findProjectRoot w (w_cwd w) = Ok root ->
     configName spec = Some name -> name <> "" ->
     find_entry (name +:+ ".json") (readdir w root) = Some d ->
     execute w spec = afterSelection w root spec d /\
     executeRecent w spec = afterSelection w root spec d) /\
  (forall root d,
     findProjectRoot w (w_cwd w) = Ok root ->
     JS.given (configName spec) = false ->
     filter (fun d => isJsonFile d = true) (readdir w root) = [d] ->
     execute w spec = afterSelection w root spec d /\
     executeRecent w spec = afterSelection w root spec d).
Proof.
  unfold execute, executeRecent, afterSelection. repeat split.
  - intros e ->. reflexivity.
  - rewrite H. unfold selectConfig, JS.given, JS.or_default. rewrite H0.
    apply String.eqb_neq in H1. rewrite H1. simpl. rewrite H2.
    now destruct (loadConfig root d).
  - rewrite H. unfold selectConfigRecent, JS.given, JS.or_default. rewrite H0.
    apply String.eqb_neq in H1. rewrite H1. simpl. rewrite H2.
    now destruct (loadConfig root d).
  - rewrite H. unfold selectConfig. rewrite H0, H1.
    now destruct (loadConfig root d).
  - rewrite H. unfold selectConfigRecent. rewrite H0, H1. simpl.
    now destruct (loadConfig root d).
Qed.

Lemma variants_agree_witness :
  execute (requestWorld [configA; configB] notFound) postBody
  = executeRecent (requestWorld [configA; configB] notFound) postBody.
Proof.
  destruct (variants_agree (requestWorld [configA; configB] notFound) postBody)
    as (_ & H & _).
  destruct (H ["proj"; "home"] "beta" configB) as [H1 H2];
    [reflexivity | reflexivity | discriminate | reflexivity |].
  now rewrite H1, H2.
Defined.

(** *** The files of a response *)

(** What a variant leaves behind for the response [r] to the request
    [req]: the two files, the second one named and filled according to the
    body. *)
Definition body_written (w : World) (spec : RequestSpec) (req : FetchRequest)
  (r : Response) (res : list event * outcome) : Prop :=
  exists ext text,
    res.1 = [EFetch req; metadataFile w spec r;
             EWrite (outputDir w spec) ("response-body." +:+ ext) text] /\
    match JSON.parse (r_body r) with
    | None => ext = "txt" /\ text = r_body r
    | Some v =>
        ext = "json" /\ JSON.parse text = Some v /\
        (JS.truthy_json v = false -> text = r_body r) /\
        (JS.truthy_json v = true -> printed_as_read v = true ->
         text = JSON.stringify v)
    end.

(** The call has the project root and the configuration, the request [req]
    is the one it builds, the response to it is [r], and the files named
    [files] can be written. *)
Definition answered (w : World) (spec : RequestSpec) (root : list string)
  (config : json) (req : FetchRequest) (r : Response) (files : list string) : Prop :=
  findProjectRoot w (w_cwd w) = Ok root /\
  requestOf w spec root config req /\
  w_fetch w req = Ok r /\
  Forall (fun f => w_write w (outputDir w spec) f = None) files.

Lemma answered_send (w : World) (spec : RequestSpec) (root : list string)
  (config : json) (req : FetchRequest) (r : Response) (files : list string) :
  answered w spec root config req r files ->
  send w root config spec = (EFetch req :: (persist w spec r).1, (persist w spec r).2) /\
  (selectConfig w root spec = Ok config -> execute w spec = send w root config spec) /\
  (selectConfigRecent w root spec = Ok config ->
   executeRecent w spec = send w root config spec).
Proof.
  intros (Hr & (Hc & body & h & Hb & ->) & Hf & _).
  split; [| split].
  - rewrite (send_request w root config spec body h Hc Hb). now rewrite Hf.
  - intros Hs. unfold execute. now rewrite Hr, Hs.
  - intros Hs. unfold executeRecent. now rewrite Hr, Hs.
Qed.

Lemma persist_body_written (w : World) (spec : RequestSpec) (req : FetchRequest)
  (r : Response) :
  w_write w (outputDir w spec) "response-metadata.json" = None ->
  w_write w (outputDir w spec) (bodyFileName r) = None ->
  body_written w spec req r (EFetch req :: (persist w spec r).1, (persist w spec r).2).
Proof.
  intros H1 H2. rewrite persist_cases, H1, H2.
  unfold body_written, bodyFileName, bodyExt. cbn [fst snd].
  destruct (JSON.parse (r_body r)) as [v|] eqn:Hp.
  - eexists "json", _. split; [reflexivity |].
    split; [reflexivity |]. split; [| split].
    + destruct (JS.truthy_json v); [| exact Hp].
      apply parse_stringify. exact (parse_wf _ _ Hp).
    + now intros ->.
    + now intros -> _.
  - eexists "txt", _. split; [reflexivity |]. now split.
Qed.


(** The request for the capabilities, built from the configuration
    [alpha]. *)
Definition alpha : json :=
  JObj [("name", JStr "alpha"); ("fhirBaseUrl", JStr "https://a.example/fhir");
        ("mode", JStr "open")].

Definition metadataRequest : FetchRequest :=
  fetchRequest alpha getMetadata None {[ "Accept" := "application/fhir+json" ]}.

Lemma bundle_answered (files : list string) :
  answered (requestWorld [configA] bundle) getMetadata ["proj"; "home"] alpha
    metadataRequest bundle files.
Proof.
  split; [reflexivity |]. split; [| split; [reflexivity |]].
  - split; [discriminate |]. eexists None, _. split; [| reflexivity].
    vm_compute. reflexivity.
  - apply Forall_forall. reflexivity.
Qed.


(** *** The metadata file *)

Lemma of_Z_valid (z : Z) : valid_number (JS.of_Z z) = true.
Proof.
  unfold JS.of_Z.
  assert (Hpos : forall p,
             valid_number (NilZero.string_of_uint (Pos.to_uint p)) = true).
  { intros p.
    replace (Pos.to_uint p) with (Decimal.unorm (Pos.to_uint p));
      [apply unorm_valid |].
    change (Pos.to_uint p) with (N.to_uint (Npos p)) at 2.
    rewrite <- (DecimalPos.Unsigned.of_to p).
    now rewrite DecimalN.Unsigned.to_of. }
  destruct z as [|p|p]; [reflexivity | apply Hpos |].
  specialize (Hpos p). simpl.
  destruct (NilZero.string_of_uint (Pos.to_uint p)) as [|c s] eqn:E; [discriminate |].
  unfold valid_number, num_final in *.
  change (num_start "-") with (Some NMinus). cbn [num_run].
  unfold num_start in Hpos.
  destruct (Ascii.eqb c "-") eqn:Ec.
  - simpl in Hpos. apply Ascii.eqb_eq in Ec. subst c.
    change (num_step NMinus "-") with (@None nstate). 
    assert (Hd : all is_digit (String "-" s) = true)
      by (rewrite <- E; apply uint_digits0).
    discriminate Hd.
  - unfold num_step. assumption.
Qed.

(** The value a header has in the metadata: the last one received under
    that name. *)
Definition lastValue (k : string) (l : list (string * string)) : option string :=
  Localize.assoc k (rev l).

Lemma fromEntries_snoc (l : list (string * string)) (k v : string) :
  fromEntries (l ++ [(k, v)]) = obj_set (fromEntries l) k (JStr v).
Proof. unfold fromEntries. now rewrite fold_left_app. Qed.

Lemma fromEntries_get (l : list (string * string)) (k : string) :
  obj_get (fromEntries l) k = JStr <$> lastValue k l.
Proof.
  unfold lastValue.
  induction l as [|[k' v'] l IH] using rev_ind; [reflexivity |].
  rewrite fromEntries_snoc, rev_app_distr. simpl.
  destruct (String.eqb_spec k' k) as [-> | Hne].
  - now rewrite obj_get_set_eq.
  - now rewrite obj_get_set_ne by congruence.
Qed.

Lemma fromEntries_wf (l : list (string * string)) : fields_wf (fromEntries l) = true.
Proof.
  induction l as [|[k v] l IH] using rev_ind; [reflexivity |].
  rewrite fromEntries_snoc. now apply obj_set_wf.
Qed.

Lemma responseMetadata_wf (w : World) (r : Response) : wf (responseMetadata w r) = true.
Proof.
  unfold responseMetadata.
  change (wf (JObj ?o)) with (fields_wf o). unfold fields_wf.
  cbn [map fst snd forallb nodup_keys existsb].
  change (wf (JNum ?l)) with (valid_number l).
  change (wf (JStr _)) with true.
  rewrite of_nat_valid.
  change (wf (JObj (fromEntries (headerEntries r)))) with (fields_wf (fromEntries (headerEntries r))).
  rewrite fromEntries_wf.
  change (wf (JObj ?o)) with (fields_wf o). unfold fields_wf.
  cbn [map fst snd forallb nodup_keys existsb].
  change (wf (JNum ?l)) with (valid_number l).
  change (wf (JStr _)) with true.
  rewrite of_Z_valid. reflexivity.
Qed.

(** The metadata file of the response [r], as a variant leaves it. *)
Definition metadata_written (w : World) (spec : RequestSpec) (r : Response)
  (res : list event * outcome) : Prop :=
  exists req text doc rest,
    res.1 = EFetch req :: EWrite (outputDir w spec) "response-metadata.json" text
            :: rest /\
    JSON.parse text = Some doc /\
    JS.get doc "httpStatus" = Some (JNum (JS.of_nat (status r))) /\
    JS.get doc "statusText" = Some (JStr (statusText r)) /\
    jpath doc [Key "timing"; Key "durationMs"]
    = Some (JNum (JS.of_Z (w_responseTime w - w_requestTime w))) /\
    JS.get doc "timestamp" = jpath doc [Key "timing"; Key "responseReceivedAt"] /\
    forall k, jpath doc [Key "headers"; Key k] = JStr <$> lastValue k (headerEntries r).

Lemma persist_metadata_written (w : World) (spec : RequestSpec) (req : FetchRequest)
  (r : Response) :
  w_write w (outputDir w spec) "response-metadata.json" = None ->
  metadata_written w spec r (EFetch req :: (persist w spec r).1, (persist w spec r).2).
Proof.
  intros H1. rewrite persist_cases, H1.
  assert (H : exists rest out,
             match w_write w (outputDir w spec) (bodyFileName r) with
             | Some e => ([metadataFile w spec r], Threw e)
             | None =>
                 ([metadataFile w spec r;
                   EWrite (outputDir w spec) (bodyFileName r)
                     match JSON.parse (r_body r) with
                     | Some v => if JS.truthy_json v then JSON.stringify v else r_body r
                     | None => r_body r
                     end],
                  if 400 <=? status r then Exited 1 else Returned)
             end = (metadataFile w spec r :: rest, out)).
  { destruct (w_write w (outputDir w spec) (bodyFileName r)); now eexists _, _. }
  destruct H as (rest & out & ->).
  exists req, (JSON.stringify (responseMetadata w r)), (responseMetadata w r), rest.
  split; [reflexivity |].
  split; [apply parse_stringify, responseMetadata_wf |].
  repeat split. intros k. simpl. rewrite fromEntries_get.
  now destruct (lastValue k (headerEntries r)).
Qed.



(** *** The request body *)

(** What a variant does with the body file of [spec], once the project root
    and the configuration are known. *)
Definition body_sent (w : World) (root : list string) (spec : RequestSpec)
  (res : list event * outcome) : Prop :=
  let file := bodyPath root (JS.or_default (bodyFile spec) "") in
  match w_file w file with
  | None => res = ([], Threw (ENOENT file))
  | Some text =>
      match JSON.parse text with
      | None => res = ([], Threw (SyntaxError text))
      | Some v =>
          exists req evs,
            res.1 = EFetch req :: evs /\
            f_body req = (if JS.truthy_json v then Some v else None) /\
            f_headers req !! "Content-Type" = Some "application/fhir+json"
      end
  end.

Lemma send_body (w : World) (root : list string) (config : json) (spec : RequestSpec) :
  JS.given (bodyFile spec) = true -> config <> JNull ->
  body_sent w root spec (send w root config spec).
Proof.
  intros Hg Hc. unfold body_sent.
  destruct (buildHeaders w root config spec) as [[body h]|e] eqn:Hb.
  - rewrite (send_request w root config spec body h Hc Hb).
    unfold buildHeaders, loadBody in Hb. rewrite Hg in Hb.
    set (file := bodyPath root (JS.or_default (bodyFile spec) "")) in *.
    destruct (w_file w file) as [text|]; [| discriminate].
    unfold parse_or_throw in Hb.
    destruct (JSON.parse text) as [v|]; [| discriminate].
    simpl in Hb. inversion Hb; subst body h.
    destruct (w_fetch w _) as [r|e]; eexists _, _;
      (split; [reflexivity |]); (split; [reflexivity |]);
      apply lookup_insert_eq.
  - unfold send. rewrite Hb.
    unfold buildHeaders, loadBody in Hb. rewrite Hg in Hb.
    set (file := bodyPath root (JS.or_default (bodyFile spec) "")) in *.
    destruct (w_file w file) as [text|].
    + unfold parse_or_throw in Hb.
      destruct (JSON.parse text) as [v|]; [discriminate |].
      simpl in Hb. inversion Hb; subst e. now destruct config.
    + inversion Hb; subst e. now destruct config.
Qed.

(** X6.  The body file.  When [bodyFile] is named, the file is looked up
    under the project root unless its path is absolute.  If it is missing, or
    does not hold JSON, the call throws and nothing is sent or written.
    Otherwise the request carries [Content-Type: application/fhir+json] and
    the parsed value as its body, except that a value that is [null],
    [false], zero or the empty string is sent as no body at all. *)
Theorem body_file (w : World) (spec : RequestSpec) (root : list string) (config : json) :
  JS.given (bodyFile spec) = true ->
  findProjectRoot w (w_cwd w) = Ok root ->
  config <> JNull ->
  (selectConfig w root spec = Ok config -> body_sent w root spec (execute w spec)) /\
  (selectConfigRecent w root spec = Ok config ->
   body_sent w root spec (executeRecent w spec)).
Proof.
  intros Hg Hr Hc. unfold execute, executeRecent. rewrite Hr.
  split; intros ->; now apply send_body.
Qed.

Lemma body_file_witness :
  body_sent (requestWorld [configA; configB] notFound) ["proj"; "home"] postBody
    (execute (requestWorld [configA; configB] notFound) postBody).
Proof.
  eapply (body_file (requestWorld [configA; configB] notFound) postBody
            ["proj"; "home"]).
  - reflexivity.
  - reflexivity.
  - shelve.
  - vm_compute. reflexivity.
  Unshelve. discriminate.
Defined.

(** *** The names the error message offers *)

Lemma expand_empty (m b a : string) : expand "" m b a = "".
Proof. reflexivity. Qed.

Lemma prefixb_json_border (s : string) :
  s <> "" -> prefixb ".json" (s +:+ ".json") = true -> prefixb ".json" s = true.
Proof.
  intros Hne H.
  destruct s as [|c1 [|c2 [|c3 [|c4 [|c5 s]]]]]; [congruence | | | | |]; simpl in *;
    repeat match type of H with
           | context [Ascii.eqb ?a ?b] =>
               destruct (Ascii.eqb_spec a b); [subst | discriminate H]; simpl in H
           end;
    try discriminate H; try reflexivity.
  all: repeat match goal with
           | |- context [Ascii.eqb ?a ?b] =>
               destruct (Ascii.eqb_spec a b); [| congruence]; simpl
           end; reflexivity.
Qed.

Lemma replaceFirst_go_suffix (base before : string) :
  includes ".json" base = false ->
  replaceFirst_go ".json" "" before (base +:+ ".json") = base.
Proof.
  revert before. induction base as [|c base IH]; intros before H.
  - reflexivity.
  - rewrite includes_unfold in H. apply orb_false_iff in H as [Hp Hi].
    change (String c base +:+ ".json") with (String c (base +:+ ".json")).
    cbn [replaceFirst_go].
    destruct (prefixb ".json" (String c (base +:+ ".json"))) eqn:E.
    + apply (prefixb_json_border (String c base)) in E; congruence.
    + f_equal. now apply IH.
Qed.

Lemma find_entry_elem (name : string) (l : list dirent) (d : dirent) :
  d ∈ l -> d_name d = name ->
  exists d', find_entry name l = Some d' /\ d' ∈ l /\ d_name d' = name.
Proof.
  induction l as [|e l IH]; intros Hin Hn; [inversion Hin |].
  simpl. destruct (String.eqb_spec (d_name e) name) as [He | He].
  - exists e. repeat split; [left | assumption].
  - apply elem_of_cons in Hin as [-> | Hin]; [congruence |].
    destruct (IH Hin Hn) as (d' & Hf & Hd & Hn'). exists d'.
    repeat split; [assumption | now right | assumption].
Qed.

(** X7.  The names that the error for several configurations lists can be
    used as they are.  For an entry [base.json] of [.fhir-configs] whose
    [base] is not empty and does not itself contain [.json], the listed name
    is [base], and a call with [configName] set to it loads an entry of that
    file name, however many other configurations there are. *)
Theorem listed_name_selects (w : World) (root : list string) (d : dirent)
  (base : string) :
  d ∈ readdir w root ->
  d_name d = base +:+ ".json" ->
  includes ".json" base = false ->
  base <> "" ->
  replaceFirst ".json" "" (d_name d) = base /\
  exists d', d' ∈ readdir w root /\ d_name d' = d_name d /\
    forall spec, configName spec = Some base ->
      selectConfig w root spec = loadConfig root d' /\
      selectConfigRecent w root spec = loadConfig root d'.
Proof.
  intros Hin Hn Hi Hne. split.
  - rewrite Hn. now apply replaceFirst_go_suffix.
  - destruct (find_entry_elem _ _ _ Hin Hn) as (d' & Hf & Hd & Hn').
    exists d'. split; [assumption |]. split; [congruence |].
    intros spec Hs. unfold selectConfig, selectConfigRecent, JS.given, JS.or_default.
    rewrite Hs. apply String.eqb_neq in Hne. rewrite Hne. simpl. now rewrite Hf.
Qed.

Lemma listed_name_selects_witness :
  replaceFirst ".json" "" (d_name configB) = "beta" /\
  exists d', d' ∈ readdir (requestWorld [configA; configB] notFound) ["proj"; "home"] /\
    d_name d' = d_name configB /\
    forall spec, configName spec = Some "beta" ->
      selectConfig (requestWorld [configA; configB] notFound) ["proj"; "home"] spec
      = loadConfig ["proj"; "home"] d' /\
      selectConfigRecent (requestWorld [configA; configB] notFound) ["proj"; "home"] spec
      = loadConfig ["proj"; "home"] d'.
Proof.
  apply (listed_name_selects (requestWorld [configA; configB] notFound)
           ["proj"; "home"] configB "beta").
  - right. left.
  - reflexivity.
  - reflexivity.
  - discriminate.
Defined.

(** *** Ties between configurations *)

Lemma sort_recent_first (l : list dirent) (d : dirent) (rest : list dirent) :
  sort_recent l = d :: rest ->
  exists pre post,
    l = pre ++ d :: post /\
    (forall e, e ∈ pre -> (d_mtime e < d_mtime d)%Z) /\
    (forall e, e ∈ post -> (d_mtime e <= d_mtime d)%Z).
Proof.
  revert d rest. induction l as [|x l IH]; intros d rest H; [discriminate |].
  change (sort_recent (x :: l)) with (insert_recent x (sort_recent l)) in H.
  destruct (sort_recent l) as [|y ys] eqn:Hs.
  - assert (l = []) as ->.
    { destruct l as [|z l]; [reflexivity |].
      change (sort_recent (z :: l)) with (insert_recent z (sort_recent l)) in Hs.
      destruct (sort_recent l) as [|u us]; simpl in Hs; [discriminate |].
      destruct (d_mtime u - d_mtime z <=? 0)%Z; discriminate. }
    simpl in H. inversion H; subst. exists [], [].
    repeat split; intros e He; now apply elem_of_nil in He.
  - destruct (IH y ys eq_refl) as (pre & post & -> & Hpre & Hpost).
    simpl in H. destruct (d_mtime y - d_mtime x <=? 0)%Z eqn:E.
    + inversion H; subst. exists [], (pre ++ y :: post).
      repeat split; [intros e He; now apply elem_of_nil in He |].
      intros e He. apply Z.leb_le in E.
      apply elem_of_app in He as [He | He]; [specialize (Hpre e He); lia |].
      apply elem_of_cons in He as [-> | He]; [lia |].
      specialize (Hpost e He). lia.
    + inversion H; subst. exists (x :: pre), post.
      apply Z.leb_gt in E.
      repeat split; [| assumption].
      intros e He. apply elem_of_cons in He as [-> | He]; [lia | now apply Hpre].
Qed.

(** X24.  Ties in the variant under [assets/lib].  With no [configName],
    the configuration that variant loads is the first entry, in the order
    the directory lists them, among the [.json] entries with the latest
    modification time: every entry listed before it is strictly older, and
    none is newer. *)
Theorem recent_choice (w : World) (spec : RequestSpec) (root : list string) :
  JS.given (configName spec) = false ->
  findProjectRoot w (w_cwd w) = Ok root ->
  filter (fun d => isJsonFile d = true) (readdir w root) <> [] ->
  exists pre d post,
    filter (fun d => isJsonFile d = true) (readdir w root) = pre ++ d :: post /\
    (forall e, e ∈ pre -> (d_mtime e < d_mtime d)%Z) /\
    (forall e, e ∈ post -> (d_mtime e <= d_mtime d)%Z) /\
    executeRecent w spec = afterSelection w root spec d.
Proof.
  intros Hg Hr Hne.
  destruct (sort_recent_head _ Hne) as (d & rest & Hs & _ & _).
  destruct (sort_recent_first _ _ _ Hs) as (pre & post & Hl & Hpre & Hpost).
  exists pre, d, post. repeat split; try assumption.
  unfold executeRecent, afterSelection. rewrite Hr.
  unfold selectConfigRecent. rewrite Hg, Hs.
  now destruct (loadConfig root d).
Qed.

(** Two configurations of the same age. *)
Definition configB' : dirent :=
  {| d_name := "beta2.json"; d_content := d_content configB; d_mtime := 200 |}.

Lemma recent_choice_witness :
  exists pre post,
    [configA; configB; configB'] = pre ++ configB :: post /\
    executeRecent (requestWorld [configA; configB; configB'] notFound) getMetadata
    = afterSelection (requestWorld [configA; configB; configB'] notFound)
        ["proj"; "home"] getMetadata configB.
Proof.
  destruct (recent_choice (requestWorld [configA; configB; configB'] notFound)
              getMetadata ["proj"; "home"] eq_refl eq_refl)
    as (pre & d & post & Hl & Hpre & Hpost & He); [discriminate |].
  change (filter _ _) with [configA; configB; configB'] in Hl.
  destruct pre as [|a [|b [|c pre]]]; inversion Hl; subst.
  - exfalso. specialize (Hpost configB). 
    assert (configB ∈ [configB; configB']) as Hin by left.
    specialize (Hpost Hin). simpl in Hpost. lia.
  - now exists [configA], [configB'].
  - exfalso. assert (configB ∈ [configA; configB]) as Hin by (right; left).
    specialize (Hpre _ Hin). simpl in Hpre. lia.
  - destruct pre; discriminate.
Defined.

End ExecuteFacts.

(** ** The localizer: its entry points *)

Module EntryFacts.

Import Str StrFacts Text JSON Template ObjFacts Localize Examples LocalizeFacts
  ParseFacts WfFacts FillFacts.

(** *** The project root *)

(** The probe of [getProjectRoot] in a directory. *)
Definition probe (dir : list string) : event :=
  EExists (path_string (".fhir-configs" :: dir)).

Definition probes (dir : list string) (n : nat) : list event :=
  map (fun j => probe (skipn j dir)) (seq 0 n).

Lemma probes_cons (c : string) (dir : list string) (n : nat) :
  probes (c :: dir) (S n) = probe (c :: dir) :: probes dir n.
Proof.
  unfold probes. simpl. f_equal. rewrite <- seq_shift, map_map. reflexivity.
Qed.

Lemma getProjectRoot_from_found (w : World) (dir : list string) (tr : list event)
  (root : list string) :
  getProjectRoot_from w dir = (tr, Ok root) ->
  exists k, k < length dir /\ root = skipn k dir /\ w_hasConfigs w root = true /\
            (forall j, j < k -> w_hasConfigs w (skipn j dir) = false) /\
            tr = probes dir (S k).
Proof.
  revert tr root. induction dir as [|c parent IH]; intros tr root H; [discriminate |].
  cbn [getProjectRoot_from] in H. unfold bindM, emit in H.
  destruct (w_hasConfigs w (c :: parent)) eqn:E.
  - inversion H; subst. exists 0. simpl. repeat split; [lia | assumption | lia].
  - destruct (getProjectRoot_from w parent) as [tr' [root'|e]] eqn:E'; [| discriminate].
    inversion H; subst. destruct (IH _ _ eq_refl) as (k & Hk & -> & Hc & Hn & ->).
    exists (S k). simpl length. repeat split; [lia | assumption | |].
    + intros [|j] Hj; [exact E | apply Hn; lia].
    + now rewrite probes_cons.
Qed.

Lemma getProjectRoot_from_none (w : World) (dir : list string) :
  (forall j, j < length dir -> w_hasConfigs w (skipn j dir) = false) ->
  getProjectRoot_from w dir
  = (probes dir (length dir),
     Throw (Error "Could not find project root (no .fhir-configs directory found)")).
Proof.
  induction dir as [|c parent IH]; intros H; [reflexivity |].
  cbn [getProjectRoot_from]. unfold bindM, emit.
  pose proof (H 0 ltac:(simpl; lia)) as H0. simpl in H0. rewrite H0.
  rewrite IH by (intros j Hj; apply (H (S j)); simpl; lia).
  simpl length. now rewrite probes_cons.
Qed.

(** X8.  [getProjectRoot] returns the nearest directory, from the working
    directory upwards, that holds [.fhir-configs], after one probe in each
    directory on the way; the file-system root itself is never probed, so
    that the call throws, after a probe in every directory below the root,
    when no directory below the root holds one, whatever the root holds. *)
Theorem project_root_search (w : World) :
  (forall tr root,
     getProjectRoot w = (tr, Ok root) ->
     exists k, k < length (w_cwd w) /\ root = skipn k (w_cwd w) /\
               w_hasConfigs w root = true /\
               (forall j, j < k -> w_hasConfigs w (skipn j (w_cwd w)) = false) /\
               tr = probes (w_cwd w) (S k)) /\
  ((forall j, j < length (w_cwd w) -> w_hasConfigs w (skipn j (w_cwd w)) = false) ->
   getProjectRoot w
   = (probes (w_cwd w) (length (w_cwd w)),
      Throw (Error "Could not find project root (no .fhir-configs directory found)"))).
Proof.
  split.
  - intros tr root. apply getProjectRoot_from_found.
  - apply getProjectRoot_from_none.
Qed.

(** A project whose only [.fhir-configs] is in the file-system root. *)
Definition rootOnlyWorld : World :=
  {| w_cwd := ["work"; "tmp"];
     w_hasConfigs := fun dir => bool_decide (dir = []);
     w_templates := fun _ => None;
     w_samples := fun _ => None;
     w_generate := fun _ => None;
     w_mkdir := fun _ => None;
     w_writeFile := fun _ => None;
     w_contentNow := noon;
     w_templateNow := noon;
     w_identifierNow := 0;
     w_syntaxMessage := fun _ => "" |}.

Lemma project_root_search_witness :
  getProjectRoot rootOnlyWorld
  = ([EExists "/tmp/work/.fhir-configs"; EExists "/tmp/.fhir-configs"],
     Throw (Error "Could not find project root (no .fhir-configs directory found)")).
Proof.
  apply (proj2 (project_root_search rootOnlyWorld)).
  intros [|[|j]] Hj; [reflexivity | reflexivity | simpl in Hj; lia].
Defined.

(** *** What reaches the disk *)

(** The events that create something: a directory or a file. *)
Definition is_output (e : event) : bool :=
  match e with
  | EMkdir _ | EWrite _ _ => true
  | _ => false
  end.

(** A file that the generator script of the mapping [m] writes into
    [assets/sample-content] when it is imported. *)
Definition generated (w : World) (m : TemplateMapping) (e : event) : Prop :=
  exists g written skillRoot,
    contentGenerator m = Some g /\ w_generate w g = Some written /\
    e ∈ scriptWrites skillRoot written.

(** Nothing is created but what the generator script writes. *)
Definition staged (w : World) (m : TemplateMapping) (tr : list event) : Prop :=
  Forall (fun e => is_output e = true -> generated w m e) tr.

Definition quiet {A : Type} (w : World) (m : TemplateMapping) (c : M A) : Prop :=
  staged w m c.1.

Section Quiet.

Context (w : World) (m : TemplateMapping).

Lemma quiet_bind {A B : Type} (c : M A) (f : A -> M B) :
  quiet w m c -> (forall a, quiet w m (f a)) -> quiet w m (bindM c f).
Proof.
  unfold quiet, staged, bindM. intros Hm Hf. destruct c as [t [a|e]]; [| exact Hm].
  specialize (Hf a). destruct (f a) as [t' r]. simpl in *.
  apply Forall_app. now split.
Qed.

Lemma quiet_ret {A : Type} (a : A) : quiet w m (ret a).
Proof. constructor. Qed.

Lemma quiet_throw {A : Type} (e : error) : quiet w m (@throw A e).
Proof. constructor. Qed.

Lemma quiet_lift {A : Type} (r : result A) : quiet w m (lift r).
Proof. constructor. Qed.

Lemma quiet_emit (e : event) : is_output e = false -> quiet w m (emit e).
Proof. intros H. repeat constructor. intros H'. congruence. Qed.

Lemma quiet_finally {A : Type} (c : M A) (e : event) :
  quiet w m c -> is_output e = false -> quiet w m (finally c e).
Proof.
  unfold quiet, staged, finally. intros Hm He. destruct c as [t r]. simpl in *.
  apply Forall_app. split; [assumption |]. repeat constructor. intros H'. congruence.
Qed.

Lemma quiet_getProjectRoot : quiet w m (getProjectRoot w).
Proof.
  unfold getProjectRoot. induction (w_cwd w) as [|c dir IH]; [apply quiet_throw |].
  cbn [getProjectRoot_from]. apply quiet_bind; [now apply quiet_emit |].
  intros _. destruct (w_hasConfigs w (c :: dir)); [apply quiet_ret | exact IH].
Qed.

Lemma quiet_getSkillRoot : quiet w m (getSkillRoot w).
Proof.
  unfold getSkillRoot. apply quiet_bind; [apply quiet_getProjectRoot |].
  intros. apply quiet_ret.
Qed.

Lemma quiet_importScript (skillRoot : list string) (g : string)
  (written : list (string * string)) :
  contentGenerator m = Some g -> w_generate w g = Some written ->
  quiet w m (importScript skillRoot g written).
Proof.
  intros Hg Hw. unfold quiet, staged, importScript. cbn [fst].
  constructor; [discriminate |].
  apply Forall_forall. intros e He _. now exists g, written, skillRoot.
Qed.

Lemma quiet_getContent (o : LocalizationOptions) : quiet w m (getContent w m o).
Proof.
  unfold getContent, generateContent, getContentFile.
  destruct (contentGenerator m) as [g|] eqn:Hg.
  - apply quiet_bind; [apply quiet_getSkillRoot |]. intros skillRoot.
    apply quiet_bind; [now apply quiet_emit |]. intros _.
    destruct (w_generate w g) as [files|] eqn:Hw; [| apply quiet_throw].
    apply quiet_finally; [| reflexivity].
    apply quiet_bind; [now apply quiet_emit |]. intros _.
    apply quiet_bind; [now apply quiet_importScript |]. intros _.
    destruct (assoc g outputMap) as [filename|]; [| apply quiet_throw].
    apply quiet_bind; [now apply quiet_emit |]. intros _.
    destruct (sampleAfter w files filename); [| apply quiet_throw].
    apply quiet_bind; [now apply quiet_emit |]. intros _. apply quiet_ret.
  - destruct (contentFile m) as [f|]; [| apply quiet_throw].
    apply quiet_bind; [apply quiet_getSkillRoot |]. intros skillRoot.
    apply quiet_bind; [now apply quiet_emit |]. intros _.
    destruct (w_samples w f); [| apply quiet_throw].
    apply quiet_bind; [now apply quiet_emit |]. intros _. apply quiet_ret.
Qed.

Lemma quiet_readTemplate (skillRoot : list string) (file : string) :
  quiet w m (readTemplate w skillRoot file).
Proof.
  unfold readTemplate. apply quiet_bind; [now apply quiet_emit |]. intros _.
  destruct (w_templates w file); [apply quiet_ret | apply quiet_throw].
Qed.

End Quiet.

(** The steps up to the serialised document, shared by [main] and
    [localizeDocumentReference]: the project root and that text. *)
Definition prepare (w : World) (mapping : TemplateMapping) (options : LocalizationOptions)
  : M (list string * string) :=
  do projectRoot <- getProjectRoot w;
  do skillRoot <- getSkillRoot w;
  do contentData <- getContent w mapping options;
  do templateContent <- readTemplate w skillRoot (template mapping);
  do localizedJson <-
    lift (localizeTemplate w templateContent options
            (Base64.encode (content contentData))
            (String.length (content contentData)) (contentType mapping));
  ret (projectRoot, localizedJson).

Lemma quiet_prepare (w : World) (m : TemplateMapping) (o : LocalizationOptions) :
  quiet w m (prepare w m o).
Proof.
  unfold prepare.
  apply quiet_bind; [apply quiet_getProjectRoot |]. intros root.
  apply quiet_bind; [apply quiet_getSkillRoot |]. intros skillRoot.
  apply quiet_bind; [apply quiet_getContent |]. intros cd.
  apply quiet_bind; [apply quiet_readTemplate |]. intros text.
  apply quiet_bind; [apply quiet_lift |]. intros localizedJson. apply quiet_ret.
Qed.

Lemma bindM_assoc {A B C : Type} (m : M A) (f : A -> M B) (g : B -> M C) :
  bindM (bindM m f) g = bindM m (fun a => bindM (f a) g).
Proof.
  unfold bindM. destruct m as [t [a|e]]; [| reflexivity].
  destruct (f a) as [t' [b|e]]; [| reflexivity].
  destruct (g b) as [t'' r]. now rewrite app_assoc.
Qed.

Lemma bindM_ret_l {A B : Type} (a : A) (f : A -> M B) : bindM (ret a) f = f a.
Proof. unfold bindM, ret. now destruct (f a). Qed.

Lemma bindM_ext {A B : Type} (m : M A) (f g : A -> M B) :
  (forall a, f a = g a) -> bindM m f = bindM m g.
Proof. intros H. unfold bindM. destruct m as [t [a|e]]; [now rewrite H | reflexivity]. Qed.

Lemma mainBody_prepare (w : World) (m : TemplateMapping) (o : LocalizationOptions) :
  mainBody w m o
  = bindM (prepare w m o) (fun rt => writeOutput w rt.1 o rt.2).
Proof.
  unfold mainBody, prepare.
  repeat (rewrite bindM_assoc; apply bindM_ext; intros ?).
  now rewrite bindM_ret_l.
Qed.

(** The mapping the entry points work with for a type that passes the
    check. *)
Definition mappingOf (type : string) : option TemplateMapping :=
  match lookupMapping type with
  | Own m => Some m
  | Inherited => Some inheritedMapping
  | Missing => None
  end.

(** What [localizeDocumentReference] does with the serialised document. *)
Definition deliver (w : World) (o : LocalizationOptions) (rt : list string * string)
  : M json :=
  do parsedJson <- lift (parse_or_throw rt.2);
  run (if negb (bool_decide (writeToFile o = Some false))
       then writeOutput w rt.1 o rt.2
       else ret tt);
  ret parsedJson.

Lemma library_prepare (w : World) (o : LocalizationOptions) (m : TemplateMapping) :
  mappingOf (type o) = Some m ->
  localizeDocumentReference w o = bindM (prepare w m o) (deliver w o).
Proof.
  unfold mappingOf, localizeDocumentReference, prepare, deliver. intros Hm.
  rewrite bindM_assoc. apply bindM_ext; intros root.
  rewrite bindM_assoc. apply bindM_ext; intros skillRoot.
  assert (E : match lookupMapping (type o) with
              | Own m0 => ret m0
              | Inherited => ret inheritedMapping
              | Missing =>
                  throw (Error ("Unknown document type: " +:+ type o +:+
                                ". Available: " +:+ mappingKeys))
              end = ret m)
    by (destruct (lookupMapping (type o)); inversion Hm; reflexivity).
  rewrite E, bindM_ret_l.
  rewrite bindM_assoc. apply bindM_ext; intros cd.
  rewrite bindM_assoc. apply bindM_ext; intros text.
  rewrite bindM_assoc. apply bindM_ext; intros localizedJson.
  now rewrite bindM_ret_l.
Qed.

Lemma bindM_throw {A B : Type} (e : error) (f : A -> M B) :
  bindM (throw e) f = throw e.
Proof. reflexivity. Qed.

Lemma fails_bind {A B : Type} (m : M A) (f : A -> M B) :
  (forall a, exists e, (f a).2 = Throw e) -> exists e, (bindM m f).2 = Throw e.
Proof.
  intros H. unfold bindM. destruct m as [t [a|e]]; [| now exists e].
  destruct (H a) as [e He]. destruct (f a) as [t' r]. now exists e.
Qed.

Lemma staged_none (w : World) (m : TemplateMapping) (tr : list event) :
  contentGenerator m = None -> staged w m tr ->
  Forall (fun e => is_output e = false) tr.
Proof.
  intros Hn H. eapply Forall_impl; [exact H |].
  intros e He. destruct (is_output e) eqn:E; [| reflexivity].
  destruct (He E) as (g & ? & ? & Hg & _). congruence.
Qed.

Lemma library_missing (w : World) (o : LocalizationOptions) :
  mappingOf (type o) = None ->
  quiet w inheritedMapping (localizeDocumentReference w o) /\
  exists e, (localizeDocumentReference w o).2 = Throw e.
Proof.
  unfold mappingOf, localizeDocumentReference. intros Hm.
  destruct (lookupMapping (type o)); try discriminate. split.
  - apply quiet_bind; [apply quiet_getProjectRoot |]. intros root.
    apply quiet_bind; [apply quiet_getSkillRoot |]. intros skillRoot.
    rewrite bindM_throw. apply quiet_throw.
  - apply fails_bind. intros root. apply fails_bind. intros skillRoot.
    rewrite bindM_throw. now eexists.
Qed.

(** The mapping an entry point works with, whatever the type. *)
Definition mappingFor (type : string) : TemplateMapping :=
  default inheritedMapping (mappingOf type).

(** How [writeOutput] goes after the steps [pre]. *)
Lemma writeOutput_cases (w : World) (root : list string) (o : LocalizationOptions)
  (text : string) :
  writeOutput w root o text
  = match w_mkdir w (outputPath root o).1 with
    | Some e => ([], Throw e)
    | None =>
        match w_writeFile w (outputPath root o).2 with
        | Some e => ([EMkdir (outputPath root o).1], Throw e)
        | None =>
            ([EMkdir (outputPath root o).1; EWrite (outputPath root o).2 text], Ok tt)
        end
    end.
Proof.
  unfold writeOutput. destruct (w_mkdir w _); [reflexivity |].
  unfold bindM, emit, throw. now destruct (w_writeFile w _).
Qed.

Lemma prepare_root (w : World) (m : TemplateMapping) (o : LocalizationOptions)
  (t : list event) (root : list string) (text : string) :
  prepare w m o = (t, Ok (root, text)) -> (getProjectRoot w).2 = Ok root.
Proof.
  intros H. unfold prepare in H.
  apply bindM_inv in H as (t1 & root' & t2 & Hr & H & _).
  apply bindM_inv in H as (t3 & skillRoot & t4 & _ & H & _).
  apply bindM_inv in H as (t5 & cd & t6 & _ & H & _).
  apply bindM_inv in H as (t7 & tc & t8 & _ & H & _).
  apply bindM_inv in H as (t9 & lj & t10 & _ & H & _).
  unfold ret in H. inversion H; subst. now rewrite Hr.
Qed.

(** The last two events of a call that writes its output under the project
    root [root]: before them nothing was created but the files of the
    generator script. *)
Definition written (w : World) (m : TemplateMapping) (o : LocalizationOptions)
  (tr : list event) (text : string) : Prop :=
  exists pre root,
    (getProjectRoot w).2 = Ok root /\
    tr = pre ++ [EMkdir (outputPath root o).1; EWrite (outputPath root o).2 text] /\
    staged w m pre.

(** The call stopped where the output file could not be written, the
    directory being there. *)
Definition stopped (w : World) (m : TemplateMapping) (o : LocalizationOptions)
  (tr : list event) (e : error) : Prop :=
  exists pre root,
    (getProjectRoot w).2 = Ok root /\
    tr = pre ++ [EMkdir (outputPath root o).1] /\
    staged w m pre /\
    w_mkdir w (outputPath root o).1 = None /\
    w_writeFile w (outputPath root o).2 = Some e.


(** *** The command line and the library *)

Lemma main_prepare (w : World) (values : CliValues) (m : TemplateMapping) :
  v_help values = false ->
  JS.given (v_type values) && JS.given (v_patientId values)
  && JS.given (v_server values) = true ->
  mappingOf (type (cliOptions values)) = Some m ->
  main w values
  = match bindM (prepare w m (cliOptions values))
            (fun rt => writeOutput w rt.1 (cliOptions values) rt.2) with
    | (t, Ok _) => (t, Returned)
    | (t, Throw e) =>
        (t ++ [EConsoleError (JSON.nl +:+ "Error: " +:+ message w e)], Exited 1)
    end.
Proof.
  intros Hh Hr Hm. unfold main. rewrite Hh, Hr. cbn [negb].
  unfold mappingOf in Hm.
  destruct (lookupMapping (type (cliOptions values))); inversion Hm; subst;
    now rewrite mainBody_prepare.
Qed.

Lemma prepare_text (w : World) (m : TemplateMapping) (o : LocalizationOptions)
  (t : list event) (root : list string) (text : string) :
  (forall c, encounterContained o = Some c -> wf c = true) ->
  prepare w m o = (t, Ok (root, text)) ->
  exists doc, JSON.parse text = Some doc.
Proof.
  intros Hc H. unfold prepare in H.
  apply bindM_inv in H as (t1 & root' & t2 & _ & H & _).
  apply bindM_inv in H as (t3 & skillRoot & t4 & _ & H & _).
  apply bindM_inv in H as (t5 & cd & t6 & _ & H & _).
  apply bindM_inv in H as (t7 & tc & t8 & _ & H & _).
  apply bindM_inv in H as (t9 & lj & t10 & Hl & H & _).
  unfold ret in H. inversion H; subst.
  unfold lift, localizeTemplate in Hl.
  destruct (localizeObject w tc o _ _ _) as [doc|e] eqn:Ho; [| discriminate].
  simpl in Hl. inversion Hl; subst. exists doc.
  apply parse_stringify. eapply localizeObject_wf; eauto.
Qed.

(** X10.  [main] and [localizeDocumentReference] do the same.  For command
    line values that pass the checks of [main] (no [--help], the three
    required options, a type the table answers for), the library entry point
    called with the same options performs the same file-system actions in the
    same order; [main] ends normally exactly when the library call returns a
    document, and otherwise reports the message of the error the library call
    throws and exits with code 1. *)
Theorem main_as_library (w : World) (values : CliValues) :
  v_help values = false ->
  JS.given (v_type values) && JS.given (v_patientId values)
  && JS.given (v_server values) = true ->
  lookupMapping (type (cliOptions values)) <> Missing ->
  match localizeDocumentReference w (cliOptions values) with
  | (t, Ok _) => main w values = (t, Returned)
  | (t, Throw e) =>
      main w values
      = (t ++ [EConsoleError (JSON.nl +:+ "Error: " +:+ message w e)], Exited 1)
  end.
Proof.
  intros Hh Hr Hk.
  destruct (mappingOf (type (cliOptions values))) as [m|] eqn:Hm;
    [| unfold mappingOf in Hm; destruct (lookupMapping _); congruence].
  rewrite (main_prepare w values m Hh Hr Hm), (library_prepare w _ m Hm).
  destruct (prepare w m (cliOptions values)) as [t [[root text]|e]] eqn:Hp;
    [| reflexivity].
  destruct (prepare_text w m (cliOptions values) t root text) as [doc Hd];
    [| exact Hp |].
  { intros c Hc. unfold cliOptions in Hc. simpl in Hc.
    destruct (v_encounterContained values); inversion Hc; reflexivity. }
  unfold bindM, deliver, lift, parse_or_throw. cbn [fst snd].
  rewrite Hd. cbn [bindM].
  replace (bool_decide (writeToFile (cliOptions values) = Some false)) with false
    by reflexivity.
  cbn [negb]. rewrite writeOutput_cases.
  destruct (w_mkdir w _); [cbn; now rewrite ?app_nil_r |].
  destruct (w_writeFile w _); cbn; now rewrite ?app_nil_r.
Qed.

Lemma main_as_library_witness :
  exists t, main (localizeWorld noteTemplate) (cliFor "consultation") = (t, Returned).
Proof.
  pose proof (main_as_library (localizeWorld noteTemplate) (cliFor "consultation")
                eq_refl eq_refl) as H.
  destruct (localizeDocumentReference (localizeWorld noteTemplate)
              (cliOptions (cliFor "consultation"))) as [t [doc|e]] eqn:E.
  - exists t. apply H. discriminate.
  - exfalso. vm_compute in E. discriminate E.
Defined.

(** *** Generated content *)

Definition is_chdir (e : event) : bool :=
  match e with
  | EChdir _ => true
  | _ => false
  end.

(** X11.  [generateContent] and the working directory.  When the generator
    script is missing, or no project root is found, the working directory is
    never changed and nothing is imported.  When the script exists, the
    directory is changed to [assets/sample-content] just before the script is
    imported, and the last thing the call does, whether it returns the
    content or throws, is to change back to the directory it started in; in
    between the directory is not changed. *)
Theorem generator_restores_cwd (w : World) (g : string) (o : LocalizationOptions) :
  (w_generate w g = None \/ (exists t e, getProjectRoot w = (t, Throw e)) ->
   Forall (fun e => match e with EExists _ => True | _ => False end)
     (generateContent w g o).1 /\
   exists e, (generateContent w g o).2 = Throw e) /\
  (forall t root files,
     getProjectRoot w = (t, Ok root) -> w_generate w g = Some files ->
     let dir := "sample-content" :: "assets" :: skillDir ++ root in
     exists mid,
       (generateContent w g o).1
       = t ++ [EExists (path_string dir +:+ "/" +:+ g); EChdir (path_string dir);
               EImport (path_string dir +:+ "/" +:+ g)]
           ++ mid ++ [EChdir (path_string (w_cwd w))] /\
       Forall (fun e => is_chdir e = false) mid).
Proof.
  split.
  - intros H. unfold generateContent, getSkillRoot.
    assert (Hp : Forall (fun e => match e with EExists _ => True | _ => False end)
                   (getProjectRoot w).1).
    { unfold getProjectRoot. induction (w_cwd w) as [|c dir IH]; [constructor |].
      cbn [getProjectRoot_from]. unfold bindM, emit.
      destruct (w_hasConfigs w (c :: dir)).
      - simpl. repeat constructor.
      - destruct (getProjectRoot_from w dir) as [t r]. simpl in *. now constructor. }
    destruct (getProjectRoot w) as [t [root|e]] eqn:E.
    + destruct H as [H | (t' & e & H)]; [| discriminate].
      rewrite H. unfold bindM, ret, emit, throw. simpl in *. split; [| now eexists].
      rewrite app_nil_r. apply Forall_app. split; [assumption | repeat constructor].
    + unfold bindM. simpl in *. split; [assumption | now eexists].
  - intros t root files Hr Hg dir. unfold generateContent, getSkillRoot.
    rewrite Hr, Hg. unfold bindM at 1 2. unfold ret at 1. cbn [fst snd].
    unfold samplePath. fold dir.
    assert (Hw : Forall (fun e => is_chdir e = false)
                   (scriptWrites (skillDir ++ root) files)).
    { unfold scriptWrites. apply Forall_forall. intros e He.
      apply list_elem_of_fmap in He as (nc & -> & _). reflexivity. }
    destruct (assoc g outputMap) as [filename|].
    + destruct (sampleAfter w files filename) as [text|].
      * eexists (scriptWrites (skillDir ++ root) files ++ [EExists _; ERead _]).
        split; [| apply Forall_app; split; [exact Hw | repeat constructor]].
        unfold finally, bindM, emit, ret, importScript. cbn [fst snd].
        rewrite ?app_nil_r, <- ?app_assoc. reflexivity.
      * eexists (scriptWrites (skillDir ++ root) files ++ [EExists _]).
        split; [| apply Forall_app; split; [exact Hw | repeat constructor]].
        unfold finally, bindM, emit, throw, importScript. cbn [fst snd].
        rewrite ?app_nil_r, <- ?app_assoc. reflexivity.
    + exists (scriptWrites (skillDir ++ root) files). split; [| exact Hw].
      unfold finally, bindM, emit, throw, importScript. cbn [fst snd].
      rewrite ?app_nil_r, <- ?app_assoc. reflexivity.
Qed.

Lemma generator_restores_cwd_witness :
  exists pre,
    (generateContent (localizeWorld noteTemplate) "generate-pdf.ts" (optionsFor "pdf")).1
    = pre ++ [EChdir "/home/proj/notes"].
Proof.
  edestruct (proj2 (generator_restores_cwd (localizeWorld noteTemplate)
                      "generate-pdf.ts" (optionsFor "pdf")))
    as (mid & H & _); [reflexivity | reflexivity |].
  eexists. rewrite H. rewrite !app_assoc. reflexivity.
Defined.

(** *** The table of document types *)

(** X12.  The table of document types is consistent with the code that
    reads it.  Every entry names exactly one source of content, a sample
    file or a generator, and every generator it names has an output file in
    the table of [generateContent].  So for a type of the table the content
    step never fails with "No content source specified in mapping" nor with
    "Unknown generator": what can go wrong is the project root, a missing
    script or sample, or a script that did not write its file. *)
Theorem mappings_have_sources (k : string) (m : TemplateMapping) :
  lookupMapping k = Own m ->
  (contentFile m = None <-> is_Some (contentGenerator m)) /\
  (forall g, contentGenerator m = Some g -> is_Some (assoc g outputMap)) /\
  forall w o tr e,
    getContent w m o = (tr, Throw e) ->
    e = Error "Could not find project root (no .fhir-configs directory found)" \/
    (exists p, e = Error ("Generator not found: " +:+ p)) \/
    (exists f, e = Error ("Generator did not create expected file: " +:+ f)) \/
    (exists p, e = Error ("Content file not found: " +:+ p)).
Proof.
  intros Hk.
  assert (Hroot : forall w tr e, getSkillRoot w = (tr, Throw e) ->
            e = Error "Could not find project root (no .fhir-configs directory found)").
  { intros w tr e. unfold getSkillRoot, getProjectRoot.
    induction (w_cwd w) as [|c dir IH] in tr |- *.
    - intros H. now inversion H.
    - cbn [getProjectRoot_from]. unfold bindM at 2. unfold emit at 1.
      destruct (w_hasConfigs w (c :: dir)); [discriminate |].
      intros H. unfold bindM in H, IH.
      destruct (getProjectRoot_from w dir) as [t' [r|e']]; [discriminate |].
      inversion H; subst. now apply (IH t'). }
  assert (Hfile : forall f w o tr e, getContentFile w f o = (tr, Throw e) ->
            e = Error "Could not find project root (no .fhir-configs directory found)" \/
            exists p, e = Error ("Content file not found: " +:+ p)).
  { intros f w o tr e. unfold getContentFile. intros H.
    destruct (getSkillRoot w) as [t [sr|e']] eqn:Es.
    - right. unfold bindM, emit, throw, ret in H.
      destruct (w_samples w f); inversion H. now eexists.
    - left. inversion H; subst. eapply Hroot; eauto. }
  assert (Hgen : forall g w o tr e, is_Some (assoc g outputMap) ->
            generateContent w g o = (tr, Throw e) ->
            e = Error "Could not find project root (no .fhir-configs directory found)" \/
            (exists p, e = Error ("Generator not found: " +:+ p)) \/
            (exists f, e = Error ("Generator did not create expected file: " +:+ f))).
  { intros g w o tr e [fn Hfn] H. unfold generateContent in H.
    destruct (getSkillRoot w) as [t [sr|e']] eqn:Es.
    - right. rewrite Hfn in H.
      unfold bindM, emit, throw, ret, finally, importScript in H.
      destruct (w_generate w g) as [files|].
      + destruct (sampleAfter w files fn); inversion H. right. now eexists.
      + inversion H. left. now eexists.
    - left. inversion H; subst. eapply Hroot; eauto. }
  unfold lookupMapping in Hk.
  destruct (assoc k TEMPLATE_MAPPINGS) as [m'|] eqn:E;
    [| destruct (existsb _ _); discriminate].
  inversion Hk; subst m'. clear Hk.
  unfold TEMPLATE_MAPPINGS in E. cbn [assoc] in E.
  repeat match type of E with
         | (if String.eqb ?a k then _ else _) = _ =>
             destruct (String.eqb a k);
             [ inversion E; subst m; clear E;
               (split;
                [first [ split; [intros _; now eexists | intros [? H]; now inversion H]
                       | split; [discriminate | intros [? H]; discriminate H] ] |]);
               (split; [intros g Hg; inversion Hg; subst; now eexists
                       | intros w o tr e H; unfold getContent in H; cbn in H |- ])
             | ]
         end; try discriminate.
  all: try (apply Hfile in H; tauto).
  all: try (apply Hgen in H; [tauto | now eexists]).
Qed.

Lemma mappings_have_sources_witness :
  is_Some (assoc "generate-large-file.ts" outputMap).
Proof.
  destruct (mappings_have_sources "large"
              {| template := "large-note.json";
                 contentFile := None; contentGenerator := Some "generate-large-file.ts";
                 contentType := "text/plain; charset=utf-8";
                 noteType := "Summary of episode note" |} eq_refl) as (_ & H & _).
  now apply H.
Defined.

(** *** How [main] ends *)

Lemma cliOptions_contained (values : CliValues) (c : json) :
  encounterContained (cliOptions values) = Some c -> wf c = true.
Proof.
  unfold cliOptions. simpl.
  destruct (v_encounterContained values); intros H; inversion H; reflexivity.
Qed.


(** X22.  Names that every object inherits pass the type check.  For a type
    that is the name of a member of [Object.prototype] ([toString],
    [constructor], [__proto__] and the like), neither entry point reports an
    unknown type: where a project root is found, the library call throws
    "No content source specified in mapping", and [main] reports the same
    message and exits with code 1. *)
Theorem inherited_type_passes (w : World) (k : string) (tr : list event)
  (root : list string) :
  k ∈ objectPrototypeKeys ->
  getProjectRoot w = (tr, Ok root) ->
  (forall o, type o = k ->
     localizeDocumentReference w o
     = (tr ++ tr, Throw (Error "No content source specified in mapping"))) /\
  (forall values,
     v_help values = false -> v_type values = Some k ->
     JS.given (v_patientId values) && JS.given (v_server values) = true ->
     main w values
     = (tr ++ tr ++
        [EConsoleError (JSON.nl +:+ "Error: No content source specified in mapping")],
        Exited 1)).
Proof.
  intros Hk Hr.
  assert (Hl : lookupMapping k = Inherited).
  { unfold objectPrototypeKeys in Hk.
    repeat (apply elem_of_cons in Hk as [-> | Hk]; [reflexivity |]).
    now apply elem_of_nil in Hk. }
  assert (Hne : k <> "").
  { intros ->. discriminate Hl. }
  assert (Hs : getSkillRoot w = (tr, Ok (skillDir ++ root))).
  { unfold getSkillRoot, bindM, ret. rewrite Hr. now rewrite app_nil_r. }
  split.
  - intros o Ho. unfold localizeDocumentReference. rewrite Ho, Hl, Hr, Hs.
    unfold bindM, ret, getContent, throw. simpl. now rewrite !app_nil_r.
  - intros values Hh Ht Hreq. unfold main. rewrite Hh.
    assert (Hg : JS.given (v_type values) = true).
    { rewrite Ht. simpl. apply String.eqb_neq in Hne. now rewrite Hne. }
    rewrite Hg. simpl andb. rewrite Hreq. cbn [negb].
    assert (Hty : type (cliOptions values) = k).
    { unfold cliOptions. simpl. rewrite Ht. simpl.
      apply String.eqb_neq in Hne. now rewrite Hne. }
    rewrite Hty, Hl. unfold mainBody. rewrite Hr, Hs.
    unfold bindM, ret, getContent, throw. simpl. now rewrite !app_nil_r, <- app_assoc.
Qed.

Lemma inherited_type_passes_witness :
  localizeDocumentReference (localizeWorld noteTemplate) (optionsFor "constructor")
  = ([EExists "/home/proj/notes/.fhir-configs"; EExists "/home/proj/.fhir-configs"]
     ++ [EExists "/home/proj/notes/.fhir-configs"; EExists "/home/proj/.fhir-configs"],
     Throw (Error "No content source specified in mapping")).
Proof.
  eapply (proj1 (inherited_type_passes (localizeWorld noteTemplate) "constructor" _
                   ["proj"; "home"] _ eq_refl)).
  reflexivity.
  Unshelve. left.
Defined.

End EntryFacts.

(** ** The localizer: the content text *)

Module ContentFacts.

Import Str StrFacts Text JSON Template TemplateFacts InertFacts Localize Examples Content
  Fill FillFacts.

#[local] Arguments Ascii.eqb : simpl never.
#[local] Arguments token : simpl never.

(** *** What the pieces of a text are made of *)

Section Pieces.

Variable P : ascii -> bool.

Lemma all_snoc (s : string) (c : ascii) : all P (snoc s c) = all P s && P c.
Proof. unfold snoc. rewrite all_app. simpl. now rewrite andb_true_r. Qed.

Lemma all_drop (n : nat) (s : string) : all P s = true -> all P (drop n s) = true.
Proof.
  revert s. induction n as [|n IH]; intros s H; [exact H |].
  destruct s as [|c s]; [reflexivity |]. simpl in *.
  apply andb_true_iff in H as [_ H]. now apply IH.
Qed.

Lemma all_skip_ws (fuel : nat) (s : string) :
  all P s = true -> all P (skip_ws fuel s) = true.
Proof.
  revert s. induction fuel as [|fuel IH]; intros s H; [exact H |].
  cbn [skip_ws]. destruct (ws_len s); [exact H |]. apply IH. now apply all_drop.
Qed.

Lemma all_take (n : nat) (s : string) : all P s = true -> all P (take n s) = true.
Proof.
  revert s. induction n as [|n IH]; intros s H; [now destruct s |].
  destruct s as [|c s]; [reflexivity |]. simpl in *.
  apply andb_true_iff in H as [Hc H]. now rewrite Hc, IH.
Qed.

Lemma all_dropDashColon (s : string) : all P s = true -> all P (dropDashColon s) = true.
Proof.
  induction s as [|c s IH]; intros H; [reflexivity |]. simpl in *.
  apply andb_true_iff in H as [Hc H].
  destruct (Ascii.eqb c "-" || Ascii.eqb c ":"); [now apply IH |].
  simpl. now rewrite Hc, IH.
Qed.

Lemma all_split_go (sep : ascii) (cur s : string) :
  all P cur = true -> all P s = true ->
  Forall (fun t => all P t = true) (split_go sep cur s).
Proof.
  revert cur. induction s as [|c s IH]; intros cur Hc Hs; simpl.
  - now repeat constructor.
  - simpl in Hs. apply andb_true_iff in Hs as [Hch Hs].
    destruct (Ascii.eqb c sep).
    + constructor; [assumption |]. now apply IH.
    + apply IH; [| assumption]. now rewrite all_snoc, Hc, Hch.
Qed.

Lemma all_split (sep : ascii) (s : string) :
  all P s = true -> Forall (fun t => all P t = true) (split sep s).
Proof. apply all_split_go. reflexivity. Qed.

Lemma all_first (l : list string) :
  Forall (fun t => all P t = true) l -> all P (first l) = true.
Proof. intros H. destruct l; [reflexivity | now inversion H]. Qed.

Lemma all_last (l : list string) :
  Forall (fun t => all P t = true) l -> all P (List.last l "") = true.
Proof.
  induction 1 as [|x l Hx Hl IH]; [reflexivity |].
  destruct l; [exact Hx | exact IH].
Qed.

Lemma all_stripDr (s : string) : all P s = true -> all P (stripDr s) = true.
Proof.
  intros H. unfold stripDr, trimStart.
  destruct (prefixb "Dr." s); [| exact H]. now apply all_skip_ws, all_drop.
Qed.

Lemma all_orElse (s d : string) :
  all P s = true -> all P d = true -> all P (orElse s d) = true.
Proof. intros Hs Hd. unfold orElse. now destruct (String.eqb s ""). Qed.

Lemma all_patientNames (s : string) :
  all P s = true -> all P "Test" = true -> all P "Patient" = true ->
  all P (patientNames s).1 = true /\ all P (patientNames s).2 = true.
Proof.
  intros H Ht Hp. unfold patientNames.
  pose proof (all_split " " s H) as Hs.
  destruct (split " " s) as [|g [|f l]]; [now split | |].
  - inversion Hs; subst. now split.
  - inversion Hs as [|? ? Hg Hl]; subst. inversion Hl; subst. now split.
Qed.

End Pieces.

(** *** The replacements as one substitution *)

Lemma replaceContentPlaceholders_env (now : Date) (content : string)
  (o : LocalizationOptions) :
  replaceContentPlaceholders now content o = replaceEach (contentEnv now o) content.
Proof.
  unfold replaceContentPlaceholders, contentEnv, replaceEach.
  destruct (patientNames (JS.or_default (patientName o) "Test Patient")) as [g f].
  reflexivity.
Qed.

Lemma contentEnv_ok (now : Date) (o : LocalizationOptions) :
  cleanOptions now o = true -> env_ok (contentEnv now o) = true.
Proof.
  unfold cleanOptions. intros H.
  apply andb_true_iff in H as [H Htime]. apply andb_true_iff in H as [H Hiso].
  apply andb_true_iff in H as [H Had]. apply andb_true_iff in H as [Hpn Hid].
  unfold clean in *.
  set (pn := JS.or_default (patientName o) "Test Patient") in *.
  set (ad := JS.or_default (authorDisplay o) "Dr. Example Provider") in *.
  destruct (all_patientNames clean_char pn) as [Hg Hf];
    [assumption | reflexivity | reflexivity |].
  assert (Ha : Forall (fun t => all clean_char t = true) (authorParts ad))
    by (unfold authorParts; now apply all_split, all_stripDr).
  assert (Hsuf : all clean_char (authorSuffix ad) = true)
    by (unfold authorSuffix; now destruct (includes "MD" ad)).
  unfold env_ok, contentEnv. fold pn ad. cbn [forallb fst snd]. unfold clean.
  rewrite Hpn, Hid, Hg, Hf, Had, Hiso, Hsuf.
  unfold authorGiven, authorFamily.
  rewrite (all_orElse clean_char _ "Example") by (try reflexivity; now apply all_first).
  rewrite (all_orElse clean_char _ "Provider") by (try reflexivity; now apply all_last).
  rewrite (all_orElse clean_char _ "MD") by (try reflexivity; assumption).
  unfold currentDate, currentTime, currentTimestampCDA.
  rewrite (all_first clean_char) by now apply all_split.
  rewrite (all_take clean_char) by now apply all_first, all_split.
  rewrite all_app, (all_first clean_char) by now apply all_split, all_dropDashColon.
  reflexivity.
Qed.

(** X13.  The replacements of [replaceContentPlaceholders] amount to one
    simultaneous substitution.  On a content text in which [{{] only ever
    begins a placeholder, and for a patient name, patient id, author display
    and clock readings without [$] and [{], the result is the text with
    every placeholder of the fourteen the function knows replaced by its
    value, and with every other placeholder and every other character left
    as it was; no value is scanned again for placeholders. *)
Theorem content_placeholders (now : Date) (o : LocalizationOptions) (l : list atom) :
  cleanOptions now o = true ->
  atoms_ok l = true ->
  replaceContentPlaceholders now (render l) o = render (psubst (contentEnv now o) l).
Proof.
  intros Ho Hl. rewrite replaceContentPlaceholders_env.
  apply replaceEach_render; [now apply contentEnv_ok | assumption].
Qed.

Lemma content_placeholders_witness :
  replaceContentPlaceholders noon noteContent (optionsFor "consultation")
  = "Consultation for Test Patient by Dr. Example Provider on 2025-01-15.".
Proof.
  exact (content_placeholders noon (optionsFor "consultation")
           (chars "Consultation for " ++ [Hole "PATIENT_NAME"] ++ chars " by "
            ++ [Hole "AUTHOR_NAME"] ++ chars " on " ++ [Hole "CURRENT_DATE"]
            ++ chars ".") eq_refl eq_refl).
Defined.

(** *** Texts without placeholders *)

Lemma prefixb_token (n s : string) :
  prefixb (token n) s = true -> prefixb "{{" s = true.
Proof.
  rewrite token_cons. destruct s as [|a [|b s]]; simpl; try discriminate.
  - now rewrite andb_false_r.
  - intros H. apply andb_true_iff in H as [-> H].
    apply andb_true_iff in H as [-> _]. reflexivity.
Qed.

Lemma replace_go_absent (n v s before : string) :
  includes "{{" s = false -> replace_go (token n) v before 0 s = s.
Proof.
  revert before. induction s as [|c s IH]; intros before H; [reflexivity |].
  rewrite includes_unfold in H. apply orb_false_iff in H as [Hp Hi].
  cbn [replace_go].
  destruct (prefixb (token n) (String c s)) eqn:E.
  - apply prefixb_token in E. congruence.
  - f_equal. now apply IH.
Qed.

Lemma replaceEach_absent (e : env) (s : string) :
  includes "{{" s = false -> replaceEach e s = s.
Proof.
  intros H. unfold replaceEach. induction e as [|[n v] e IH]; [reflexivity |].
  simpl. unfold replaceAll. now rewrite replace_go_absent.
Qed.

(** X14.  A text in which [{{] does not occur passes through the
    replacements unchanged, whatever the options and the clock: the content
    through [replaceContentPlaceholders], byte for byte, and a template
    through the substitutions of [localizeTemplate]. *)
Theorem text_without_placeholders (s : string) :
  includes "{{" s = false ->
  (forall now o, replaceContentPlaceholders now s o = s) /\
  (forall w o base64Content contentSize contentType,
     substituteTemplate w s o base64Content contentSize contentType = s).
Proof.
  intros H. split.
  - intros now o. rewrite replaceContentPlaceholders_env. now apply replaceEach_absent.
  - intros. rewrite substituteTemplate_env. now apply replaceEach_absent.
Qed.

Lemma text_without_placeholders_witness :
  replaceContentPlaceholders noon "%PDF-1.4 << /Length 800 >> $& {x}" (optionsFor "pdf")
  = "%PDF-1.4 << /Length 800 >> $& {x}".
Proof.
  now apply (text_without_placeholders "%PDF-1.4 << /Length 800 >> $& {x}").
Defined.

(** *** The clock *)

Definition not_char (sep : ascii) (c : ascii) : bool := negb (Ascii.eqb c sep).

Lemma digit_not (sep : ascii) (s : string) :
  is_digit sep = false -> all is_digit s = true -> all (not_char sep) s = true.
Proof.
  intros Hs. apply all_impl. intros c Hc. unfold not_char.
  destruct (Ascii.eqb_spec c sep); [congruence | reflexivity].
Qed.

Lemma dropDashColon_digits (s : string) :
  all is_digit s = true -> dropDashColon s = s.
Proof.
  induction s as [|c s IH]; intros H; [reflexivity |]. simpl in *.
  apply andb_true_iff in H as [Hc H]. rewrite (IH H).
  destruct (Ascii.eqb_spec c "-"); [subst; discriminate |].
  destruct (Ascii.eqb_spec c ":"); [subst; discriminate |]. reflexivity.
Qed.

Lemma dropDashColon_app (a b : string) :
  dropDashColon (a +:+ b) = dropDashColon a +:+ dropDashColon b.
Proof.
  induction a as [|c a IH]; [reflexivity |]. simpl.
  destruct (Ascii.eqb c "-" || Ascii.eqb c ":"); simpl; now rewrite IH.
Qed.

Lemma split_first (sep : ascii) (a b : string) :
  all (not_char sep) a = true ->
  first (split sep (a +:+ String sep b)) = a.
Proof.
  intros H. unfold split. rewrite split_go_piece by exact H.
  now rewrite split_go_sep.
Qed.

(** X15.  The date stamps of [replaceContentPlaceholders].  For a clock
    whose ISO rendering is [Y-M-DTh:m:s.fZ], with digits in each field:
    [CURRENT_DATE] is [Y-M-D]; [CURRENT_TIMESTAMP_CDA] is the digits
    [YMD], a [T], the digits [hms] and the fixed offset [-0500], fraction and
    [Z] dropped, so that the UTC reading is labelled with that offset.  For a
    local time rendering [hh:mm:ss], a space and the zone, [CURRENT_TIME] is
    [hh:mm]. *)
Theorem date_stamps (now : Date) (Y M D h m s f hh mm rest zone : string) :
  Forall (fun t => all is_digit t = true) [Y; M; D; h; m; s] ->
  toISOString now
  = Y +:+ "-" +:+ M +:+ "-" +:+ D +:+ "T" +:+ h +:+ ":" +:+ m +:+ ":" +:+ s
    +:+ "." +:+ f +:+ "Z" ->
  toTimeString now = hh +:+ ":" +:+ mm +:+ rest +:+ " " +:+ zone ->
  String.length hh = 2 -> String.length mm = 2 ->
  all (not_char " ") (hh +:+ ":" +:+ mm +:+ rest) = true ->
  currentDate now = Y +:+ "-" +:+ M +:+ "-" +:+ D /\
  currentTimestampCDA now = Y +:+ M +:+ D +:+ "T" +:+ h +:+ m +:+ s +:+ "-0500" /\
  currentTime now = hh +:+ ":" +:+ mm.
Proof.
  intros Hd Hiso Htime Hhh Hmm Hsp.
  repeat match goal with
         | H : Forall _ (_ :: _) |- _ => apply Forall_cons in H as [? H]
         end.
  unfold currentDate, currentTimestampCDA, currentTime. rewrite Hiso, Htime.
  repeat split.
  - replace (Y +:+ "-" +:+ M +:+ "-" +:+ D +:+ "T" +:+ h +:+ ":" +:+ m +:+ ":" +:+ s
             +:+ "." +:+ f +:+ "Z")
      with ((Y +:+ "-" +:+ M +:+ "-" +:+ D) +:+
            String "T" (h +:+ ":" +:+ m +:+ ":" +:+ s +:+ "." +:+ f +:+ "Z"))
      by (now rewrite !append_assoc).
    apply split_first.
    rewrite !all_app.
    rewrite (digit_not "T" Y), (digit_not "T" M), (digit_not "T" D)
      by (reflexivity || assumption).
    reflexivity.
  - rewrite !dropDashColon_app.
    rewrite !(dropDashColon_digits Y), !(dropDashColon_digits M),
      !(dropDashColon_digits D), !(dropDashColon_digits h),
      !(dropDashColon_digits m), !(dropDashColon_digits s) by assumption.
    change (dropDashColon "-") with "". change (dropDashColon ":") with "".
    change (dropDashColon "T") with "T". change (dropDashColon ".") with ".".
    repeat change ("" +:+ ?x) with x.
    replace (Y +:+ M +:+ D +:+ "T" +:+ h +:+ m +:+ s +:+ "." +:+ dropDashColon f
             +:+ dropDashColon "Z")
      with ((Y +:+ M +:+ D +:+ "T" +:+ h +:+ m +:+ s) +:+
            String "." (dropDashColon f +:+ dropDashColon "Z"))
      by (now rewrite !append_assoc).
    rewrite split_first; [now rewrite !append_assoc |].
    rewrite !all_app.
    rewrite (digit_not "." Y), (digit_not "." M), (digit_not "." D),
      (digit_not "." h), (digit_not "." m), (digit_not "." s)
      by (reflexivity || assumption).
    reflexivity.
  - replace (hh +:+ ":" +:+ mm +:+ rest +:+ " " +:+ zone)
      with ((hh +:+ ":" +:+ mm +:+ rest) +:+ String " " zone)
      by (now rewrite !append_assoc).
    rewrite split_first by exact Hsp.
    destruct hh as [|a [|b [|]]]; try discriminate.
    destruct mm as [|c [|d [|]]]; try discriminate. reflexivity.
Qed.

Lemma date_stamps_witness :
  currentDate noon = "2025-01-15" /\
  currentTimestampCDA noon = "20250115T143000-0500" /\
  currentTime noon = "14:30".
Proof.
  apply (date_stamps noon "2025" "01" "15" "14" "30" "00" "000" "14" "30" ":00"
           "GMT+0000 (Coordinated Universal Time)");
    try reflexivity.
  repeat constructor.
Defined.

(** *** Substituting twice *)

Lemma psubst_idem (e : env) (l : list atom) : psubst e (psubst e l) = psubst e l.
Proof.
  induction l as [|[c|m] l IH]; [reflexivity | |].
  - change (psubst e (Ch c :: l)) with (Ch c :: psubst e l).
    change (psubst e (Ch c :: psubst e l)) with (Ch c :: psubst e (psubst e l)).
    now rewrite IH.
  - change (psubst e (Hole m :: l)) with (psubst1 e (Hole m) ++ psubst e l).
    rewrite psubst_app, IH. f_equal. unfold psubst1.
    destruct (Template.assoc m e) as [v|] eqn:E.
    + apply psubst_chars.
    + change (psubst e [Hole m]) with (psubst1 e (Hole m) ++ []).
      unfold psubst1. rewrite E. reflexivity.
Qed.

Lemma atoms_ok_psubst (e : env) (l : list atom) :
  env_ok e = true -> atoms_ok l = true -> atoms_ok (psubst e l) = true.
Proof.
  revert l. induction e as [|[n v] e IH]; intros l He Hl.
  - clear He. induction l as [|[c|m] l IHl]; [reflexivity | |].
    + change (psubst [] (Ch c :: l)) with (Ch c :: psubst [] l).
      assert (E : psubst [] l = l).
      { clear. induction l as [|[c|m] l IH]; [reflexivity | |].
        - change (psubst [] (Ch c :: l)) with (Ch c :: psubst [] l). now rewrite IH.
        - change (psubst [] (Hole m :: l)) with (Hole m :: psubst [] l). now rewrite IH. }
      now rewrite E.
    + change (psubst [] (Hole m :: l)) with (Hole m :: psubst [] l).
      simpl in *. apply andb_true_iff in Hl as [Hm Hl]. now rewrite Hm, IHl.
  - simpl in He. apply andb_true_iff in He as [Hnv He].
    apply andb_true_iff in Hnv as [Hn Hv]. simpl in Hn, Hv.
    rewrite <- psubst_cons. apply IH; [assumption |].
    now apply atoms_ok_subst.
Qed.

Lemma env_ok_values (e : env) :
  forallb name_ok (map fst e) = true ->
  Forall (fun nv => clean (snd nv) = true) e ->
  env_ok e = true.
Proof.
  unfold env_ok. induction e as [|[n v] e IH]; [reflexivity |].
  cbn [map fst snd forallb]. intros Hn Hv.
  apply andb_true_iff in Hn as [Hn Hns]. apply Forall_cons in Hv as [Hv Hvs].
  cbn [snd] in Hv. now rewrite Hn, Hv, IH.
Qed.

(** X23.  The replacements are idempotent.  On a text in which [{{] only
    begins placeholders, and when no value that is substituted holds [$] or
    [{], running [replaceContentPlaceholders] on its own result changes
    nothing more, and neither does running the substitutions of
    [localizeTemplate] on their own result: no value is taken for a
    placeholder and no known placeholder is left behind. *)
Theorem substitution_idempotent (l : list atom) :
  atoms_ok l = true ->
  (forall now o,
     cleanOptions now o = true ->
     replaceContentPlaceholders now (replaceContentPlaceholders now (render l) o) o
     = replaceContentPlaceholders now (render l) o) /\
  (forall w o b n ct,
     Forall (fun nv => clean (snd nv) = true) (templateEnv w o b n ct) ->
     substituteTemplate w (substituteTemplate w (render l) o b n ct) o b n ct
     = substituteTemplate w (render l) o b n ct).
Proof.
  intros Hl. split.
  - intros now o Ho. pose proof (contentEnv_ok now o Ho) as He.
    rewrite !replaceContentPlaceholders_env.
    rewrite (replaceEach_render _ l He Hl).
    rewrite replaceEach_render by (assumption || now apply atoms_ok_psubst).
    now rewrite psubst_idem.
  - intros w o b n ct Hv.
    assert (He : env_ok (templateEnv w o b n ct) = true)
      by (apply env_ok_values; [reflexivity | exact Hv]).
    rewrite !substituteTemplate_env.
    rewrite (replaceEach_render _ l He Hl).
    rewrite replaceEach_render by (assumption || now apply atoms_ok_psubst).
    now rewrite psubst_idem.
Qed.

Lemma substitution_idempotent_witness :
  replaceContentPlaceholders noon
    (replaceContentPlaceholders noon noteContent (optionsFor "consultation"))
    (optionsFor "consultation")
  = replaceContentPlaceholders noon noteContent (optionsFor "consultation") /\
  substituteTemplate (localizeWorld noteTemplate)
    (substituteTemplate (localizeWorld noteTemplate) noteContent
       (optionsFor "consultation") "QUJD" 3 "text/plain")
    (optionsFor "consultation") "QUJD" 3 "text/plain"
  = substituteTemplate (localizeWorld noteTemplate) noteContent
      (optionsFor "consultation") "QUJD" 3 "text/plain".
Proof.
  refine (let H := substitution_idempotent
                  (chars "Consultation for " ++ [Hole "PATIENT_NAME"] ++ chars " by "
                   ++ [Hole "AUTHOR_NAME"] ++ chars " on " ++ [Hole "CURRENT_DATE"]
                   ++ chars ".") eq_refl in
          conj (proj1 H noon (optionsFor "consultation") eq_refl)
               (proj2 H (localizeWorld noteTemplate) (optionsFor "consultation")
                  "QUJD" 3 "text/plain" _)).
  repeat constructor.
Defined.

End ContentFacts.

(** ** The localizer: the document as a whole *)

Module DocumentFacts.

Import Str StrFacts Text JSON Template TemplateFacts ObjFacts Localize Examples
  LocalizeFacts ParseFacts WfFacts Fill FillFacts.

(** *** The whole document *)



(** *** The contained encounter as text *)

Lemma substituteTemplate_contained (w : World) (text : string) (o : LocalizationOptions)
  (c : json) (b : string) (n : nat) (ct : string) :
  substituteTemplate w text (withContained c o) b n ct = substituteTemplate w text o b n ct.
Proof. reflexivity. Qed.

(** X17.  The contained encounter may be handed over as an object or as
    its JSON text: for a text that parses to a truthy value other than a
    string, [localizeTemplate] gives the same result, document or error, for
    the text and for the value. *)
Theorem contained_text_or_object (w : World) (text : string) (o : LocalizationOptions)
  (b : string) (n : nat) (ct : string) (s : string) (c : json) :
  JSON.parse s = Some c ->
  JS.truthy_json c = true ->
  (forall t, c <> JStr t) ->
  localizeTemplate w text (withContained (JStr s) o) b n ct
  = localizeTemplate w text (withContained c o) b n ct.
Proof.
  intros Hp Ht Hs. unfold localizeTemplate, localizeObject.
  rewrite !substituteTemplate_contained.
  destruct (parse_or_throw _) as [parsed|e]; [| reflexivity]. cbn [bind].
  change (dropEmptyEncounter (withContained (JStr s) o) parsed)
    with (dropEmptyEncounter o parsed).
  change (dropEmptyEncounter (withContained c o) parsed)
    with (dropEmptyEncounter o parsed).
  destruct (dropEmptyEncounter o parsed) as [parsed1|e]; [| reflexivity]. cbn [bind].
  f_equal. unfold addContained. cbn [encounterContained withContained].
  rewrite Ht.
  assert (Hne : JS.truthy_json (JStr s) = true).
  { simpl. destruct s; [discriminate Hp | reflexivity]. }
  rewrite Hne. unfold containedEncounter at 1. rewrite Hp.
  assert (Hc : containedEncounter w c = Ok c).
  { destruct c; try reflexivity. now destruct (Hs s0). }
  now rewrite Hc.
Qed.

Lemma contained_text_or_object_witness :
  localizeTemplate (localizeWorld "{}") "{}"
    (withContained (JStr (q "{'resourceType':'Encounter','id':'e1'}"))
       (optionsFor "consultation")) "" 0 "text/plain"
  = localizeTemplate (localizeWorld "{}") "{}"
      (withContained encounterE1 (optionsFor "consultation")) "" 0 "text/plain".
Proof.
  apply contained_text_or_object.
  - vm_compute. reflexivity.
  - reflexivity.
  - intros t H. discriminate H.
Defined.

End DocumentFacts.

(** ** The generator of the large note *)

Module GeneratorFacts.

Import Str StrFacts Text JSON Template TemplateFacts InertFacts Localize Examples
  Content Generators ContentFacts.

#[local] Arguments Ascii.eqb : simpl never.

Lemma length_append (a b : string) :
  String.length (a +:+ b) = String.length a + String.length b.
Proof. induction a as [|c a IH]; simpl; [reflexivity | now rewrite IH]. Qed.

Lemma byteLength_app (a b : string) :
  byteLength (a +:+ b) = (byteLength a + byteLength b)%Z.
Proof. unfold byteLength. rewrite length_append. lia. Qed.

(** Each round adds at least a paragraph. *)
Lemma addParagraphs_length (todo i : nat) (content : string) :
  (byteLength content + Z.of_nat todo * byteLength sampleParagraph
   <= byteLength (addParagraphs todo i content))%Z.
Proof.
  revert i content. induction todo as [|todo IH]; intros i content.
  - simpl. lia.
  - cbn [addParagraphs]. etransitivity; [| apply IH].
    rewrite !byteLength_app.
    assert (0 <= byteLength sampleParagraph)%Z by (unfold byteLength; lia).
    assert (0 <= byteLength JSON.nl)%Z by (unfold byteLength; lia).
    assert (0 <= byteLength "Paragraph ")%Z by (unfold byteLength; lia).
    assert (0 <= byteLength (JS.of_nat (i + 1)))%Z by (unfold byteLength; lia).
    assert (0 <= byteLength ":")%Z by (unfold byteLength; lia).
    lia.
Qed.

Lemma ceilDiv_covers (a b : Z) : (0 < b)%Z -> (a <= ceilDiv a b * b)%Z.
Proof.
  intros Hb. unfold ceilDiv.
  pose proof (Z.mul_div_le (- a) b Hb). nia.
Qed.

Lemma body_length (iso : string) : (TARGET_SIZE <= byteLength (Generators.body iso))%Z.
Proof.
  unfold Generators.body.
  pose proof (addParagraphs_length
                (Z.to_nat (paragraphsNeeded (heading iso))) 0 (heading iso)) as H.
  assert (Hp : (0 < byteLength sampleParagraph)%Z) by reflexivity.
  pose proof (ceilDiv_covers (TARGET_SIZE - byteLength (heading iso)) _ Hp) as Hc.
  fold (paragraphsNeeded (heading iso)) in Hc.
  destruct (Z.le_gt_cases 0 (paragraphsNeeded (heading iso))) as [Hn | Hn].
  - rewrite Z2Nat.id in H by assumption. lia.
  - replace (Z.to_nat (paragraphsNeeded (heading iso))) with 0 in * by lia.
    assert (paragraphsNeeded (heading iso) * byteLength sampleParagraph <= 0)%Z by nia.
    cbn [addParagraphs] in *. lia.
Qed.

Lemma large_size (iso : string) :
  (TARGET_SIZE <= byteLength (generateLargeFile iso).2)%Z /\
  (byteLength (Generators.body iso) < byteLength (generateLargeFile iso).2)%Z.
Proof.
  pose proof (body_length iso) as Hb.
  unfold generateLargeFile, closing. cbn [snd]. rewrite !byteLength_app.
  assert (0 <= byteLength (JS.of_Z (byteLength (Generators.body iso))))%Z
    by (unfold byteLength; lia).
  change (byteLength JSON.nl) with 1%Z.
  change (byteLength "END OF DOCUMENT") with 15%Z.
  change (byteLength "Final size: ") with 12%Z.
  change (byteLength " bytes") with 6%Z. lia.
Qed.

(** X18.  The large note.  The file [generateLargeFile] writes is
    [large-note.txt], and whatever the date it is at least 5 MiB long: the
    text before the closing lines alone reaches 5 MiB.  The size that the
    closing line states is the length of the text before the closing lines,
    so it is smaller than the size of the file. *)
Theorem large_file_size (iso : string) :
  (generateLargeFile iso).1 = "large-note.txt" /\
  exists text,
    (generateLargeFile iso).2
    = text +:+ JSON.nl +:+ JSON.nl +:+ "END OF DOCUMENT" +:+ JSON.nl +:+ "Final size: "
      +:+ JS.of_Z (byteLength text) +:+ " bytes" /\
    (5 * 1024 * 1024 <= byteLength text)%Z /\
    (byteLength text < byteLength (generateLargeFile iso).2)%Z.
Proof.
  split; [reflexivity |]. exists (Generators.body iso).
  split; [reflexivity |]. split; [apply body_length |]. apply large_size.
Qed.

Lemma no_open_absent (s : string) : no_open s = true -> includes "{{" s = false.
Proof.
  unfold no_open. induction s as [|c s IH]; intros H; [reflexivity |].
  simpl in H. apply andb_true_iff in H as [Hc Hs].
  rewrite includes_unfold, (IH Hs), orb_false_r.
  simpl. destruct (Ascii.eqb_spec "{" c) as [<- | _]; [discriminate Hc | reflexivity].
Qed.

Lemma no_open_app (a b : string) : no_open (a +:+ b) = no_open a && no_open b.
Proof. apply all_app. Qed.

Lemma no_open_of_nat (n : nat) : no_open (JS.of_nat n) = true.
Proof. apply clean_no_open, inert_clean, of_nat_inert. Qed.

Lemma no_open_of_Z (z : Z) : no_open (JS.of_Z z) = true.
Proof. apply clean_no_open, inert_clean, of_Z_inert. Qed.

Lemma no_open_addParagraphs (todo i : nat) (content : string) :
  no_open content = true -> no_open (addParagraphs todo i content) = true.
Proof.
  revert i content. induction todo as [|todo IH]; intros i content H; [exact H |].
  cbn [addParagraphs]. apply IH.
  rewrite !no_open_app, H, no_open_of_nat. reflexivity.
Qed.

Lemma no_open_large (iso : string) :
  no_open iso = true -> no_open (generateLargeFile iso).2 = true.
Proof.
  intros H. unfold generateLargeFile, closing, Generators.body. cbn [snd].
  assert (Hh : no_open (heading iso) = true).
  { unfold heading. rewrite !no_open_app, H. reflexivity. }
  rewrite !no_open_app, no_open_of_Z, !no_open_addParagraphs by exact Hh.
  reflexivity.
Qed.

(** X19.  The large note as content.  When the generator script has left
    the file of [generateLargeFile] in [assets/sample-content], the content
    step for the type [large] returns that file as it is, no placeholder
    being found in it, so that the attachment of a large note is at least
    5 MiB long. *)
Theorem large_attachment (w : World) (o : LocalizationOptions) (iso : string)
  (written : list (string * string)) (t : list event) (root : list string) :
  getProjectRoot w = (t, Ok root) ->
  w_generate w "generate-large-file.ts" = Some written ->
  sampleAfter w written (generateLargeFile iso).1 = Some (generateLargeFile iso).2 ->
  no_open iso = true ->
  exists m tr cd,
    lookupMapping "large" = Own m /\
    getContent w m o = (tr, Ok cd) /\
    filename cd = "large-note.txt" /\
    content cd = (generateLargeFile iso).2 /\
    (5 * 1024 * 1024 <= byteLength (content cd))%Z.
Proof.
  intros Hr Hg Hf Hiso.
  eexists _, _, _. split; [reflexivity |].
  unfold getContent. cbn [contentGenerator].
  unfold generateContent, getSkillRoot. rewrite Hr, Hg.
  change (assoc "generate-large-file.ts" outputMap) with (Some "large-note.txt").
  change (generateLargeFile iso).1 with "large-note.txt" in Hf. cbv iota beta.
  rewrite Hf.
  unfold bindM, ret, emit, finally, importScript. cbn [fst snd].
  split; [reflexivity |]. cbn [filename content].
  split; [reflexivity |].
  rewrite replaceContentPlaceholders_env,
    replaceEach_absent by now apply no_open_absent, no_open_large.
  split; [reflexivity |].
  apply large_size.
Qed.

Lemma large_attachment_witness :
  exists cd,
    (getContent
       {| w_cwd := ["proj"]; w_hasConfigs := fun _ => true;
          w_templates := fun _ => None; w_samples := fun _ => None;
          w_generate := fun _ =>
            Some [("large-note.txt", (generateLargeFile "2025-01-15T14:30:00.000Z").2)];
          w_mkdir := fun _ => None; w_writeFile := fun _ => None;
          w_contentNow := noon; w_templateNow := noon; w_identifierNow := 0;
          w_syntaxMessage := fun _ => "" |}
       {| template := "large-note.json";
          contentFile := None; contentGenerator := Some "generate-large-file.ts";
          contentType := "text/plain; charset=utf-8";
          noteType := "Summary of episode note" |}
       (optionsFor "large")).2 = Ok cd /\
    (5 * 1024 * 1024 <= byteLength (content cd))%Z.
Proof.
  edestruct (large_attachment
               {| w_cwd := ["proj"]; w_hasConfigs := fun _ => true;
                  w_templates := fun _ => None; w_samples := fun _ => None;
                  w_generate := fun _ =>
                    Some [("large-note.txt",
                           (generateLargeFile "2025-01-15T14:30:00.000Z").2)];
                  w_mkdir := fun _ => None; w_writeFile := fun _ => None;
                  w_contentNow := noon; w_templateNow := noon; w_identifierNow := 0;
                  w_syntaxMessage := fun _ => "" |}
               (optionsFor "large") "2025-01-15T14:30:00.000Z")
    as (m & tr & cd & Hm & Hc & _ & _ & Hs);
    [reflexivity | reflexivity | reflexivity | reflexivity |].
  exists cd. inversion Hm; subst m. rewrite Hc. now split.
Defined.

End GeneratorFacts.

(** ** The two variants of the localizer *)

Module VariantFacts.

Import Str StrFacts Text JSON Template TemplateFacts InertFacts ObjFacts Localize
  Examples Fill FillFacts.

#[local] Arguments Ascii.eqb : simpl never.
#[local] Arguments token : simpl never.

Definition withEncounterDisplay (d : string) (o : LocalizationOptions)
  : LocalizationOptions :=
  {| type := type o; patientId := patientId o; patientName := patientName o;
     authorReference := authorReference o; authorDisplay := authorDisplay o;
     encounterReference := encounterReference o;
     encounterDisplay := Some d;
     encounterContained := encounterContained o;
     identifierSystem := identifierSystem o; server := server o;
     outputDir := outputDir o; writeToFile := writeToFile o |}.

Lemma substituteTemplateV1_env (w : World) (encounterNow : Z) (text : string)
  (o : LocalizationOptions) (b : string) (n : nat) (ct : string) :
  LocalizeV1.substituteTemplate w encounterNow text o b n ct
  = replaceEach (FillV1.templateEnv w encounterNow o b n ct) text.
Proof. reflexivity. Qed.

Lemma templateEnvV1_ok (w : World) (encounterNow : Z) (o : LocalizationOptions)
  (s : string) (n : nat) (ct : string) :
  inertOptions w o = true -> inert ct = true ->
  JS.given (encounterReference o) = true ->
  JS.given (encounterDisplay o) = true ->
  env_ok (FillV1.templateEnv w encounterNow o (Base64.encode s) n ct) = true.
Proof.
  unfold inertOptions. intros H Hct Hr Hd.
  repeat match type of H with
         | _ && _ = true => apply andb_true_iff in H as [H ?]
         end.
  assert (Hid : inert (type o +:+ "-" +:+ JS.of_Z (w_identifierNow w)) = true)
    by (rewrite !inert_app, of_Z_inert;
        replace (inert (type o)) with true by (symmetry; assumption);
        reflexivity).
  assert (Href : JS.or_default (encounterReference o) "#e1"
                 = JS.or_default (encounterReference o) "").
  { unfold JS.given, JS.or_default in *. destruct (encounterReference o) as [r|];
      [| discriminate]. now destruct (String.eqb r ""). }
  assert (Hdisp : JS.or_default (encounterDisplay o) "Office Visit"
                  = JS.or_default (encounterDisplay o) "Encounter").
  { unfold JS.given, JS.or_default in *. destruct (encounterDisplay o) as [r|];
      [| discriminate]. now destruct (String.eqb r ""). }
  pose proof (encode_inert s) as Hb. pose proof (of_nat_inert n) as Hn.
  pose proof (of_Z_inert encounterNow) as He.
  unfold env_ok, FillV1.templateEnv. cbn [forallb fst snd].
  rewrite Href, Hdisp.
  assert (Hsys : inert (JS.or_default (identifierSystem o) "https://example.com/fhir-test"
                        +:+ "/encounters") = true)
    by (rewrite inert_app; replace (inert (JS.or_default (identifierSystem o) _))
          with true by (symmetry; assumption); reflexivity).
  assert (Henc : inert ("enc-" +:+ JS.of_Z encounterNow) = true)
    by (rewrite inert_app, He; reflexivity).
  repeat match goal with
         | |- context [clean ?v] =>
             rewrite (inert_clean v) by (assumption || reflexivity)
         end.
  reflexivity.
Qed.

Lemma shared_assoc (w : World) (encounterNow : Z) (o : LocalizationOptions)
  (b : string) (n : nat) (ct : string) (name : string) :
  JS.given (encounterReference o) = true ->
  JS.given (encounterDisplay o) = true ->
  existsb (String.eqb name) FillV1.differing = false ->
  Template.assoc name (FillV1.templateEnv w encounterNow o b n ct)
  = Template.assoc name (templateEnv w o b n ct).
Proof.
  intros Hr Hd Hs.
  assert (Href : JS.or_default (encounterReference o) "#e1"
                 = JS.or_default (encounterReference o) "").
  { unfold JS.given, JS.or_default in *. destruct (encounterReference o) as [r|];
      [| discriminate]. now destruct (String.eqb r ""). }
  assert (Hdisp : JS.or_default (encounterDisplay o) "Office Visit"
                  = JS.or_default (encounterDisplay o) "Encounter").
  { unfold JS.given, JS.or_default in *. destruct (encounterDisplay o) as [r|];
      [| discriminate]. now destruct (String.eqb r ""). }
  unfold FillV1.templateEnv, templateEnv. rewrite Hr, Href, Hdisp.
  unfold FillV1.differing in Hs. cbn [existsb] in Hs.
  repeat match type of Hs with
         | _ || _ = false => apply orb_false_iff in Hs as [? Hs]
         end.
  cbn [Template.assoc].
  repeat match goal with
         | |- context [String.eqb ?a name] =>
             lazymatch a with
             | name => fail
             | _ => destruct (String.eqb_spec a name) as [<- | ?]; [try reflexivity |]
             end
         end; try reflexivity; try discriminate.
Qed.

Lemma psubst_shared (e1 e2 : env) (l : list atom) :
  (forall name, existsb (String.eqb name) FillV1.differing = false ->
                Template.assoc name e1 = Template.assoc name e2) ->
  forallb FillV1.shared_atom l = true -> psubst e1 l = psubst e2 l.
Proof.
  intros He. induction l as [|[c|name] l IH]; intros H; [reflexivity | |].
  - simpl in H. change (psubst ?e (Ch c :: l)) with (Ch c :: psubst e l).
    now rewrite IH.
  - cbn [forallb FillV1.shared_atom] in H. apply andb_true_iff in H as [Hn H].
    apply negb_true_iff in Hn.
    change (psubst ?e (Hole name :: l)) with (psubst1 e (Hole name) ++ psubst e l).
    rewrite (IH H). unfold psubst1. now rewrite (He name Hn).
Qed.

(** X21.  The two variants of the localizer agree where their placeholders
    do.  For a call with an encounter reference other than [#e1], an
    encounter display and no contained encounter, with inert values, on a
    template text in which [{{] only begins placeholders and none of them is
    one of the six that the variants always fill differently (the period and
    the data of the synthetic encounter), the earlier [localizeTemplate] and
    the current one give the same result. *)
Theorem localizer_variants_agree (w : World) (encounterNow : Z)
  (o : LocalizationOptions) (s : string) (n : nat) (ct : string) (l : list atom)
  (ref : string) :
  inertOptions w o = true -> inert ct = true ->
  encounterReference o = Some ref -> ref <> "" -> ref <> "#e1" ->
  JS.given (encounterDisplay o) = true ->
  encounterContained o = None ->
  atoms_ok l = true ->
  forallb FillV1.shared_atom l = true ->
  LocalizeV1.localizeTemplate w encounterNow (render l) o (Base64.encode s) n ct
  = localizeTemplate w (render l) o (Base64.encode s) n ct.
Proof.
  intros Ho Hct Href Hne He1 Hd Hc Hl Hs.
  assert (Hg : JS.given (encounterReference o) = true).
  { unfold JS.given. rewrite Href. apply String.eqb_neq in Hne. now rewrite Hne. }
  unfold LocalizeV1.localizeTemplate, LocalizeV1.localizeObject,
    localizeTemplate, localizeObject.
  rewrite substituteTemplateV1_env, substituteTemplate_env.
  rewrite !replaceEach_render;
    [| apply templateEnv_ok; assumption | assumption
     | now apply templateEnvV1_ok | assumption].
  rewrite (psubst_shared _ (templateEnv w o (Base64.encode s) n ct))
    by (assumption || (intros name Hn; now apply shared_assoc)).
  destruct (parse_or_throw _) as [parsed|e]; [| reflexivity]. cbn [bind].
  rewrite (dropEmptyEncounter_given _ _ Hg). cbn [bind].
  unfold addContained. rewrite Hc.
  unfold LocalizeV1.synthesizeContained, JS.or_default. rewrite Href.
  apply String.eqb_neq in Hne. rewrite Hne.
  apply String.eqb_neq in He1. now rewrite He1.
Qed.

Lemma localizer_variants_agree_witness :
  LocalizeV1.localizeTemplate (localizeWorld "") 7
    (render (chars (q "{'subject':'") ++ [Hole "PATIENT_ID"] ++ chars (q "'}")))
    (withEncounterDisplay "Office" (withEncounter "Encounter/enc-7" (optionsFor "consultation")))
    (Base64.encode "note") 4 "text/plain"
  = localizeTemplate (localizeWorld "")
      (render (chars (q "{'subject':'") ++ [Hole "PATIENT_ID"] ++ chars (q "'}")))
      (withEncounterDisplay "Office" (withEncounter "Encounter/enc-7" (optionsFor "consultation")))
      (Base64.encode "note") 4 "text/plain".
Proof.
  apply (localizer_variants_agree _ _ _ _ _ _ _ "Encounter/enc-7");
    try reflexivity; discriminate.
Defined.

End VariantFacts.

(** ** The project root of the two tools *)

Module RootFacts.

Import Str StrFacts Examples.

(** *** One project, two searches *)

(** The two worlds describe the same directories. *)
Definition same_tree (lw : Localize.World) (rw : Request.World) : Prop :=
  Localize.w_cwd lw = Request.w_cwd rw /\
  forall dir, Localize.w_hasConfigs lw dir
              = match Request.w_configs rw dir with Some _ => true | None => false end.

Lemma searches_from (lw : Localize.World) (rw : Request.World) (dir : list string) :
  (forall dir, Localize.w_hasConfigs lw dir
               = match Request.w_configs rw dir with Some _ => true | None => false end) ->
  match Request.findProjectRoot rw dir with
  | Ok [] => exists tr e, Localize.getProjectRoot_from lw dir = (tr, Throw e)
  | Ok root => exists tr, Localize.getProjectRoot_from lw dir = (tr, Ok root)
  | Throw _ => exists tr e, Localize.getProjectRoot_from lw dir = (tr, Throw e)
  end.
Proof.
  intros H. induction dir as [|c parent IH].
  - simpl. destruct (Request.w_configs rw []); now eexists _, _.
  - cbn [Request.findProjectRoot Localize.getProjectRoot_from].
    unfold Localize.bindM, Localize.emit. rewrite H.
    destruct (Request.w_configs rw (c :: parent)).
    + now eexists.
    + destruct (Request.findProjectRoot rw parent) as [[|r root]|e].
      * destruct IH as (tr & e & ->). now eexists _, _.
      * destruct IH as (tr & ->). now eexists.
      * destruct IH as (tr & e' & ->). now eexists _, _.
Qed.

(** X25.  The localizer and the executor look for the same project.  In
    the same directory tree and from the same working directory, whenever
    the search of [execute] ends in a directory other than the file-system
    root, [getProjectRoot] returns that directory, and whenever
    [getProjectRoot] returns a directory it is the one [execute] uses.  They
    part only when the nearest [.fhir-configs] is in the root itself, which
    [execute] accepts while [getProjectRoot] throws, and when there is none,
    where both throw. *)
Theorem searches_agree (lw : Localize.World) (rw : Request.World) :
  same_tree lw rw ->
  (forall tr root,
     Localize.getProjectRoot lw = (tr, Ok root) ->
     Request.findProjectRoot rw (Request.w_cwd rw) = Ok root) /\
  (forall root,
     Request.findProjectRoot rw (Request.w_cwd rw) = Ok root -> root <> [] ->
     exists tr, Localize.getProjectRoot lw = (tr, Ok root)) /\
  (Request.findProjectRoot rw (Request.w_cwd rw) = Ok [] ->
   exists tr e, Localize.getProjectRoot lw = (tr, Throw e)) /\
  (forall e, Request.findProjectRoot rw (Request.w_cwd rw) = Throw e ->
   exists tr e', Localize.getProjectRoot lw = (tr, Throw e')).
Proof.
  intros [Hcwd Hcfg]. unfold Localize.getProjectRoot. rewrite Hcwd.
  pose proof (searches_from lw rw (Request.w_cwd rw) Hcfg) as H.
  repeat split.
  - intros tr root Hl.
    destruct (Request.findProjectRoot rw (Request.w_cwd rw)) as [[|r root']|e].
    + destruct H as (tr' & e & H). congruence.
    + destruct H as (tr' & H). congruence.
    + destruct H as (tr' & e' & H). congruence.
  - intros root Hr Hne. rewrite Hr in H. destruct root; [congruence | exact H].
  - intros Hr. now rewrite Hr in H.
  - intros e Hr. now rewrite Hr in H.
Qed.

Lemma searches_agree_witness :
  Request.findProjectRoot (requestWorld [configA] notFound)
    (Request.w_cwd (requestWorld [configA] notFound)) = Ok ["proj"; "home"].
Proof.
  apply (proj1 (searches_agree
                  {| Localize.w_cwd := ["debug"; "proj"; "home"];
                     Localize.w_hasConfigs := fun dir => bool_decide (dir = ["proj"; "home"]);
                     Localize.w_templates := fun _ => None;
                     Localize.w_samples := fun _ => None;
                     Localize.w_generate := fun _ => None;
                     Localize.w_mkdir := fun _ => None;
                     Localize.w_writeFile := fun _ => None;
                     Localize.w_contentNow := noon;
                     Localize.w_templateNow := noon;
                     Localize.w_identifierNow := 0;
                     Localize.w_syntaxMessage := fun _ => "" |}
                  (requestWorld [configA] notFound)
                  (conj eq_refl
                     (fun dir => match bool_decide (dir = ["proj"; "home"]) as b
                                       return b = match (if b then Some [configA] else None)
                                                  with Some _ => true | None => false end
                                 with true => eq_refl | false => eq_refl end)))
           [Localize.EExists "/home/proj/debug/.fhir-configs";
            Localize.EExists "/home/proj/.fhir-configs"]).
  reflexivity.
Defined.

End RootFacts.

(** ** The setup server *)

Module SetupFacts.

Import Str StrFacts JSON Template ObjFacts ParseFacts InertFacts WfFacts Setup.

Section Server.

Context {S : Type}.
Variable srv : Server S.

(** *** Routing *)

Lemma caught_cors (st : S) (r : result (Outcome S)) :
  (forall o, r = Ok o -> exists hs, headers (o_response o) = cors ++ hs) ->
  exists hs, headers (o_response (caught srv st r)) = cors ++ hs.
Proof.
  intros H. destruct r as [o|e]; [now apply H |]. now eexists.
Qed.

Ltac answered :=
  repeat match goal with
         | |- context [match ?x with _ => _ end] => destruct x eqn:?; cbn [bind]
         | |- context [if ?b then _ else _] => destruct b eqn:?
         end.

(** The routes that may change the disk. *)
Definition writes (req : Request) : bool :=
  String.eqb (r_method req) "POST"
  && (String.eqb (r_url req) "/save-config" || String.eqb (r_url req) "/delete-config").

(** The routes that may end the process. *)
Definition ends (req : Request) : bool :=
  String.eqb (r_method req) "POST"
  && (String.eqb (r_url req) "/save-config" || String.eqb (r_url req) "/select-config"
      || String.eqb (r_url req) "/shutdown").

Lemma saveConfig_cases (now : string) (st : S) (text : string) :
  let o := saveConfig srv now st text in
  (exists hs, headers (o_response o) = cors ++ hs) /\
  (status (o_response o) = 200 \/ o_state o = st /\ o_exit o = None) /\
  (status (o_response o) = 200 \/ status (o_response o) = 400
   \/ status (o_response o) = 500).
Proof.
  unfold saveConfig, caught, parse_or_throw.
  destruct (JSON.parse text) as [config|]; cbn [bind].
  - destruct config;
      repeat match goal with
             | |- context [if ?b then _ else _] => destruct b
             | |- context [writeFileSync ?f ?s ?p ?t] =>
                 destruct (writeFileSync f s p t); cbn [bind]
             end;
      cbn; (split; [now eexists |]); split; auto.
  - cbn. split; [now eexists |]. split; auto.
Qed.

Lemma selectConfig_cases (st : S) (text : string) :
  let o := selectConfig srv st text in
  (exists hs, headers (o_response o) = cors ++ hs) /\
  o_state o = st /\
  (status (o_response o) = 200 \/ o_exit o = None) /\
  (status (o_response o) = 200 \/ status (o_response o) = 404
   \/ status (o_response o) = 500).
Proof.
  unfold selectConfig, caught, parse_or_throw.
  destruct (JSON.parse text) as [parsed|]; cbn [bind].
  - destruct parsed;
      repeat match goal with
             | |- context [if ?b then _ else _] => destruct b
             | |- context [readFileSync ?f ?s ?p] =>
                 destruct (readFileSync f s p); cbn [bind]
             | |- context [JSON.parse ?t] => destruct (JSON.parse t) as [[]|]; cbn [bind]
             end;
      cbn; (split; [now eexists |]); repeat split; auto.
  - cbn. split; [now eexists |]. repeat split; auto.
Qed.

Lemma deleteConfig_cases (st : S) (text : string) :
  let o := deleteConfig srv st text in
  (exists hs, headers (o_response o) = cors ++ hs) /\
  o_exit o = None /\
  (status (o_response o) = 200 \/ o_state o = st) /\
  (status (o_response o) = 200 \/ status (o_response o) = 404
   \/ status (o_response o) = 500).
Proof.
  unfold deleteConfig, caught, parse_or_throw.
  destruct (JSON.parse text) as [parsed|]; cbn [bind].
  - destruct parsed;
      repeat match goal with
             | |- context [if ?b then _ else _] => destruct b
             | |- context [unlinkSync ?f ?s ?p] =>
                 destruct (unlinkSync f s p); cbn [bind]
             end;
      cbn; (split; [now eexists |]); repeat split; auto.
  - cbn. split; [now eexists |]. repeat split; auto.
Qed.

Lemma listConfigs_cases (st : S) :
  let o := listConfigs srv st in
  (exists hs, headers (o_response o) = cors ++ hs) /\
  o_state o = st /\ o_exit o = None /\
  (status (o_response o) = 200 \/ status (o_response o) = 500).
Proof.
  unfold listConfigs, caught.
  destruct (readdirSync (fs srv) st (CONFIG_DIR srv)) as [entries|e]; cbn [bind].
  - destruct (readConfigs srv st _) as [configs|e]; cbn [bind]; cbn;
      (split; [now eexists |]); repeat split; auto.
  - cbn. split; [now eexists |]. repeat split; auto.
Qed.

(** X26.  The routes of the setup server.  Every response carries the
    three CORS headers and has status 200, 400, 404 or 500.  A request with
    the method [OPTIONS] is answered 200 with an empty body whatever its URL.
    The disk changes only on a [POST] to [/save-config] or [/delete-config]
    that is answered 200, and the end of the process is scheduled only on a
    [POST] to [/save-config], [/select-config] or [/shutdown] that is
    answered 200. *)
Theorem server_routes (now : string) (st : S) (req : Request) :
  let o := handle srv now st req in
  (exists hs, headers (o_response o) = cors ++ hs) /\
  (status (o_response o) = 200 \/ status (o_response o) = 400
   \/ status (o_response o) = 404 \/ status (o_response o) = 500) /\
  (r_method req = "OPTIONS" ->
   o = {| o_response := respond 200 [] ""; o_state := st; o_exit := None |}) /\
  (writes req = false \/ status (o_response o) <> 200 -> o_state o = st) /\
  (ends req = false \/ status (o_response o) <> 200 -> o_exit o = None).
Proof.
  unfold handle, writes, ends.
  destruct (String.eqb_spec (r_method req) "OPTIONS") as [Hm | Hm].
  { rewrite Hm. cbn. split; [now eexists |]. repeat split; auto. }
  destruct (String.eqb_spec (r_url req) "/list-configs") as [Hu | Hu].
  { rewrite Hu. cbn [String.eqb Ascii.eqb Bool.eqb andb orb].
    destruct (String.eqb_spec (r_method req) "GET") as [Hg | Hg].
    - rewrite Hg. cbn [String.eqb Ascii.eqb Bool.eqb andb orb].
      destruct (listConfigs_cases st) as (Hc & Hs & He & Hst).
      split; [assumption |]. split; [tauto |]. split; [congruence |]. tauto.
    - cbn [andb]. destruct (String.eqb (r_method req) "POST"); cbn;
        (split; [now eexists |]); repeat split; auto; try congruence. }
  cbn [andb].
  destruct (String.eqb_spec (r_method req) "POST") as [Hp | Hp].
  - rewrite ?andb_true_r.
    destruct (String.eqb_spec (r_url req) "/save-config") as [Hu1 | Hu1].
    { destruct (saveConfig_cases now st (r_body req)) as (Hc & Hs & Hst).
      split; [assumption |]. split; [tauto |]. split; [congruence |].
      cbn [andb orb]. split; intros [H | H]; try discriminate; tauto. }
    destruct (String.eqb_spec (r_url req) "/select-config") as [Hu2 | Hu2].
    { destruct (selectConfig_cases st (r_body req)) as (Hc & Hs & He & Hst).
      split; [assumption |]. split; [tauto |]. split; [congruence |].
      cbn [andb orb]. split; intros [H | H]; try discriminate; tauto. }
    destruct (String.eqb_spec (r_url req) "/delete-config") as [Hu3 | Hu3].
    { destruct (deleteConfig_cases st (r_body req)) as (Hc & He & Hs & Hst).
      split; [assumption |]. split; [tauto |]. split; [congruence |].
      cbn [andb orb]. split; intros [H | H]; try discriminate; tauto. }
    destruct (String.eqb_spec (r_url req) "/shutdown") as [Hu4 | Hu4].
    { cbn. split; [now eexists |]. split; [tauto |]. split; [congruence |].
      split; intros [H | H]; try discriminate; tauto. }
    cbn [andb orb].
    destruct (String.eqb (r_url req) "/" || prefixb "/?" (r_url req)); cbn;
      (split; [now eexists |]); repeat split; auto; congruence.
  - rewrite ?andb_false_r. cbn [andb orb].
    destruct (String.eqb (r_url req) "/" || prefixb "/?" (r_url req)); cbn;
      (split; [now eexists |]); repeat split; auto; congruence.
Qed.

End Server.

Section Server.

Context {S : Type}.
Variable srv : Server S.

(** *** Saving a configuration *)

(** The configuration as it is written: the one received, stamped. *)
Definition stamped (now : string) (config saved : json) : Prop :=
  JS.get saved "savedAt" = Some (JStr now) /\
  (forall k, k <> "savedAt" -> JS.get saved k = JS.get config k) /\
  JSON.parse (JSON.stringify saved) = Some saved.

Lemma stamp_object (now : string) (o : list (string * json)) :
  wf (JObj o) = true ->
  stamped now (JObj o) (JObj (obj_set o "savedAt" (JStr now))).
Proof.
  intros Hw. split; [apply obj_get_set_eq |]. split.
  - intros k Hk. now apply obj_get_set_ne.
  - apply parse_stringify. change (wf (JObj ?x)) with (fields_wf x) in *.
    now apply obj_set_wf.
Qed.


(** *** Saving, then selecting or deleting *)

(** What is asked of the disk: a file that has been written is there and
    reads as written; a file that has been unlinked is not there. *)
Definition write_law : Prop :=
  forall st p t st', writeFileSync (fs srv) st p t = Ok st' ->
    existsSync (fs srv) st' p = true /\ readFileSync (fs srv) st' p = Ok t.

Definition unlink_law : Prop :=
  forall st p st', unlinkSync (fs srv) st p = Ok st' -> existsSync (fs srv) st' p = false.

(** A request body that names the configuration [config] was saved under. *)
Definition names (text : string) (config : json) : Prop :=
  exists parsed, JSON.parse text = Some parsed /\ parsed <> JNull /\
                 JS.to_str (JS.get parsed "name") = JS.to_str (JS.get config "name").

Lemma saved_file (now : string) (st : S) (text : string) :
  status (o_response (saveConfig srv now st text)) = 200 ->
  exists config saved,
    JSON.parse text = Some config /\ stamped now config saved /\ saved <> JNull /\
    writeFileSync (fs srv) st (configFile srv (JS.get config "name"))
      (JSON.stringify saved) = Ok (o_state (saveConfig srv now st text)) /\
    o_exit (saveConfig srv now st text) = Some 1000.
Proof.
  unfold saveConfig, caught, parse_or_throw.
  destruct (JSON.parse text) as [config|] eqn:Hp; cbn [bind]; [| discriminate].
  pose proof (parse_wf _ _ Hp) as Hw.
  destruct config as [| | | | |o]; try discriminate.
  destruct (JS.truthy (JS.get (JObj o) "fhirBaseUrl")); cbn [negb]; [| discriminate].
  destruct (JS.truthy (JS.get (JObj o) "name")); cbn [negb]; [| discriminate].
  destruct (writeFileSync _ _ _ _) as [st'|e] eqn:Hwr; cbn [bind]; [| discriminate].
  intros _. exists (JObj o), (JObj (obj_set o "savedAt" (JStr now))).
  split; [reflexivity |]. split; [now apply stamp_object |].
  split; [discriminate |]. split; [exact Hwr | reflexivity].
Qed.


Lemma deleted_file (st : S) (text : string) :
  status (o_response (deleteConfig srv st text)) = 200 ->
  exists parsed,
    JSON.parse text = Some parsed /\ parsed <> JNull /\
    unlinkSync (fs srv) st (configFile srv (JS.get parsed "name"))
    = Ok (o_state (deleteConfig srv st text)).
Proof.
  unfold deleteConfig, caught, parse_or_throw.
  destruct (JSON.parse text) as [parsed|] eqn:Hp; cbn [bind]; [| discriminate].
  destruct parsed; try discriminate;
    (destruct (existsSync _ _ _); cbn [negb]; [| discriminate]);
    (destruct (unlinkSync _ _ _) as [st'|e] eqn:Hu; cbn [bind]; [| discriminate]);
    intros _; eexists; (split; [reflexivity |]); (split; [discriminate |]);
    exact Hu.
Qed.

Lemma missing_file (st : S) (text : string) (parsed : json) :
  JSON.parse text = Some parsed -> parsed <> JNull ->
  existsSync (fs srv) st (configFile srv (JS.get parsed "name")) = false ->
  (status (o_response (selectConfig srv st text)) = 404 /\
   o_state (selectConfig srv st text) = st) /\
  (status (o_response (deleteConfig srv st text)) = 404 /\
   o_state (deleteConfig srv st text) = st).
Proof.
  intros Hp Hne Hex. unfold selectConfig, deleteConfig, caught, parse_or_throw.
  rewrite Hp. cbn [bind]. destruct parsed; try congruence; now rewrite Hex.
Qed.

(** X29.  A configuration that has been deleted cannot be selected.  A
    request to [/delete-config] for a configuration that is not there is
    answered 404 and changes nothing.  On a disk where a file that has been
    unlinked is not there, after a delete that was answered 200 a request to
    [/select-config] or [/delete-config] with the same body is answered
    404. *)
Theorem delete_then_select (st : S) (text : string) :
  unlink_law ->
  let o := deleteConfig srv st text in
  (forall parsed, JSON.parse text = Some parsed -> parsed <> JNull ->
     existsSync (fs srv) st (configFile srv (JS.get parsed "name")) = false ->
     status (o_response o) = 404 /\ o_state o = st) /\
  (status (o_response o) = 200 ->
   status (o_response (selectConfig srv (o_state o) text)) = 404 /\
   status (o_response (deleteConfig srv (o_state o) text)) = 404).
Proof.
  intros Hlaw o. subst o. split.
  - intros parsed Hp Hne Hex. now apply (missing_file st text parsed).
  - intros H200. destruct (deleted_file st text H200) as (parsed & Hp & Hne & Hu).
    pose proof (Hlaw _ _ _ Hu) as Hgone.
    destruct (missing_file _ text parsed Hp Hne Hgone) as [[H1 _] [H2 _]].
    now split.
Qed.

End Server.

(** *** A disk in memory *)

(** Files by path, the latest first. *)
Definition memory : FileSystem (list (string * string)) :=
  {| existsSync := fun st p =>
       match Localize.assoc p st with Some _ => true | None => false end;
     readFileSync := fun st p =>
       match Localize.assoc p st with Some t => Ok t | None => Throw (ENOENT p) end;
     writeFileSync := fun st p t => Ok ((p, t) :: st);
     unlinkSync := fun st p =>
       match Localize.assoc p st with
       | Some _ => Ok (filter (fun kv => negb (String.eqb (fst kv) p)) st)
       | None => Throw (ENOENT p)
       end;
     readdirSync := fun st d =>
       Ok (map (fun kv => Str.drop (String.length d + 1) (fst kv)) st);
     join := fun d f => d +:+ "/" +:+ f |}.

Definition memoryServer : Server (list (string * string)) :=
  {| fs := memory; CONFIG_DIR := "/home/proj/.fhir-configs"; HTML_PAGE := "<html></html>";
     message := fun e => match e with
                         | Error m | TypeError m => m
                         | SyntaxError _ => "JSON Parse error"
                         | ENOENT p => "ENOENT: no such file or directory, open '" +:+ p +:+ "'"
                         end |}.

Lemma memory_write : write_law memoryServer.
Proof.
  intros st p t st' H. cbn in H. inversion H; subst. cbn.
  now rewrite String.eqb_refl.
Qed.

Lemma assoc_filter (p : string) (st : list (string * string)) :
  Localize.assoc p (filter (fun kv => negb (String.eqb (fst kv) p)) st) = None.
Proof.
  induction st as [|[k v] st IH]; [reflexivity |]. rewrite filter_cons. cbn [fst].
  destruct (String.eqb k p) eqn:E; cbn [negb].
  - rewrite decide_False by (cbn; auto). exact IH.
  - rewrite decide_True by (cbn; auto). cbn. now rewrite E.
Qed.

Lemma memory_unlink : unlink_law memoryServer.
Proof.
  intros st p st' H. cbn in H.
  destruct (Localize.assoc p st); inversion H; subst. cbn.
  now rewrite assoc_filter.
Qed.

Definition alphaBody : string :=
  q "{'name':'alpha','fhirBaseUrl':'https://a.example/fhir','mode':'open'}".



Lemma delete_then_select_witness :
  status (o_response
            (selectConfig memoryServer
               (o_state (deleteConfig memoryServer
                           [("/home/proj/.fhir-configs/alpha.json", "{}")]
                           (q "{'name':'alpha'}")))
               (q "{'name':'alpha'}")))
  = 404.
Proof.
  apply (delete_then_select memoryServer
           [("/home/proj/.fhir-configs/alpha.json", "{}")] (q "{'name':'alpha'}")
           memory_unlink).
  vm_compute. reflexivity.
Defined.

(** *** Listing the configurations *)

Lemma obj_get_fold (o acc : list (string * json)) (k : string) :
  obj_get (fold_left (fun a kv => obj_set a (fst kv) (snd kv)) o acc) k
  = match Localize.assoc k (rev o) with
    | Some v => Some v
    | None => obj_get acc k
    end.
Proof.
  revert acc. induction o as [|[k' v'] o IH] using rev_ind; intros acc; [reflexivity |].
  rewrite fold_left_app, rev_app_distr. simpl.
  destruct (String.eqb_spec k' k) as [-> | Hne].
  - now rewrite obj_get_set_eq.
  - rewrite obj_get_set_ne by congruence. apply IH.
Qed.

Lemma assoc_app {A : Type} (k : string) (l1 l2 : list (string * A)) :
  Localize.assoc k (l1 ++ l2)
  = match Localize.assoc k l1 with
    | Some v => Some v
    | None => Localize.assoc k l2
    end.
Proof.
  induction l1 as [|[k' v'] l1 IH]; [reflexivity |]. simpl.
  now destruct (String.eqb k' k).
Qed.

Lemma assoc_obj_get (k : string) (o : list (string * json)) :
  Localize.assoc k o = obj_get o k.
Proof. induction o as [|[k' v'] o IH]; [reflexivity |]. simpl. now rewrite IH. Qed.

Lemma obj_get_notin (k : string) (o : list (string * json)) :
  existsb (String.eqb k) (map fst o) = false -> obj_get o k = None.
Proof.
  induction o as [|[k' v'] o IH]; [reflexivity |]. simpl. intros H.
  apply orb_false_iff in H as [H1 H2]. rewrite String.eqb_sym, H1. now apply IH.
Qed.

(** Among distinct keys the last binding is the only one. *)
Lemma assoc_rev (k : string) (o : list (string * json)) :
  nodup_keys (map fst o) = true -> Localize.assoc k (rev o) = obj_get o k.
Proof.
  induction o as [|[k' v'] o IH]; [reflexivity |]. simpl. intros H.
  apply andb_true_iff in H as [Hn Hd]. apply negb_true_iff in Hn.
  rewrite assoc_app, (IH Hd). simpl.
  destruct (String.eqb_spec k' k) as [-> | Hne].
  - now rewrite (obj_get_notin _ _ Hn).
  - now destruct (obj_get o k).
Qed.

Lemma indexed_keys (l : list json) (k : string) :
  obj_get (indexed l ++ [("name", JStr k)]) "name" = Some (JStr k).
Proof.
  unfold indexed.
  assert (H : forall (f : nat -> nat) (l : list json),
             obj_get (imap (fun i v => (JS.of_nat (f i), v)) l ++ [("name", JStr k)]) "name"
             = Some (JStr k)).
  { clear l. intros f l. revert f. induction l as [|x l IH]; intros f; [reflexivity |].
    cbn [imap app obj_get].
    destruct (String.eqb_spec (JS.of_nat (f 0)) "name") as [E | _].
    - pose proof (uint_digits0 (Nat.to_uint (f 0))) as Hd.
      unfold JS.of_nat in E. rewrite E in Hd. discriminate Hd.
    - apply (IH (fun i => f (S i))). }
  apply (H (fun i => i)).
Qed.

Lemma named_name (file : string) (content : json) :
  wf content = true ->
  JS.get (named file content) "name"
  = Some (match JS.get content "name" with
          | Some v => v
          | None => JStr (replaceFirst ".json" "" file)
          end).
Proof.
  intros Hw. destruct content as [| | |s|l|o]; try reflexivity.
  - cbn [named JS.get]. apply indexed_keys.
  - cbn [named JS.get]. apply indexed_keys.
  - cbn [named JS.get]. rewrite obj_get_fold.
    change (wf (JObj o)) with (fields_wf o) in Hw. unfold fields_wf in Hw.
    apply andb_true_iff in Hw as [Hn _]. rewrite (assoc_rev _ _ Hn).
    now destruct (obj_get o "name").
Qed.

Section Server.

Context {S : Type}.
Variable srv : Server S.

(** A file of the configuration directory that reads and parses. *)
Definition readable (st : S) (file : string) (content : json) : Prop :=
  exists text,
    readFileSync (fs srv) st (join (fs srv) (CONFIG_DIR srv) file) = Ok text /\
    JSON.parse text = Some content.

Lemma readConfigs_ok (st : S) (files : list string) (configs : list json) :
  readConfigs srv st files = Ok configs ->
  Forall2 (fun file cfg =>
             exists content, readable st file content /\ cfg = named file content /\
               JS.get cfg "name"
               = Some (match JS.get content "name" with
                       | Some v => v
                       | None => JStr (replaceFirst ".json" "" file)
                       end))
    files configs.
Proof.
  revert configs. induction files as [|file files IH]; intros configs H.
  - inversion H; subst. constructor.
  - cbn [readConfigs] in H.
    destruct (readFileSync _ _ _) as [text|e] eqn:Hr; cbn [bind] in H; [| discriminate].
    unfold parse_or_throw in H.
    destruct (JSON.parse text) as [content|] eqn:Hp; cbn [bind] in H; [| discriminate].
    destruct (readConfigs srv st files) as [rest|e]; cbn [bind] in H; [| discriminate].
    inversion H; subst. constructor; [| now apply IH].
    exists content. split; [now exists text |]. split; [reflexivity |].
    apply named_name. exact (parse_wf _ _ Hp).
Qed.

Lemma readConfigs_fail (st : S) (files : list string) (e : error) :
  readConfigs srv st files = Throw e ->
  exists file, file ∈ files /\ forall content, ~ readable st file content.
Proof.
  induction files as [|file files IH]; intros H; [discriminate |].
  cbn [readConfigs] in H.
  destruct (readFileSync _ _ _) as [text|e'] eqn:Hr; cbn [bind] in H.
  - unfold parse_or_throw in H.
    destruct (JSON.parse text) as [content|] eqn:Hp; cbn [bind] in H.
    + destruct (readConfigs srv st files) as [rest|e'']; cbn [bind] in H;
        [discriminate |].
      destruct (IH H) as (f & Hf & Hn). exists f. split; [now right | exact Hn].
    + exists file. split; [left |]. intros content (text' & Hr' & Hp'). congruence.
  - exists file. split; [left |]. intros content (text' & Hr' & _). congruence.
Qed.

(** X30.  Listing the configurations.  The listing never changes the disk
    and never ends the process.  It is answered 500 when the directory
    cannot be read or when one of its [.json] entries does not read as a file
    of JSON, so that one such entry hides all the others.  Otherwise it is
    answered 200 with one object for each [.json] entry, in the order of the
    directory, whose [name] is the one the file itself gives and, when it
    gives none, the file name without its first [.json]. *)
Theorem list_configs (st : S) :
  let o := listConfigs srv st in
  o_state o = st /\ o_exit o = None /\
  match readdirSync (fs srv) st (CONFIG_DIR srv) with
  | Throw _ => status (o_response o) = 500
  | Ok entries =>
      let files := filter (fun f => endsWith ".json" f = true) entries in
      (status (o_response o) = 500 /\
       exists file, file ∈ files /\ forall content, ~ readable st file content) \/
      (status (o_response o) = 200 /\
       exists configs,
         body (o_response o) = compact (JArr configs) /\
         Forall2 (fun file cfg =>
                    exists content,
                      readable st file content /\ cfg = named file content /\
                      JS.get cfg "name"
                      = Some (match JS.get content "name" with
                              | Some v => v
                              | None => JStr (replaceFirst ".json" "" file)
                              end))
           files configs)
  end.
Proof.
  unfold listConfigs, caught.
  destruct (readdirSync (fs srv) st (CONFIG_DIR srv)) as [entries|e]; cbn [bind];
    [| now cbn].
  destruct (readConfigs srv st _) as [configs|e] eqn:Hc; cbn [bind]; cbn.
  - split; [reflexivity |]. split; [reflexivity |]. right. split; [reflexivity |].
    exists configs. split; [reflexivity |]. now apply readConfigs_ok.
  - split; [reflexivity |]. split; [reflexivity |]. left. split; [reflexivity |].
    now apply (readConfigs_fail st _ e).
Qed.

End Server.

End SetupFacts.
